(* ===== verification/_CoqProject ===== *)
-Q . S2P
Prelude.v
Domain.v
Schema.v
World.v
Observability.v
Postgres.v
Sql.v
Reservations.v
Invariant.v
InvReserve.v
InvPayment.v
InvCallback.v
Fulfilment.v
InvFulfil.v
Cache.v
CacheFacts.v
Browse.v
Intake.v
IntakeFacts.v
Service.v
Workers.v
Config.v
Reconcile.v
InvWorkers.v
Http.v
Instrumentation.v
InstrumentationFacts.v
Api.v
Cli.v
Fixtures.v
System.v
Keeping.v
Calm.v
Example.v
Correctness.v
Contracts.v
Outage.v
Settlement.v
Availability.v
Delivery.v
Queues.v
Schedule.v
Edge.v
LoadGenerator.v
LoadFacts.v
CapacityStage.v
StageFacts.v
ParallelLoad.v
ParallelFacts.v
StabilitySuite.v
SuiteFacts.v
Durable.v
BoxOffice.v
Refinement.v
WellTyped.v
FixtureFacts.v
Manifests.v
ManifestFacts.v
Preflight.v
PreflightFacts.v
Contention.v
OneWinner.v
ContentionFacts.v
Drills.v
DrillFacts.v
LoadAudit.v
AuditFacts.v
OpenLoop.v
CapacityProbe.v
CapacityProbeFacts.v
SeatmapLoad.v
SeatmapFacts.v
MetricReports.v
StageRuns.v
StageRunFacts.v
Reports.v
ReportFacts.v
WalProbe.v
WalFacts.v
Telemetry.v
