(* ===== verification/Prelude.v ===== *)
(** * Flash-sale ticketing: a verification development

    The program is the backend of a flash sale of seats.  A customer holds seats of an event, checks the
    hold out into an order, and pays it; a signed callback of the payment provider books the seats or
    refunds the payment; workers publish events, issue tickets, expire holds and keep a Redis copy of the
    seat maps.  PostgreSQL is the source of truth; Redis carries an admission shield, rate windows, the seat
    maps and, in the redis-first mode, provisional holds with a stream of commands that a worker persists.
    The load tools that measure the system are modelled too.  Paths below are the repository's.

    ** How code is modelled

    The code becomes functions in a state and exception monad [M S A = S -> S * outcome A] (this file),
    one definition per function, statement by statement; [try_except], [finally] and [raise_if] are the
    control structures of the source.  A process acts on a [World.world]: the database ([Schema.db], finite
    maps from keys to rows), Redis, the Kafka topic and the trace of metric updates.  What comes from
    outside is drawn from a [World.Env]: identifiers, clocks, rows locked by others, failures of the
    pool's checkout and return, of BEGIN, of COMMIT (before or after its effect), of ROLLBACK and of Redis, and hash
    functions.  The trace keeps the metric updates and the pool's own count of the connections it has handed
    out ([Postgres.getconn], [Postgres.putconn]).  Theorems hold for every
    environment unless a named hypothesis restricts it, and each such hypothesis has a witness.  Third-party
    code (JSON and JWT codecs, HMAC, the Kafka client, the HTTP client, the shell) is a parameter.

    ** Files

    - [Domain]: [src/ticketing/domain.py], the payment decision, statuses, requests and responses.
    - [Schema], [Sql]: the tables of [migrations/] with their keys and constraints, and each SQL statement of
      the adapters.  [World]: the stores and the environment.  [Observability]: the timing wrappers of
      [observability.py].  [Postgres]: [infrastructure/postgres.py], connections and transactions.
    - [Reservations]: [infrastructure/reservations.py], bodies [reserve_tx], [persist_tx], [checkout_tx],
      [initiate_payment_tx], [callback_tx], [release_tx], [expire_tx].  [Service]: [application/], the
      [ReservationStore] port as a class with its laws and its instances for both modes.
    - [Cache], [Browse]: [infrastructure/cache.py], its Lua scripts as atomic functions of the Redis state,
      and the in-process cache of encoded bodies.  [Intake]: [infrastructure/redis_reservations.py].
    - [Fulfilment], [Workers], [Reconcile]: [src/ticketing/workers.py]; the consumer's poll and commit may raise, a
      commit before or after the offset is stored.  [Cli]: [cli.py] and the dispatch to the
      worker roles.  [Config]: [config.py].  [Http], [Instrumentation]: [http.py], admission and the
      connection table, and the life of a request.  [Api]: [api.py].
    - [Fixtures], [Manifests], [Preflight]: [scripts/prepare_capacity_fixture.py]; [export_load_manifest.py] and
      [warm_capacity_manifest.py]; [rds_preflight.py].
    - [System]: all of these as one step relation on the shared world.  A step is an API call, a turn of a
      worker, a command, or one transaction of a worker with any arguments, so transactions interleave in any order;
      the API works on the store that its settings select ([api_store]);
      steps that issue tickets assume that [uuid4] draws new identifiers ([InvFulfil.FreshFor]).
    - [LoadGenerator], [ParallelLoad], [CapacityStage], [StabilitySuite]: [scripts/http_load_generator.py],
      [parallel_cloud_load.py] (whose workers are the load generator), [unattended_capacity_stage.py] and
      [cloud_stability_suite.py].  Subprocesses, remote commands and files are calls to the surroundings,
      logged in the state; a call may raise.
    - [Contention]: [scripts/hot_seat_load.py], [contention_timing.py], [verify_contention_matrix.py] and
      [analyze_hold_contention.py].  [Drills]: [scripts/recovery_drill.py] and [cloud_failure_drill.py], which stop a service,
      check the API without it and start it again.
    - [LoadAudit]: [scripts/verify_cloud_holds.py], [verify_hot_seat.py], [capacity_queue_state.py] and
      [cloud_load_preflight.py], read-only queries over the same database.
    - [OpenLoop], [CapacityProbe], [SeatmapLoad]: the dispatch loop of the local probes, [scripts/capacity_test.py] with
      [load_test.py], and [seatmap_load.py].  [StageRuns]: [cloud_mixed_stages.py] and [private_cloud_stages.py], whose
      children are [ParallelLoad] and [LoadGenerator].
    - [MetricReports]: [scripts/summarize_capacity.py] and [summarize_seatmap_load.py].  [Reports]: the summaries of slow
      database phases, API errors, hold diagnostics, drain traces and the refresh pipeline, and the parser of the
      consumer lag.
    - [WalProbe]: [scripts/wal_path_probe.py] and [wal_pid_probe.py].  [Telemetry]: the computations of
      [generator_observe.py], [rds_wait_observe.py], [summarize_rds_waits.py], [pgbouncer_pressure_observe.py] and
      [compare_postgres_baselines.py].

    ** What is shown

    - [Invariant], [InvReserve], [InvPayment], [InvCallback], [InvFulfil], [InvWorkers]: the invariant of the
      commerce tables and its preservation by every operation and worker, whatever fails.
    - [Correctness]: in every reachable world of [System]: consistency, no double booking, orders booked as
      a whole, every collected payment ends in bookings or a refund, one ticket per booking, totals.
    - [Contracts], [Calm]: what [reserve] and [persist_reservation_command] do on every branch; that a seat owned by another
      throughout is refused; that a free seat in a calm environment is granted; idempotency; and that
      persisting a redis-first command refines [reserve].
    - [Outage]: in the postgres mode, while Redis or PostgreSQL is down a hold is answered 503 with that service's code
      and changes no row, and the same request succeeds once the service is back.
    - [Durable]: an acknowledged hold is never forgotten by any later step of any process, and a retry of
      its request returns it.
    - [BoxOffice], [Refinement]: an abstract box office, whose seats are free, held or sold and whose steps take,
      give up, sell and open seats; every step of every process is a sequence of its steps, so a sold
      seat stays sold to its order.
    - [WellTyped]: every reachable database keeps to its schema: foreign keys, UNIQUE columns and the CHECKs on the
      columns that the model has; the statements that could break a CHECK test it.
    - [Keeping]: the rules and the tactic by which the three proofs above go through the statements of a
      computation, with the stores, the consumer and the simulator treated once for any property.
    - [Settlement]: effects of callbacks, releases and expiry, exactly once, late payments refunded.
    - [CacheFacts], [IntakeFacts], [Availability]: exclusion by the shield and, while the key of the seat map
      lives, by provisional holds (and a run on which the key expires first and the hold is lost); all-or-nothing enqueue, the command state machine, seat documents that never go back, the browse cache
      against its reference; and a run on which an availability tag repeats with other content.
    - [Delivery], [Queues], [Schedule]: atomic transactions that give their connection back, exactly-once consumption, no message skipped, published
      means delivered, no refresh lost, fencing by lease tokens, isolation of failures, passes that end.
    - [InstrumentationFacts]: in every interleaving of requests, admission is exact and bounded and the gauge shows it, every request
      is logged once and answered with its own identifier, and the close counter never counts a failed send.
    - [Edge]: the webhook's authentication, the simulator's round trip, sane configurations.
    - [LoadFacts], [ParallelFacts], [StageFacts], [SuiteFacts]: gates pass only when what they claim happened; the
      seats of all ordinary holds are disjoint over all workers; stages end with their clean-up commands after any
      failure, and one that records no error saw all of them succeed; a suite
      that succeeds ran its whole matrix in every block it configured, and one that could configure none succeeds too.
    - [AuditFacts]: a passing audit establishes that every acknowledged hold of a load run is recorded, linked
      and drained and that no two overlap on a seat (the window query is pairwise disjointness);
      acknowledged holds never count as broken; the preflight and the queue state mean what they say.
    - [FixtureFacts], [ManifestFacts]: a fixture is added as a whole or not at all; its manifest sends a load only to
      seats that exist, are free and are on sale from then until the sale ends, when the fixture has the 300 seats the manifest assumes;
      warming passes exactly when every show was served.
    - [PreflightFacts]: [migrate] is atomic, checked and idempotent, a migrated database passes the preflight's
      comparison, and a preflight that passes means a fit target.
    - [OneWinner]: in the postgres mode, when the API handles the holds of a wave of customers for one seat, in any order and whatever fails, at
      most one of them wins, and the hot-seat tool counts at most one.  [ContentionFacts]: the workers of a wave share
      out its contenders, an accepted wave has one winner and accounts for everyone, an analysis joins
      every client row with its own request.  [DrillFacts]: a drill starts every service it stopped, whatever fails, and its
      waits end.
    - [CapacityProbeFacts], [SeatmapFacts]: a probe accounts for every scheduled journey, a run that succeeds means what
      it claims of the database, its drain ends; the holds of a read-heavy probe are for distinct seats and its
      gate is sound.  [StageRunFacts]: a staircase selects the highest rate that passed, below every one that failed,
      and stages at different offsets keep to different seats.
    - [MetricReports], [ReportFacts]: a reported bucket bound is the least that covers 95% of the observations, while
      the seat-map report adds up cumulative buckets and never shows one; summaries count every line,
      keep the last events and the slowest twenty holds, and report a drain only from the peak to a later zero.
    - [WalFacts]: a commit probe that succeeds committed every insert once and dropped its table, and what is left
      behind when it fails.  [Telemetry]: processor shares are percentages, session counts add up, the summary of waits
      keeps the worst twenty anomalies.
    - [Example] is a concrete deployment whose run witnesses the theorems with hypotheses.

    ** Fuel

    Loops that are not structural take fuel.  [Browse.evict] removes an entry a turn, its fuel covers the size
    of the cache; [Reconcile.reconcile_pass] ends when its clock passes the deadline
    ([Schedule.reconcile_pass_ends] bounds the turns when the monotonic clock advances);
    [CapacityStage.poll] sleeps ten seconds a turn and [poll_fuel] covers its time limit
    ([StageFacts.poll_terminates]); [StabilitySuite.readiness_loop] sleeps a second a turn for at most 120 s
    and has 122 turns ([SuiteFacts.readiness_wait_ends]); the waits of [Drills] sleep in every turn
    ([DrillFacts.poll_ends], [await_paid_ends], [ready_ends]); [CapacityProbe.drain] sleeps half a second a turn and
    [drain_fuel] covers its time limit ([CapacityProbeFacts.drain_ends]).  Retries are structural in the number of attempts.

    ** Not modelled

    - Interleaving inside a transaction: transactions are atomic and serialised, and lock conflicts are the
      environment's refusals (the code takes its locks NOWAIT or SKIP LOCKED).  One SQL statement sees one
      instant.  A script's several Redis commands are one step, as in Redis.
    - Durations in histograms and log lines other than those of [Instrumentation], response headers other than its, routing,
      process set-up and signals.
    - Integer columns are unbounded: PostgreSQL's errors beyond 32 and 64 bits are left out (the versions, generations
      and counters grow by one per update, and amounts are sums of a few seat prices).
    - Digests are opaque: two documents have one tag only if the hash makes it so; strings are byte strings.
    - In the load generator, requests in flight together take effect when they complete; arrival times are
      exact rationals; redaction and float formatting are parameters.  The capacity stage and the suite do
      not build the text of every command of their children.
    - In the contention tools, distributions of timings and the CPU and event-loop lag figures.
    - The figures sampled by the observers of the probes, and fields that a report copies from its input.  Values of
      scraped metrics are integers in one unit; numbers of log lines are finite.
    - Migrations that add indexes or tables no Python code uses, the remaining scripts (benchmarks of single
      operations, sampling loops over operating-system and container counters, timing wrappers, two reports of means
      and percentiles), the copies of the load generator kept under [docs/], tests and docs. *)

From stdpp Require Export base tactics option list list_monad gmap strings sorting numbers fin_maps.
From stdpp Require Export relations.

#[global] Open Scope Z_scope.
#[global] Open Scope stdpp_scope.

(** ** Identifiers and instants

    A [uuid] is an opaque identifier (uuid4, or a UUID path parameter); its textual form is
    canonical, so the code's [str(id)] conversions are the identity here.  Instants are microseconds
    since the epoch, the resolution of [timestamptz] and of [datetime]. *)
Abbreviation uuid := positive (only parsing).

Definition us_per_second : Z := 1000000.
Definition us_per_ms : Z := 1000.
Definition seconds (n : Z) : Z := n * us_per_second.
Definition milliseconds (n : Z) : Z := n * us_per_ms.

(** ** Exceptions as values *)

(** Everything the program raises or lets escape from a driver.  [DbError] carries the SQLSTATE. *)
Inductive exn : Type :=
| Failure (code : string) (status : Z)
| DbError (sqlstate : string)
| PoolTimeout
| TooManyRequests
| OperationalError
| RedisError
| PyError (type : string) (message : string).

#[global] Instance exn_eq_dec : EqDecision exn.
Proof. solve_decision. Defined.

Definition LockNotAvailable : exn := DbError "55P03".
Definition DeadlockDetected : exn := DbError "40P01".
Definition QueryCanceled : exn := DbError "57014".
Definition UniqueViolation : exn := DbError "23505".
Definition ForeignKeyViolation : exn := DbError "23503".
Definition CheckViolation : exn := DbError "23514".
Definition UntranslatableCharacter : exn := DbError "22P05".

Inductive outcome (A : Type) : Type :=
| Ok (a : A)
| Raise (e : exn).
Arguments Ok {A} a.
Arguments Raise {A} e.

#[global] Instance outcome_eq_dec {A} `{EqDecision A} : EqDecision (outcome A).
Proof. solve_decision. Defined.

(** ** The state and exception monad

    A computation takes a state to a state and a result; an exception keeps the state reached, so a
    rollback is something the caller writes (see [World.transaction]). *)
Definition M (S A : Type) : Type := S -> S * outcome A.

#[global] Instance M_ret {S} : MRet (M S) := fun A a s => (s, Ok a).

#[global] Instance M_bind {S} : MBind (M S) := fun A B f m s =>
  match m s with
  | (s', Ok a) => f a s'
  | (s', Raise e) => (s', Raise e)
  end.

Section combinators.
Context {S : Type}.
Implicit Types (s : S).

Definition raise {A} (e : exn) : M S A := fun s => (s, Raise e).
Definition gets {A} (f : S -> A) : M S A := fun s => (s, Ok (f s)).
Definition modify (f : S -> S) : M S unit := fun s => (f s, Ok tt).
Definition raise_if (b : bool) (e : exn) : M S unit :=
  if b then raise e else mret tt.

(** [try: m except: h] *)
Definition try_except {A} (m : M S A) (h : exn -> M S A) : M S A := fun s =>
  match m s with
  | (s', Ok a) => (s', Ok a)
  | (s', Raise e) => h e s'
  end.

(** [try: m finally: f] : an exception of [f] replaces the outcome of [m]. *)
Definition finally {A} (m : M S A) (f : M S unit) : M S A := fun s =>
  let '(s1, r) := m s in
  match f s1 with
  | (s2, Ok _) => (s2, r)
  | (s2, Raise e) => (s2, Raise e)
  end.

(** [for x in l: f(x)] *)
Fixpoint for_each {X} (l : list X) (f : X -> M S unit) : M S unit :=
  match l with
  | [] => mret tt
  | x :: l' => _ ← f x; for_each l' f
  end.

(** Value of the first pair whose key matches, for a [SELECT ... fetchone()] that may be [None]. *)
Definition or_raise {A} (o : option A) (e : exn) : M S A :=
  match o with
  | Some a => mret a
  | None => raise e
  end.
End combinators.

(** ** Weakest preconditions

    [wpx m Q E s]: from [s], if [m] returns then [Q] holds of the value and the state, and if it
    raises then [E] holds of the exception and the state.  [wp m Q s] constrains normal returns
    only, which is what a transaction that rolls back on an exception needs. *)
Definition wpx {S A} (m : M S A) (Q : A -> S -> Prop) (E : exn -> S -> Prop) (s : S) : Prop :=
  match m s with
  | (s', Ok a) => Q a s'
  | (s', Raise e) => E e s'
  end.

Definition wp {S A} (m : M S A) (Q : A -> S -> Prop) (s : S) : Prop :=
  wpx m Q (fun _ _ => True) s.

Section wp_rules.
Context {S : Type}.
Implicit Types (s : S).

Lemma wpx_bind {A B} (m : M S A) (f : A -> M S B) Q E s :
  wpx m (fun a => wpx (f a) Q E) E s -> wpx (m ≫= f) Q E s.
Proof. unfold wpx, mbind, M_bind. by destruct (m s) as [s' [a|e]]. Qed.

Lemma wpx_ret {A} (a : A) (Q : A -> S -> Prop) E s : Q a s -> wpx (mret a) Q E s.
Proof. done. Qed.

Lemma wpx_mono {A} (m : M S A) (Q Q' : A -> S -> Prop) (E E' : exn -> S -> Prop) s :
  wpx m Q E s -> (forall a s', Q a s' -> Q' a s') -> (forall e s', E e s' -> E' e s') ->
  wpx m Q' E' s.
Proof. unfold wpx. destruct (m s) as [s' [a|e]]; eauto. Qed.

Lemma wpx_run {A} (m : M S A) Q E s s' r :
  wpx m Q E s -> m s = (s', r) ->
  match r with Ok a => Q a s' | Raise e => E e s' end.
Proof. unfold wpx. intros H Hr. rewrite Hr in H. by destruct r. Qed.

Lemma wp_bind {A B} (m : M S A) (f : A -> M S B) Q s :
  wp m (fun a => wp (f a) Q) s -> wp (m ≫= f) Q s.
Proof. apply wpx_bind. Qed.

Lemma wp_ret {A} (a : A) (Q : A -> S -> Prop) s : Q a s -> wp (mret a) Q s.
Proof. done. Qed.

Lemma wp_raise {A} e (Q : A -> S -> Prop) s : wp (raise e) Q s.
Proof. done. Qed.

Lemma wp_gets {A} (f : S -> A) (Q : A -> S -> Prop) s : Q (f s) s -> wp (gets f) Q s.
Proof. done. Qed.

Lemma wp_modify (f : S -> S) (Q : unit -> S -> Prop) s : Q tt (f s) -> wp (modify f) Q s.
Proof. done. Qed.

Lemma wp_raise_if b e (Q : unit -> S -> Prop) s :
  (b = false -> Q tt s) -> wp (raise_if b e) Q s.
Proof. destruct b; [done|]. intros H. by apply H. Qed.

Lemma wp_or_raise {A} (o : option A) e (Q : A -> S -> Prop) s :
  (forall a, o = Some a -> Q a s) -> wp (or_raise o e) Q s.
Proof. destruct o; [|done]. intros H. by apply H. Qed.

Lemma wp_mono {A} (m : M S A) (Q Q' : A -> S -> Prop) s :
  wp m Q s -> (forall a s', Q a s' -> Q' a s') -> wp m Q' s.
Proof. intros H HQ. eapply wpx_mono; eauto. Qed.

Lemma wp_and {A} (m : M S A) (Q1 Q2 : A -> S -> Prop) s :
  wp m Q1 s -> wp m Q2 s -> wp m (fun a s' => Q1 a s' /\ Q2 a s') s.
Proof. unfold wp, wpx. destruct (m s) as [s' [a|e]]; auto. Qed.

Lemma wp_run {A} (m : M S A) Q s s' a : wp m Q s -> m s = (s', Ok a) -> Q a s'.
Proof. intros H Hr. by eapply (wpx_run _ _ _ _ _ _ H) in Hr. Qed.

(** A loop keeps what every iteration keeps. *)
Lemma wp_for_each {X} (P : S -> Prop) (l : list X) (f : X -> M S unit) s :
  (forall x s, x ∈ l -> P s -> wp (f x) (fun _ => P) s) ->
  P s -> wp (for_each l f) (fun _ => P) s.
Proof.
  revert s. induction l as [|x l IH]; intros s Hf Hs; [done|].
  apply wp_bind. eapply wp_mono; [apply Hf; [apply list_elem_of_here|done]|].
  intros [] s' Hs'. apply IH; [|done].
  intros y s'' Hy. apply Hf. by apply list_elem_of_further.
Qed.

(** The same with an invariant indexed by the part of the list already processed. *)
Lemma wp_for_each_prefix {X} (P : list X -> S -> Prop) (l : list X) (f : X -> M S unit) s :
  (forall pre x rest s,
     l = pre ++ x :: rest -> P pre s -> wp (f x) (fun _ => P (pre ++ [x])) s) ->
  P [] s -> wp (for_each l f) (fun _ => P l) s.
Proof.
  cut (forall todo pre s,
    (forall pre' x rest s, pre ++ todo = pre' ++ x :: rest -> P pre' s ->
       wp (f x) (fun _ => P (pre' ++ [x])) s) ->
    P pre s -> wp (for_each todo f) (fun _ => P (pre ++ todo)) s).
  { intros H Hf HP. by apply (H l [] s). }
  clear. induction todo as [|x todo IH]; intros pre s Hf Hs.
  - by rewrite app_nil_r.
  - apply wp_bind. eapply wp_mono; [by eapply Hf|].
    intros [] s' Hs'. cbv beta in Hs'. rewrite cons_middle, app_assoc. apply IH; [|done].
    intros pre' y rest s'' Heq. apply (Hf pre' y rest). by rewrite cons_middle, app_assoc.
Qed.

Lemma wp_try_except {A} (m : M S A) h (Q : A -> S -> Prop) s :
  wpx m Q (fun e => wp (h e) Q) s -> wp (try_except m h) Q s.
Proof. unfold wp, wpx, try_except. destruct (m s) as [s' [a|e]]; auto. Qed.
End wp_rules.

(** Running a bind when the first computation is known. *)
Lemma bind_ok {S A B} (m : M S A) (f : A -> M S B) s s' a :
  m s = (s', Ok a) -> (m ≫= f) s = f a s'.
Proof. unfold mbind, M_bind. by intros ->. Qed.

Lemma bind_raise {S A B} (m : M S A) (f : A -> M S B) s s' e :
  m s = (s', Raise e) -> (m ≫= f) s = (s', Raise e).
Proof. unfold mbind, M_bind. by intros ->. Qed.

Lemma bind_inv_ok {S A B} (m : M S A) (f : A -> M S B) s s' b :
  (m ≫= f) s = (s', Ok b) -> exists a s1, m s = (s1, Ok a) /\ f a s1 = (s', Ok b).
Proof. unfold mbind, M_bind. destruct (m s) as [s1 [a|e]]; [eauto|done]. Qed.

Create HintDb wp discriminated.
Create HintDb inv discriminated.
#[export] Hint Resolve wp_ret wp_raise wp_gets wp_modify : wp.

(** One symbolic step of a [wp] goal. *)
Ltac wp_step :=
  lazymatch goal with
  | |- wp (_ ≫= _) _ _ => apply wp_bind
  | |- wp (mret _) _ _ => apply wp_ret
  | |- wp (raise _) _ _ => apply wp_raise
  | |- wp (gets _) _ _ => apply wp_gets
  | |- wp (modify _) _ _ => apply wp_modify
  | |- wp (raise_if _ _) _ _ => apply wp_raise_if; intros ?
  | |- wp (or_raise _ _) _ _ => apply wp_or_raise; intros ? ?
  | |- wp (match ?x with _ => _ end) _ _ => destruct x eqn:?
  | |- wp (let _ := _ in _) _ _ => cbv zeta
  end.
Ltac wp_steps := repeat (wp_step; cbv beta; simpl).

(** Split conjunctions of booleans in hypotheses into propositions. *)
Ltac bool_hyps :=
  repeat match goal with
  | H : (_ && _) = true |- _ => apply andb_true_iff in H as [? ?]
  | H : (_ || _) = false |- _ => apply orb_false_iff in H as [? ?]
  | H : negb _ = true |- _ => apply negb_true_iff in H
  | H : negb _ = false |- _ => apply negb_false_iff in H
  | H : (_ <=? _) = true |- _ => apply Z.leb_le in H
  | H : (_ <=? _) = false |- _ => apply Z.leb_gt in H
  | H : (_ <? _) = true |- _ => apply Z.ltb_lt in H
  | H : (_ <? _) = false |- _ => apply Z.ltb_ge in H
  | H : (_ =? _) = true |- _ => apply Z.eqb_eq in H
  | H : (_ =? _) = false |- _ => apply Z.eqb_neq in H
  | H : bool_decide _ = true |- _ => apply bool_decide_eq_true in H
  | H : bool_decide _ = false |- _ => apply bool_decide_eq_false in H
  end.

(** ** Lists *)

Lemma length_omap_le {A B} (f : A -> option B) (l : list A) : (length (omap f l) <= length l)%nat.
Proof. induction l as [|x l IH]; csimpl; [lia|]. destruct (f x); csimpl; lia. Qed.

(** A partial map that loses no element is total on the list. *)
Lemma length_omap_all {A B} (f : A -> option B) (l : list A) :
  length (omap f l) = length l -> forall x, x ∈ l -> is_Some (f x).
Proof.
  induction l as [|y l IH]; csimpl; intros Hlen x Hx; [by apply not_elem_of_nil in Hx|].
  pose proof (length_omap_le f l). destruct (f y) as [b|] eqn:Hy; csimpl in Hlen; [|lia].
  apply elem_of_cons in Hx as [->|Hx]; [by exists b|]. apply IH; [lia|done].
Qed.

Lemma length_remove_dups_le {A} `{EqDecision A} (l : list A) : (length (remove_dups l) <= length l)%nat.
Proof. induction l as [|x l IH]; simpl; [done|]. case_decide; simpl; lia. Qed.

Lemma filter_all {A} (P : A -> Prop) `{forall x, Decision (P x)} (l : list A) : (forall x, P x) -> filter P l = l.
Proof. intros HP. induction l as [|x l IH]; [done|]. rewrite filter_cons_True by done. by f_equal. Qed.
