(* ===== verification/Domain.v ===== *)
(** * Domain decisions and wire types

    [src/ticketing/domain.py]: the pure payment decision, and the vocabulary of statuses, requests
    and responses the application layer and the adapters exchange.  Statuses are the values the
    CHECK constraints of [migrations/001_initial.sql] allow. *)

From S2P Require Import Prelude.

(** ** Status vocabularies *)

Inductive order_status : Type :=
| O_PENDING | O_FAILED | O_EXPIRED | O_REFUND_PENDING | O_REFUNDED | O_PAID | O_FULFILLED.

Inductive hold_status : Type := H_ACTIVE | H_RELEASED | H_EXPIRED | H_CONSUMED.

Inductive payment_status : Type := P_PENDING | P_FAILED | P_SUCCEEDED.

(** [Literal["SUCCEEDED", "FAILED"]] of the payment endpoints. *)
Inductive pay_outcome : Type := SUCCEEDED | FAILED.

Inductive decision : Type := BOOK | REFUND | FAIL | UNCHANGED.

Inductive refund_status : Type := R_PENDING | R_REFUNDED.

#[global] Instance order_status_eq_dec : EqDecision order_status.
Proof. solve_decision. Defined.
#[global] Instance hold_status_eq_dec : EqDecision hold_status.
Proof. solve_decision. Defined.
#[global] Instance payment_status_eq_dec : EqDecision payment_status.
Proof. solve_decision. Defined.
#[global] Instance pay_outcome_eq_dec : EqDecision pay_outcome.
Proof. solve_decision. Defined.
#[global] Instance decision_eq_dec : EqDecision decision.
Proof. solve_decision. Defined.
#[global] Instance refund_status_eq_dec : EqDecision refund_status.
Proof. solve_decision. Defined.

(** [order_status in {"PAID", "FULFILLED"}] *)
Definition is_booked (s : order_status) : bool :=
  match s with O_PAID | O_FULFILLED => true | _ => false end.

(** [payment_decision]: [FAIL] is the string ["FAILED"] as a decision. *)
Definition payment_decision (st : order_status) (valid_hold : bool) (outcome : pay_outcome) : decision :=
  if is_booked st then UNCHANGED
  else match outcome with
       | FAILED => if bool_decide (st = O_PENDING) then FAIL else UNCHANGED
       | SUCCEEDED => if bool_decide (st = O_PENDING) && valid_hold then BOOK else REFUND
       end.

(** [decision.lower()] *)
Definition decision_lower (d : decision) : string :=
  match d with
  | BOOK => "book" | REFUND => "refund" | FAIL => "failed" | UNCHANGED => "unchanged"
  end.

(** [payload["outcome"]] written to [payment_attempts.status]. *)
Definition outcome_status (o : pay_outcome) : payment_status :=
  match o with SUCCEEDED => P_SUCCEEDED | FAILED => P_FAILED end.

(** ** Requests, payloads and responses *)

(** Body of [POST /v1/webhooks/payments] after validation. *)
Record callback_payload : Type := Callback {
  cb_callback_id : uuid;
  cb_payment_id : uuid;
  cb_order_id : uuid;
  cb_amount : Z;
  cb_currency : string;
  cb_outcome : pay_outcome;
}.

(** What [digest] is applied to: the JSON documents the code hashes. *)
Inductive request : Type :=
| ReqHold (event_id : uuid) (seats : list string)
| ReqOrder (hold_id : uuid)
| ReqPayment (order_id : uuid) (outcome : pay_outcome) (delay_seconds duplicates : Z)
| ReqCallback (payload : callback_payload).

#[global] Instance callback_payload_eq_dec : EqDecision callback_payload.
Proof. solve_decision. Defined.
#[global] Instance request_eq_dec : EqDecision request.
Proof. solve_decision. Defined.

(** [persistence_status] of a Redis-first command. *)
Inductive persistence : Type := PS_PENDING | PS_DURABLE | PS_FAILED.

#[global] Instance persistence_eq_dec : EqDecision persistence.
Proof. solve_decision. Defined.

(** The hold document.  The optional fields are the keys only the Redis-first path adds. *)
Record hold_doc : Type := HoldDoc {
  hd_hold_id : uuid;
  hd_order_id : uuid;
  hd_expires_at : Z;
  hd_total : Z;
  hd_currency : string;
  hd_seats : list string;
  hd_command_id : option uuid;
  hd_expires_at_epoch : option Z;
  hd_persistence : option persistence;
  hd_error_code : option string;
}.

Inductive response : Type :=
| RHold (doc : hold_doc)
| ROrder (order_id : uuid) (status : order_status) (total : Z) (currency : string)
| RPayment (payment_id order_id : uuid).

#[global] Instance hold_doc_eq_dec : EqDecision hold_doc.
Proof. solve_decision. Defined.
#[global] Instance response_eq_dec : EqDecision response.
Proof. solve_decision. Defined.

(** Payload of a Redis-first command, written by the intake and read by the writer. *)
Record command_payload : Type := Command {
  cp_command_id : uuid;
  cp_actor : string;
  cp_idempotency_key : string;
  cp_request_hash : string;
  cp_event_id : uuid;
  cp_seat_ids : list string;
  cp_hold_id : uuid;
  cp_order_id : uuid;
  cp_expires_at : Z;
}.

#[global] Instance command_payload_eq_dec : EqDecision command_payload.
Proof. solve_decision. Defined.

(** ** Sorting of seat identifiers

    [sorted(set(ids))]: the sort makes the enumeration order of the set irrelevant. *)
Definition sorted_seats (ids : list string) : list string := merge_sort String.le ids.
Definition set_of (ids : list string) : list string := remove_dups ids.

Lemma sorted_seats_perm ids : sorted_seats ids ≡ₚ ids.
Proof. apply merge_sort_Permutation. Qed.

Lemma sorted_seats_length ids : length (sorted_seats ids) = length ids.
Proof. by rewrite sorted_seats_perm. Qed.

Lemma elem_of_sorted_seats x ids : x ∈ sorted_seats ids <-> x ∈ ids.
Proof. by rewrite sorted_seats_perm. Qed.

Lemma sorted_seats_NoDup ids : NoDup ids -> NoDup (sorted_seats ids).
Proof. by rewrite sorted_seats_perm. Qed.

Lemma sorted_seats_idem ids : sorted_seats (sorted_seats ids) = sorted_seats ids.
Proof.
  apply (Sorted_unique String.le); try apply (Sorted_merge_sort _).
  rewrite sorted_seats_perm. done.
Qed.

Lemma sorted_seats_ext ids ids' : ids ≡ₚ ids' -> sorted_seats ids = sorted_seats ids'.
Proof.
  intros Hp. apply (Sorted_unique String.le); try apply (Sorted_merge_sort _).
  by rewrite !sorted_seats_perm.
Qed.

Lemma set_of_NoDup ids : NoDup ids -> set_of ids = ids.
Proof. unfold set_of. induction 1; simpl; [done|]. case_decide; [done|]. by f_equal. Qed.

Lemma set_of_length_le ids : (length (set_of ids) <= length ids)%nat.
Proof. apply length_remove_dups_le. Qed.

Lemma set_of_length ids : length (set_of ids) = length ids -> NoDup ids.
Proof.
  unfold set_of. induction ids as [|x l IH]; simpl; intros H; [constructor|].
  pose proof (length_remove_dups_le l). case_decide; simpl in H; [lia|].
  constructor; [done|]. apply IH. lia.
Qed.
