(* ===== verification/Schema.v ===== *)
(** * The PostgreSQL schema

    The tables of [migrations/001_initial.sql] .. [010_orders_event_index.sql] as finite maps from
    primary keys to rows, the row types as records, and the constraints the statements of the
    adapters run into: primary keys, the UNIQUE columns, foreign keys and CHECKs.  An [INSERT] or
    [UPDATE] that would break one of them raises the driver error with its SQLSTATE. *)

From S2P Require Import Prelude Domain.

(** ** Rows *)

Record event_row : Type := EventRow {
  ev_title : string;
  ev_currency : string;
  ev_sale_starts : Z;
  ev_sale_ends : Z;
}.

Record hold_row : Type := HoldRow {
  h_actor : string;
  h_event_id : uuid;
  h_expires_at : Z;
  h_status : hold_status;
}.

Record order_row : Type := OrderRow {
  o_actor : string;
  o_hold_id : uuid;
  o_event_id : uuid;
  o_total : Z;
  o_currency : string;
  o_status : order_status;
}.

Record seat_row : Type := SeatRow {
  s_price : Z;
  s_hold_id : option uuid;
  s_reserved_until : option Z;
  s_booked_order_id : option uuid;
  s_version : Z;
}.

(** Key: [(order_id, seat_id)]. *)
Record item_row : Type := ItemRow { i_event_id : uuid; i_price : Z }.

Record booking_row : Type := BookingRow {
  b_event_id : uuid;
  b_seat_id : string;
  b_order_id : uuid;
}.

(** Key: [(actor, operation, key)]. *)
Record idem_row : Type := IdemRow { id_request_hash : string; id_response : option response }.

Record payment_row : Type := PaymentRow {
  p_order_id : uuid;
  p_status : payment_status;
  p_outcome : pay_outcome;
  p_due_at : Z;
  p_deliveries : Z;
  p_target_deliveries : Z;
  p_lease_until : option Z;
  p_lease_token : option uuid;
}.

Record callback_row : Type := CallbackRow { c_payment_id : uuid; c_payload_hash : string }.

(** Key: [payment_id]. *)
Record refund_row : Type := RefundRow { r_order_id : uuid; r_status : refund_status }.

(** [event_type] with its [payload]; [EvOther] stands for a type no consumer knows. *)
Inductive event_body : Type :=
| EvSeatsChanged (event_id : uuid) (seats : option (list string))
| EvOrderPaid (order_id : uuid)
| EvRefundRequested (payment_id order_id : uuid)
| EvTicketsIssued (order_id : uuid)
| EvOther (kind : string).

#[global] Instance event_body_eq_dec : EqDecision event_body.
Proof. solve_decision. Defined.

Record outbox_row : Type := OutboxRow {
  ob_aggregate_id : uuid;
  ob_body : event_body;
  ob_correlation_id : option uuid;
  ob_schema_version : Z;
  ob_occurred_at : Z;
  ob_published_at : option Z;
  ob_lease_until : option Z;
  ob_lease_token : option uuid;
}.

Record ticket_row : Type := TicketRow { t_booking_id : uuid; t_issued_at : Z }.

Record dead_letter_row : Type := DeadLetterRow { dl_raw : string; dl_error : string }.

(** Key: [event_id]. *)
Record refresh_row : Type := RefreshRow {
  rq_generation : Z;
  rq_completed_generation : Z;
  rq_requested_at : Z;
  rq_next_attempt_at : Z;
  rq_lease_until : option Z;
  rq_lease_token : option uuid;
  rq_seat_ids : option (list string);
}.

(** Key: [event_id]. *)
Record reconcile_row : Type := ReconcileRow {
  rc_next_due_at : Z;
  rc_last_reconciled_at : option Z;
  rc_consecutive_failures : Z;
  rc_lease_until : option Z;
  rc_lease_token : option uuid;
  rc_claimed_at : option Z;
}.

(** Key: [command_id]. *)
Record command_row : Type := CommandRow {
  rcmd_actor : string;
  rcmd_idempotency_key : string;
  rcmd_request_hash : string;
  rcmd_event_id : uuid;
  rcmd_hold_id : uuid;
  rcmd_order_id : uuid;
  rcmd_response : response;
}.

(** ** The database *)

Record db : Type := Db {
  events : gmap uuid event_row;
  holds : gmap uuid hold_row;
  orders : gmap uuid order_row;
  event_seats : gmap (uuid * string) seat_row;
  order_items : gmap (uuid * string) item_row;
  bookings : gmap uuid booking_row;
  idempotency_records : gmap (string * string * string) idem_row;
  payment_attempts : gmap uuid payment_row;
  payment_callbacks : gmap uuid callback_row;
  refund_requests : gmap uuid refund_row;
  outbox_events : gmap uuid outbox_row;
  consumer_inbox : gset uuid;
  tickets : gmap uuid ticket_row;
  dead_letters : gmap uuid dead_letter_row;
  seat_refresh_requests : gmap uuid refresh_row;
  event_reconciliation : gmap uuid reconcile_row;
  reservation_commands : gmap uuid command_row;
  schema_migrations : gmap string string;
}.

(** Column-wise setters, one per table. *)
Definition set_events (f : gmap uuid event_row -> gmap uuid event_row) (d : db) : db :=
  Db (f (d.(events))) d.(holds) d.(orders) d.(event_seats) d.(order_items) d.(bookings)
    d.(idempotency_records) d.(payment_attempts) d.(payment_callbacks) d.(refund_requests)
    d.(outbox_events) d.(consumer_inbox) d.(tickets) d.(dead_letters)
    d.(seat_refresh_requests) d.(event_reconciliation) d.(reservation_commands)
    d.(schema_migrations).
Definition set_holds (f : gmap uuid hold_row -> gmap uuid hold_row) (d : db) : db :=
  Db d.(events) (f (d.(holds))) d.(orders) d.(event_seats) d.(order_items) d.(bookings)
    d.(idempotency_records) d.(payment_attempts) d.(payment_callbacks) d.(refund_requests)
    d.(outbox_events) d.(consumer_inbox) d.(tickets) d.(dead_letters)
    d.(seat_refresh_requests) d.(event_reconciliation) d.(reservation_commands)
    d.(schema_migrations).
Definition set_orders (f : gmap uuid order_row -> gmap uuid order_row) (d : db) : db :=
  Db d.(events) d.(holds) (f (d.(orders))) d.(event_seats) d.(order_items) d.(bookings)
    d.(idempotency_records) d.(payment_attempts) d.(payment_callbacks) d.(refund_requests)
    d.(outbox_events) d.(consumer_inbox) d.(tickets) d.(dead_letters)
    d.(seat_refresh_requests) d.(event_reconciliation) d.(reservation_commands)
    d.(schema_migrations).
Definition set_event_seats (f : gmap (uuid * string) seat_row -> gmap (uuid * string) seat_row) (d : db) : db :=
  Db d.(events) d.(holds) d.(orders) (f (d.(event_seats))) d.(order_items) d.(bookings)
    d.(idempotency_records) d.(payment_attempts) d.(payment_callbacks) d.(refund_requests)
    d.(outbox_events) d.(consumer_inbox) d.(tickets) d.(dead_letters)
    d.(seat_refresh_requests) d.(event_reconciliation) d.(reservation_commands)
    d.(schema_migrations).
Definition set_order_items (f : gmap (uuid * string) item_row -> gmap (uuid * string) item_row) (d : db) : db :=
  Db d.(events) d.(holds) d.(orders) d.(event_seats) (f (d.(order_items))) d.(bookings)
    d.(idempotency_records) d.(payment_attempts) d.(payment_callbacks) d.(refund_requests)
    d.(outbox_events) d.(consumer_inbox) d.(tickets) d.(dead_letters)
    d.(seat_refresh_requests) d.(event_reconciliation) d.(reservation_commands)
    d.(schema_migrations).
Definition set_bookings (f : gmap uuid booking_row -> gmap uuid booking_row) (d : db) : db :=
  Db d.(events) d.(holds) d.(orders) d.(event_seats) d.(order_items) (f (d.(bookings)))
    d.(idempotency_records) d.(payment_attempts) d.(payment_callbacks) d.(refund_requests)
    d.(outbox_events) d.(consumer_inbox) d.(tickets) d.(dead_letters)
    d.(seat_refresh_requests) d.(event_reconciliation) d.(reservation_commands)
    d.(schema_migrations).
Definition set_idempotency_records (f : gmap (string * string * string) idem_row -> gmap (string * string * string) idem_row) (d : db) : db :=
  Db d.(events) d.(holds) d.(orders) d.(event_seats) d.(order_items) d.(bookings)
    (f (d.(idempotency_records))) d.(payment_attempts) d.(payment_callbacks)
    d.(refund_requests) d.(outbox_events) d.(consumer_inbox) d.(tickets) d.(dead_letters)
    d.(seat_refresh_requests) d.(event_reconciliation) d.(reservation_commands)
    d.(schema_migrations).
Definition set_payment_attempts (f : gmap uuid payment_row -> gmap uuid payment_row) (d : db) : db :=
  Db d.(events) d.(holds) d.(orders) d.(event_seats) d.(order_items) d.(bookings)
    d.(idempotency_records) (f (d.(payment_attempts))) d.(payment_callbacks)
    d.(refund_requests) d.(outbox_events) d.(consumer_inbox) d.(tickets) d.(dead_letters)
    d.(seat_refresh_requests) d.(event_reconciliation) d.(reservation_commands)
    d.(schema_migrations).
Definition set_payment_callbacks (f : gmap uuid callback_row -> gmap uuid callback_row) (d : db) : db :=
  Db d.(events) d.(holds) d.(orders) d.(event_seats) d.(order_items) d.(bookings)
    d.(idempotency_records) d.(payment_attempts) (f (d.(payment_callbacks)))
    d.(refund_requests) d.(outbox_events) d.(consumer_inbox) d.(tickets) d.(dead_letters)
    d.(seat_refresh_requests) d.(event_reconciliation) d.(reservation_commands)
    d.(schema_migrations).
Definition set_refund_requests (f : gmap uuid refund_row -> gmap uuid refund_row) (d : db) : db :=
  Db d.(events) d.(holds) d.(orders) d.(event_seats) d.(order_items) d.(bookings)
    d.(idempotency_records) d.(payment_attempts) d.(payment_callbacks)
    (f (d.(refund_requests))) d.(outbox_events) d.(consumer_inbox) d.(tickets)
    d.(dead_letters) d.(seat_refresh_requests) d.(event_reconciliation)
    d.(reservation_commands) d.(schema_migrations).
Definition set_outbox_events (f : gmap uuid outbox_row -> gmap uuid outbox_row) (d : db) : db :=
  Db d.(events) d.(holds) d.(orders) d.(event_seats) d.(order_items) d.(bookings)
    d.(idempotency_records) d.(payment_attempts) d.(payment_callbacks) d.(refund_requests)
    (f (d.(outbox_events))) d.(consumer_inbox) d.(tickets) d.(dead_letters)
    d.(seat_refresh_requests) d.(event_reconciliation) d.(reservation_commands)
    d.(schema_migrations).
Definition set_consumer_inbox (f : gset uuid -> gset uuid) (d : db) : db :=
  Db d.(events) d.(holds) d.(orders) d.(event_seats) d.(order_items) d.(bookings)
    d.(idempotency_records) d.(payment_attempts) d.(payment_callbacks) d.(refund_requests)
    d.(outbox_events) (f (d.(consumer_inbox))) d.(tickets) d.(dead_letters)
    d.(seat_refresh_requests) d.(event_reconciliation) d.(reservation_commands)
    d.(schema_migrations).
Definition set_tickets (f : gmap uuid ticket_row -> gmap uuid ticket_row) (d : db) : db :=
  Db d.(events) d.(holds) d.(orders) d.(event_seats) d.(order_items) d.(bookings)
    d.(idempotency_records) d.(payment_attempts) d.(payment_callbacks) d.(refund_requests)
    d.(outbox_events) d.(consumer_inbox) (f (d.(tickets))) d.(dead_letters)
    d.(seat_refresh_requests) d.(event_reconciliation) d.(reservation_commands)
    d.(schema_migrations).
Definition set_dead_letters (f : gmap uuid dead_letter_row -> gmap uuid dead_letter_row) (d : db) : db :=
  Db d.(events) d.(holds) d.(orders) d.(event_seats) d.(order_items) d.(bookings)
    d.(idempotency_records) d.(payment_attempts) d.(payment_callbacks) d.(refund_requests)
    d.(outbox_events) d.(consumer_inbox) d.(tickets) (f (d.(dead_letters)))
    d.(seat_refresh_requests) d.(event_reconciliation) d.(reservation_commands)
    d.(schema_migrations).
Definition set_seat_refresh_requests (f : gmap uuid refresh_row -> gmap uuid refresh_row) (d : db) : db :=
  Db d.(events) d.(holds) d.(orders) d.(event_seats) d.(order_items) d.(bookings)
    d.(idempotency_records) d.(payment_attempts) d.(payment_callbacks) d.(refund_requests)
    d.(outbox_events) d.(consumer_inbox) d.(tickets) d.(dead_letters)
    (f (d.(seat_refresh_requests))) d.(event_reconciliation) d.(reservation_commands)
    d.(schema_migrations).
Definition set_event_reconciliation (f : gmap uuid reconcile_row -> gmap uuid reconcile_row) (d : db) : db :=
  Db d.(events) d.(holds) d.(orders) d.(event_seats) d.(order_items) d.(bookings)
    d.(idempotency_records) d.(payment_attempts) d.(payment_callbacks) d.(refund_requests)
    d.(outbox_events) d.(consumer_inbox) d.(tickets) d.(dead_letters)
    d.(seat_refresh_requests) (f (d.(event_reconciliation))) d.(reservation_commands)
    d.(schema_migrations).
Definition set_reservation_commands (f : gmap uuid command_row -> gmap uuid command_row) (d : db) : db :=
  Db d.(events) d.(holds) d.(orders) d.(event_seats) d.(order_items) d.(bookings)
    d.(idempotency_records) d.(payment_attempts) d.(payment_callbacks) d.(refund_requests)
    d.(outbox_events) d.(consumer_inbox) d.(tickets) d.(dead_letters)
    d.(seat_refresh_requests) d.(event_reconciliation) (f (d.(reservation_commands)))
    d.(schema_migrations).
Definition set_schema_migrations (f : gmap string string -> gmap string string) (d : db) : db :=
  Db d.(events) d.(holds) d.(orders) d.(event_seats) d.(order_items) d.(bookings)
    d.(idempotency_records) d.(payment_attempts) d.(payment_callbacks) d.(refund_requests)
    d.(outbox_events) d.(consumer_inbox) d.(tickets) d.(dead_letters)
    d.(seat_refresh_requests) d.(event_reconciliation) d.(reservation_commands)
    (f (d.(schema_migrations))).

Definition empty_db : db :=
  Db ∅ ∅ ∅ ∅ ∅ ∅ ∅ ∅ ∅ ∅ ∅ ∅ ∅ ∅ ∅ ∅ ∅ ∅.
