(* ===== verification/World.v ===== *)
(** * The world a process acts on

    The shared stores (PostgreSQL, Redis, the Kafka topic), the trace of metric updates, and the
    nondeterminism of the environment.  [Env] holds what the program draws from outside: [uuid4],
    [clock_timestamp()], the monotonic clock, row locks held by other transactions, failures of the pool (checking a
    connection out and giving it back), of [BEGIN], of the commit and of the rollback, Redis
    transport failures, and the hash functions.  Every draw is indexed by a counter kept in the world,
    so two draws of one run may differ in any way. *)

From S2P Require Import Prelude Domain Schema.

(** ** Redis

    One map per key family of the code ([shield:], [rate:], [seatmap:v2:], [reservation-idem:],
    [reservation-command:], [reservation-stream:], [reservation-expiry:]); the families' prefixes
    differ and the event tag has a fixed width, so keys of two families never meet. *)

Inductive seat_status : Type := AVAILABLE | HELD | SOLD.

#[global] Instance seat_status_eq_dec : EqDecision seat_status.
Proof. solve_decision. Defined.

(** A [seat:<id>] field, the JSON document of one seat. *)
Record cseat : Type := CSeat {
  cs_seat_id : string;
  cs_price : Z;
  cs_status : seat_status;
  cs_reserved_until : option Z;
  cs_reserved_until_epoch : option Z;
  cs_version : Z;
  cs_source_version : Z;
  cs_hold_id : option uuid;
}.

#[global] Instance cseat_eq_dec : EqDecision cseat.
Proof. solve_decision. Defined.

(** The layout document: seat identifiers and prices, sorted by identifier. *)
Record layout_doc : Type := LayoutDoc { ly_event_id : uuid; ly_seats : list (string * Z) }.

#[global] Instance layout_doc_eq_dec : EqDecision layout_doc.
Proof. solve_decision. Defined.

(** The hash at [seatmap:v2:{event}], with the expiry Redis keeps for the key. *)
Record seat_hash : Type := SeatHash {
  sh_version : option Z;
  sh_updating : bool;
  sh_incarnation : option uuid;
  sh_layout : option layout_doc;
  sh_layout_etag : option string;
  sh_sale_starts_epoch : option Z;
  sh_sale_ends_epoch : option Z;
  sh_currency : option string;
  sh_seats : gmap string cseat;
  sh_expires : option Z;
}.

Definition empty_hash : seat_hash :=
  SeatHash None false None None None None None None ∅ None.

Record idem_entry : Type := IdemEntry {
  ie_request_hash : string;
  ie_response : hold_doc;
  ie_expires : Z;
}.

Record command_entry : Type := CommandEntry {
  ce_status : persistence;
  ce_response : hold_doc;
  ce_payload : command_payload;
  ce_error_code : option string;
  ce_created_at_epoch : Z;
  ce_expires : Z;
}.

Record stream_msg : Type := StreamMsg {
  sm_command_id : uuid;
  sm_payload : command_payload;
  sm_response : hold_doc;
  sm_created_at_epoch : Z;
}.

(** A stream: entries oldest first, the next entry id, whether the consumer group exists, its last
    delivered id, and the pending entries (id to consumer and delivery time). *)
Record stream : Type := Stream {
  st_entries : list (Z * stream_msg);
  st_next_id : Z;
  st_group : bool;
  st_last_delivered : Z;
  st_pending : gmap Z (string * Z);
}.

Definition empty_stream : stream := Stream [] 1 false 0 ∅.

Record redis : Type := Redis {
  r_shields : gmap (uuid * string) (uuid * Z);
  r_rates : gmap string (Z * Z);
  r_seatmaps : gmap uuid seat_hash;
  r_idems : gmap (uuid * string) idem_entry;
  r_commands : gmap (uuid * uuid) command_entry;
  r_streams : gmap uuid stream;
  r_expiry : gmap uuid (gmap uuid Z);
  r_registry : gset uuid;
}.

Definition empty_redis : redis := Redis ∅ ∅ ∅ ∅ ∅ ∅ ∅ ∅.

Definition set_shields f (r : redis) : redis :=
  Redis (f r.(r_shields)) r.(r_rates) r.(r_seatmaps) r.(r_idems) r.(r_commands) r.(r_streams)
    r.(r_expiry) r.(r_registry).
Definition set_rates f (r : redis) : redis :=
  Redis r.(r_shields) (f r.(r_rates)) r.(r_seatmaps) r.(r_idems) r.(r_commands) r.(r_streams)
    r.(r_expiry) r.(r_registry).
Definition set_seatmaps f (r : redis) : redis :=
  Redis r.(r_shields) r.(r_rates) (f r.(r_seatmaps)) r.(r_idems) r.(r_commands) r.(r_streams)
    r.(r_expiry) r.(r_registry).
Definition set_idems f (r : redis) : redis :=
  Redis r.(r_shields) r.(r_rates) r.(r_seatmaps) (f r.(r_idems)) r.(r_commands) r.(r_streams)
    r.(r_expiry) r.(r_registry).
Definition set_commands f (r : redis) : redis :=
  Redis r.(r_shields) r.(r_rates) r.(r_seatmaps) r.(r_idems) (f r.(r_commands)) r.(r_streams)
    r.(r_expiry) r.(r_registry).
Definition set_streams f (r : redis) : redis :=
  Redis r.(r_shields) r.(r_rates) r.(r_seatmaps) r.(r_idems) r.(r_commands) (f r.(r_streams))
    r.(r_expiry) r.(r_registry).
Definition set_expiry f (r : redis) : redis :=
  Redis r.(r_shields) r.(r_rates) r.(r_seatmaps) r.(r_idems) r.(r_commands) r.(r_streams)
    (f r.(r_expiry)) r.(r_registry).
Definition set_registry f (r : redis) : redis :=
  Redis r.(r_shields) r.(r_rates) r.(r_seatmaps) r.(r_idems) r.(r_commands) r.(r_streams)
    r.(r_expiry) (f r.(r_registry)).

(** ** Kafka and observations *)

(** The envelope [publish_batch] sends and [consume_event] reads. *)
Record envelope : Type := Envelope {
  en_event_id : uuid;
  en_aggregate_id : uuid;
  en_body : event_body;
  en_schema_version : Z;
  en_occurred_at : Z;
}.

(** A metric update: a counter or gauge increment, or a histogram observation (counted as 1). *)
Record obs : Type := Obs { obs_metric : string; obs_labels : list string; obs_delta : Z }.

(** ** The world *)

Record world : Type := World {
  w_db : db;
  w_redis : redis;
  w_kafka : list envelope;
  w_tick : nat;
  w_obs : list obs;
  w_request_id : option uuid;
}.

Definition set_db (f : db -> db) (w : world) : world :=
  World (f w.(w_db)) w.(w_redis) w.(w_kafka) w.(w_tick) w.(w_obs) w.(w_request_id).
Definition set_redis (f : redis -> redis) (w : world) : world :=
  World w.(w_db) (f w.(w_redis)) w.(w_kafka) w.(w_tick) w.(w_obs) w.(w_request_id).
Definition set_kafka (f : list envelope -> list envelope) (w : world) : world :=
  World w.(w_db) w.(w_redis) (f w.(w_kafka)) w.(w_tick) w.(w_obs) w.(w_request_id).
Definition next_tick (w : world) : world :=
  World w.(w_db) w.(w_redis) w.(w_kafka) (S w.(w_tick)) w.(w_obs) w.(w_request_id).
Definition add_obs (o : obs) (w : world) : world :=
  World w.(w_db) w.(w_redis) w.(w_kafka) w.(w_tick) (w.(w_obs) ++ [o]) w.(w_request_id).

Abbreviation W := (M world).

(** ** Environment *)

(** Rows another transaction may hold a lock on. *)
Inductive rowlock : Type :=
| LockOrder (id : uuid)
| LockHold (id : uuid)
| LockPayment (id : uuid)
| LockSeat (event_id : uuid) (seat_id : string)
| LockIdem (actor operation key : string)
| LockOutbox (id : uuid)
| LockRefresh (event_id : uuid)
| LockReconcile (event_id : uuid).

(** Whether a call fails, and if so whether its effect happened anyway. *)
Inductive fault : Type := NoFault | FaultBefore (e : exn) | FaultAfter (e : exn).

Class Env : Type := {
  e_rng : nat -> uuid;
  e_clock : nat -> Z;
  e_mono : nat -> Z;
  e_busy : nat -> rowlock -> bool;
  e_pool : nat -> option exn;
  e_begin : nat -> option exn;
  e_commit : nat -> fault;
  e_rollback : nat -> option exn;
  e_putconn : nat -> option exn;
  e_redis : nat -> fault;
  e_digest : request -> string;
  e_sha256 : string -> string;
}.

Section primitives.
Context `{E : Env}.

(** One draw: the current index, which is then spent. *)
Definition draw : W nat := fun w => (next_tick w, Ok w.(w_tick)).

Definition uuid4 : W uuid := i ← draw; mret (e_rng i).
Definition clock_timestamp : W Z := i ← draw; mret (e_clock i).
(** [time.monotonic()] and [perf_counter()], in microseconds. *)
Definition monotonic : W Z := i ← draw; mret (e_mono i).

(** [FOR UPDATE NOWAIT] on the given rows. *)
Definition lock_nowait (rows : list rowlock) : W unit :=
  i ← draw; raise_if (existsb (e_busy i) rows) LockNotAvailable.

(** [FOR UPDATE SKIP LOCKED]: the rows that are free now. *)
Definition skip_locked {A} (lock : A -> rowlock) (rows : list A) : W (list A) :=
  i ← draw; mret (filter (fun a => negb (e_busy i (lock a))) rows).

Definition sql {A} (f : db -> A) : W A := gets (fun w => f w.(w_db)).
Definition update_db (f : db -> db) : W unit := modify (set_db f).

Definition inc (metric : string) (labels : list string) : W unit := modify (add_obs (Obs metric labels 1)).
Definition dec (metric : string) (labels : list string) : W unit := modify (add_obs (Obs metric labels (-1))).
Definition observe (metric : string) (labels : list string) : W unit := modify (add_obs (Obs metric labels 1)).

(** A Redis command or script: atomic, may fail before or after taking effect. *)
Definition redis_call {A} (f : redis -> redis * A) : W A :=
  i ← draw;
  match e_redis i with
  | NoFault => fun w => (set_redis (fun r => (f r).1) w, Ok (f w.(w_redis)).2)
  | FaultBefore _ => raise RedisError
  | FaultAfter _ => _ ← modify (set_redis (fun r => (f r).1)); raise RedisError
  end.
End primitives.

(** Sum of a metric's deltas, the value of a gauge that started at zero. *)
Definition gauge (metric : string) (l : list obs) : Z :=
  foldr (fun o n => if bool_decide (o.(obs_metric) = metric) then o.(obs_delta) + n else n) 0 l.

Lemma gauge_app m l1 l2 : gauge m (l1 ++ l2) = gauge m l1 + gauge m l2.
Proof. induction l1 as [|o l1 IH]; simpl; [done|]. rewrite IH. case_bool_decide; lia. Qed.

(** ** Weakest-precondition rules of the primitives *)

Section primitive_rules.
Context `{E : Env}.

Lemma wp_draw (Q : nat -> world -> Prop) w : Q w.(w_tick) (next_tick w) -> wp draw Q w.
Proof. done. Qed.

Lemma wp_uuid4 (Q : uuid -> world -> Prop) w : Q (e_rng w.(w_tick)) (next_tick w) -> wp uuid4 Q w.
Proof. done. Qed.

Lemma wp_clock (Q : Z -> world -> Prop) w : Q (e_clock w.(w_tick)) (next_tick w) -> wp clock_timestamp Q w.
Proof. done. Qed.

Lemma wp_monotonic (Q : Z -> world -> Prop) w : Q (e_mono w.(w_tick)) (next_tick w) -> wp monotonic Q w.
Proof. done. Qed.

Lemma wp_lock_nowait rows (Q : unit -> world -> Prop) w : Q tt (next_tick w) -> wp (lock_nowait rows) Q w.
Proof. intros H. unfold lock_nowait. apply wp_bind, wp_draw. apply wp_raise_if. done. Qed.

Lemma wp_skip_locked {A} lock (rows : list A) (Q : list A -> world -> Prop) w :
  (forall l, l ⊆ rows -> sublist l rows -> Q l (next_tick w)) -> wp (skip_locked lock rows) Q w.
Proof.
  intros H. unfold skip_locked. apply wp_bind, wp_draw, wp_ret. apply H.
  - intros x Hx. by apply list_elem_of_filter in Hx as [_ ?].
  - apply sublist_filter.
Qed.

Lemma wp_sql {A} (f : db -> A) (Q : A -> world -> Prop) w : Q (f w.(w_db)) w -> wp (sql f) Q w.
Proof. done. Qed.

Lemma wp_update_db f (Q : unit -> world -> Prop) w : Q tt (set_db f w) -> wp (update_db f) Q w.
Proof. done. Qed.

Lemma wp_inc m l (Q : unit -> world -> Prop) w : Q tt (add_obs (Obs m l 1) w) -> wp (inc m l) Q w.
Proof. done. Qed.
End primitive_rules.

(** [wp_step] extended with the primitives of the world. *)
Ltac wp_prim :=
  lazymatch goal with
  | |- wp draw _ _ => apply wp_draw
  | |- wp uuid4 _ _ => apply wp_uuid4
  | |- wp clock_timestamp _ _ => apply wp_clock
  | |- wp monotonic _ _ => apply wp_monotonic
  | |- wp (lock_nowait _) _ _ => apply wp_lock_nowait
  | |- wp (sql _) _ _ => apply wp_sql
  | |- wp (update_db _) _ _ => apply wp_update_db
  | |- wp (inc _ _) _ _ => apply wp_inc
  | |- _ => wp_step
  end.
Ltac wp_prims := repeat (wp_prim; cbv beta).
