(* ===== verification/Observability.v ===== *)
(** * Instrumentation wrappers

    [src/ticketing/observability.py]: the wrappers that time hold phases and worker operations.  They
    observe and re-raise; the theorems state that they are transparent to stores and outcomes.
    Durations and the per-request trace dictionary are not modelled, only that an observation with
    its outcome label is made. *)

From S2P Require Import Prelude Domain Schema World.

Section observability.
Context `{E : Env}.

Definition observe_hold_phase (phase outcome : string) : W unit :=
  observe "HOLD_PHASE" [phase; outcome].

(** [with hold_phase(phase): m] *)
Definition hold_phase {A} (phase : string) (m : W A) : W A := fun w =>
  match m w with
  | (w', Ok a) => (_ ← observe_hold_phase phase "ok"; mret a) w'
  | (w', Raise e) => (_ ← observe_hold_phase phase "error"; raise e) w'
  end.

(** [@measured_work(operation)] *)
Definition measured_work {A} (operation : string) (m : W A) : W A := fun w =>
  let finish (outcome : string) : W unit :=
    _ ← dec "WORK_ACTIVE" [operation];
    _ ← observe "WORK_SECONDS" [operation];
    inc "WORK_CALLS" [operation; outcome] in
  match (_ ← inc "WORK_ACTIVE" [operation]; m) w with
  | (w', Ok a) => (_ ← finish "ok"; mret a) w'
  | (w', Raise e) => (_ ← finish "error"; raise e) w'
  end.

(** A context manager: what entering returns or raises, and what exiting does with the entered value
    and the body's exception; [__exit__] swallows the exception when it returns [true]. *)
Record resource (R : Type) : Type := Resource {
  res_enter : W R;
  res_exit : R -> option exn -> W bool;
}.
Arguments Resource {R} _ _.
Arguments res_enter {R} _.
Arguments res_exit {R} _ _ _.

(** [with r as x: body(x)]; [swallowed] is what runs after an exception [__exit__] swallowed. *)
Definition with_resource {R A} (r : resource R) (body : R -> W A) (swallowed : W A) : W A :=
  x ← res_enter r;
  fun w =>
    match body x w with
    | (w1, Ok a) => (_ ← res_exit r x None; mret a) w1
    | (w1, Raise e) => (b ← res_exit r x (Some e); if (b : bool) then swallowed else raise e) w1
    end.

(** The program's context managers swallow nothing. *)
Definition within {R A} (r : resource R) (body : R -> W A) : W A :=
  with_resource r body (raise (PyError "RuntimeError" "generator didn't stop after throw()")).

Definition TimedHoldResource {R} (phase : string) (r : resource R) : resource R :=
  Resource (hold_phase (phase +:+ "_enter") (res_enter r))
           (fun x e => hold_phase (phase +:+ "_exit") (res_exit r x e)).

(** ** Transparency *)

(** Equal up to the trace of observations. *)
Definition same_but_obs (w w' : world) : Prop :=
  w.(w_db) = w'.(w_db) /\ w.(w_redis) = w'.(w_redis) /\ w.(w_kafka) = w'.(w_kafka) /\
  w.(w_tick) = w'.(w_tick) /\ w.(w_request_id) = w'.(w_request_id).

#[global] Instance same_but_obs_equiv : Equivalence same_but_obs.
Proof.
  split; [by repeat split| |]; unfold same_but_obs;
    repeat intro; destruct_and?; repeat split; congruence.
Qed.

(** [m] neither reads nor depends on the observations. *)
Definition obs_blind {A} (m : W A) : Prop :=
  forall w w', same_but_obs w w' -> same_but_obs (m w).1 (m w').1 /\ (m w).2 = (m w').2.

Lemma hold_phase_transparent {A} phase (m : W A) w :
  same_but_obs (m w).1 (hold_phase phase m w).1 /\ (hold_phase phase m w).2 = (m w).2.
Proof. unfold hold_phase. destruct (m w) as [w' [a|e]]; simpl; split; done. Qed.

Lemma measured_work_transparent {A} op (m : W A) w :
  obs_blind m ->
  same_but_obs (m w).1 (measured_work op m w).1 /\ (measured_work op m w).2 = (m w).2.
Proof.
  intros Hm. unfold measured_work, inc.
  assert (same_but_obs w (add_obs (Obs "WORK_ACTIVE" [op] 1) w)) as Hw by done.
  destruct (Hm _ _ Hw) as [Hs Ho]. unfold mbind, M_bind, modify. simpl.
  destruct (m w) as [w1 r1], (m (add_obs _ w)) as [w2 r2]; simpl in *; subst.
  destruct r2; simpl; split; auto; etrans; done.
Qed.

(** Wrapping a resource in [TimedHoldResource] changes no store and no outcome. *)
Lemma timed_resource_transparent {R A} phase (r : resource R) (body : R -> W A) swallowed w :
  (forall x, obs_blind (body x)) -> (forall x e, obs_blind (res_exit r x e)) -> obs_blind swallowed ->
  same_but_obs (with_resource r body swallowed w).1
               (with_resource (TimedHoldResource phase r) body swallowed w).1 /\
  (with_resource (TimedHoldResource phase r) body swallowed w).2 = (with_resource r body swallowed w).2.
Proof.
  intros Hb Hx Hsw. unfold with_resource, TimedHoldResource. simpl.
  unfold mbind, M_bind.
  destruct (hold_phase_transparent (phase +:+ "_enter") (res_enter r) w) as [Hs Ho].
  destruct (res_enter r w) as [w1 [x|e]], (hold_phase _ (res_enter r) w) as [w1' r1'];
    simpl in *; subst; [|done].
  destruct (Hb x w1 w1' Hs) as [Hs2 Ho2].
  destruct (body x w1) as [w2 r2], (body x w1') as [w2' r2']; simpl in *; subst.
  assert (forall e, same_but_obs (res_exit r x e w2).1 (hold_phase (phase +:+ "_exit") (res_exit r x e) w2').1 /\
    (hold_phase (phase +:+ "_exit") (res_exit r x e) w2').2 = (res_exit r x e w2).2) as Hexit.
  { intros e. destruct (Hx x e w2 w2' Hs2) as [? ?].
    destruct (hold_phase_transparent (phase +:+ "_exit") (res_exit r x e) w2') as [? ->].
    split; [by etrans|done]. }
  destruct r2' as [a|e].
  - destruct (Hexit None) as [Hs3 Ho3].
    destruct (res_exit r x None w2) as [w3 [b|e]], (hold_phase _ (res_exit r x None) w2') as [w3' r3'];
      simpl in *; subst; done.
  - destruct (Hexit (Some e)) as [Hs3 Ho3].
    destruct (res_exit r x (Some e) w2) as [w3 [b|e']], (hold_phase _ (res_exit r x (Some e)) w2') as [w3' r3'];
      simpl in *; subst; [|done].
    destruct b; [|done]. destruct (Hsw w3 w3' Hs3) as [? ->]. done.
Qed.
End observability.

Arguments Resource {R} _ _.
Arguments res_enter {R} _.
Arguments res_exit {R} _ _ _.

(** Store-invariant rule for the wrappers. *)
Lemma wp_hold_phase `{E : Env} {A} phase (m : W A) Q w :
  wp m (fun a w' => Q a (add_obs (Obs "HOLD_PHASE" [phase; "ok"] 1) w')) w ->
  wp (hold_phase phase m) Q w.
Proof. unfold wp, wpx, hold_phase. by destruct (m w) as [w' [a|e]]. Qed.
