(* ===== verification/Postgres.v ===== *)
(** * The database adapter: connections and transactions

    [src/ticketing/infrastructure/postgres.py].  [connection] checks a connection out of the pool and
    returns it on every path, keeping the acquisition and in-use gauges; [transaction] runs a body
    between [BEGIN] and [COMMIT], and rolls the database back when the body or the commit raises.
    The pool (on checkout and on return), the commit and the rollback may fail in any way the environment chooses; a commit that fails may
    have taken effect ([FaultAfter], a lost acknowledgement). *)

From S2P Require Import Prelude Domain Schema World Observability.

(** ** Query classification *)

(** ASCII and Latin-1 characters [str.isspace] accepts. *)
Definition is_space (c : Ascii.ascii) : bool :=
  let n := Ascii.N_of_ascii c in
  ((9 <=? n) && (n <=? 13) || (28 <=? n) && (n <=? 32) || (n =? 133) || (n =? 160))%N.

Definition upper_ascii (c : Ascii.ascii) : Ascii.ascii :=
  let n := Ascii.N_of_ascii c in
  if ((97 <=? n) && (n <=? 122))%N then Ascii.ascii_of_N (n - 32)%N else c.

Fixpoint lstrip (s : string) : string :=
  match s with
  | EmptyString => EmptyString
  | String c s' => if is_space c then lstrip s' else s
  end.

(** [s.split(None, 1)[0]] of a string that starts with a non-space. *)
Fixpoint first_word (s : string) : string :=
  match s with
  | EmptyString => EmptyString
  | String c s' => if is_space c then EmptyString else String c (first_word s')
  end.

Fixpoint upper (s : string) : string :=
  match s with
  | EmptyString => EmptyString
  | String c s' => String (upper_ascii c) (upper s')
  end.

Definition measured_commands : list string :=
  ["SELECT"; "INSERT"; "UPDATE"; "DELETE"; "SET"; "BEGIN"; "COMMIT"; "ROLLBACK"].

(** The label [MeasuredCursor.execute] files a query under. *)
Definition query_command (query : string) : string :=
  let command := if bool_decide (lstrip query = EmptyString) then "OTHER"
                 else upper (first_word (lstrip query)) in
  if bool_decide (command ∈ measured_commands) then command else "OTHER".

(** ** Connections and transactions *)

Definition SLOW_DB_PHASE : Z := milliseconds 100.

Section postgres.
Context `{E : Env}.

Definition record_slow_db_phase (phase : string) (duration : Z) (outcome : string) : W unit :=
  if SLOW_DB_PHASE <=? duration then inc "log:slow_db_phase" [phase; outcome] else mret tt.

Definition sample_pool : W unit :=
  for_each ["pool_size"; "pool_available"; "requests_waiting"; "pool_max"]
    (fun name => modify (add_obs (Obs "DB_POOL_STATE" [name] 0))).

(** [self.pool.getconn()]: the pool's own count of the connections it has handed out is kept in the
    trace under [pool:checked_out]. *)
Definition getconn : W unit :=
  i ← draw; match e_pool i with Some e => raise e | None => inc "pool:checked_out" [] end.

(** [self.pool.putconn(conn)]; its draw is the one the clock reading after it spends. *)
Definition putconn : W unit :=
  i ← gets w_tick; match e_putconn i with Some e => raise e | None => dec "pool:checked_out" [] end.

(** What [connection] does after the body, on a return and on an exception.  When [putconn] raises,
    the return is reported as an error and neither the hold time nor the in-use gauge is updated. *)
Definition return_connection : W unit :=
  started ← monotonic;
  let report (outcome : string) : W unit :=
    ended ← monotonic;
    _ ← observe "DB_POOL_RETURN_SECONDS" [];
    record_slow_db_phase "pool_return" (ended - started) outcome in
  _ ← try_except (_ ← putconn; report "ok") (fun e => _ ← report "error"; raise e);
  _ ← observe "DB_CONNECTION_HOLD_SECONDS" [];
  _ ← dec "DB_POOL_IN_USE" [];
  sample_pool.

(** [with self.connection() as conn], up to the [yield]. *)
Definition acquire_connection : W unit :=
  _ ← inc "DB_POOL_ACQUIRING" [];
  _ ← try_except getconn (fun e =>
        _ ← observe "DB_POOL_SECONDS" ["error"];
        _ ← dec "DB_POOL_ACQUIRING" [];
        _ ← sample_pool;
        raise e);
  _ ← observe "DB_POOL_SECONDS" ["ok"];
  _ ← dec "DB_POOL_ACQUIRING" [];
  _ ← sample_pool;
  inc "DB_POOL_IN_USE" [].

(** The label of a database error, if it is one. *)
Definition error_label (e : exn) : option string :=
  match e with
  | DbError state => Some state
  | PoolTimeout => Some "PoolTimeout"
  | TooManyRequests => Some "TooManyRequests"
  | _ => None
  end.

Definition record_error (e : exn) : W unit :=
  match error_label e with
  | Some l => inc "DB_ERRORS" [l]
  | None => mret tt
  end.

(** [conn.commit()] of the changes made since the database was [d0]. *)
Definition commit (d0 : db) : W unit :=
  i ← draw;
  match e_commit i with
  | NoFault => mret tt
  | FaultBefore e => _ ← update_db (fun _ => d0); raise e
  | FaultAfter e => raise e
  end.

Definition measured_commit (d0 : db) : W unit :=
  started ← monotonic;
  let report (outcome : string) : W unit :=
    ended ← monotonic;
    _ ← observe "DB_COMMIT_SECONDS" [];
    record_slow_db_phase "commit" (ended - started) outcome in
  try_except (_ ← commit d0; report "ok") (fun e => _ ← report "error"; raise e).

(** [conn.rollback()]: the server drops the uncommitted changes ([undo]), and the call may raise, since
    the connection it is sent on may be broken. *)
Definition rollback (undo : W unit) : W unit :=
  _ ← undo;
  i ← draw; match e_rollback i with Some e => raise e | None => mret tt end.

(** The [except] and [finally] branches for the exception [e], up to the return of the connection:
    [undo] is [conn.rollback()] when the transaction had started.  It returns when [e] itself goes on,
    and raises the exception of the rollback or of [putconn] when one replaces [e]. *)
Definition transaction_failed (undo : W unit) (e : exn) : W unit :=
  finally
    (finally
      (_ ← observe "DB_TRANSACTION_BODY_SECONDS" [];
       _ ← finally undo (observe "DB_ROLLBACK_SECONDS" []);
       record_error e)
      (observe "DB_SECONDS" []))
    return_connection.

(** [BEGIN] and the three [SET LOCAL] timeouts. *)
Definition begin : W unit :=
  i ← draw; match e_begin i with Some e => raise e | None => mret tt end.

(** Entering: the database as it is when the transaction begins is what a rollback restores. *)
Definition tx_enter : W db :=
  _ ← try_except acquire_connection (fun e => _ ← record_error e; raise e);
  _ ← try_except begin (fun e => _ ← transaction_failed (mret tt) e; raise e);
  sql (fun d => d).

(** Leaving: commit after a normal exit, roll back after an exception.  A failed commit has undone
    the changes itself or lost only the acknowledgement, and [conn.rollback()] then finds nothing to
    undo.  The exit of [with conn] itself, inside [connection], finds the connection idle or swallows
    what its own rollback raises. *)
Definition tx_exit (d0 : db) (exc : option exn) : W bool :=
  match exc with
  | Some e => _ ← transaction_failed (rollback (update_db (fun _ => d0))) e; mret false
  | None =>
      _ ← observe "DB_TRANSACTION_BODY_SECONDS" [];
      _ ← try_except (measured_commit d0) (fun e => _ ← transaction_failed (rollback (mret tt)) e; raise e);
      _ ← observe "DB_SECONDS" [];
      _ ← try_except return_connection (fun e => _ ← record_error e; raise e);
      mret false
  end.

Definition tx_resource : resource db := Resource tx_enter tx_exit.

Definition transaction {A} (body : W A) : W A := within tx_resource (fun _ => body).
End postgres.

(** ** What a transaction does to the stores *)

(** Two worlds that differ only in the draws and observations made. *)
Record same_stores (w w' : world) : Prop := SameStores {
  ss_db : w'.(w_db) = w.(w_db);
  ss_redis : w'.(w_redis) = w.(w_redis);
  ss_kafka : w'.(w_kafka) = w.(w_kafka);
  ss_request_id : w'.(w_request_id) = w.(w_request_id);
}.

#[global] Instance same_stores_preorder : PreOrder same_stores.
Proof. split; [done|]. intros ??? [] []. split; congruence. Qed.

(** A computation that never raises and changes no store. *)
Definition quiet (m : W unit) : Prop :=
  forall w, (m w).2 = Ok tt /\ same_stores w (m w).1.

Lemma quiet_ret : quiet (mret tt).
Proof. done. Qed.
Lemma quiet_obs o : quiet (modify (add_obs o)).
Proof. done. Qed.
Lemma quiet_bind (m : W unit) (f : unit -> W unit) : quiet m -> (forall u, quiet (f u)) -> quiet (m ≫= f).
Proof.
  intros Hm Hf w. destruct (Hm w) as [Ho Hs]. unfold mbind, M_bind.
  destruct (m w) as [w1 r]; simpl in *; subst. destruct (Hf tt w1) as [? Hs2].
  split; [done|]. by etrans.
Qed.
Lemma quiet_for_each {X} (l : list X) (f : X -> W unit) : (forall x, quiet (f x)) -> quiet (for_each l f).
Proof. intros Hf. induction l; [apply quiet_ret|]. apply quiet_bind; [apply Hf|done]. Qed.

Create HintDb quiet discriminated.
#[export] Hint Resolve quiet_ret quiet_obs quiet_bind quiet_for_each : quiet.

(** [m ≫= f] when [m] is quiet. *)
Lemma run_quiet {A} (m : W unit) (f : unit -> W A) w :
  quiet m -> exists w1, same_stores w w1 /\ m w = (w1, Ok tt) /\ (m ≫= f) w = f tt w1.
Proof.
  intros Hm. destruct (Hm w) as [Ho Hs]. unfold mbind, M_bind.
  destruct (m w) as [w1 r]; simpl in *; subst. by exists w1.
Qed.

Section transaction_rules.
Context `{E : Env}.

Lemma quiet_slow phase d o : quiet (record_slow_db_phase phase d o).
Proof. unfold record_slow_db_phase. destruct (_ <=? _); auto with quiet. apply quiet_obs. Qed.
Lemma quiet_sample : quiet sample_pool.
Proof. apply quiet_for_each. intros. apply quiet_obs. Qed.
Lemma quiet_record_error e : quiet (record_error e).
Proof. unfold record_error. destruct (error_label e); [apply quiet_obs|apply quiet_ret]. Qed.
Lemma quiet_monotonic (f : Z -> W unit) : (forall t, quiet (f t)) -> quiet (monotonic ≫= f).
Proof.
  intros Hf w. unfold monotonic, draw, mbind, M_bind. simpl.
  destruct (Hf (e_mono (w_tick w)) (next_tick w)) as [? Hs]. split; [done|]. etrans; [|exact Hs]. done.
Qed.

(** A computation that changes no store and raises only what [P] allows. *)
Definition silent {A} (P : exn -> Prop) (m : W A) : Prop :=
  forall w, same_stores w (m w).1 /\ forall e, (m w).2 = Raise e -> P e.

(** What a failing [rollback] or [putconn] raises. *)
Definition broken (e : exn) : Prop := exists i, e_rollback i = Some e \/ e_putconn i = Some e.

Lemma silent_quiet P (m : W unit) : quiet m -> silent P m.
Proof. intros Hm w. destruct (Hm w) as [Ho Hs]. split; [done|]. by rewrite Ho. Qed.
Lemma silent_raise {A} (P : exn -> Prop) e : P e -> silent (A := A) P (raise e).
Proof. intros HP w. split; [done|]. by intros e' [= <-]. Qed.
Lemma silent_bind {A B} P (m : W A) (f : A -> W B) : silent P m -> (forall a, silent P (f a)) -> silent P (m ≫= f).
Proof.
  intros Hm Hf w. destruct (Hm w) as [Hs Hr]. unfold mbind, M_bind. destruct (m w) as [w1 [a|e]]; simpl in *; [|by split; [|intros e' [= <-]; apply Hr]].
  destruct (Hf a w1) as [Hs2 Hr2]. split; [by etrans|exact Hr2].
Qed.
Lemma silent_draw P : silent P draw.
Proof. done. Qed.
Lemma silent_monotonic P : silent P monotonic.
Proof. done. Qed.
Lemma silent_try {A} P (m : W A) h :
  (forall w, same_stores w (m w).1) -> (forall w e, (m w).2 = Raise e -> silent P (h e)) -> silent P (try_except m h).
Proof.
  intros Hm Hh w. specialize (Hm w). specialize (Hh w). unfold try_except. destruct (m w) as [w1 [a|e]]; simpl in *; [done|].
  destruct (Hh e eq_refl w1) as [Hs2 Hr2]. split; [by etrans|exact Hr2].
Qed.
Lemma silent_finally {A} P (m : W A) f : silent P m -> silent P f -> silent P (finally m f).
Proof.
  intros Hm Hf w. destruct (Hm w) as [Hs Hr]. unfold finally. destruct (m w) as [w1 r]. simpl in *.
  destruct (Hf w1) as [Hs2 Hr2]. destruct (f w1) as [w2 [[]|e]]; simpl in *; (split; [by etrans|]); [exact Hr|]. intros e' [= <-]. by apply Hr2.
Qed.

Lemma silent_putconn : silent broken putconn.
Proof.
  intros w. unfold putconn, gets, mbind, M_bind. simpl. destruct (e_putconn _) as [e|] eqn:He; [|done].
  split; [done|]. intros e' [= <-]. eexists. by right.
Qed.
Lemma silent_rollback : silent broken (rollback (mret tt)).
Proof.
  intros w. unfold rollback, draw, mbind, M_bind. simpl. destruct (e_rollback _) as [e|] eqn:He; [|done].
  split; [done|]. intros e' [= <-]. eexists. by left.
Qed.

Lemma silent_return_connection : silent broken return_connection.
Proof.
  assert (forall t P o, silent P (ended ← monotonic; _ ← observe "DB_POOL_RETURN_SECONDS" [];
    record_slow_db_phase "pool_return" (ended - t) o)) as Hreport.
  { intros. apply silent_quiet, quiet_monotonic. intros. apply quiet_bind; [apply quiet_obs|intros; apply quiet_slow]. }
  unfold return_connection. apply silent_bind; [apply silent_monotonic|intros t].
  apply silent_bind; [|intros _; apply silent_quiet; do 2 (apply quiet_bind; [apply quiet_obs|intros _]); apply quiet_sample].
  assert (silent broken (_ ← putconn; ended ← monotonic; _ ← observe "DB_POOL_RETURN_SECONDS" [];
    record_slow_db_phase "pool_return" (ended - t) "ok")) as Hput.
  { apply silent_bind; [apply silent_putconn|intros; apply Hreport]. }
  apply silent_try; [apply Hput|]. intros w e He. apply silent_bind; [apply Hreport|intros _]. apply silent_raise. by eapply Hput.
Qed.

Lemma quiet_bind_W {A} (m : W unit) (f : unit -> W A) w :
  quiet m -> exists w1, same_stores w w1 /\ (m ≫= f) w = f tt w1.
Proof. intros Hm. destruct (run_quiet m f w Hm) as (w1 & ? & _ & ?). by exists w1. Qed.

Lemma silent_failed undo e : silent broken undo -> silent broken (transaction_failed undo e).
Proof.
  intros Hu. unfold transaction_failed. apply silent_finally; [|apply silent_return_connection].
  apply silent_finally; [|apply silent_quiet, quiet_obs]. apply silent_bind; [apply silent_quiet, quiet_obs|intros _].
  apply silent_bind; [apply silent_finally; [done|apply silent_quiet, quiet_obs]|intros _]. apply silent_quiet, quiet_record_error.
Qed.

(** The ways a transaction ends: it never started, its body raised and everything is undone (the
    exception is the body's, or that of a rollback or [putconn] that failed too), or its body returned
    and the commit succeeded, failed, failed after taking effect, or succeeded and [putconn] failed. *)
Inductive tx_result {A} (body : W A) (w : world) : world * outcome A -> Prop :=
| TxNoConnection w' e : same_stores w w' -> tx_result body w (w', Raise e)
| TxRolledBack w0 w1 w' e e' :
    same_stores w w0 -> body w0 = (w1, Raise e) -> e' = e \/ broken e' ->
    w'.(w_db) = w.(w_db) -> w'.(w_redis) = w1.(w_redis) -> w'.(w_kafka) = w1.(w_kafka) ->
    w'.(w_request_id) = w1.(w_request_id) ->
    tx_result body w (w', Raise e')
| TxCommitted w0 w1 w' a :
    same_stores w w0 -> body w0 = (w1, Ok a) -> same_stores w1 w' ->
    tx_result body w (w', Ok a)
| TxCommitFailed w0 w1 w' a e :
    same_stores w w0 -> body w0 = (w1, Ok a) ->
    w'.(w_db) = w1.(w_db) \/ w'.(w_db) = w.(w_db) ->
    w'.(w_redis) = w1.(w_redis) -> w'.(w_kafka) = w1.(w_kafka) ->
    w'.(w_request_id) = w1.(w_request_id) ->
    tx_result body w (w', Raise e).

(** Entering changes no store, and hands over the database it found. *)
Lemma tx_enter_run w :
  exists w', same_stores w w' /\
    (tx_enter w = (w', Ok w.(w_db)) \/ exists e, tx_enter w = (w', Raise e)).
Proof.
  assert (silent (fun _ => True) (_ ← try_except acquire_connection (fun e => _ ← record_error e; raise e);
    try_except begin (fun e => _ ← transaction_failed (mret tt) e; raise e))) as Hen.
  { apply silent_bind; [|intros _]; apply silent_try.
    - intros w0. unfold acquire_connection, try_except, getconn, draw, mbind, M_bind. simpl. by destruct (e_pool _).
    - intros _ e _. apply silent_bind; [apply silent_quiet, quiet_record_error|intros; by apply silent_raise].
    - intros w0. unfold begin, draw, mbind, M_bind. simpl. by destruct (e_begin _).
    - intros _ e _. apply silent_bind; [|intros; by apply silent_raise].
      intros w0. split; [|done]. apply (silent_failed (mret tt) e), silent_quiet, quiet_ret. }
  destruct (Hen w) as [Hs _]. revert Hs. unfold tx_enter, mbind, M_bind.
  destruct (try_except acquire_connection _ w) as [w1 [[]|e]]; [|by eauto].
  destruct (try_except begin _ w1) as [w2 [[]|e]]; simpl; intros Hs; exists w2; (split; [done|]); [left|by eauto].
  unfold sql, gets. by rewrite (ss_db _ _ Hs).
Qed.

(** The commit: it returns and keeps the changes, or raises having kept or undone them. *)
Lemma measured_commit_run d0 w :
  exists w' r, measured_commit d0 w = (w', r) /\
    w'.(w_redis) = w.(w_redis) /\ w'.(w_kafka) = w.(w_kafka) /\
    w'.(w_request_id) = w.(w_request_id) /\
    match r with
    | Ok _ => w'.(w_db) = w.(w_db)
    | Raise _ => w'.(w_db) = w.(w_db) \/ w'.(w_db) = d0
    end.
Proof.
  unfold measured_commit, commit, record_slow_db_phase, try_except, monotonic, draw.
  unfold mbind, M_bind. simpl.
  destruct (e_commit (S (w_tick w))); simpl; destruct (_ <=? _); simpl;
    eexists _, _; repeat split; auto.
Qed.

(** Leaving after an exception restores the database, whatever else fails. *)
Lemma tx_exit_raised d0 e w :
  exists w', w'.(w_db) = d0 /\ w'.(w_redis) = w.(w_redis) /\
    w'.(w_kafka) = w.(w_kafka) /\ w'.(w_request_id) = w.(w_request_id) /\
    (tx_exit d0 (Some e) w = (w', Ok false) \/ exists e', broken e' /\ tx_exit d0 (Some e) w = (w', Raise e')).
Proof.
  set (w0 := set_db (fun _ => d0) w).
  assert (tx_exit d0 (Some e) w = (_ ← transaction_failed (rollback (mret tt)) e; mret false) w0) as -> by reflexivity.
  destruct (silent_failed _ e silent_rollback w0) as [[Hd Hr Hk Hi] Hb]. unfold mbind, M_bind.
  destruct (transaction_failed _ e w0) as [w1 [[]|e']]; simpl in *; exists w1; split_and!; try done; [by left|right]. eauto.
Qed.

(** Leaving after a normal exit commits. *)
Lemma tx_exit_ok d0 w :
  exists w', w'.(w_redis) = w.(w_redis) /\ w'.(w_kafka) = w.(w_kafka) /\ w'.(w_request_id) = w.(w_request_id) /\
    ((tx_exit d0 None w = (w', Ok false) /\ w'.(w_db) = w.(w_db)) \/
     exists e, tx_exit d0 None w = (w', Raise e) /\ (w'.(w_db) = w.(w_db) \/ w'.(w_db) = d0)).
Proof.
  destruct (measured_commit_run d0 (add_obs (Obs "DB_TRANSACTION_BODY_SECONDS" [] 1) w))
    as (w1 & r & Hrun & Hr & Hk & Hi & Hd).
  assert (tx_exit d0 None w = match r with
    | Ok _ => (_ ← (_ ← observe "DB_SECONDS" []; try_except return_connection (fun e => _ ← record_error e; raise e)); mret false) w1
    | Raise e => ((_ ← (_ ← transaction_failed (rollback (mret tt)) e; raise (A:=unit) e); mret false) w1)
    end) as Heq.
  { unfold tx_exit, try_except. unfold mbind, M_bind, observe, modify. rewrite Hrun.
    destruct r as [[]|e]; [done|]. by destruct (transaction_failed _ _ _) as [? [[]|]]. }
  assert (forall m : W unit, silent (fun _ => True) m -> exists w', same_stores w1 w' /\
    ((_ ← m; mret false) w1 = (w', Ok false) \/ exists e, (_ ← m; mret false) w1 = (w', Raise e))) as Hrest.
  { intros m Hm. destruct (Hm w1) as [Hs _]. unfold mbind, M_bind. destruct (m w1) as [w2 [[]|e]]; exists w2; eauto. }
  destruct r as [[]|e]; rewrite Heq; simpl in *.
  - destruct (Hrest (_ ← observe "DB_SECONDS" []; try_except return_connection (fun e => _ ← record_error e; raise e)))
      as (w2 & [Hd2 Hr2 Hk2 Hi2] & Hcase).
    { apply silent_bind; [apply silent_quiet, quiet_obs|intros _]. apply silent_try; [apply silent_return_connection|].
      intros _ e _. apply silent_bind; [apply silent_quiet, quiet_record_error|intros; by apply silent_raise]. }
    exists w2. repeat split; try congruence. destruct Hcase as [Hc|[e Hc]]; rewrite Hc; [left|right; exists e]; split; try done; [congruence|left; congruence].
  - destruct (Hrest (_ ← transaction_failed (rollback (mret tt)) e; raise e)) as (w2 & [Hd2 Hr2 Hk2 Hi2] & Hcase).
    { apply silent_bind; [|intros; by apply silent_raise]. intros w0. split; [|done]. apply (silent_failed _ e silent_rollback). }
    exists w2. repeat split; try congruence. right. destruct Hcase as [Hc|[e' Hc]]; [exfalso|exists e'; split; [done|by rewrite Hd2]].
    revert Hc. unfold mbind, M_bind. by destruct (transaction_failed _ _ _) as [? [[]|]].
Qed.

(** A resource that behaves like [tx_resource] up to observations. *)
Definition like_tx (r : resource db) : Prop :=
  (forall w, exists w', same_stores (tx_enter w).1 w' /\ res_enter r w = (w', (tx_enter w).2)) /\
  (forall d exc w, exists w', same_stores (tx_exit d exc w).1 w' /\ res_exit r d exc w = (w', (tx_exit d exc w).2)).

Lemma like_tx_self : like_tx tx_resource.
Proof.
  split; intros; eexists; (split; [reflexivity|simpl]).
  - by destruct (tx_enter w).
  - by destruct (tx_exit d exc w).
Qed.

Lemma like_tx_timed ph : like_tx (TimedHoldResource ph tx_resource).
Proof.
  split; intros; simpl; unfold hold_phase.
  - destruct (tx_enter w) as [w1 [d|e]]; eexists; (split; [|reflexivity]; done).
  - destruct (tx_exit d exc w) as [w1 [b|e]]; eexists; (split; [|reflexivity]; done).
Qed.

Lemma within_tx_spec {A} (r : resource db) (body : W A) w :
  like_tx r -> tx_result body w (within r (fun _ => body) w).
Proof.
  intros [Hen Hex]. unfold within, with_resource, mbind, M_bind.
  destruct (tx_enter_run w) as (w0 & Hs0 & Hrun). destruct (Hen w) as (w0' & Hs0' & ->).
  destruct Hrun as [Hrun|[e Hrun]]; rewrite Hrun in *; simpl in *; [|by apply TxNoConnection; etrans].
  assert (same_stores w w0') as Hs by by etrans. clear Hs0 Hs0' Hrun.
  destruct (body w0') as [w1 [a|e]] eqn:Hbody.
  - destruct (tx_exit_ok w.(w_db) w1) as (w2 & Hr & Hk & Hi & Hcase).
    destruct (Hex w.(w_db) None w1) as (w3 & [Hd3 Hr3 Hk3 Hi3] & ->).
    destruct Hcase as [[Hrun Hd]|(e & Hrun & Hd)]; rewrite Hrun in *; simpl in *.
    + apply (TxCommitted _ _ w0' w1); [done|done|]. split; congruence.
    + apply (TxCommitFailed _ _ w0' w1 _ a); [done|done| |congruence..].
      rewrite Hd3. done.
  - destruct (tx_exit_raised w.(w_db) e w1) as (w2 & Hd & Hr & Hk & Hi & Hcase).
    destruct (Hex w.(w_db) (Some e) w1) as (w3 & [Hd3 Hr3 Hk3 Hi3] & ->).
    destruct Hcase as [Hrun|(e' & Hb & Hrun)]; rewrite Hrun in *; simpl in *;
      apply (TxRolledBack _ _ w0' w1 _ e); auto; congruence.
Qed.

Lemma transaction_spec {A} (body : W A) w : tx_result body w (transaction body w).
Proof. apply within_tx_spec, like_tx_self. Qed.

(** An invariant of the database that the body keeps when it returns is kept by the transaction,
    whatever fails. *)
Lemma tx_result_preserves {A} (P : db -> Prop) (body : W A) w res :
  P w.(w_db) ->
  (forall w0, w0.(w_db) = w.(w_db) -> w0.(w_redis) = w.(w_redis) ->
     wp body (fun _ w1 => P w1.(w_db)) w0) ->
  tx_result body w res -> P res.1.(w_db).
Proof.
  intros HP Hbody [w' e Hs|w0 w1 w' e e' Hs Hrun He Hdb|w0 w1 w' a Hs Hrun Hs'|w0 w1 w' a e Hs Hrun Hdb]; simpl.
  - by rewrite (ss_db _ _ Hs).
  - by rewrite Hdb.
  - rewrite (ss_db _ _ Hs'). refine (wp_run _ _ _ _ _ (Hbody w0 _ _) Hrun); apply Hs.
  - destruct Hdb as [-> | ->]; [|done]. refine (wp_run _ _ _ _ _ (Hbody w0 _ _) Hrun); apply Hs.
Qed.

Lemma transaction_preserves {A} (P : db -> Prop) (body : W A) w :
  P w.(w_db) ->
  (forall w0, w0.(w_db) = w.(w_db) -> w0.(w_redis) = w.(w_redis) ->
     wp body (fun _ w1 => P w1.(w_db)) w0) ->
  P (transaction body w).1.(w_db).
Proof. intros HP Hbody. apply (tx_result_preserves P body w); [done|done|apply transaction_spec]. Qed.

(** A transaction that returns has run its body to the end and kept its changes. *)
Lemma transaction_ok {A} (body : W A) w w' a :
  transaction body w = (w', Ok a) ->
  exists w0 w1, same_stores w w0 /\ body w0 = (w1, Ok a) /\ same_stores w1 w'.
Proof.
  intros H. pose proof (transaction_spec body w) as Hspec. rewrite H in Hspec.
  inversion Hspec; subst. eauto.
Qed.

(** One that raises has left the database as it was, or committed a body that returned. *)
Lemma transaction_raise {A} (body : W A) w w' e :
  transaction body w = (w', Raise e) ->
  w'.(w_db) = w.(w_db) \/
  exists w0 w1 a, same_stores w w0 /\ body w0 = (w1, Ok a) /\ w'.(w_db) = w1.(w_db).
Proof.
  intros H. pose proof (transaction_spec body w) as Hspec. rewrite H in Hspec.
  inversion Hspec as [? ? Hs|? ? ? ? ? _ _ _ Hdb| |w0 w1 ? a ? Hs Hrun Hdb]; subst; auto.
  - left. by apply ss_db.
  - destruct Hdb as [Hdb|Hdb]; [right|left; done]. by exists w0, w1, a.
Qed.

(** A body that makes no Redis or Kafka call leaves both stores alone. *)
Lemma transaction_frame {A} (body : W A) w :
  (forall w0, wpx body (fun _ w1 => w1.(w_redis) = w0.(w_redis) /\ w1.(w_kafka) = w0.(w_kafka))
                       (fun _ w1 => w1.(w_redis) = w0.(w_redis) /\ w1.(w_kafka) = w0.(w_kafka)) w0) ->
  (transaction body w).1.(w_redis) = w.(w_redis) /\ (transaction body w).1.(w_kafka) = w.(w_kafka).
Proof.
  intros Hb. destruct (transaction_spec body w) as [w' e Hs|w0 w1 w' e e' Hs Hrun He|w0 w1 w' a Hs Hrun Hs'|w0 w1 w' a e Hs Hrun]; simpl.
  - by destruct Hs.
  - specialize (Hb w0). unfold wpx in Hb. rewrite Hrun in Hb. destruct Hs, Hb. split; congruence.
  - specialize (Hb w0). unfold wpx in Hb. rewrite Hrun in Hb. destruct Hs, Hs', Hb. split; congruence.
  - specialize (Hb w0). unfold wpx in Hb. rewrite Hrun in Hb. destruct Hs, Hb. split; congruence.
Qed.
End transaction_rules.
