(* ===== verification/Sql.v ===== *)
(** * The SQL statements of the adapters

    Each [INSERT], [UPDATE] and [SELECT] the store and the workers issue, on the tables of [Schema].
    An insert checks its primary key, UNIQUE columns, foreign keys and CHECKs and raises the driver
    error when one fails; [ON CONFLICT DO NOTHING] skips instead.  [ORDER BY] is a stable sort of an
    unspecified enumeration; text columns compare by code point. *)

From S2P Require Import Prelude Domain Schema World.

(** ** Row setters *)

Definition seat_hold (h : uuid) (until : Z) (r : seat_row) : seat_row :=
  SeatRow r.(s_price) (Some h) (Some until) r.(s_booked_order_id) (r.(s_version) + 1).
Definition seat_free (r : seat_row) : seat_row :=
  SeatRow r.(s_price) None None r.(s_booked_order_id) (r.(s_version) + 1).
Definition seat_book (o : uuid) (r : seat_row) : seat_row :=
  SeatRow r.(s_price) None None (Some o) (r.(s_version) + 1).
Definition hold_with_status (st : hold_status) (r : hold_row) : hold_row :=
  HoldRow r.(h_actor) r.(h_event_id) r.(h_expires_at) st.
Definition order_with_status (st : order_status) (r : order_row) : order_row :=
  OrderRow r.(o_actor) r.(o_hold_id) r.(o_event_id) r.(o_total) r.(o_currency) st.
Definition payment_with_status (st : payment_status) (r : payment_row) : payment_row :=
  PaymentRow r.(p_order_id) st r.(p_outcome) r.(p_due_at) r.(p_deliveries) r.(p_target_deliveries)
    r.(p_lease_until) r.(p_lease_token).
Definition payment_lease (until : option Z) (token : option uuid) (r : payment_row) : payment_row :=
  PaymentRow r.(p_order_id) r.(p_status) r.(p_outcome) r.(p_due_at) r.(p_deliveries)
    r.(p_target_deliveries) until token.
Definition payment_delivered (r : payment_row) : payment_row :=
  PaymentRow r.(p_order_id) r.(p_status) r.(p_outcome) r.(p_due_at) (r.(p_deliveries) + 1)
    r.(p_target_deliveries) None r.(p_lease_token).
Definition outbox_lease (until : option Z) (token : option uuid) (r : outbox_row) : outbox_row :=
  OutboxRow r.(ob_aggregate_id) r.(ob_body) r.(ob_correlation_id) r.(ob_schema_version)
    r.(ob_occurred_at) r.(ob_published_at) until token.
Definition outbox_published (at_ : Z) (r : outbox_row) : outbox_row :=
  OutboxRow r.(ob_aggregate_id) r.(ob_body) r.(ob_correlation_id) r.(ob_schema_version)
    r.(ob_occurred_at) (Some at_) None r.(ob_lease_token).

(** ** CHECK constraints of [event_seats] *)

Definition seat_row_ok (r : seat_row) : bool :=
  bool_decide (is_Some r.(s_hold_id) <-> is_Some r.(s_reserved_until)) &&
  (bool_decide (r.(s_booked_order_id) = None) || bool_decide (r.(s_hold_id) = None)).

(** ** Generic statements *)

(** [UPDATE t SET ... WHERE P] *)
Definition update_where {K A} `{Countable K} (P : K -> A -> bool) (f : A -> A) (m : gmap K A) : gmap K A :=
  map_imap (fun k a => Some (if P k a then f a else a)) m.

Lemma lookup_update_where {K A} `{Countable K} (P : K -> A -> bool) f (m : gmap K A) k :
  update_where P f m !! k = (fun a => if P k a then f a else a) <$> m !! k.
Proof. unfold update_where. rewrite map_lookup_imap. by destruct (m !! k). Qed.

(** [ORDER BY key] *)
Definition key_le {A} (key : A -> Z) : relation A := fun a b => key a <= key b.
Definition text_le {A} (key : A -> string) : relation A := fun a b => String.le (key a) (key b).

#[global] Instance key_le_dec {A} (key : A -> Z) : RelDecision (key_le key).
Proof. unfold key_le. solve_decision. Defined.
#[global] Instance key_le_total {A} (key : A -> Z) : Total (key_le key).
Proof. intros a b. unfold key_le. lia. Qed.
#[global] Instance key_le_trans {A} (key : A -> Z) : Transitive (key_le key).
Proof. intros a b c. unfold key_le. lia. Qed.
#[global] Instance text_le_dec {A} (key : A -> string) : RelDecision (text_le key).
Proof. unfold text_le. solve_decision. Defined.
#[global] Instance text_le_total {A} (key : A -> string) : Total (text_le key).
Proof. intros a b. unfold text_le. apply (total String.le). Qed.
#[global] Instance text_le_trans {A} (key : A -> string) : Transitive (text_le key).
Proof. intros a b c. unfold text_le. apply (transitivity (R := String.le)). Qed.

Definition order_by {A} (key : A -> Z) (l : list A) : list A := merge_sort (key_le key) l.
Definition order_by_text {A} (key : A -> string) (l : list A) : list A := merge_sort (text_le key) l.

Lemma order_by_perm {A} (key : A -> Z) l : order_by key l ≡ₚ l.
Proof. apply merge_sort_Permutation. Qed.
Lemma order_by_text_perm {A} (key : A -> string) l : order_by_text key l ≡ₚ l.
Proof. apply merge_sort_Permutation. Qed.

Section statements.
Context `{E : Env}.

(** Raise unless [b]. *)
Definition require (b : bool) (e : exn) : W unit := raise_if (negb b) e.

(** No row of the table satisfies [P]: the test behind a UNIQUE column. *)
Definition none_with {K A} `{Countable K} (P : A -> bool) (m : gmap K A) : bool :=
  bool_decide (map_Forall (fun _ a => P a = false) m).

Definition has {K A} `{Countable K} (m : gmap K A) (k : K) : bool := bool_decide (is_Some (m !! k)).

Definition the_db : W db := sql (fun d => d).

(** [INSERT INTO holds VALUES (...)] *)
Definition insert_hold (id : uuid) (r : hold_row) : W unit :=
  d ← the_db;
  _ ← require (negb (has d.(holds) id)) UniqueViolation;
  _ ← require (has d.(events) r.(h_event_id)) ForeignKeyViolation;
  update_db (set_holds <[id := r]>).

(** [INSERT INTO orders(...)]: [hold_id] is UNIQUE, [total >= 0]. *)
Definition insert_order (id : uuid) (r : order_row) : W unit :=
  d ← the_db;
  _ ← require (0 <=? r.(o_total)) CheckViolation;
  _ ← require (negb (has d.(orders) id)) UniqueViolation;
  _ ← require (none_with (fun o => bool_decide (o.(o_hold_id) = r.(o_hold_id))) d.(orders)) UniqueViolation;
  _ ← require (has d.(holds) r.(o_hold_id) && has d.(events) r.(o_event_id)) ForeignKeyViolation;
  update_db (set_orders <[id := r]>).

(** [INSERT INTO order_items VALUES (...)] *)
Definition insert_order_item (order_id : uuid) (seat_id : string) (r : item_row) : W unit :=
  d ← the_db;
  _ ← require (negb (has d.(order_items) (order_id, seat_id))) UniqueViolation;
  _ ← require (has d.(orders) order_id && has d.(event_seats) (r.(i_event_id), seat_id)) ForeignKeyViolation;
  update_db (set_order_items <[(order_id, seat_id) := r]>).

(** [INSERT INTO bookings VALUES (...)]: [(event_id, seat_id)] is UNIQUE. *)
Definition insert_booking (id : uuid) (r : booking_row) : W unit :=
  d ← the_db;
  _ ← require (negb (has d.(bookings) id)) UniqueViolation;
  _ ← require (none_with (fun b => bool_decide (b.(b_event_id) = r.(b_event_id)) &&
                                    bool_decide (b.(b_seat_id) = r.(b_seat_id))) d.(bookings)) UniqueViolation;
  _ ← require (has d.(orders) r.(b_order_id) && has d.(event_seats) (r.(b_event_id), r.(b_seat_id))) ForeignKeyViolation;
  update_db (set_bookings <[id := r]>).

(** [INSERT INTO payment_attempts(...)]: [order_id] is UNIQUE, 1 to 10 deliveries. *)
Definition insert_payment (id : uuid) (r : payment_row) : W unit :=
  d ← the_db;
  _ ← require ((1 <=? r.(p_target_deliveries)) && (r.(p_target_deliveries) <=? 10)) CheckViolation;
  _ ← require (negb (has d.(payment_attempts) id)) UniqueViolation;
  _ ← require (none_with (fun p => bool_decide (p.(p_order_id) = r.(p_order_id))) d.(payment_attempts)) UniqueViolation;
  _ ← require (has d.(orders) r.(p_order_id)) ForeignKeyViolation;
  update_db (set_payment_attempts <[id := r]>).

(** [INSERT INTO payment_callbacks(...)] *)
Definition insert_callback (id : uuid) (r : callback_row) : W unit :=
  d ← the_db;
  _ ← require (negb (has d.(payment_callbacks) id)) UniqueViolation;
  _ ← require (has d.(payment_attempts) r.(c_payment_id)) ForeignKeyViolation;
  update_db (set_payment_callbacks <[id := r]>).

(** [INSERT INTO refund_requests VALUES (...) ON CONFLICT DO NOTHING] *)
Definition insert_refund (payment_id : uuid) (r : refund_row) : W unit :=
  d ← the_db;
  if has d.(refund_requests) payment_id then mret tt
  else
    _ ← require (has d.(payment_attempts) payment_id && has d.(orders) r.(r_order_id)) ForeignKeyViolation;
    update_db (set_refund_requests <[payment_id := r]>).

(** [INSERT INTO outbox_events(...)] *)
Definition insert_outbox (id : uuid) (r : outbox_row) : W unit :=
  d ← the_db;
  _ ← require (negb (has d.(outbox_events) id)) UniqueViolation;
  update_db (set_outbox_events <[id := r]>).

(** [INSERT INTO tickets(...) ON CONFLICT DO NOTHING]: [booking_id] is UNIQUE. *)
Definition insert_ticket (id : uuid) (r : ticket_row) : W unit :=
  d ← the_db;
  if has d.(tickets) id ||
     negb (none_with (fun t => bool_decide (t.(t_booking_id) = r.(t_booking_id))) d.(tickets))
  then mret tt
  else
    _ ← require (has d.(bookings) r.(t_booking_id)) ForeignKeyViolation;
    update_db (set_tickets <[id := r]>).

(** [INSERT INTO reservation_commands(...)]: [hold_id] and [order_id] are UNIQUE. *)
Definition insert_command (id : uuid) (r : command_row) : W unit :=
  d ← the_db;
  _ ← require (negb (has d.(reservation_commands) id)) UniqueViolation;
  _ ← require (none_with (fun c => bool_decide (c.(rcmd_hold_id) = r.(rcmd_hold_id)) ||
                                    bool_decide (c.(rcmd_order_id) = r.(rcmd_order_id)))
                 d.(reservation_commands)) UniqueViolation;
  _ ← require (has d.(events) r.(rcmd_event_id)) ForeignKeyViolation;
  update_db (set_reservation_commands <[id := r]>).

(** [UPDATE event_seats SET ... WHERE P]; the CHECKs hold of every row afterwards. *)
Definition update_seats (P : uuid * string -> seat_row -> bool) (f : seat_row -> seat_row) : W unit :=
  d ← the_db;
  _ ← require (bool_decide (map_Forall (fun k r => P k r = true -> seat_row_ok (f r) = true) d.(event_seats)))
        CheckViolation;
  update_db (set_event_seats (update_where P f)).

(** [UPDATE holds SET status=... WHERE id=... AND P] and the like on [orders]. *)
Definition update_hold_status (id : uuid) (P : hold_row -> bool) (st : hold_status) : W unit :=
  update_db (set_holds (update_where (fun k r => bool_decide (k = id) && P r) (hold_with_status st))).
Definition update_order_status (id : uuid) (P : order_row -> bool) (st : order_status) : W unit :=
  update_db (set_orders (update_where (fun k r => bool_decide (k = id) && P r) (order_with_status st))).
End statements.

(** ** Selections *)

(** [SELECT * FROM event_seats WHERE event_id=.. AND seat_id=ANY(ids) ORDER BY seat_id] *)
Definition select_seats (event_id : uuid) (ids : list string) (d : db) : list (string * seat_row) :=
  omap (fun s => (fun r => (s, r)) <$> d.(event_seats) !! (event_id, s)) (sorted_seats (set_of ids)).

(** [SELECT .. FROM event_seats WHERE hold_id=..] *)
Definition seats_of_hold (h : uuid) (d : db) : list ((uuid * string) * seat_row) :=
  filter (fun kr => kr.2.(s_hold_id) = Some h) (map_to_list d.(event_seats)).

(** [SELECT s.* FROM event_seats s JOIN order_items i ... WHERE i.order_id=.. ORDER BY s.seat_id] *)
Definition seats_of_order (o : uuid) (d : db) : list ((uuid * string) * seat_row) :=
  order_by_text (fun kr => kr.1.2)
    (omap (fun kr : (uuid * string) * item_row =>
             (fun r => ((kr.2.(i_event_id), kr.1.2), r)) <$> d.(event_seats) !! (kr.2.(i_event_id), kr.1.2))
       (filter (fun kr => kr.1.1 = o) (map_to_list d.(order_items)))).

(** [SELECT * FROM orders WHERE hold_id=.. AND actor=..]: at most one row, [hold_id] is UNIQUE. *)
Definition order_of_hold (hold_id : uuid) (actor : string) (d : db) : option (uuid * order_row) :=
  head (filter (fun kr => kr.2.(o_hold_id) = hold_id /\ kr.2.(o_actor) = actor) (map_to_list d.(orders))).

(** [SELECT * FROM orders WHERE id=.. AND actor=..] *)
Definition order_for_actor (id : uuid) (actor : string) (d : db) : option order_row :=
  match d.(orders) !! id with
  | Some o => if bool_decide (o.(o_actor) = actor) then Some o else None
  | None => None
  end.

(** [SELECT id FROM payment_attempts WHERE order_id=..] *)
Definition payment_of_order (order_id : uuid) (d : db) : option (uuid * payment_row) :=
  head (filter (fun kr => kr.2.(p_order_id) = order_id) (map_to_list d.(payment_attempts))).

Definition bookings_of_order (o : uuid) (d : db) : list (uuid * booking_row) :=
  filter (fun kr => kr.2.(b_order_id) = o) (map_to_list d.(bookings)).

Lemma elem_of_select_seats ev ids d s r :
  (s, r) ∈ select_seats ev ids d <-> s ∈ ids /\ d.(event_seats) !! (ev, s) = Some r.
Proof.
  unfold select_seats. rewrite list_elem_of_omap. setoid_rewrite elem_of_sorted_seats.
  unfold set_of. setoid_rewrite elem_of_remove_dups.
  split; [intros (x & Hx & Hl)|intros [Hs Hl]].
  - destruct (event_seats d !! (ev, x)) eqn:Hr; simplify_eq/=. done.
  - exists s. by rewrite Hl.
Qed.

Lemma elem_of_seats_of_hold h d k r :
  (k, r) ∈ seats_of_hold h d <-> d.(event_seats) !! k = Some r /\ r.(s_hold_id) = Some h.
Proof. unfold seats_of_hold. rewrite list_elem_of_filter, elem_of_map_to_list. naive_solver. Qed.

Lemma elem_of_seats_of_order o d k r :
  (k, r) ∈ seats_of_order o d <->
  exists i, d.(order_items) !! (o, k.2) = Some i /\ k.1 = i.(i_event_id) /\ d.(event_seats) !! k = Some r.
Proof.
  unfold seats_of_order. rewrite order_by_text_perm, list_elem_of_omap.
  setoid_rewrite list_elem_of_filter. split.
  - intros ([[o' s] i] & [Ho Hin%elem_of_map_to_list] & Hl); simpl in *.
    destruct (event_seats d !! (i_event_id i, s)) eqn:E; simplify_eq/=. eauto.
  - destruct k as [ev s]. simpl. intros (i & Hi & -> & Hs).
    exists ((o, s), i). rewrite elem_of_map_to_list. simpl. by rewrite Hs.
Qed.

Lemma order_of_hold_Some h a d id o :
  order_of_hold h a d = Some (id, o) -> d.(orders) !! id = Some o /\ o.(o_hold_id) = h /\ o.(o_actor) = a.
Proof.
  unfold order_of_hold. intros Hh. apply head_Some_elem_of in Hh.
  apply list_elem_of_filter in Hh as [[? ?] Hin%elem_of_map_to_list]. done.
Qed.

Lemma order_for_actor_Some id a d o :
  order_for_actor id a d = Some o -> d.(orders) !! id = Some o /\ o.(o_actor) = a.
Proof. unfold order_for_actor. intros. repeat case_match; simplify_eq. by case_bool_decide. Qed.

Lemma payment_of_order_Some o d id p :
  payment_of_order o d = Some (id, p) -> d.(payment_attempts) !! id = Some p /\ p.(p_order_id) = o.
Proof.
  unfold payment_of_order. intros Hh. apply head_Some_elem_of in Hh.
  apply list_elem_of_filter in Hh as [? Hin%elem_of_map_to_list]. done.
Qed.

Lemma head_filter_None {K A} `{Countable K} (P : K * A -> Prop) `{!forall x, Decision (P x)} (m : gmap K A) :
  head (filter P (map_to_list m)) = None -> forall k a, m !! k = Some a -> ~ P (k, a).
Proof.
  intros Hn k a Hk HP. assert ((k, a) ∈ filter P (map_to_list m)) as Hin.
  { apply list_elem_of_filter. by rewrite elem_of_map_to_list. }
  destruct (filter P (map_to_list m)); [by apply not_elem_of_nil in Hin|done].
Qed.

(** ** Weakest-precondition rules of the statements *)

Section statement_rules.
Context `{E : Env}.
Implicit Types (w : world) (Q : unit -> world -> Prop).

Lemma has_true {K A} `{Countable K} (m : gmap K A) k : has m k = true <-> is_Some (m !! k).
Proof. unfold has. by rewrite bool_decide_eq_true. Qed.

Lemma has_false {K A} `{Countable K} (m : gmap K A) k : has m k = false <-> m !! k = None.
Proof. unfold has. rewrite bool_decide_eq_false. by rewrite eq_None_not_Some. Qed.

Lemma none_with_true {K A} `{Countable K} P (m : gmap K A) :
  none_with P m = true <-> forall k a, m !! k = Some a -> P a = false.
Proof. unfold none_with. by rewrite bool_decide_eq_true. Qed.

Lemma wp_require b e Q w : (b = true -> Q tt w) -> wp (require b e) Q w.
Proof. intros H. unfold require. apply wp_raise_if. intros ?%negb_false_iff. auto. Qed.

Lemma wp_the_db (Q : db -> world -> Prop) w : Q w.(w_db) w -> wp the_db Q w.
Proof. done. Qed.

Lemma wp_insert_hold id r Q w :
  (w.(w_db).(holds) !! id = None -> is_Some (w.(w_db).(events) !! r.(h_event_id)) ->
   Q tt (set_db (set_holds <[id := r]>) w)) -> wp (insert_hold id r) Q w.
Proof.
  intros H. unfold insert_hold. apply wp_bind, wp_the_db.
  apply wp_bind, wp_require. intros H1%negb_true_iff%has_false.
  apply wp_bind, wp_require. intros H2%has_true. apply wp_update_db. auto.
Qed.

Lemma wp_insert_order id r Q w :
  (0 <= r.(o_total) -> w.(w_db).(orders) !! id = None ->
   (forall o' r', w.(w_db).(orders) !! o' = Some r' -> r'.(o_hold_id) <> r.(o_hold_id)) ->
   is_Some (w.(w_db).(holds) !! r.(o_hold_id)) ->
   Q tt (set_db (set_orders <[id := r]>) w)) -> wp (insert_order id r) Q w.
Proof.
  intros H. unfold insert_order. apply wp_bind, wp_the_db.
  apply wp_bind, wp_require. intros H0%Z.leb_le.
  apply wp_bind, wp_require. intros H1%negb_true_iff%has_false.
  apply wp_bind, wp_require. intros H2. rewrite none_with_true in H2.
  apply wp_bind, wp_require. intros [H3%has_true H4]%andb_true_iff.
  apply wp_update_db. apply H; auto.
  intros o' r' Ho. specialize (H2 _ _ Ho). by case_bool_decide.
Qed.

Lemma wp_insert_order_item o s r Q w :
  (w.(w_db).(order_items) !! (o, s) = None -> is_Some (w.(w_db).(orders) !! o) ->
   is_Some (w.(w_db).(event_seats) !! (r.(i_event_id), s)) ->
   Q tt (set_db (set_order_items <[(o, s) := r]>) w)) -> wp (insert_order_item o s r) Q w.
Proof.
  intros H. unfold insert_order_item. apply wp_bind, wp_the_db.
  apply wp_bind, wp_require. intros H1%negb_true_iff%has_false.
  apply wp_bind, wp_require. intros [H2%has_true H3%has_true]%andb_true_iff.
  apply wp_update_db. auto.
Qed.

Lemma wp_insert_booking id r Q w :
  (w.(w_db).(bookings) !! id = None ->
   (forall b br, w.(w_db).(bookings) !! b = Some br ->
      ~ (br.(b_event_id) = r.(b_event_id) /\ br.(b_seat_id) = r.(b_seat_id))) ->
   Q tt (set_db (set_bookings <[id := r]>) w)) -> wp (insert_booking id r) Q w.
Proof.
  intros H. unfold insert_booking. apply wp_bind, wp_the_db.
  apply wp_bind, wp_require. intros H1%negb_true_iff%has_false.
  apply wp_bind, wp_require. intros H2. rewrite none_with_true in H2.
  apply wp_bind, wp_require. intros _.
  apply wp_update_db. apply H; [done|]. intros b br Hb [Hev Hseat].
  specialize (H2 _ _ Hb). by rewrite !bool_decide_eq_true_2 in H2.
Qed.

Lemma wp_insert_payment id r Q w :
  (1 <= r.(p_target_deliveries) <= 10 -> w.(w_db).(payment_attempts) !! id = None ->
   (forall p pr, w.(w_db).(payment_attempts) !! p = Some pr -> pr.(p_order_id) <> r.(p_order_id)) ->
   is_Some (w.(w_db).(orders) !! r.(p_order_id)) ->
   Q tt (set_db (set_payment_attempts <[id := r]>) w)) -> wp (insert_payment id r) Q w.
Proof.
  intros H. unfold insert_payment. apply wp_bind, wp_the_db.
  apply wp_bind, wp_require. intros H0.
  apply wp_bind, wp_require. intros H1%negb_true_iff%has_false.
  apply wp_bind, wp_require. intros H2. rewrite none_with_true in H2.
  apply wp_bind, wp_require. intros H3%has_true.
  apply wp_update_db. bool_hyps. apply H; auto.
  intros o' r' Ho. specialize (H2 _ _ Ho). by case_bool_decide.
Qed.

Lemma wp_insert_callback id r Q w :
  (w.(w_db).(payment_callbacks) !! id = None ->
   is_Some (w.(w_db).(payment_attempts) !! r.(c_payment_id)) ->
   Q tt (set_db (set_payment_callbacks <[id := r]>) w)) -> wp (insert_callback id r) Q w.
Proof.
  intros H. unfold insert_callback. apply wp_bind, wp_the_db.
  apply wp_bind, wp_require. intros H1%negb_true_iff%has_false.
  apply wp_bind, wp_require. intros H2%has_true. apply wp_update_db. auto.
Qed.

Lemma wp_insert_refund p r Q w :
  (is_Some (w.(w_db).(refund_requests) !! p) -> Q tt w) ->
  (w.(w_db).(refund_requests) !! p = None -> is_Some (w.(w_db).(payment_attempts) !! p) ->
   Q tt (set_db (set_refund_requests <[p := r]>) w)) -> wp (insert_refund p r) Q w.
Proof.
  intros H1 H2. unfold insert_refund. apply wp_bind, wp_the_db.
  destruct (has _ p) eqn:Hh; [apply has_true in Hh; by apply wp_ret, H1|apply has_false in Hh].
  apply wp_bind, wp_require. intros [H3%has_true _]%andb_true_iff. apply wp_update_db. auto.
Qed.

Lemma wp_insert_outbox id r Q w :
  (w.(w_db).(outbox_events) !! id = None ->
   Q tt (set_db (set_outbox_events <[id := r]>) w)) -> wp (insert_outbox id r) Q w.
Proof.
  intros H. unfold insert_outbox. apply wp_bind, wp_the_db.
  apply wp_bind, wp_require. intros H1%negb_true_iff%has_false. apply wp_update_db. auto.
Qed.

Lemma wp_insert_ticket id r Q w :
  (is_Some (w.(w_db).(tickets) !! id) \/
   (exists t tr, w.(w_db).(tickets) !! t = Some tr /\ tr.(t_booking_id) = r.(t_booking_id)) -> Q tt w) ->
  (w.(w_db).(tickets) !! id = None ->
   (forall t tr, w.(w_db).(tickets) !! t = Some tr -> tr.(t_booking_id) <> r.(t_booking_id)) ->
   is_Some (w.(w_db).(bookings) !! r.(t_booking_id)) ->
   Q tt (set_db (set_tickets <[id := r]>) w)) -> wp (insert_ticket id r) Q w.
Proof.
  intros H1 H2. unfold insert_ticket. apply wp_bind, wp_the_db.
  destruct (_ || _) eqn:Hc.
  - apply wp_ret, H1. apply orb_true_iff in Hc as [Hc%has_true|Hc]; [by left|right].
    apply negb_true_iff in Hc. unfold none_with in Hc. apply bool_decide_eq_false in Hc.
    apply map_not_Forall in Hc as (t & tr & Ht & Hb); [|apply _].
    exists t, tr. split; [done|]. by case_bool_decide.
  - apply orb_false_iff in Hc as [Hc1%has_false Hc2%negb_false_iff]. rewrite none_with_true in Hc2.
    apply wp_bind, wp_require. intros H3%has_true. apply wp_update_db. apply H2; auto.
    intros t tr Ht. specialize (Hc2 _ _ Ht). by case_bool_decide.
Qed.

Lemma wp_insert_command id r Q w :
  (w.(w_db).(reservation_commands) !! id = None ->
   Q tt (set_db (set_reservation_commands <[id := r]>) w)) -> wp (insert_command id r) Q w.
Proof.
  intros H. unfold insert_command. apply wp_bind, wp_the_db.
  apply wp_bind, wp_require. intros H1%negb_true_iff%has_false.
  apply wp_bind, wp_require. intros _. apply wp_bind, wp_require. intros _.
  apply wp_update_db. auto.
Qed.

Lemma wp_update_seats P f Q w :
  ((forall k r, w.(w_db).(event_seats) !! k = Some r -> P k r = true -> seat_row_ok (f r) = true) ->
   Q tt (set_db (set_event_seats (update_where P f)) w)) -> wp (update_seats P f) Q w.
Proof.
  intros H. unfold update_seats. apply wp_bind, wp_the_db.
  apply wp_bind, wp_require. intros H1%bool_decide_eq_true.
  apply wp_update_db. apply H. intros k r Hk HP. by apply (H1 k r).
Qed.

Lemma wp_update_hold_status id P st Q w :
  Q tt (set_db (set_holds (update_where (fun k r => bool_decide (k = id) && P r) (hold_with_status st))) w) ->
  wp (update_hold_status id P st) Q w.
Proof. done. Qed.

Lemma wp_update_order_status id P st Q w :
  Q tt (set_db (set_orders (update_where (fun k r => bool_decide (k = id) && P r) (order_with_status st))) w) ->
  wp (update_order_status id P st) Q w.
Proof. done. Qed.
End statement_rules.

(** One symbolic step through a body of SQL statements. *)
Ltac wp_sql1 :=
  lazymatch goal with
  | |- wp the_db _ _ => apply wp_the_db
  | |- wp (require _ _) _ _ => apply wp_require; intros ?
  | |- wp (insert_hold _ _) _ _ => apply wp_insert_hold; intros
  | |- wp (insert_order _ _) _ _ => apply wp_insert_order; intros
  | |- wp (insert_order_item _ _ _) _ _ => apply wp_insert_order_item; intros
  | |- wp (insert_booking _ _) _ _ => apply wp_insert_booking; intros
  | |- wp (insert_payment _ _) _ _ => apply wp_insert_payment; intros
  | |- wp (insert_callback _ _) _ _ => apply wp_insert_callback; intros
  | |- wp (insert_refund _ _) _ _ => apply wp_insert_refund; intros
  | |- wp (insert_outbox _ _) _ _ => apply wp_insert_outbox; intros
  | |- wp (insert_ticket _ _) _ _ => apply wp_insert_ticket; intros
  | |- wp (insert_command _ _) _ _ => apply wp_insert_command; intros
  | |- wp (update_seats _ _) _ _ => apply wp_update_seats; intros
  | |- wp (update_hold_status _ _ _) _ _ => apply wp_update_hold_status
  | |- wp (update_order_status _ _ _) _ _ => apply wp_update_order_status
  | |- _ => wp_prim
  end.
Ltac wp_sql := repeat (wp_sql1; cbv beta).
