(* ===== verification/Reservations.v ===== *)
(** * The reservation store

    [src/ticketing/infrastructure/reservations.py], [PostgresReservations]: every operation that
    changes seats, holds, orders and payments.  An operation is a transaction around a body; the
    bodies are the [*_tx] definitions, statement by statement in the order of the source.  [reserve]
    itself, which puts the Redis shield around [reserve_tx], is in [Service]. *)

From S2P Require Import Prelude Domain Schema World Postgres Sql Observability.

(** The rows Python indexes: [None["key"]] raises [TypeError]. *)
Definition NoneType : exn := PyError "TypeError" "'NoneType' object is not subscriptable".

Section store.
Context `{E : Env}.

Definition digest (r : request) : string := e_digest r.

(** [event(conn, aggregate, kind, payload)] *)
Definition event (aggregate : uuid) (body : event_body) : W unit :=
  id ← uuid4;
  correlation ← gets w_request_id;
  occurred ← clock_timestamp;
  insert_outbox id (OutboxRow aggregate body correlation 1 occurred None None None).

(** [idem(...)]: the insert waits for a concurrent insert of the same key until the lock timeout. *)
Definition idem (actor operation key : string) (req : request) : W (option response) :=
  let hashed := digest req in
  _ ← lock_nowait [LockIdem actor operation key];
  previous ← sql (fun d => d.(idempotency_records) !! (actor, operation, key));
  match previous with
  | None =>
      _ ← update_db (set_idempotency_records <[(actor, operation, key) := IdemRow hashed None]>);
      mret None
  | Some row =>
      if bool_decide (row.(id_request_hash) <> hashed) then
        _ ← inc "OUTCOMES" ["idempotency"; "mismatch"];
        raise (Failure "IDEMPOTENCY_MISMATCH" 409)
      else
        _ ← inc "OUTCOMES" ["idempotency"; "replay"];
        mret row.(id_response)
  end.

Definition remember (actor operation key : string) (resp : response) : W response :=
  _ ← update_db (set_idempotency_records
        (update_where (fun k _ => bool_decide (k = (actor, operation, key)))
           (fun r => IdemRow r.(id_request_hash) (Some resp))));
  mret resp.

(** ** reserve *)

(** [r["booked_order_id"] or (r["reserved_until"] and r["reserved_until"] > now)] *)
Definition seat_taken (now : Z) (r : seat_row) : bool :=
  bool_decide (is_Some r.(s_booked_order_id)) ||
  match r.(s_reserved_until) with Some t => now <? t | None => false end.

Definition total_price (rows : list (string * seat_row)) : Z :=
  foldr (fun sr n => sr.2.(s_price) + n) 0 rows.

Definition sale_open (sale : event_row) (now : Z) : bool :=
  (sale.(ev_sale_starts) <=? now) && (now <? sale.(ev_sale_ends)).

(** The writes of a granted reservation, the same statements in [reserve] and in
    [persist_reservation_command]: hold, order, seats, one item per seat row, one event. *)
Definition grant (actor : string) (event_id hold order : uuid) (expires total : Z) (currency : string)
    (seats : list string) (rows : list (string * seat_row)) : W unit :=
  _ ← insert_hold hold (HoldRow actor event_id expires H_ACTIVE);
  _ ← insert_order order (OrderRow actor hold event_id total currency O_PENDING);
  _ ← update_seats (fun k _ => bool_decide (k.1 = event_id /\ k.2 ∈ seats)) (seat_hold hold expires);
  _ ← for_each rows (fun sr => insert_order_item order sr.1 (ItemRow event_id sr.2.(s_price)));
  event order (EvSeatsChanged event_id (Some seats)).

Definition reserve_tx (hold_seconds : Z) (actor : string) (event_id : uuid) (seats : list string)
    (key : string) : W response :=
  replay ← idem actor "hold" key (ReqHold event_id seats);
  match replay with
  | Some r => mret r
  | None =>
      sale_row ← sql (fun d => d.(events) !! event_id);
      sale ← or_raise sale_row (Failure "EVENT_NOT_FOUND" 404);
      rows ← sql (select_seats event_id seats);
      _ ← lock_nowait (map (fun sr => LockSeat event_id sr.1) rows);
      now ← clock_timestamp;
      _ ← raise_if (negb (sale_open sale now)) (Failure "SALE_CLOSED" 409);
      _ ← raise_if (bool_decide (length rows <> length seats)) (Failure "SEAT_NOT_FOUND" 404);
      _ ← raise_if (existsb (fun sr => seat_taken now sr.2) rows) (Failure "SEAT_UNAVAILABLE" 409);
      hold ← uuid4;
      order ← uuid4;
      let expires := now + seconds hold_seconds in
      let total := total_price rows in
      _ ← grant actor event_id hold order expires total sale.(ev_currency) seats rows;
      remember actor "hold" key
        (RHold (HoldDoc hold order expires total sale.(ev_currency) seats None None None None))
  end.

(** ** persist_reservation_command *)

Definition command_request (p : command_payload) : request :=
  ReqHold p.(cp_event_id) (sorted_seats p.(cp_seat_ids)).

(** A seat some other hold still owns. *)
Definition seat_taken_by_other (now : Z) (hold : uuid) (r : seat_row) : bool :=
  bool_decide (is_Some r.(s_booked_order_id)) ||
  match r.(s_reserved_until) with
  | Some t => (now <? t) && bool_decide (r.(s_hold_id) <> Some hold)
  | None => false
  end.

(** [{**response, "total": .., "currency": .., "expires_at": .., "persistence_status": "DURABLE"}] *)
Definition durable_doc (response : hold_doc) (total : Z) (currency : string) (expires : Z) : hold_doc :=
  HoldDoc response.(hd_hold_id) response.(hd_order_id) expires total currency response.(hd_seats)
    response.(hd_command_id) response.(hd_expires_at_epoch) (Some PS_DURABLE) response.(hd_error_code).

Definition persist_tx (p : command_payload) (resp : hold_doc) : W response :=
  previous ← sql (fun d => d.(reservation_commands) !! p.(cp_command_id));
  match previous with
  | Some c =>
      _ ← raise_if (bool_decide (c.(rcmd_request_hash) <> p.(cp_request_hash)))
            (Failure "RESERVATION_COMMAND_MISMATCH" 409);
      mret c.(rcmd_response)
  | None =>
      replay ← idem p.(cp_actor) "hold" p.(cp_idempotency_key) (command_request p);
      match replay with
      | Some (RHold doc) =>
          _ ← raise_if (bool_decide (doc.(hd_hold_id) <> p.(cp_hold_id)) ||
                        bool_decide (doc.(hd_order_id) <> p.(cp_order_id)))
                (Failure "RESERVATION_COMMAND_MISMATCH" 409);
          mret (RHold doc)
      | Some _ => raise (PyError "KeyError" "hold_id")
      | None =>
          sale_row ← sql (fun d => d.(events) !! p.(cp_event_id));
          sale ← or_raise sale_row (Failure "EVENT_NOT_FOUND" 404);
          rows ← sql (select_seats p.(cp_event_id) (sorted_seats p.(cp_seat_ids)));
          _ ← lock_nowait (map (fun sr => LockSeat p.(cp_event_id) sr.1) rows);
          now ← clock_timestamp;
          _ ← raise_if (negb (sale_open sale now)) (Failure "SALE_CLOSED" 409);
          _ ← raise_if (bool_decide (length rows <> length p.(cp_seat_ids))) (Failure "SEAT_NOT_FOUND" 404);
          let expires := p.(cp_expires_at) in
          _ ← raise_if (expires <=? now) (Failure "HOLD_EXPIRED" 409);
          _ ← raise_if (existsb (fun sr => seat_taken_by_other now p.(cp_hold_id) sr.2) rows)
                (Failure "SEAT_UNAVAILABLE" 409);
          let total := total_price rows in
          let durable := RHold (durable_doc resp total sale.(ev_currency) expires) in
          _ ← grant p.(cp_actor) p.(cp_event_id) p.(cp_hold_id) p.(cp_order_id) expires total
                sale.(ev_currency) (sorted_seats p.(cp_seat_ids)) rows;
          _ ← remember p.(cp_actor) "hold" p.(cp_idempotency_key) durable;
          _ ← insert_command p.(cp_command_id)
                (CommandRow p.(cp_actor) p.(cp_idempotency_key) p.(cp_request_hash) p.(cp_event_id)
                   p.(cp_hold_id) p.(cp_order_id) durable);
          mret durable
      end
  end.

Definition persist_reservation_command (p : command_payload) (resp : hold_doc) : W response :=
  _ ← raise_if (bool_decide (digest (command_request p) <> p.(cp_request_hash)))
        (Failure "RESERVATION_COMMAND_MISMATCH" 422);
  transaction (persist_tx p resp).

(** ** checkout, get_order, get_hold *)

Definition checkout_tx (actor : string) (hold_id : uuid) (key : string) : W response :=
  replay ← idem actor "order" key (ReqOrder hold_id);
  match replay with
  | Some r => mret r
  | None =>
      found ← sql (order_of_hold hold_id actor);
      _ ← lock_nowait (match found with Some (id, _) => [LockOrder id] | None => [] end);
      row ← or_raise found (Failure "HOLD_NOT_FOUND" 404);
      hold_row ← sql (fun d => d.(holds) !! hold_id);
      now ← clock_timestamp;
      _ ← (if bool_decide (row.2.(o_status) = O_PENDING) then
             hold ← or_raise hold_row NoneType;
             raise_if (hold.(h_expires_at) <=? now) (Failure "HOLD_EXPIRED" 409)
           else mret tt);
      remember actor "order" key
        (ROrder row.1 row.2.(o_status) row.2.(o_total) row.2.(o_currency))
  end.

Definition checkout (actor : string) (hold_id : uuid) (key : string) : W response :=
  transaction (checkout_tx actor hold_id key).

(** [SELECT t.id,b.seat_id FROM tickets t JOIN bookings b .. WHERE b.order_id=.. ORDER BY b.seat_id] *)
Definition tickets_of_order (order_id : uuid) (d : db) : list (uuid * string) :=
  order_by_text (fun ts => ts.2)
    (omap (fun kt : uuid * ticket_row =>
       match d.(bookings) !! kt.2.(t_booking_id) with
       | Some b => if bool_decide (b.(b_order_id) = order_id) then Some (kt.1, b.(b_seat_id)) else None
       | None => None
       end) (map_to_list d.(tickets))).

Definition get_order (actor : string) (order_id : uuid) : W (order_row * list (uuid * string)) :=
  transaction (
    found ← sql (order_for_actor order_id actor);
    row ← or_raise found (Failure "ORDER_NOT_FOUND" 404);
    issued ← sql (tickets_of_order order_id);
    mret (row, issued)).

Definition get_hold (actor : string) (hold_id : uuid) : W hold_row :=
  transaction (
    found ← sql (fun d => d.(holds) !! hold_id);
    row ← or_raise (match found with
                    | Some h => if bool_decide (h.(h_actor) = actor) then Some h else None
                    | None => None
                    end) (Failure "HOLD_NOT_FOUND" 404);
    now ← clock_timestamp;
    mret (if bool_decide (row.(h_status) = H_ACTIVE) && (row.(h_expires_at) <=? now)
          then hold_with_status H_EXPIRED row else row)).

(** ** release and expiry *)

Definition _release (order_id : uuid) (order : order_row) (state : hold_status) : W unit :=
  let h := order.(o_hold_id) in
  _ ← lock_nowait [LockHold h];
  held ← sql (seats_of_hold h);
  _ ← lock_nowait (map (fun kr => LockSeat kr.1.1 kr.1.2) held);
  let released := filter (fun kr : (uuid * string) * seat_row => kr.2.(s_booked_order_id) = None) held in
  _ ← update_seats (fun _ r => bool_decide (r.(s_hold_id) = Some h /\ r.(s_booked_order_id) = None)) seat_free;
  _ ← update_hold_status h (fun r => bool_decide (r.(h_status) = H_ACTIVE)) state;
  _ ← update_order_status order_id (fun r => bool_decide (r.(o_status) = O_PENDING)) O_EXPIRED;
  event order_id (EvSeatsChanged order.(o_event_id) (Some (map (fun kr => kr.1.2) released))).

Definition release_tx (actor : string) (hold_id : uuid) : W unit :=
  found ← sql (order_of_hold hold_id actor);
  _ ← lock_nowait (match found with Some (id, _) => [LockOrder id] | None => [] end);
  order ← or_raise found (Failure "HOLD_NOT_FOUND" 404);
  _ ← raise_if (is_booked order.2.(o_status)) (Failure "ALREADY_BOOKED" 409);
  _release order.1 order.2 H_RELEASED.

Definition release (actor : string) (hold_id : uuid) : W string :=
  _ ← transaction (release_tx actor hold_id);
  mret "RELEASED".

(** Orders of the active holds that have expired, oldest expiry first. *)
Definition expired_orders (now : Z) (d : db) : list (uuid * order_row) :=
  map fst (order_by snd
    (omap (fun ko : uuid * order_row =>
       match d.(holds) !! ko.2.(o_hold_id) with
       | Some h => if bool_decide (h.(h_status) = H_ACTIVE) && (h.(h_expires_at) <=? now)
                   then Some (ko, h.(h_expires_at)) else None
       | None => None
       end) (map_to_list d.(orders)))).

Definition expire_tx (limit : Z) : W Z :=
  now ← clock_timestamp;
  due ← sql (expired_orders now);
  free ← skip_locked (fun ko => LockOrder ko.1) due;
  let batch := take (Z.to_nat limit) free in
  _ ← for_each batch (fun ko => _release ko.1 ko.2 H_EXPIRED);
  mret (Z.of_nat (length batch)).

Definition expire_batch (limit : Z) : W Z :=
  _ ← raise_if (negb ((1 <=? limit) && (limit <=? 100)))
        (PyError "ValueError" "Expiry batch limit must be between 1 and 100");
  transaction (expire_tx limit).

Definition expire_one : W bool :=
  n ← expire_batch 1; mret (bool_decide (n <> 0)).

(** ** initiate_payment *)

Definition initiate_payment_tx (actor : string) (order_id : uuid) (key : string) (outcome : pay_outcome)
    (delay_seconds duplicates : Z) : W response :=
  replay ← idem actor "payment" key (ReqPayment order_id outcome delay_seconds duplicates);
  match replay with
  | Some r => mret r
  | None =>
      found ← sql (order_for_actor order_id actor);
      _ ← lock_nowait (match found with Some _ => [LockOrder order_id] | None => [] end);
      order ← or_raise found (Failure "ORDER_NOT_FOUND" 404);
      existing ← sql (payment_of_order order_id);
      result ← match existing with
               | Some (id, _) => mret (RPayment id order_id)
               | None =>
                   hold_row ← sql (fun d => d.(holds) !! order.(o_hold_id));
                   now ← clock_timestamp;
                   _ ← (if bool_decide (order.(o_status) <> O_PENDING) then
                          raise (Failure "ORDER_NOT_PAYABLE" 409)
                        else
                          hold ← or_raise hold_row NoneType;
                          raise_if (hold.(h_expires_at) <=? now) (Failure "ORDER_NOT_PAYABLE" 409));
                   payment_id ← uuid4;
                   _ ← insert_payment payment_id
                         (PaymentRow order_id P_PENDING outcome (now + seconds delay_seconds) 0 duplicates
                            None None);
                   mret (RPayment payment_id order_id)
               end;
      remember actor "payment" key result
  end.

Definition initiate_payment (actor : string) (order_id : uuid) (key : string) (outcome : pay_outcome)
    (delay_seconds duplicates : Z) : W response :=
  transaction (initiate_payment_tx actor order_id key outcome delay_seconds duplicates).

(** ** callback *)

(** The row still belongs to the hold, unbooked and unexpired. *)
Definition seat_valid (h : uuid) (now : Z) (r : seat_row) : bool :=
  bool_decide (r.(s_hold_id) = Some h) && bool_decide (r.(s_booked_order_id) = None) &&
  match r.(s_reserved_until) with Some t => now <? t | None => false end.

Definition hold_valid (h : uuid) (hold : hold_row) (now : Z) (seats : list ((uuid * string) * seat_row)) : bool :=
  bool_decide (hold.(h_status) = H_ACTIVE) && (now <? hold.(h_expires_at)) &&
  forallb (fun kr => seat_valid h now kr.2) seats.

(** The effects of [decision == "BOOK"]. *)
Definition book (order_id : uuid) (order : order_row) (seats : list ((uuid * string) * seat_row)) : W unit :=
  let h := order.(o_hold_id) in
  _ ← for_each seats (fun kr =>
        id ← uuid4; insert_booking id (BookingRow order.(o_event_id) kr.1.2 order_id));
  _ ← update_seats (fun _ r => bool_decide (r.(s_hold_id) = Some h)) (seat_book order_id);
  _ ← update_hold_status h (fun _ => true) H_CONSUMED;
  _ ← update_order_status order_id (fun _ => true) O_PAID;
  event order_id (EvOrderPaid order_id).

(** The effects of [decision in {"REFUND", "FAILED"}]. *)
Definition refund_or_fail (dec : decision) (payment_id order_id : uuid) (order : order_row) : W unit :=
  let refund := bool_decide (dec = REFUND) in
  _ ← _release order_id order (if refund then H_EXPIRED else H_RELEASED);
  _ ← update_order_status order_id (fun _ => true) (if refund then O_REFUND_PENDING else O_FAILED);
  if refund then
    _ ← insert_refund payment_id (RefundRow order_id R_PENDING);
    event order_id (EvRefundRequested payment_id order_id)
  else mret tt.

Definition callback_tx (payload : callback_payload) : W string :=
  let payment_id := payload.(cb_payment_id) in
  seen ← sql (fun d => d.(payment_attempts) !! payment_id);
  first ← or_raise seen (Failure "PAYMENT_NOT_FOUND" 404);
  let order_id := first.(p_order_id) in
  order_row ← sql (fun d => d.(orders) !! order_id);
  _ ← lock_nowait [LockOrder order_id];
  payment_row ← sql (fun d => d.(payment_attempts) !! payment_id);
  _ ← lock_nowait [LockPayment payment_id];
  order ← or_raise order_row NoneType;
  payment ← or_raise payment_row NoneType;
  _ ← raise_if (bool_decide (order_id <> payload.(cb_order_id)) ||
                negb (order.(o_total) =? payload.(cb_amount)) ||
                bool_decide (order.(o_currency) <> payload.(cb_currency)))
        (Failure "PAYMENT_MISMATCH" 422);
  previous ← sql (fun d => d.(payment_callbacks) !! payload.(cb_callback_id));
  match previous with
  | Some c =>
      _ ← raise_if (bool_decide (c.(c_payload_hash) <> digest (ReqCallback payload)))
            (Failure "CALLBACK_MISMATCH" 409);
      mret "duplicate"
  | None =>
      _ ← insert_callback payload.(cb_callback_id) (CallbackRow payment_id (digest (ReqCallback payload)));
      if bool_decide (payment.(p_status) = P_SUCCEEDED) then mret "duplicate"
      else
        hold_row ← sql (fun d => d.(holds) !! order.(o_hold_id));
        _ ← lock_nowait [LockHold order.(o_hold_id)];
        seats ← sql (seats_of_order order_id);
        _ ← lock_nowait (map (fun kr => LockSeat kr.1.1 kr.1.2) seats);
        now ← clock_timestamp;
        valid ← match seats with
                | [] => mret false
                | _ => hold ← or_raise hold_row NoneType; mret (hold_valid order.(o_hold_id) hold now seats)
                end;
        let dec := payment_decision order.(o_status) valid payload.(cb_outcome) in
        _ ← update_db (set_payment_attempts
              (update_where (fun k _ => bool_decide (k = payment_id))
                 (payment_with_status (outcome_status payload.(cb_outcome)))));
        _ ← match dec with
            | BOOK => book order_id order seats
            | REFUND | FAIL => refund_or_fail dec payment_id order_id order
            | UNCHANGED => mret tt
            end;
        _ ← event order_id (EvSeatsChanged order.(o_event_id) (Some (map (fun kr => kr.1.2) seats)));
        mret (decision_lower dec)
  end.

Definition callback (payload : callback_payload) : W string :=
  transaction (callback_tx payload).
End store.
