(* ===== verification/Invariant.v ===== *)
(** * The invariant of the commerce tables

    What every operation keeps true of seats, holds, orders, bookings, payments, refunds, tickets and
    idempotency records.  [inv_core] ties seats to holds and orders; [inv_pay] ties payments and
    refunds to order statuses; [inv_tickets] ties tickets to bookings; [inv_idem] says that every
    committed idempotency record carries its response.  The effect of each operation is an explicit
    function on databases ([granted], [released], ..) with one preservation lemma. *)

From S2P Require Import Prelude Domain Schema World Postgres Sql Observability Reservations.

(** ** Status classes *)

(** The payment has been collected. *)
Definition settled (s : order_status) : bool :=
  match s with O_PAID | O_FULFILLED | O_REFUND_PENDING | O_REFUNDED => true | _ => false end.
Definition refunding (s : order_status) : bool :=
  match s with O_REFUND_PENDING | O_REFUNDED => true | _ => false end.

(** ** The invariant *)

Record inv_core (d : db) : Prop := InvCore {
  ic_order_hold : forall o r, d.(orders) !! o = Some r ->
    exists h, d.(holds) !! r.(o_hold_id) = Some h /\
      h.(h_event_id) = r.(o_event_id) /\ h.(h_actor) = r.(o_actor) /\
      (h.(h_status) = H_ACTIVE <-> r.(o_status) = O_PENDING) /\
      (h.(h_status) = H_CONSUMED <-> is_booked r.(o_status) = true);
  ic_order_unique : forall o1 o2 r1 r2, d.(orders) !! o1 = Some r1 -> d.(orders) !! o2 = Some r2 ->
    r1.(o_hold_id) = r2.(o_hold_id) -> o1 = o2;
  ic_seat_row : forall k r, d.(event_seats) !! k = Some r -> seat_row_ok r = true;
  ic_seat_hold : forall k r h, d.(event_seats) !! k = Some r -> r.(s_hold_id) = Some h ->
    exists hr o orow it, d.(holds) !! h = Some hr /\ hr.(h_status) = H_ACTIVE /\
      r.(s_reserved_until) = Some hr.(h_expires_at) /\
      d.(orders) !! o = Some orow /\ orow.(o_hold_id) = h /\
      d.(order_items) !! (o, k.2) = Some it /\ it.(i_event_id) = k.1;
  ic_item : forall o s it, d.(order_items) !! (o, s) = Some it ->
    exists orow r, d.(orders) !! o = Some orow /\ it.(i_event_id) = orow.(o_event_id) /\
      d.(event_seats) !! (it.(i_event_id), s) = Some r /\ r.(s_price) = it.(i_price);
  ic_seat_booked : forall k r o, d.(event_seats) !! k = Some r -> r.(s_booked_order_id) = Some o ->
    exists orow it b, d.(orders) !! o = Some orow /\ is_booked orow.(o_status) = true /\
      d.(order_items) !! (o, k.2) = Some it /\ it.(i_event_id) = k.1 /\
      d.(bookings) !! b = Some (BookingRow k.1 k.2 o);
  ic_booking : forall b br, d.(bookings) !! b = Some br ->
    exists r, d.(event_seats) !! (br.(b_event_id), br.(b_seat_id)) = Some r /\
      r.(s_booked_order_id) = Some br.(b_order_id);
  ic_booking_unique : forall b1 b2 r1 r2, d.(bookings) !! b1 = Some r1 -> d.(bookings) !! b2 = Some r2 ->
    r1.(b_event_id) = r2.(b_event_id) -> r1.(b_seat_id) = r2.(b_seat_id) -> b1 = b2;
  ic_booked_items : forall o orow s it, d.(orders) !! o = Some orow -> is_booked orow.(o_status) = true ->
    d.(order_items) !! (o, s) = Some it ->
    exists r, d.(event_seats) !! (it.(i_event_id), s) = Some r /\ r.(s_booked_order_id) = Some o;
}.

Record inv_pay (d : db) : Prop := InvPay {
  ip_order : forall p r, d.(payment_attempts) !! p = Some r -> is_Some (d.(orders) !! r.(p_order_id));
  ip_unique : forall p1 p2 r1 r2, d.(payment_attempts) !! p1 = Some r1 ->
    d.(payment_attempts) !! p2 = Some r2 -> r1.(p_order_id) = r2.(p_order_id) -> p1 = p2;
  ip_succeeded : forall p r o, d.(payment_attempts) !! p = Some r -> r.(p_status) = P_SUCCEEDED ->
    d.(orders) !! r.(p_order_id) = Some o -> settled o.(o_status) = true;
  ip_settled : forall o r, d.(orders) !! o = Some r -> settled r.(o_status) = true ->
    exists p pr, d.(payment_attempts) !! p = Some pr /\ pr.(p_order_id) = o /\ pr.(p_status) = P_SUCCEEDED;
  ip_refund : forall p rr, d.(refund_requests) !! p = Some rr ->
    exists pr o, d.(payment_attempts) !! p = Some pr /\ pr.(p_order_id) = rr.(r_order_id) /\
      pr.(p_status) = P_SUCCEEDED /\
      d.(orders) !! rr.(r_order_id) = Some o /\ refunding o.(o_status) = true;
  ip_refunding : forall o r, d.(orders) !! o = Some r -> refunding r.(o_status) = true ->
    exists p pr rr, d.(payment_attempts) !! p = Some pr /\ pr.(p_order_id) = o /\
      d.(refund_requests) !! p = Some rr /\ rr.(r_order_id) = o;
}.

(** Sum of the prices of an order's items. *)
Definition items_total (o : uuid) (m : gmap (uuid * string) item_row) : Z :=
  map_fold (fun k it n => if bool_decide (k.1 = o) then it.(i_price) + n else n) 0 m.

Definition inv_totals (d : db) : Prop :=
  forall o r, d.(orders) !! o = Some r -> r.(o_total) = items_total o d.(order_items).

Record inv_tickets (d : db) : Prop := InvTickets {
  it_booking : forall t tr, d.(tickets) !! t = Some tr -> is_Some (d.(bookings) !! tr.(t_booking_id));
  it_unique : forall t1 t2 r1 r2, d.(tickets) !! t1 = Some r1 -> d.(tickets) !! t2 = Some r2 ->
    r1.(t_booking_id) = r2.(t_booking_id) -> t1 = t2;
  it_fulfilled : forall o r b br, d.(orders) !! o = Some r -> r.(o_status) = O_FULFILLED ->
    d.(bookings) !! b = Some br -> br.(b_order_id) = o ->
    exists t tr, d.(tickets) !! t = Some tr /\ tr.(t_booking_id) = b;
}.

Definition inv_idem (d : db) : Prop :=
  forall k r, d.(idempotency_records) !! k = Some r -> is_Some r.(id_response).

(** Everything except the idempotency records, which a transaction completes last. *)
Record inv_commerce (d : db) : Prop := InvCommerce {
  inv_c : inv_core d;
  inv_p : inv_pay d;
  inv_t : inv_totals d;
  inv_tk : inv_tickets d;
}.

Record inv (d : db) : Prop := Inv {
  inv_com : inv_commerce d;
  inv_i : inv_idem d;
}.

(** The tables the commerce invariant reads. *)
Definition commerce_eq (d d' : db) : Prop :=
  d'.(holds) = d.(holds) /\ d'.(orders) = d.(orders) /\ d'.(event_seats) = d.(event_seats) /\
  d'.(order_items) = d.(order_items) /\ d'.(bookings) = d.(bookings) /\
  d'.(payment_attempts) = d.(payment_attempts) /\
  d'.(refund_requests) = d.(refund_requests) /\ d'.(tickets) = d.(tickets).

#[global] Instance commerce_eq_equiv : Equivalence commerce_eq.
Proof. split; unfold commerce_eq; repeat intro; destruct_and?; repeat split; congruence. Qed.

#[global] Instance inv_commerce_proper : Proper (commerce_eq ==> impl) inv_commerce.
Proof.
  intros d d' (Hh & Ho & Hs & Hi & Hb & Hp & Hr & Ht) [[] [] Htot []].
  split; [split|split|unfold inv_totals|split]; rewrite ?Hh, ?Ho, ?Hs, ?Hi, ?Hb, ?Hp, ?Hr, ?Ht; done.
Qed.

Lemma inv_commerce_eq d d' : commerce_eq d d' -> inv_commerce d -> inv_commerce d'.
Proof. intros Heq Hd. by rewrite <-Heq. Qed.

(** ** Lookups in updated tables *)

Lemma update_where_Some {K A} `{Countable K} (P : K -> A -> bool) f (m : gmap K A) k a' :
  update_where P f m !! k = Some a' <->
  exists a, m !! k = Some a /\ a' = (if P k a then f a else a).
Proof.
  rewrite lookup_update_where. destruct (m !! k); simpl; naive_solver.
Qed.

Lemma update_where_ext {K A} `{Countable K} (P P' : K -> A -> bool) f (m : gmap K A) :
  (forall k a, P k a = P' k a) -> update_where P f m = update_where P' f m.
Proof. intros Heq. apply map_eq. intros k. rewrite !lookup_update_where. destruct (m !! k); simpl; by rewrite ?Heq. Qed.

(** The items added for one order. *)
Definition add_items (o ev : uuid) (rows : list (string * seat_row)) (m : gmap (uuid * string) item_row)
    : gmap (uuid * string) item_row :=
  foldl (fun m sr => <[(o, sr.1) := ItemRow ev sr.2.(s_price)]> m) m rows.

Lemma add_items_other o ev rows m o' s : o' <> o -> add_items o ev rows m !! (o', s) = m !! (o', s).
Proof.
  unfold add_items. revert m. induction rows as [|sr rows IH]; intros m Hne; simpl; [done|].
  rewrite IH by done. by rewrite lookup_insert_ne by congruence.
Qed.

Lemma add_items_miss o ev rows m s : s ∉ rows.*1 -> add_items o ev rows m !! (o, s) = m !! (o, s).
Proof.
  unfold add_items. revert m. induction rows as [|[x r] rows IH]; intros m; simpl; [done|].
  rewrite not_elem_of_cons. intros [Hne Hn]. rewrite IH by done.
  by rewrite lookup_insert_ne by congruence.
Qed.

Lemma add_items_hit o ev rows m s r :
  NoDup rows.*1 -> (s, r) ∈ rows -> add_items o ev rows m !! (o, s) = Some (ItemRow ev r.(s_price)).
Proof.
  revert m. induction rows as [|[x r'] rows IH]; intros m Hnd Hin; simpl; [by apply not_elem_of_nil in Hin|].
  apply NoDup_cons in Hnd as [Hx Hnd]. apply elem_of_cons in Hin as [[= -> ->]|Hin].
  - unfold add_items. simpl. fold (add_items o ev rows (<[(o, x) := ItemRow ev (s_price r')]> m)).
    rewrite add_items_miss by done. by rewrite lookup_insert_eq.
  - by apply IH.
Qed.

Lemma add_items_inv o ev rows m o' s it :
  NoDup rows.*1 -> add_items o ev rows m !! (o', s) = Some it ->
  (o' = o /\ exists r, (s, r) ∈ rows /\ it = ItemRow ev r.(s_price)) \/ m !! (o', s) = Some it.
Proof.
  intros Hnd Hl. destruct (decide (o' = o)) as [->|]; [|rewrite add_items_other in Hl by done; auto].
  destruct (decide (s ∈ rows.*1)) as [Hs|Hs]; [|rewrite add_items_miss in Hl by done; auto].
  apply list_elem_of_fmap in Hs as ([x r] & -> & Hin). simpl in *.
  rewrite (add_items_hit _ _ _ _ _ r) in Hl by done. left. split; [done|]. exists r. by simplify_eq.
Qed.

Lemma items_total_insert o o' s it m :
  m !! (o', s) = None ->
  items_total o (<[(o', s) := it]> m) = (if bool_decide (o' = o) then it.(i_price) else 0) + items_total o m.
Proof.
  intros Hn. unfold items_total. rewrite map_fold_insert_L; [|..|done].
  - simpl. case_bool_decide; lia.
  - intros. repeat case_bool_decide; lia.
Qed.

Lemma items_total_none o m : (forall s it, m !! (o, s) = Some it -> False) -> items_total o m = 0.
Proof.
  induction m as [|[o' s] it m Hn IH] using map_ind; intros Hno; [done|].
  rewrite items_total_insert by done. rewrite bool_decide_eq_false_2.
  - rewrite IH; [lia|]. intros s' it' Hl. apply (Hno s' it').
    rewrite lookup_insert_ne; [done|]. intros [= -> ->]. congruence.
  - intros ->. apply (Hno s it). by rewrite lookup_insert_eq.
Qed.

Lemma items_total_add o o' ev rows m :
  NoDup rows.*1 -> (forall s it, m !! (o', s) = Some it -> False) ->
  items_total o (add_items o' ev rows m) =
  (if bool_decide (o' = o) then total_price rows else 0) + items_total o m.
Proof.
  intros Hnd Hno. assert (forall s, s ∈ rows.*1 -> m !! (o', s) = None) as Hn.
  { intros s _. apply eq_None_not_Some. intros [it Hit]. by eapply Hno. }
  clear Hno. revert m Hn. induction rows as [|[x r] rows IH]; intros m Hn; simpl.
  { case_bool_decide; lia. }
  apply NoDup_cons in Hnd as [Hx Hnd].
  unfold add_items. simpl. fold (add_items o' ev rows (<[(o', x) := ItemRow ev (s_price r)]> m)).
  rewrite IH; [|done|].
  - rewrite items_total_insert by (apply Hn; simpl; apply list_elem_of_here).
    simpl. case_bool_decide; lia.
  - intros s Hs. rewrite lookup_insert_ne by (intros [= ->]; done).
    apply Hn. simpl. by apply list_elem_of_further.
Qed.
