(* ===== verification/InvReserve.v ===== *)
(** * Reservations keep the invariant

    The effect of [Reservations.grant] as a function on databases, its preservation lemma, and the
    bodies [reserve_tx], [persist_tx], [checkout_tx] and [initiate_payment_tx]. *)

From S2P Require Import Prelude Domain Schema World Postgres Sql Observability Reservations Invariant.

(** ** Selected rows *)

Lemma select_seats_NoDup ev ids d : NoDup (select_seats ev ids d).*1.
Proof.
  unfold select_seats. assert (NoDup (sorted_seats (set_of ids))) as Hnd.
  { apply sorted_seats_NoDup, NoDup_remove_dups. }
  induction Hnd as [|s l Hs Hnd IH]; csimpl; [constructor|].
  destruct (event_seats d !! (ev, s)); csimpl; [|done].
  constructor; [|done]. intros ([y r] & Hy & Hin)%list_elem_of_fmap. simpl in Hy. subst y.
  apply list_elem_of_omap in Hin as (x & Hx & Hr).
  destruct (event_seats d !! (ev, x)); simplify_eq/=. done.
Qed.

(** Every requested seat is selected exactly when none is missing and none repeated. *)
Lemma select_seats_all ev ids d :
  length (select_seats ev ids d) = length ids ->
  NoDup ids /\ forall s, s ∈ ids -> is_Some (d.(event_seats) !! (ev, s)).
Proof.
  unfold select_seats. intros Hlen.
  set (f := fun s => (fun r => (s, r)) <$> d.(event_seats) !! (ev, s)) in Hlen.
  pose proof (length_omap_le f (sorted_seats (set_of ids))) as H1.
  pose proof (set_of_length_le ids) as H2. pose proof (sorted_seats_length (set_of ids)) as H3.
  split; [apply set_of_length; lia|]. intros s Hs.
  assert (is_Some (f s)) as [? Hf].
  { apply (length_omap_all f (sorted_seats (set_of ids))); [lia|].
    apply elem_of_sorted_seats. by apply elem_of_remove_dups. }
  unfold f in Hf. destruct (event_seats d !! (ev, s)); [by eexists|done].
Qed.

(** ** The effect of a grant *)

Section granted.
Context (actor : string) (ev hold order : uuid) (expires total : Z) (currency : string)
  (seats : list string) (rows : list (string * seat_row)).

Definition in_request (k : uuid * string) (_ : seat_row) : bool :=
  bool_decide (k.1 = ev /\ k.2 ∈ seats).

Definition granted (d : db) : db :=
  set_order_items (add_items order ev rows)
    (set_event_seats (update_where in_request (seat_hold hold expires))
      (set_orders <[order := OrderRow actor hold ev total currency O_PENDING]>
        (set_holds <[hold := HoldRow actor ev expires H_ACTIVE]> d))).

(** What the statements have checked when a grant returns. *)
Record grantable (d : db) : Prop := Grantable {
  ga_hold : d.(holds) !! hold = None;
  ga_order : d.(orders) !! order = None;
  ga_order_hold : forall o r, d.(orders) !! o = Some r -> r.(o_hold_id) <> hold;
  ga_checks : forall k r, d.(event_seats) !! k = Some r -> in_request k r = true ->
    seat_row_ok (seat_hold hold expires r) = true;
  ga_rows : forall s r, (s, r) ∈ rows <-> s ∈ seats /\ d.(event_seats) !! (ev, s) = Some r;
  ga_nodup : NoDup rows.*1;
  ga_all : forall s, s ∈ seats -> is_Some (d.(event_seats) !! (ev, s));
}.

Lemma seat_hold_unbooked r : seat_row_ok (seat_hold hold expires r) = true -> r.(s_booked_order_id) = None.
Proof.
  by destruct r as [pr h u [b|] v].
Qed.

Context (d : db) (Hg : grantable d) (Hinv : inv_core d).

Lemma granted_seat k r' :
  (granted d).(event_seats) !! k = Some r' <->
  exists r, d.(event_seats) !! k = Some r /\ r' = (if in_request k r then seat_hold hold expires r else r).
Proof. unfold granted. simpl. apply update_where_Some. Qed.

Lemma granted_item_old o s it :
  d.(order_items) !! (o, s) = Some it -> (granted d).(order_items) !! (o, s) = Some it.
Proof.
  intros Hi. unfold granted. simpl. rewrite add_items_other; [done|].
  intros ->. destruct (ic_item d Hinv _ _ _ Hi) as (orow & r & Ho & _).
  rewrite (ga_order d Hg) in Ho. done.
Qed.

Lemma granted_order_old o r : d.(orders) !! o = Some r -> (granted d).(orders) !! o = Some r.
Proof.
  intros Ho. unfold granted. simpl. rewrite lookup_insert_ne; [done|].
  intros <-. rewrite (ga_order d Hg) in Ho. done.
Qed.

Lemma granted_order_inv o r :
  (granted d).(orders) !! o = Some r ->
  (o = order /\ r = OrderRow actor hold ev total currency O_PENDING) \/ (o <> order /\ d.(orders) !! o = Some r).
Proof. unfold granted. simpl. rewrite lookup_insert_Some. naive_solver. Qed.

Lemma granted_hold_old h r : d.(holds) !! h = Some r -> (granted d).(holds) !! h = Some r.
Proof.
  intros Hh. unfold granted. simpl. rewrite lookup_insert_ne; [done|].
  intros <-. rewrite (ga_hold d Hg) in Hh. done.
Qed.

(** Seats keep their price, and a booked seat is untouched. *)
Lemma granted_seat_old k r :
  d.(event_seats) !! k = Some r ->
  exists r', (granted d).(event_seats) !! k = Some r' /\ r'.(s_price) = r.(s_price) /\
    r'.(s_booked_order_id) = r.(s_booked_order_id).
Proof.
  intros Hk. eexists. split; [apply granted_seat; eauto|].
  by destruct (in_request k r).
Qed.

Lemma granted_core : inv_core (granted d).
Proof.
  destruct Hinv as [H1 H2 H3 H4 H5 H6 H7 H8 H9]. split.
  - intros o r [[-> ->]|[_ Ho]]%granted_order_inv; simpl.
    + eexists. split; [by rewrite lookup_insert_eq|]. simpl. done.
    + destruct (H1 _ _ Ho) as (h & Hh & ?). exists h. split; [by apply granted_hold_old|done].
  - intros o1 o2 r1 r2 [[-> ->]|[_ Ho1]]%granted_order_inv [[-> ->]|[_ Ho2]]%granted_order_inv; simpl; eauto.
    + intros Heq. by destruct (ga_order_hold d Hg _ _ Ho2).
    + intros Heq. by destruct (ga_order_hold d Hg _ _ Ho1).
  - intros k r' (r & Hk & ->)%granted_seat. destruct (in_request k r) eqn:Hr; [|eauto].
    by apply (ga_checks d Hg k).
  - intros k r' h (r & Hk & ->)%granted_seat. destruct (in_request k r) eqn:Hr; simpl.
    + intros [= <-]. apply bool_decide_eq_true in Hr as [Hev Hs].
      exists (HoldRow actor ev expires H_ACTIVE), order,
        (OrderRow actor hold ev total currency O_PENDING), (ItemRow ev r.(s_price)).
      rewrite !lookup_insert_eq. repeat split; [|done].
      rewrite (add_items_hit _ _ _ _ _ r); [done|apply Hg|]. apply (ga_rows d Hg).
      split; [done|]. destruct k; simpl in *. congruence.
    + intros Hh. destruct (H4 _ _ _ Hk Hh) as (hr & o & orow & it & ? & ? & ? & ? & ? & ? & ?).
      exists hr, o, orow, it. repeat split; try done;
        [by apply granted_hold_old|by apply granted_order_old|by apply granted_item_old].
  - intros o s it Hi. apply add_items_inv in Hi as [(-> & r & Hin & ->)|Hi]; [|..|apply Hg]; simpl.
    + apply (ga_rows d Hg) in Hin as [Hs Hk].
      destruct (granted_seat_old _ _ Hk) as (r' & Hr' & Hp & _).
      eexists _, r'. split; [by rewrite lookup_insert_eq|]. done.
    + destruct (H5 _ _ _ Hi) as (orow & r & Ho & He & Hk & Hp).
      destruct (granted_seat_old _ _ Hk) as (r' & Hr' & Hp' & _).
      exists orow, r'. split; [by apply granted_order_old|]. split; [done|]. split; [done|]. congruence.
  - intros k r' o (r & Hk & ->)%granted_seat Hb.
    assert (r.(s_booked_order_id) = Some o) as Hb' by by destruct (in_request k r).
    destruct (H6 _ _ _ Hk Hb') as (orow & it & b & Ho & Hst & Hi & He & Hbk).
    exists orow, it, b. repeat split; try done; [by apply granted_order_old|by apply granted_item_old].
  - intros b br Hb. destruct (H7 _ _ Hb) as (r & Hk & Hbo).
    destruct (granted_seat_old _ _ Hk) as (r' & Hr' & _ & Hbo'). exists r'. split; [done|]. congruence.
  - exact H8.
  - intros o orow s it [[-> ->]|[Hne Ho]]%granted_order_inv Hst Hi; [done|].
    apply add_items_inv in Hi as [(-> & _)|Hi]; [done| |apply Hg].
    destruct (H9 _ _ _ _ Ho Hst Hi) as (r & Hk & Hbo).
    destruct (granted_seat_old _ _ Hk) as (r' & Hr' & _ & Hbo'). exists r'. split; [done|]. congruence.
Qed.

Lemma granted_pay : inv_pay d -> inv_pay (granted d).
Proof.
  intros [H1 H2 H3 H4 H5 H6]. split.
  - intros p r Hp. destruct (H1 _ _ Hp) as [o Ho]. exists o. by apply granted_order_old.
  - exact H2.
  - intros p r o Hp Hs Ho. destruct (H1 _ _ Hp) as [o' Ho'].
    rewrite (granted_order_old _ _ Ho') in Ho. simplify_eq. eauto.
  - intros o r [[-> ->]|[_ Ho]]%granted_order_inv Hs; [done|]. eauto.
  - intros p rr Hr. destruct (H5 _ _ Hr) as (pr & o & ? & ? & ? & Ho & ?).
    exists pr, o. repeat split; try done. by apply granted_order_old.
  - intros o r [[-> ->]|[_ Ho]]%granted_order_inv Hs; [done|]. eauto.
Qed.

Lemma granted_totals : total = total_price rows -> inv_totals d -> inv_totals (granted d).
Proof.
  intros Ht H o r Ho. simpl.
  assert (forall s it, d.(order_items) !! (order, s) = Some it -> False) as Hno.
  { intros s it Hi. destruct (ic_item d Hinv _ _ _ Hi) as (orow & _ & Ho' & _).
    rewrite (ga_order d Hg) in Ho'. done. }
  rewrite items_total_add; [|apply Hg|done].
  apply granted_order_inv in Ho as [[-> ->]|[Hne Ho]]; simpl.
  - rewrite bool_decide_eq_true_2 by done. rewrite items_total_none by done. lia.
  - rewrite bool_decide_eq_false_2 by done. rewrite (H _ _ Ho). lia.
Qed.

Lemma granted_tickets : inv_tickets d -> inv_tickets (granted d).
Proof.
  intros [H1 H2 H3]. split; [done..|].
  intros o r b br [[-> ->]|[_ Ho]]%granted_order_inv Hs; [done|]. by apply (H3 o r).
Qed.

Lemma granted_commerce :
  total = total_price rows -> inv_pay d -> inv_totals d -> inv_tickets d -> inv_commerce (granted d).
Proof. split; auto using granted_core, granted_pay, granted_totals, granted_tickets. Qed.
End granted.

(** ** Rules for the shared pieces of the bodies *)

(** The stores other than the database, unchanged by every body. *)
Definition others_eq (w w' : world) : Prop :=
  w'.(w_redis) = w.(w_redis) /\ w'.(w_kafka) = w.(w_kafka) /\ w'.(w_request_id) = w.(w_request_id).

#[global] Instance others_eq_preorder : PreOrder others_eq.
Proof. split; unfold others_eq; repeat intro; destruct_and?; repeat split; congruence. Qed.

Section body_rules.
Context `{E : Env}.

Lemma wp_event agg body Q w :
  (forall w' id t, w.(w_db).(outbox_events) !! id = None ->
     w'.(w_db) = set_outbox_events <[id := OutboxRow agg body w.(w_request_id) 1 t None None None]> w.(w_db) ->
     others_eq w w' -> Q tt w') ->
  wp (event agg body) Q w.
Proof. intros H. unfold event. wp_sql. simpl in *. by eapply H. Qed.

Lemma wp_idem actor op key req (Q : option response -> world -> Prop) w :
  (forall w', w.(w_db).(idempotency_records) !! (actor, op, key) = None ->
     w'.(w_db) = set_idempotency_records <[(actor, op, key) := IdemRow (digest req) None]> w.(w_db) ->
     others_eq w w' -> Q None w') ->
  (forall w' row, w.(w_db).(idempotency_records) !! (actor, op, key) = Some row ->
     row.(id_request_hash) = digest req -> w'.(w_db) = w.(w_db) -> others_eq w w' ->
     Q row.(id_response) w') ->
  wp (idem actor op key req) Q w.
Proof.
  intros Hnew Hold. unfold idem. wp_sql; simpl in *.
  - bool_hyps. apply (Hold _ i); [done|by apply dec_stable|done|done].
  - by apply Hnew.
Qed.

Lemma wp_remember actor op key resp (Q : response -> world -> Prop) w :
  (forall w', w'.(w_db) = set_idempotency_records
       (update_where (fun k _ => bool_decide (k = (actor, op, key)))
          (fun r => IdemRow r.(id_request_hash) (Some resp))) w.(w_db) ->
     others_eq w w' -> Q resp w') ->
  wp (remember actor op key resp) Q w.
Proof. intros H. unfold remember. wp_sql. by apply H. Qed.

Lemma wp_grant actor ev hold order expires total currency seats rows Q w :
  rows = select_seats ev seats w.(w_db) -> length rows = length seats ->
  (forall w' f, grantable ev hold order expires seats rows w.(w_db) ->
     w'.(w_db) = set_outbox_events f
       (granted actor ev hold order expires total currency seats rows w.(w_db)) ->
     others_eq w w' -> 0 <= total -> Q tt w') ->
  wp (grant actor ev hold order expires total currency seats rows) Q w.
Proof.
  intros Hrows Hlen HQ. unfold grant.
  apply wp_bind, wp_insert_hold. intros Hh _.
  apply wp_bind, wp_insert_order. intros Htot Ho Huniq _. simpl in Ho, Huniq.
  apply wp_bind, wp_update_seats. intros Hck. simpl in Hck.
  apply wp_bind. match goal with |- wp _ _ ?w1 => set (d1 := w_db w1) end.
  eapply (wp_mono _ (fun _ w' => w'.(w_db) = set_order_items (add_items order ev rows) d1 /\ others_eq w w')).
  { eapply wp_mono; [apply (wp_for_each_prefix (fun pre w' =>
      w'.(w_db) = set_order_items (add_items order ev pre) d1 /\ others_eq w w'))|by intros [] ? ?].
    - intros pre x rest w' _ [Hdb Hoth]. apply wp_insert_order_item. intros. simpl.
      split; [|done]. rewrite Hdb. unfold add_items, set_order_items. simpl. by rewrite foldl_app.
    - done. }
  intros [] w' [Hdb Hoth]. apply wp_event. intros w2 id t _ Hdb2 Hoth2.
  apply (HQ w2 <[id := OutboxRow order (EvSeatsChanged ev (Some seats)) w'.(w_request_id) 1 t None None None]>).
  - destruct (select_seats_all ev seats w.(w_db)) as [Hnd Hall]; [congruence|].
    split; [done|done|done|done| | |done].
    + intros s r. subst rows. apply elem_of_select_seats.
    + subst rows. apply select_seats_NoDup.
  - rewrite Hdb2, Hdb. done.
  - by etrans.
  - done.
Qed.
End body_rules.

(** ** reserve_tx *)

(** The database after a granted [reserve]: the idempotency record is completed last. *)
Definition remembered (k : string * string * string) (hash : string) (resp : response) (d : db) : db :=
  set_idempotency_records <[k := IdemRow hash (Some resp)]> d.

Lemma inv_idem_remembered k h resp d : inv_idem d -> inv_idem (remembered k h resp d).
Proof.
  intros H k' r. unfold remembered. simpl. rewrite lookup_insert_Some.
  intros [[<- <-]|[_ Hr]]; [by eexists|eauto].
Qed.

Lemma inv_commerce_remembered k h resp d : inv_commerce d -> inv_commerce (remembered k h resp d).
Proof. by apply inv_commerce_eq. Qed.

Lemma inv_commerce_outbox f d : inv_commerce d -> inv_commerce (set_outbox_events f d).
Proof. by apply inv_commerce_eq. Qed.

Lemma inv_commerce_idem f d : inv_commerce d -> inv_commerce (set_idempotency_records f d).
Proof. by apply inv_commerce_eq. Qed.

Lemma inv_commerce_commands f d : inv_commerce d -> inv_commerce (set_reservation_commands f d).
Proof. by apply inv_commerce_eq. Qed.

Lemma inv_commerce_callbacks f d : inv_commerce d -> inv_commerce (set_payment_callbacks f d).
Proof. by apply inv_commerce_eq. Qed.

Lemma inv_commerce_inbox f d : inv_commerce d -> inv_commerce (set_consumer_inbox f d).
Proof. by apply inv_commerce_eq. Qed.

Lemma inv_commerce_refresh f d : inv_commerce d -> inv_commerce (set_seat_refresh_requests f d).
Proof. by apply inv_commerce_eq. Qed.

#[export] Hint Resolve inv_commerce_commands inv_commerce_callbacks inv_commerce_inbox inv_commerce_refresh : inv.
#[export] Hint Resolve inv_commerce_remembered inv_commerce_outbox inv_commerce_idem inv_idem_remembered : inv.

(** Inserting a record and then filling it in is inserting the filled record. *)
Lemma update_where_insert {K A} `{Countable K} (f : A -> A) k a (m : gmap K A) :
  m !! k = None ->
  update_where (fun k' _ => bool_decide (k' = k)) f (<[k := a]> m) = <[k := f a]> m.
Proof.
  intros Hn. apply map_eq. intros k'. rewrite lookup_update_where.
  destruct (decide (k' = k)) as [->|Hne].
  - rewrite !lookup_insert_eq. simpl. by rewrite bool_decide_eq_true_2.
  - rewrite !lookup_insert_ne by done. destruct (m !! k'); simpl; [|done].
    by rewrite bool_decide_eq_false_2.
Qed.

Section reserve.
Context `{E : Env}.

(** Nobody owns the seat: it is not booked, and a hold on it, if any, has run out (or is [hold] itself). *)
Definition free_at (now : Z) (r : seat_row) : Prop :=
  r.(s_booked_order_id) = None /\ forall t, r.(s_reserved_until) = Some t -> t <= now.
Definition free_for (hold : uuid) (now : Z) (r : seat_row) : Prop :=
  r.(s_booked_order_id) = None /\ forall t, r.(s_reserved_until) = Some t -> now < t -> r.(s_hold_id) = Some hold.

Lemma seat_taken_false now r : seat_taken now r = false <-> free_at now r.
Proof.
  unfold seat_taken, free_at. rewrite orb_false_iff, bool_decide_eq_false, <-eq_None_not_Some.
  destruct (s_reserved_until r) as [t|]; rewrite ?Z.ltb_ge; naive_solver.
Qed.

Lemma seat_taken_by_other_false now hold r : seat_taken_by_other now hold r = false -> free_for hold now r.
Proof.
  unfold seat_taken_by_other, free_for. rewrite orb_false_iff, bool_decide_eq_false, <-eq_None_not_Some.
  intros [Hb Hu]. split; [done|]. intros t Ht Hlt. rewrite Ht in Hu.
  apply andb_false_iff in Hu as [Hu|Hu]; bool_hyps; [lia|by apply dec_stable].
Qed.

(** The facts [reserve_tx] has established when it grants. *)
Record reserve_facts (ev : uuid) (seats : list string) (sale : event_row) (now : Z)
    (rows : list (string * seat_row)) (d : db) : Prop := ReserveFacts {
  rf_now : exists i, now = e_clock i;
  rf_sale : d.(events) !! ev = Some sale;
  rf_open : sale.(ev_sale_starts) <= now < sale.(ev_sale_ends);
  rf_rows : rows = select_seats ev seats d;
  rf_len : length rows = length seats;
  rf_free : forall s r, (s, r) ∈ rows -> free_at now r;
}.

Lemma sale_open_true sale now :
  sale_open sale now = true -> sale.(ev_sale_starts) <= now < sale.(ev_sale_ends).
Proof. unfold sale_open. intros. bool_hyps. lia. Qed.

Lemma existsb_false {A} (f : A -> bool) l : existsb f l = false -> forall x, x ∈ l -> f x = false.
Proof.
  intros H x Hx. destruct (f x) eqn:Hf; [|done].
  assert (existsb f l = true) by (apply existsb_exists; exists x; by rewrite <-list_elem_of_In). congruence.
Qed.

Lemma wp_reserve_tx hold_seconds actor ev seats key (Q : response -> world -> Prop) w :
  inv_idem w.(w_db) ->
  (forall w' row r, w.(w_db).(idempotency_records) !! (actor, "hold", key) = Some row ->
     row.(id_request_hash) = digest (ReqHold ev seats) -> row.(id_response) = Some r ->
     w'.(w_db) = w.(w_db) -> Q r w') ->
  (forall w' f sale now rows hold order,
     let expires := now + seconds hold_seconds in
     let doc := RHold (HoldDoc hold order expires (total_price rows) sale.(ev_currency) seats
                         None None None None) in
     w.(w_db).(idempotency_records) !! (actor, "hold", key) = None ->
     reserve_facts ev seats sale now rows w.(w_db) ->
     grantable ev hold order expires seats rows w.(w_db) -> 0 <= total_price rows ->
     w'.(w_db) = set_outbox_events f (remembered (actor, "hold", key) (digest (ReqHold ev seats)) doc
       (granted actor ev hold order expires (total_price rows) sale.(ev_currency) seats rows w.(w_db))) ->
     Q doc w') ->
  wp (reserve_tx hold_seconds actor ev seats key) Q w.
Proof.
  intros Hidem Hreplay Hfresh. unfold reserve_tx. apply wp_bind, wp_idem.
  - intros w1 Hnone Hdb1 Ho1. simpl. wp_sql. rewrite Hdb1 in *. simpl in *.
    eapply wp_grant; [simpl; by rewrite Hdb1|by apply dec_stable; bool_hyps|].
    intros w2 f Hg Hdb2 Ho2 Htot. apply wp_remember. intros w3 Hdb3 Ho3. simpl in *.
    rewrite Hdb1 in *. eapply (Hfresh w3 f a); [done| |by destruct Hg; split|done|].
    + split; [by eexists|done|by apply sale_open_true, negb_false_iff|done|by apply dec_stable; bool_hyps|].
      intros s r Hin. apply seat_taken_false. by apply (existsb_false _ _ H2 (s, r)).
    + rewrite Hdb3, Hdb2. unfold remembered, granted, set_idempotency_records. simpl.
      by rewrite update_where_insert.
  - intros w1 row Hrow Hh Hdb1 Ho1. destruct (Hidem _ _ Hrow) as [r Hr]. rewrite Hr.
    apply wp_ret. eauto.
Qed.

Lemma reserve_tx_inv hold_seconds actor ev seats key w :
  inv w.(w_db) -> wp (reserve_tx hold_seconds actor ev seats key) (fun _ w' => inv w'.(w_db)) w.
Proof.
  intros Hinv. pose proof Hinv as [[Hc Hp Ht Htk] Hi]. apply wp_reserve_tx; [done| |].
  - by intros w' row r _ _ _ ->.
  - intros w' f sale now rows hold order expires doc Hn Hf Hg Htot Hdb. rewrite Hdb. split.
    + apply inv_commerce_outbox, inv_commerce_remembered.
      by apply granted_commerce.
    + by apply (inv_idem_remembered _ _ _ w.(w_db)).
Qed.

(** ** persist_tx *)

(** The facts [persist_tx] has established when it grants. *)
Record persist_facts (p : command_payload) (sale : event_row) (now : Z)
    (rows : list (string * seat_row)) (d : db) : Prop := PersistFacts {
  pf_now : exists i, now = e_clock i;
  pf_sale : d.(events) !! p.(cp_event_id) = Some sale;
  pf_open : sale.(ev_sale_starts) <= now < sale.(ev_sale_ends);
  pf_live : now < p.(cp_expires_at);
  pf_rows : rows = select_seats p.(cp_event_id) (sorted_seats p.(cp_seat_ids)) d;
  pf_len : length rows = length p.(cp_seat_ids);
  pf_free : forall s r, (s, r) ∈ rows -> free_for p.(cp_hold_id) now r;
}.

(** The row of [reservation_commands] written with the grant. *)
Definition command_of (p : command_payload) (durable : response) : command_row :=
  CommandRow p.(cp_actor) p.(cp_idempotency_key) p.(cp_request_hash) p.(cp_event_id)
    p.(cp_hold_id) p.(cp_order_id) durable.

Lemma wp_persist_tx p resp (Q : response -> world -> Prop) w :
  inv_idem w.(w_db) ->
  (forall w' c, w.(w_db).(reservation_commands) !! p.(cp_command_id) = Some c ->
     c.(rcmd_request_hash) = p.(cp_request_hash) -> w'.(w_db) = w.(w_db) -> Q c.(rcmd_response) w') ->
  (forall w' row doc, w.(w_db).(reservation_commands) !! p.(cp_command_id) = None ->
     w.(w_db).(idempotency_records) !! (p.(cp_actor), "hold", p.(cp_idempotency_key)) = Some row ->
     row.(id_request_hash) = digest (command_request p) -> row.(id_response) = Some (RHold doc) ->
     doc.(hd_hold_id) = p.(cp_hold_id) -> doc.(hd_order_id) = p.(cp_order_id) ->
     w'.(w_db) = w.(w_db) -> Q (RHold doc) w') ->
  (forall w' f sale now rows,
     let durable := RHold (durable_doc resp (total_price rows) sale.(ev_currency) p.(cp_expires_at)) in
     w.(w_db).(reservation_commands) !! p.(cp_command_id) = None ->
     w.(w_db).(idempotency_records) !! (p.(cp_actor), "hold", p.(cp_idempotency_key)) = None ->
     persist_facts p sale now rows w.(w_db) ->
     grantable p.(cp_event_id) p.(cp_hold_id) p.(cp_order_id) p.(cp_expires_at) (sorted_seats p.(cp_seat_ids)) rows w.(w_db) ->
     0 <= total_price rows ->
     w'.(w_db) = set_reservation_commands <[p.(cp_command_id) := command_of p durable]>
       (set_outbox_events f (remembered (p.(cp_actor), "hold", p.(cp_idempotency_key)) (digest (command_request p)) durable
         (granted p.(cp_actor) p.(cp_event_id) p.(cp_hold_id) p.(cp_order_id) p.(cp_expires_at) (total_price rows)
            sale.(ev_currency) (sorted_seats p.(cp_seat_ids)) rows w.(w_db)))) ->
     Q durable w') ->
  wp (persist_tx p resp) Q w.
Proof.
  intros Hidem Hagain Hreplay Hfresh. unfold persist_tx. apply wp_bind, wp_sql.
  destruct (reservation_commands _ !! _) as [c|] eqn:Hc.
  { apply wp_bind, wp_raise_if. intros Hh. bool_hyps. apply wp_ret. apply Hagain; [done|by apply dec_stable|done]. }
  apply wp_bind, wp_idem.
  - intros w1 Hnone Hdb1 Ho1. simpl. wp_sql. rewrite Hdb1 in *. simpl in *.
    eapply wp_grant; [simpl; by rewrite Hdb1| |].
    { rewrite sorted_seats_length. by apply dec_stable; bool_hyps. }
    intros w2 f Hg Hdb2 Ho2 Htot. apply wp_bind, wp_remember. intros w3 Hdb3 Ho3.
    wp_sql. simpl in *. bool_hyps. rewrite Hdb1 in *.
    apply (Hfresh _ f a (e_clock (S (w_tick w1))) (select_seats _ _ w.(w_db))); [done|done| |by destruct Hg; split|done|].
    + split; [by eexists|done|by apply sale_open_true|lia|done|by apply dec_stable|].
      intros s r Hin. apply seat_taken_by_other_false. by apply (existsb_false _ _ H3 (s, r)).
    + simpl. rewrite Hdb3, Hdb2. unfold remembered, granted, set_idempotency_records. simpl.
      by rewrite update_where_insert.
  - intros w1 row Hrow Hh Hdb1 Ho1. destruct (Hidem _ _ Hrow) as [r Hr]. rewrite Hr.
    destruct r as [doc| |]; wp_sql. bool_hyps. apply (Hreplay _ row); first [done|by apply dec_stable].
Qed.

Lemma persist_tx_inv p resp w :
  inv w.(w_db) -> wp (persist_tx p resp) (fun _ w' => inv w'.(w_db)) w.
Proof.
  intros Hinv. pose proof Hinv as [[Hc Hp Ht Htk] Hi]. apply wp_persist_tx; [done| | |].
  - by intros w' c _ _ ->.
  - by intros w' row doc _ _ _ _ _ _ ->.
  - intros w' f sale now rows durable _ Hn Hf Hg Htot ->. split.
    + apply inv_commerce_commands, inv_commerce_outbox, inv_commerce_remembered. by apply granted_commerce.
    + by apply (inv_idem_remembered _ _ _ w.(w_db)).
Qed.

(** ** checkout_tx *)

(** A body that only completes an idempotency record keeps the invariant. *)
Lemma inv_filled k h resp d d' :
  inv d -> commerce_eq d d' -> d.(idempotency_records) !! k = None ->
  d'.(idempotency_records) = update_where (fun k' _ => bool_decide (k' = k))
    (fun r => IdemRow r.(id_request_hash) (Some resp)) (<[k := IdemRow h None]> d.(idempotency_records)) ->
  inv d'.
Proof.
  intros [Hc Hi] Heq Hn Hrec. split; [by apply (inv_commerce_eq d)|].
  intros k' r. rewrite Hrec, update_where_insert by done. rewrite lookup_insert_Some.
  intros [[<- <-]|[_ Hr]]; [by eexists|eauto].
Qed.

Lemma checkout_tx_inv actor hold_id key w :
  inv w.(w_db) -> wp (checkout_tx actor hold_id key) (fun _ w' => inv w'.(w_db)) w.
Proof.
  intros Hinv. unfold checkout_tx. apply wp_bind, wp_idem.
  - intros w1 Hnone Hdb1 Ho1. simpl. wp_sql; apply wp_remember; intros w2 Hdb2 Ho2; simpl in *;
      rewrite Hdb1 in Hdb2; by eapply inv_filled; [done|rewrite Hdb2|done|rewrite Hdb2].
  - intros w1 row Hrow Hh Hdb1 Ho1. destruct (inv_i _ Hinv _ _ Hrow) as [r ->]. wp_sql. by rewrite Hdb1.
Qed.

(** ** initiate_payment_tx *)

(** A new payment attempt starts unsettled. *)
Lemma inv_commerce_new_payment id r d :
  d.(payment_attempts) !! id = None -> r.(p_status) = P_PENDING ->
  (forall p pr, d.(payment_attempts) !! p = Some pr -> pr.(p_order_id) <> r.(p_order_id)) ->
  is_Some (d.(orders) !! r.(p_order_id)) ->
  inv_commerce d -> inv_commerce (set_payment_attempts <[id := r]> d).
Proof.
  intros Hn Hst Huniq Hord [Hc [H1 H2 H3 H4 H5 H6] Ht Htk].
  assert (forall p pr, d.(payment_attempts) !! p = Some pr -> <[id := r]> d.(payment_attempts) !! p = Some pr)
    as Hold. { intros p pr Hp. rewrite lookup_insert_ne; [done|]. intros ->. congruence. }
  split; [by destruct Hc; split| |done|by destruct Htk; split]. split; simpl.
  - intros p pr [[<- <-]|[_ Hp]]%lookup_insert_Some; [done|eauto].
  - intros p1 p2 r1 r2 [[<- <-]|[_ Hp1]]%lookup_insert_Some [[<- <-]|[_ Hp2]]%lookup_insert_Some Heq; eauto.
    + by destruct (Huniq _ _ Hp2).
    + by destruct (Huniq _ _ Hp1).
  - intros p pr o [[<- <-]|[_ Hp]]%lookup_insert_Some Hs Ho; [congruence|eauto].
  - intros o orow Ho Hs. destruct (H4 _ _ Ho Hs) as (p & pr & ? & ? & ?). eauto 6.
  - intros p rr Hr. destruct (H5 _ _ Hr) as (pr & o & ? & ? & ? & ? & ?). eauto 8.
  - intros o orow Ho Hs. destruct (H6 _ _ Ho Hs) as (p & pr & rr & ? & ? & ? & ?). eauto 8.
Qed.

Lemma initiate_payment_tx_inv actor order_id key outcome delay dups w :
  inv w.(w_db) ->
  wp (initiate_payment_tx actor order_id key outcome delay dups) (fun _ w' => inv w'.(w_db)) w.
Proof.
  intros Hinv. unfold initiate_payment_tx. apply wp_bind, wp_idem.
  - intros w1 Hnone Hdb1 Ho1. simpl. wp_sql; apply wp_remember; intros w2 Hdb2 Ho2; simpl in *;
      rewrite Hdb1 in *; simpl in *.
    + by eapply inv_filled; [done|rewrite Hdb2|done|rewrite Hdb2].
    + eapply (inv_filled _ _ _ (set_payment_attempts _ w.(w_db))); [|by rewrite Hdb2|done|by rewrite Hdb2].
      split; [|apply Hinv]. apply inv_commerce_new_payment; try done. apply Hinv.
  - intros w1 row Hrow Hh Hdb1 Ho1. destruct (inv_i _ Hinv _ _ Hrow) as [r ->]. wp_sql. by rewrite Hdb1.
Qed.
End reserve.
