(* ===== verification/InvPayment.v ===== *)
(** * Release, expiry and payment callbacks keep the invariant

    The effects of [_release], [book] and [refund_or_fail] as functions on databases with their
    preservation lemmas, and the bodies [release_tx], [expire_tx] and [callback_tx]. *)

From S2P Require Import Prelude Domain Schema World Postgres Sql Observability Reservations Invariant InvReserve.

(** ** Changing one order's status *)

Definition order_is (o : uuid) (k : uuid) (_ : order_row) : bool := bool_decide (k = o).

Definition with_order_status (o : uuid) (st : order_status) (d : db) : db :=
  set_orders (update_where (order_is o) (order_with_status st)) d.

Lemma with_order_status_Some o st d k r' :
  (with_order_status o st d).(orders) !! k = Some r' <->
  exists r, d.(orders) !! k = Some r /\ r' = (if bool_decide (k = o) then order_with_status st r else r).
Proof. unfold with_order_status. simpl. apply update_where_Some. Qed.

Lemma set_orders_where_true o st d :
  set_orders (update_where (fun k _ => bool_decide (k = o) && true) (order_with_status st)) d =
  with_order_status o st d.
Proof.
  unfold with_order_status, set_orders. f_equal. apply update_where_ext. intros. apply andb_true_r.
Qed.

(** A change that neither opens nor books an order keeps the core. *)
Lemma with_order_status_core o r st d :
  inv_core d -> d.(orders) !! o = Some r ->
  (r.(o_status) = O_PENDING <-> st = O_PENDING) -> is_booked r.(o_status) = is_booked st ->
  inv_core (with_order_status o st d).
Proof.
  intros [H1 H2 H3 H4 H5 H6 H7 H8 H9] Ho Hp Hb.
  assert (forall k r0, d.(orders) !! k = Some r0 -> exists r1, (with_order_status o st d).(orders) !! k = Some r1 /\
    r1.(o_hold_id) = r0.(o_hold_id) /\ r1.(o_event_id) = r0.(o_event_id) /\ r1.(o_actor) = r0.(o_actor) /\
    (r1.(o_status) = O_PENDING <-> r0.(o_status) = O_PENDING) /\ is_booked r1.(o_status) = is_booked r0.(o_status))
    as Hfwd.
  { intros k r0 Hk. eexists. split; [apply with_order_status_Some; eauto|].
    case_bool_decide; simpl; [|done]. subst. simplify_eq. by rewrite Hp, Hb. }
  assert (forall k r1, (with_order_status o st d).(orders) !! k = Some r1 -> exists r0, d.(orders) !! k = Some r0 /\
    r1.(o_hold_id) = r0.(o_hold_id) /\ r1.(o_event_id) = r0.(o_event_id) /\ r1.(o_actor) = r0.(o_actor) /\
    (r1.(o_status) = O_PENDING <-> r0.(o_status) = O_PENDING) /\ is_booked r1.(o_status) = is_booked r0.(o_status))
    as Hbwd.
  { intros k r1 (r0 & Hk & ->)%with_order_status_Some. exists r0. split; [done|].
    case_bool_decide; simpl; [|done]. subst. simplify_eq. by rewrite Hp, Hb. }
  split; simpl.
  - intros k r1 (r0 & Hk & -> & -> & -> & Hpe & ->)%Hbwd.
    destruct (H1 _ _ Hk) as (h & ? & ? & ? & ? & ?). exists h. tauto.
  - intros o1 o2 r1 r2 (q1 & Hk1 & -> & _)%Hbwd (q2 & Hk2 & -> & _)%Hbwd. eauto.
  - exact H3.
  - intros k q h Hk Hh. destruct (H4 _ _ _ Hk Hh) as (hr & o' & orow & it & ? & ? & ? & Ho' & ? & ? & ?).
    destruct (Hfwd _ _ Ho') as (r1 & ? & Heq & _). exists hr, o', r1, it. by rewrite Heq.
  - intros o' s it Hi. destruct (H5 _ _ _ Hi) as (orow & q & Ho' & ? & ? & ?).
    destruct (Hfwd _ _ Ho') as (r1 & ? & _ & Heq & _). exists r1, q. by rewrite Heq.
  - intros k q o' Hk Hbk. destruct (H6 _ _ _ Hk Hbk) as (orow & it & b & Ho' & ? & ? & ? & ?).
    destruct (Hfwd _ _ Ho') as (r1 & ? & _ & _ & _ & _ & Heq). exists r1, it, b. by rewrite Heq.
  - exact H7.
  - exact H8.
  - intros o' orow s it (r0 & Hk & _ & _ & _ & _ & ->)%Hbwd. eauto.
Qed.

(** Totals depend on neither statuses nor the other tables. *)
Lemma inv_totals_ext d d' :
  inv_totals d -> d'.(order_items) = d.(order_items) ->
  (forall o r', d'.(orders) !! o = Some r' -> exists r, d.(orders) !! o = Some r /\ r.(o_total) = r'.(o_total)) ->
  inv_totals d'.
Proof. intros H Hi Ho o r' Hr'. destruct (Ho _ _ Hr') as (r & Hr & <-). rewrite Hi. auto. Qed.

(** ** Settling a payment *)

(** One payment and its order change together; the refund row appears exactly when the order is
    being refunded. *)
Lemma inv_pay_update d d' p o pr orow st s' :
  inv_pay d -> d.(payment_attempts) !! p = Some pr -> pr.(p_order_id) = o -> pr.(p_status) <> P_SUCCEEDED ->
  d.(orders) !! o = Some orow ->
  d'.(payment_attempts) = update_where (fun k _ => bool_decide (k = p)) (payment_with_status st) d.(payment_attempts) ->
  (forall o', o' <> o -> d'.(orders) !! o' = d.(orders) !! o') ->
  (exists r', d'.(orders) !! o = Some r' /\ r'.(o_status) = s') ->
  (st = P_SUCCEEDED <-> settled s' = true) ->
  d'.(refund_requests) = (if refunding s' then <[p := RefundRow o R_PENDING]> d.(refund_requests)
                          else d.(refund_requests)) ->
  inv_pay d'.
Proof.
  intros [H1 H2 H3 H4 H5 H6] Hp Hpo Hns Ho Hpay Hother (r' & Hr' & Hs') Hset Href.
  assert (settled orow.(o_status) = false) as Hunset.
  { apply not_true_iff_false. intros Hs. destruct (H4 _ _ Ho Hs) as (p2 & pr2 & Hp2 & Ho2 & Hs2).
    assert (p2 = p) as -> by (eapply H2; eauto; congruence). congruence. }
  assert (refunding orow.(o_status) = false) as Hunref by by destruct (o_status orow).
  assert (forall k a', d'.(payment_attempts) !! k = Some a' -> exists a, d.(payment_attempts) !! k = Some a /\
     a'.(p_order_id) = a.(p_order_id) /\ ((k = p /\ a'.(p_status) = st) \/ (k <> p /\ a' = a))) as Hbwd.
  { intros k a'. rewrite Hpay, update_where_Some. intros (a & Ha & ->). exists a.
    case_bool_decide; simpl; auto. }
  assert (forall k a, d.(payment_attempts) !! k = Some a -> k <> p -> d'.(payment_attempts) !! k = Some a) as Hfwd.
  { intros k a Ha Hne. rewrite Hpay, update_where_Some. exists a. by rewrite bool_decide_eq_false_2. }
  assert (exists a', d'.(payment_attempts) !! p = Some a' /\ a'.(p_order_id) = o /\ a'.(p_status) = st) as (ap & Hap & Hapo & Haps).
  { eexists. split; [rewrite Hpay, update_where_Some; eauto|]. by rewrite bool_decide_eq_true_2. }
  split.
  - intros k a' (a & Ha & -> & _)%Hbwd. destruct (decide (a.(p_order_id) = o)) as [->|Hne]; [by eexists|].
    rewrite Hother by done. eauto.
  - intros k1 k2 a1 a2 (b1 & Hb1 & -> & _)%Hbwd (b2 & Hb2 & -> & _)%Hbwd. eauto.
  - intros k a' q (a & Ha & -> & Hcase)%Hbwd Hs Hq. destruct Hcase as [[-> Hst]|[Hne ->]].
    + assert (a = pr) as -> by congruence. rewrite Hpo, Hr' in Hq. injection Hq as <-.
      rewrite Hs'. apply Hset. congruence.
    + rewrite Hother in Hq; [eauto|]. intros Heq. apply Hne. eapply H2; eauto. congruence.
  - intros k q Hk Hq. destruct (decide (k = o)) as [->|Hne].
    + exists p, ap. rewrite Hr' in Hk. injection Hk as <-. rewrite Hs' in Hq.
      repeat split; try done. rewrite Haps. by apply Hset.
    + rewrite Hother in Hk by done. destruct (H4 _ _ Hk Hq) as (p2 & pr2 & ? & ? & ?).
      exists p2, pr2. repeat split; try done. apply Hfwd; [done|]. intros ->. congruence.
  - intros k rr. rewrite Href. intros Hrr.
    assert (d.(refund_requests) !! k = Some rr -> exists pr o0, d'.(payment_attempts) !! k = Some pr /\
      pr.(p_order_id) = rr.(r_order_id) /\ pr.(p_status) = P_SUCCEEDED /\
      d'.(orders) !! rr.(r_order_id) = Some o0 /\ refunding o0.(o_status) = true) as Hold.
    { intros Hk. destruct (H5 _ _ Hk) as (pr2 & o2 & Hp2 & Ho2 & Hs2 & Hq & Hr2).
      exists pr2, o2. repeat split; try done.
      - apply Hfwd; [done|]. intros ->. congruence.
      - rewrite Hother; [done|]. intros Heq. rewrite Heq in Hq. congruence. }
    destruct (refunding s') eqn:Hrs; [|by apply Hold].
    apply lookup_insert_Some in Hrr as [[<- <-]|[Hne Hrr]]; [|by apply Hold].
    exists ap, r'. simpl. repeat split; try done; [|by rewrite Hs'].
    rewrite Haps. apply Hset. by destruct s'.
  - intros k q Hk Hq. destruct (decide (k = o)) as [->|Hne].
    + rewrite Hr' in Hk. injection Hk as <-. rewrite Hs' in Hq. rewrite Href, Hq.
      exists p, ap, (RefundRow o R_PENDING). by rewrite lookup_insert_eq.
    + rewrite Hother in Hk by done. destruct (H6 _ _ Hk Hq) as (p2 & pr2 & rr2 & ? & ? & Hrr & ?).
      assert (p2 <> p) by (intros ->; congruence).
      exists p2, pr2, rr2. repeat split; try done; [by apply Hfwd|].
      rewrite Href. destruct (refunding s'); [|done]. by rewrite lookup_insert_ne by done.
Qed.

(** ** Orders that differ only in status *)

(** Orders keep everything but a status, and no status changes its class. *)
Record order_sim (r r' : order_row) : Prop := OrderSim {
  os_hold : r'.(o_hold_id) = r.(o_hold_id);
  os_event : r'.(o_event_id) = r.(o_event_id);
  os_actor : r'.(o_actor) = r.(o_actor);
  os_total : r'.(o_total) = r.(o_total);
  os_booked : is_booked r'.(o_status) = is_booked r.(o_status);
  os_settled : settled r'.(o_status) = settled r.(o_status);
  os_refunding : refunding r'.(o_status) = refunding r.(o_status);
}.

Lemma order_sim_refl r : order_sim r r.
Proof. done. Qed.

Definition orders_sim (d d' : db) : Prop :=
  (forall k r, d.(orders) !! k = Some r -> exists r', d'.(orders) !! k = Some r' /\ order_sim r r') /\
  (forall k r', d'.(orders) !! k = Some r' -> exists r, d.(orders) !! k = Some r /\ order_sim r r').

Lemma inv_pay_sim d d' :
  orders_sim d d' -> d'.(payment_attempts) = d.(payment_attempts) ->
  d'.(refund_requests) = d.(refund_requests) -> inv_pay d -> inv_pay d'.
Proof.
  intros [Hfwd Hbwd] Hp Hr [H1 H2 H3 H4 H5 H6]. split; rewrite ?Hp, ?Hr; [| exact H2 | | | |].
  - intros p r Hpr. destruct (H1 _ _ Hpr) as [o Ho]. destruct (Hfwd _ _ Ho) as (o' & ? & _). by exists o'.
  - intros p r o Hpr Hs (o0 & Ho & Hsim)%Hbwd. rewrite (os_settled _ _ Hsim). eauto.
  - intros o r (r0 & Ho & Hsim)%Hbwd. rewrite (os_settled _ _ Hsim). eauto.
  - intros p rr Hrr. destruct (H5 _ _ Hrr) as (pr & o & ? & ? & ? & Ho & Href).
    destruct (Hfwd _ _ Ho) as (o' & ? & Hsim). exists pr, o'. by rewrite (os_refunding _ _ Hsim).
  - intros o r (r0 & Ho & Hsim)%Hbwd. rewrite (os_refunding _ _ Hsim). eauto.
Qed.

Lemma inv_totals_sim d d' :
  orders_sim d d' -> d'.(order_items) = d.(order_items) -> inv_totals d -> inv_totals d'.
Proof.
  intros [_ Hbwd] Hi H. apply (inv_totals_ext d); [done|done|].
  intros o r' (r & Hr & Hsim)%Hbwd. exists r. by rewrite (os_total _ _ Hsim).
Qed.

Lemma inv_tickets_sim d d' :
  (forall o r', d'.(orders) !! o = Some r' -> r'.(o_status) = O_FULFILLED ->
     exists r, d.(orders) !! o = Some r /\ r.(o_status) = O_FULFILLED) ->
  d'.(bookings) = d.(bookings) -> d'.(tickets) = d.(tickets) ->
  inv_tickets d -> inv_tickets d'.
Proof.
  intros Hbwd Hb Ht [H1 H2 H3]. split; rewrite ?Hb, ?Ht; [done..|].
  intros o r b br Hr Hs. destruct (Hbwd _ _ Hr Hs) as (r0 & Hr0 & Hs0). eauto.
Qed.

(** ** The effect of a release *)

Section released.
Context (h o : uuid) (st : hold_status).

Definition held_by (k : uuid * string) (r : seat_row) : bool :=
  bool_decide (r.(s_hold_id) = Some h /\ r.(s_booked_order_id) = None).
Definition active_hold (k : uuid) (r : hold_row) : bool :=
  bool_decide (k = h) && bool_decide (r.(h_status) = H_ACTIVE).
Definition pending_order (k : uuid) (r : order_row) : bool :=
  bool_decide (k = o) && bool_decide (r.(o_status) = O_PENDING).

Definition released (d : db) : db :=
  set_orders (update_where pending_order (order_with_status O_EXPIRED))
    (set_holds (update_where active_hold (hold_with_status st))
      (set_event_seats (update_where held_by seat_free) d)).

Context (d : db) (r : order_row).
Context (Hinv : inv_core d) (Hst : st = H_RELEASED \/ st = H_EXPIRED).
Context (Ho : d.(orders) !! o = Some r) (Hh : r.(o_hold_id) = h).

Lemma released_seat k s' :
  (released d).(event_seats) !! k = Some s' <->
  exists s, d.(event_seats) !! k = Some s /\ s' = (if held_by k s then seat_free s else s).
Proof. unfold released. simpl. apply update_where_Some. Qed.

Lemma released_seat_old k s :
  d.(event_seats) !! k = Some s ->
  exists s', (released d).(event_seats) !! k = Some s' /\ s'.(s_price) = s.(s_price) /\
    s'.(s_booked_order_id) = s.(s_booked_order_id).
Proof.
  intros Hk. eexists. split; [apply released_seat; eauto|]. by destruct (held_by k s).
Qed.

Lemma released_hold k hr' :
  (released d).(holds) !! k = Some hr' <->
  exists hr, d.(holds) !! k = Some hr /\ hr' = (if active_hold k hr then hold_with_status st hr else hr).
Proof. unfold released. simpl. apply update_where_Some. Qed.

Lemma released_order k r' :
  (released d).(orders) !! k = Some r' <->
  exists r0, d.(orders) !! k = Some r0 /\ r' = (if pending_order k r0 then order_with_status O_EXPIRED r0 else r0).
Proof. unfold released. simpl. apply update_where_Some. Qed.

Lemma released_sim : orders_sim d (released d).
Proof.
  assert (forall k r0, order_sim r0 (if pending_order k r0 then order_with_status O_EXPIRED r0 else r0)) as Hsim.
  { intros k r0. unfold pending_order. case_bool_decide; simpl; [|apply order_sim_refl].
    case_bool_decide as Hp; [|apply order_sim_refl].
    split; simpl; rewrite ?Hp; done. }
  split.
  - intros k r0 Hk. eexists. split; [apply released_order; eauto|apply Hsim].
  - intros k r' (r0 & Hk & ->)%released_order. eauto.
Qed.

(** A seat that carries a hold afterwards carries another one. *)
Lemma released_still_held k s' h' :
  (released d).(event_seats) !! k = Some s' -> s'.(s_hold_id) = Some h' ->
  h' <> h /\ d.(event_seats) !! k = Some s'.
Proof.
  intros (s & Hk & ->)%released_seat. unfold held_by. case_bool_decide as Hc; [done|].
  intros Hs. split; [|done]. intros ->. apply Hc. split; [done|].
  pose proof (ic_seat_row d Hinv _ _ Hk) as Hok. unfold seat_row_ok in Hok. bool_hyps.
  apply orb_true_iff in H0 as [?|?]; bool_hyps; [done|congruence].
Qed.

Lemma released_core : inv_core (released d).
Proof.
  destruct Hinv as [H1 H2 H3 H4 H5 H6 H7 H8 H9]. split.
  - intros k r' (r0 & Hk & ->)%released_order. destruct (H1 _ _ Hk) as (hr & Hhr & Hev & Hac & Hact & Hcon).
    unfold pending_order. destruct (decide (k = o)) as [->|Hne].
    + assert (r0 = r) as -> by congruence. rewrite bool_decide_eq_true_2 by done.
      exists (if active_hold h hr then hold_with_status st hr else hr). split.
      { apply released_hold. exists hr. rewrite <-Hh. split; [by destruct (true && _)|].
        by destruct (true && _). }
      unfold active_hold. rewrite bool_decide_eq_true_2 by done. simpl.
      repeat case_bool_decide; simpl; try tauto; try done. by destruct Hst as [-> | ->].
    + rewrite bool_decide_eq_false_2 by done. simpl. exists hr. split; [|done].
      apply released_hold. exists hr. split; [done|]. unfold active_hold.
      rewrite bool_decide_eq_false_2; [done|]. intros Heq. apply Hne. eapply H2; eauto. congruence.
  - intros o1 o2 r1 r2 (q1 & Hq1 & Hs1)%released_sim (q2 & Hq2 & Hs2)%released_sim.
    rewrite (os_hold _ _ Hs1), (os_hold _ _ Hs2). eauto.
  - intros k s' (s & Hk & ->)%released_seat. unfold held_by. case_bool_decide as Hc; [|eauto].
    destruct s; naive_solver.
  - intros k s' h' Hk' Hs'. destruct (released_still_held _ _ _ Hk' Hs') as [Hne Hk].
    destruct (H4 _ _ _ Hk Hs') as (hr & o' & orow & it & Hhr & Hact & Hun & Ho' & Hoh & Hit & Hie).
    exists hr, o', orow, it. repeat split; try done.
    + apply released_hold. exists hr. split; [done|]. unfold active_hold. by rewrite bool_decide_eq_false_2.
    + apply released_order. exists orow. split; [done|]. unfold pending_order.
      rewrite bool_decide_eq_false_2; [done|]. intros ->. congruence.
  - intros o' s it Hi. destruct (H5 _ _ _ Hi) as (orow & q & Ho' & He & Hk & Hp).
    apply released_sim in Ho' as (r' & Hr' & Hs). destruct (released_seat_old _ _ Hk) as (q' & Hq' & Hp' & _).
    exists r', q'. rewrite (os_event _ _ Hs). repeat split; try done. congruence.
  - intros k s' o' (s & Hk & ->)%released_seat Hb.
    assert (s.(s_booked_order_id) = Some o') as Hb' by by destruct (held_by k s).
    destruct (H6 _ _ _ Hk Hb') as (orow & it & b & Ho' & Hbk & ?).
    apply released_sim in Ho' as (r' & Hr' & Hs). exists r', it, b. by rewrite (os_booked _ _ Hs).
  - intros b br Hb. destruct (H7 _ _ Hb) as (s & Hk & Hbo).
    destruct (released_seat_old _ _ Hk) as (s' & Hs' & _ & Hbo'). exists s'. split; [done|]. congruence.
  - exact H8.
  - intros o' r' s it (r0 & Hr0 & Hs)%released_sim Hb Hi. rewrite (os_booked _ _ Hs) in Hb.
    destruct (H9 _ _ _ _ Hr0 Hb Hi) as (q & Hk & Hbo).
    destruct (released_seat_old _ _ Hk) as (q' & Hq' & _ & Hbo'). exists q'. split; [done|]. congruence.
Qed.

Lemma released_commerce : inv_commerce d -> inv_commerce (released d).
Proof.
  intros [_ Hp Ht Htk]. split; [apply released_core| | |].
  - by apply (inv_pay_sim d); [apply released_sim|..].
  - by apply (inv_totals_sim d); [apply released_sim|..].
  - apply (inv_tickets_sim d); [|done..]. intros k r' (r0 & Hk & ->)%released_order Hs.
    exists r0. split; [done|]. by destruct (pending_order k r0).
Qed.
End released.

(** ** _release, release_tx and expire_tx *)

Section release_rules.
Context `{E : Env}.

Lemma wp_release o r st Q w :
  (forall w' f, w'.(w_db) = set_outbox_events f (released r.(o_hold_id) o st w.(w_db)) ->
     others_eq w w' -> Q tt w') ->
  wp (_release o r st) Q w.
Proof.
  intros HQ. unfold _release. wp_sql. apply wp_event. intros w' id t _ Hdb Hoth.
  by eapply HQ; [rewrite Hdb|].
Qed.

Lemma inv_released h o st d r f :
  inv d -> st = H_RELEASED \/ st = H_EXPIRED -> d.(orders) !! o = Some r -> r.(o_hold_id) = h ->
  inv (set_outbox_events f (released h o st d)).
Proof.
  intros [Hc Hi] Hst Ho Hh. split; [|done]. apply inv_commerce_outbox.
  apply (released_commerce h o st d r); auto. apply Hc.
Qed.

Lemma release_tx_inv actor hold_id w :
  inv w.(w_db) -> wp (release_tx actor hold_id) (fun _ w' => inv w'.(w_db)) w.
Proof.
  intros Hinv. unfold release_tx. wp_sql. apply wp_release. intros w' f Hdb _. rewrite Hdb.
  destruct a as [o r]. apply order_of_hold_Some in H as (Ho & Hh & _).
  apply (inv_released _ _ _ _ r); auto.
Qed.

Lemma elem_of_expired_orders now d o r :
  (o, r) ∈ expired_orders now d <->
  d.(orders) !! o = Some r /\
  exists h, d.(holds) !! r.(o_hold_id) = Some h /\ h.(h_status) = H_ACTIVE /\ h.(h_expires_at) <= now.
Proof.
  unfold expired_orders. rewrite list_elem_of_fmap. setoid_rewrite order_by_perm.
  setoid_rewrite list_elem_of_omap. split.
  - intros ([ko t] & Hko & [o' r'] & Hin2%elem_of_map_to_list & Hc); simpl in *. subst ko.
    destruct (holds d !! o_hold_id r') as [h|] eqn:Hh; [|done].
    destruct (_ && _) eqn:Hb; [|done]. bool_hyps. simplify_eq/=. eauto 8.
  - intros (Ho & h & Hh & Hact & Hexp). exists ((o, r), h.(h_expires_at)). split; [done|].
    exists (o, r). split; [by apply elem_of_map_to_list|]. simpl. rewrite Hh, Hact.
    by rewrite bool_decide_eq_true_2, (proj2 (Z.leb_le _ _) Hexp).
Qed.

(** An order row keeps its identity while other orders are released. *)
Definition same_order_key (r r' : order_row) : Prop :=
  r'.(o_hold_id) = r.(o_hold_id) /\ r'.(o_event_id) = r.(o_event_id).

Lemma expire_tx_inv limit w :
  inv w.(w_db) -> wp (expire_tx limit) (fun _ w' => inv w'.(w_db)) w.
Proof.
  intros Hinv. unfold expire_tx. apply wp_bind, wp_clock, wp_bind, wp_sql, wp_bind, wp_skip_locked.
  intros l Hsub _. set (now := e_clock _) in *. apply wp_bind.
  eapply wp_mono; [apply (wp_for_each (fun w' => inv w'.(w_db) /\
    forall o r, (o, r) ∈ l -> exists r', w'.(w_db).(orders) !! o = Some r' /\ same_order_key r r'))|].
  - intros [o r] w' Hin [Hi Hrows]. apply wp_release. intros w2 f Hdb _. rewrite Hdb. simpl.
    assert ((o, r) ∈ l) as Hl by (eapply (subseteq_take (Z.to_nat limit)); eauto).
    destruct (Hrows _ _ Hl) as (r1 & Hr1 & Hk1 & _). split.
    { apply (inv_released _ _ _ _ r1); auto. }
    intros o2 r2 (r3 & Hr3 & Hk3)%Hrows.
    pose proof (released_sim (o_hold_id r) o H_EXPIRED w'.(w_db)) as [Hsim _].
    destruct (Hsim _ _ Hr3) as (r4 & Hr4 & Hs). exists r4. split; [done|].
    destruct Hk3. split; [rewrite (os_hold _ _ Hs)|rewrite (os_event _ _ Hs)]; congruence.
  - split; [done|]. intros o r Hin. apply Hsub in Hin.
    apply elem_of_expired_orders in Hin as [Ho _]. by exists r.
  - intros [] w' [Hi _]. by apply wp_ret.
Qed.
End release_rules.
