(* ===== verification/InvCallback.v ===== *)
(** * Payment callbacks keep the invariant

    The effect of [Reservations.book] with its preservation lemma, the effects of
    [Reservations.refund_or_fail], and the body [callback_tx] on every branch of the decision. *)

From S2P Require Import Prelude Domain Schema World Postgres Sql Observability Reservations Invariant.
From S2P Require Import InvReserve InvPayment.

(** ** The bookings a successful callback adds *)

(** [m'] is [m] with one booking of order [o] for each seat of [seats]. *)
Record booked_for (o ev : uuid) (seats : list ((uuid * string) * seat_row))
    (m m' : gmap uuid booking_row) : Prop := BookedFor {
  bf_old : forall b br, m !! b = Some br -> m' !! b = Some br;
  bf_new : forall kr, kr ∈ seats -> exists b, m' !! b = Some (BookingRow ev kr.1.2 o);
  bf_inv : forall b br, m' !! b = Some br ->
    m !! b = Some br \/ exists kr, kr ∈ seats /\ br = BookingRow ev kr.1.2 o;
  bf_unique : forall b1 b2 r1 r2, m' !! b1 = Some r1 -> m' !! b2 = Some r2 ->
    r1.(b_event_id) = r2.(b_event_id) -> r1.(b_seat_id) = r2.(b_seat_id) -> b1 = b2;
}.

Section booked.
Context (o h : uuid) (m' : gmap uuid booking_row).

Definition seat_held (_ : uuid * string) (r : seat_row) : bool := bool_decide (r.(s_hold_id) = Some h).
Definition hold_is (k : uuid) (_ : hold_row) : bool := bool_decide (k = h).

Definition booked (d : db) : db :=
  with_order_status o O_PAID
    (set_holds (update_where hold_is (hold_with_status H_CONSUMED))
      (set_event_seats (update_where seat_held (seat_book o))
        (set_bookings (fun _ => m') d))).

Context (d : db) (r : order_row) (seats : list ((uuid * string) * seat_row)).
Context (Hinv : inv_core d) (Ho : d.(orders) !! o = Some r) (Hh : r.(o_hold_id) = h).
Context (Hpend : r.(o_status) = O_PENDING) (Hseats : seats = seats_of_order o d).
Context (Hvalid : forall kr, kr ∈ seats -> kr.2.(s_hold_id) = Some h).
Context (Hm : booked_for o r.(o_event_id) seats d.(bookings) m').

Lemma booked_seat k s' :
  (booked d).(event_seats) !! k = Some s' <->
  exists s, d.(event_seats) !! k = Some s /\ s' = (if seat_held k s then seat_book o s else s).
Proof. unfold booked. simpl. apply update_where_Some. Qed.

Lemma booked_hold k hr' :
  (booked d).(holds) !! k = Some hr' <->
  exists hr, d.(holds) !! k = Some hr /\ hr' = (if hold_is k hr then hold_with_status H_CONSUMED hr else hr).
Proof. unfold booked. simpl. apply update_where_Some. Qed.

Lemma booked_order k r' :
  (booked d).(orders) !! k = Some r' <->
  exists r0, d.(orders) !! k = Some r0 /\ r' = (if bool_decide (k = o) then order_with_status O_PAID r0 else r0).
Proof. unfold booked. rewrite with_order_status_Some. done. Qed.

Lemma booked_order_other k : k <> o -> (booked d).(orders) !! k = d.(orders) !! k.
Proof.
  intros Hne. unfold booked, with_order_status. simpl. rewrite lookup_update_where.
  unfold order_is. rewrite bool_decide_eq_false_2 by done. by destruct (orders d !! k).
Qed.

(** A booked seat carries no hold, so the booking update skips it. *)
Lemma booked_seat_kept k s o' :
  d.(event_seats) !! k = Some s -> s.(s_booked_order_id) = Some o' -> (booked d).(event_seats) !! k = Some s.
Proof.
  intros Hk Hb. apply booked_seat. exists s. split; [done|]. unfold seat_held.
  pose proof (ic_seat_row d Hinv _ _ Hk) as Hok. unfold seat_row_ok in Hok. bool_hyps.
  rewrite bool_decide_eq_false_2; [done|]. intros Hs.
  apply orb_true_iff in H0 as [?|?]; bool_hyps; congruence.
Qed.

Lemma booked_price k s :
  d.(event_seats) !! k = Some s -> exists s', (booked d).(event_seats) !! k = Some s' /\ s'.(s_price) = s.(s_price).
Proof. intros Hk. eexists. split; [apply booked_seat; eauto|]. by destruct (seat_held k s). Qed.

(** Every seat of the order is held by its hold, and becomes booked. *)
Lemma booked_item s it :
  d.(order_items) !! (o, s) = Some it ->
  exists q, d.(event_seats) !! (it.(i_event_id), s) = Some q /\ (it.(i_event_id), s, q) ∈ seats /\
    (booked d).(event_seats) !! (it.(i_event_id), s) = Some (seat_book o q).
Proof.
  intros Hi. destruct (ic_item d Hinv _ _ _ Hi) as (orow & q & _ & _ & Hk & _). exists q.
  assert ((it.(i_event_id), s, q) ∈ seats) as Hin.
  { subst seats. apply elem_of_seats_of_order. eauto. }
  repeat split; try done. apply booked_seat. exists q. split; [done|]. unfold seat_held.
  by rewrite bool_decide_eq_true_2 by by apply (Hvalid _ Hin).
Qed.

(** The seats of the hold are those of the order. *)
Lemma held_is_item k s :
  d.(event_seats) !! k = Some s -> s.(s_hold_id) = Some h ->
  k.1 = r.(o_event_id) /\ (k, s) ∈ seats /\
  exists it, d.(order_items) !! (o, k.2) = Some it /\ it.(i_event_id) = k.1.
Proof.
  intros Hk Hs. destruct (ic_seat_hold d Hinv _ _ _ Hk Hs) as (hr & o' & orow & it & _ & _ & _ & Ho' & Hoh & Hit & Hie).
  assert (o' = o) as -> by (eapply (ic_order_unique d Hinv); eauto; congruence).
  destruct (ic_item d Hinv _ _ _ Hit) as (orow' & q & Ho2 & He & _).
  split; [congruence|]. split; [subst seats; apply elem_of_seats_of_order|]; eauto.
Qed.

Lemma booked_booking_seat kr : kr ∈ seats ->
  exists s', (booked d).(event_seats) !! (r.(o_event_id), kr.1.2) = Some s' /\ s'.(s_booked_order_id) = Some o.
Proof.
  destruct kr as [[ev s] q]. intros Hin. pose proof Hin as Hin'. rewrite Hseats in Hin'.
  apply elem_of_seats_of_order in Hin' as (it & Hi & He & Hk); simpl in *.
  destruct (ic_item d Hinv _ _ _ Hi) as (orow & q' & Ho' & Hie & _).
  destruct (booked_item _ _ Hi) as (q2 & _ & _ & Hb). exists (seat_book o q2). split; [|done].
  assert (o_event_id r = i_event_id it) as -> by congruence. exact Hb.
Qed.

Lemma booked_core : inv_core (booked d).
Proof.
  destruct Hinv as [H1 H2 H3 H4 H5 H6 H7 H8 H9]. split.
  - intros k r' (r0 & Hk & ->)%booked_order. destruct (H1 _ _ Hk) as (hr & Hhr & Hev & Hac & Hact & Hcon).
    exists (if hold_is r0.(o_hold_id) hr then hold_with_status H_CONSUMED hr else hr). split.
    { destruct (bool_decide (k = o)); apply booked_hold; by exists hr. }
    unfold hold_is. destruct (decide (k = o)) as [->|Hne].
    + assert (r0 = r) as -> by congruence. rewrite !bool_decide_eq_true_2 by done. by simpl.
    + assert (o_hold_id r0 <> h) by (intros Heq; apply Hne; eapply H2; eauto; congruence).
      by rewrite !bool_decide_eq_false_2 by done.
  - intros o1 o2 r1 r2 (q1 & Hq1 & ->)%booked_order (q2 & Hq2 & ->)%booked_order Heq.
    apply (H2 _ _ q1 q2); [done..|]. by repeat case_bool_decide.
  - intros k s' (s & Hk & ->)%booked_seat. by destruct (seat_held k s); [|eauto].
  - intros k s' h' (s & Hk & ->)%booked_seat Hs'. unfold seat_held in *. case_bool_decide as Hc; [done|].
    destruct (H4 _ _ _ Hk Hs') as (hr & o' & orow & it & Hhr & Hact & Hun & Ho' & Hoh & Hit & Hie).
    exists hr, o', orow, it. repeat split; try done.
    + apply booked_hold. exists hr. split; [done|]. unfold hold_is. rewrite bool_decide_eq_false_2; [done|congruence].
    + rewrite booked_order_other; [done|]. intros ->. congruence.
  - intros o' s it Hi. destruct (H5 _ _ _ Hi) as (orow & q & Ho' & He & Hk & Hp).
    destruct (booked_price _ _ Hk) as (q' & Hq' & Hp'). eexists _, q'. split; [apply booked_order; eauto|].
    repeat split; [by case_bool_decide|done|congruence].
  - intros k s' o' (s & Hk & ->)%booked_seat Hb. unfold seat_held in Hb. case_bool_decide as Hc; simpl in Hb.
    + injection Hb as <-. destruct (held_is_item _ _ Hk Hc) as (Hev & Hin & it & Hit & Hie).
      destruct (bf_new _ _ _ _ _ Hm _ Hin) as [b Hbk]. rewrite <-Hev in Hbk.
      eexists _, it, b. split; [apply booked_order; eauto|]. by rewrite bool_decide_eq_true_2.
    + destruct (H6 _ _ _ Hk Hb) as (orow & it & b & Ho' & Hbo & Hit & Hie & Hbk).
      exists orow, it, b. repeat split; try done; [|by apply (bf_old _ _ _ _ _ Hm)].
      rewrite booked_order_other; [done|]. intros ->. rewrite Ho in Ho'. simplify_eq. by rewrite Hpend in Hbo.
  - intros b br [Hb|(kr & Hin & ->)]%(bf_inv _ _ _ _ _ Hm); [|by apply booked_booking_seat].
    destruct (H7 _ _ Hb) as (s & Hk & Hbo). exists s. split; [by eapply booked_seat_kept|done].
  - apply Hm.
  - intros o' orow s it (r0 & Ho' & ->)%booked_order Hbk Hi. destruct (decide (o' = o)) as [->|Hne].
    + destruct (booked_item _ _ Hi) as (q & _ & _ & Hq). by eexists.
    + rewrite bool_decide_eq_false_2 in Hbk by done.
      destruct (H9 _ _ _ _ Ho' Hbk Hi) as (q & Hk & Hbo). exists q. split; [by eapply booked_seat_kept|done].
Qed.

Lemma booked_totals : inv_totals d -> inv_totals (booked d).
Proof.
  intros H. apply (inv_totals_ext d); [done|done|]. intros k r' (r0 & Hk & ->)%booked_order.
  exists r0. split; [done|]. by case_bool_decide.
Qed.

Lemma booked_tickets : inv_tickets d -> inv_tickets (booked d).
Proof.
  intros [H1 H2 H3]. split; simpl.
  - intros t tr Ht. destruct (H1 _ _ Ht) as [br Hb]. exists br. by apply (bf_old _ _ _ _ _ Hm).
  - exact H2.
  - intros k r' b br (r0 & Hk & ->)%booked_order Hs Hb Hbo.
    case_bool_decide as Hc; [done|]. apply (bf_inv _ _ _ _ _ Hm) in Hb as [Hb|(kr & _ & ->)]; [|done].
    by eapply (H3 k r0).
Qed.
End booked.

Lemma set_holds_where_true h st d :
  set_holds (update_where (fun k _ => bool_decide (k = h) && true) (hold_with_status st)) d =
  set_holds (update_where (hold_is h) (hold_with_status st)) d.
Proof. unfold set_holds. f_equal. apply update_where_ext. intros. apply andb_true_r. Qed.

(** ** The branches of a callback *)

Section callback_rules.
Context `{E : Env}.

Lemma wp_book o r seats Q w :
  (forall b1 b2 r1 r2, w.(w_db).(bookings) !! b1 = Some r1 -> w.(w_db).(bookings) !! b2 = Some r2 ->
     r1.(b_event_id) = r2.(b_event_id) -> r1.(b_seat_id) = r2.(b_seat_id) -> b1 = b2) ->
  (forall w' f m', booked_for o r.(o_event_id) seats w.(w_db).(bookings) m' ->
     w'.(w_db) = set_outbox_events f (booked o r.(o_hold_id) m' w.(w_db)) ->
     others_eq w w' -> Q tt w') ->
  wp (book o r seats) Q w.
Proof.
  intros Huniq HQ. unfold book. apply wp_bind.
  eapply wp_mono; [apply (wp_for_each_prefix (fun pre w' =>
    exists m', booked_for o r.(o_event_id) pre w.(w_db).(bookings) m' /\
      w'.(w_db) = set_bookings (fun _ => m') w.(w_db) /\ others_eq w w'))|].
  - intros pre x rest w' _ (m' & [Ha Hb Hc Hd] & Hdb & Hoth). apply wp_bind, wp_uuid4, wp_insert_booking.
    set (id := e_rng _). simpl. rewrite Hdb. simpl. intros Hfresh Hnone.
    exists (<[id := BookingRow (o_event_id r) x.1.2 o]> m'). split; [|by split].
    split.
    + intros b br Hbr. rewrite lookup_insert_ne; [auto|]. intros ->. apply Ha in Hbr. congruence.
    + intros kr [Hin| ->%list_elem_of_singleton]%elem_of_app.
      * destruct (Hb _ Hin) as [b Hbb]. exists b. rewrite lookup_insert_ne; [done|]. intros ->. congruence.
      * exists id. by rewrite lookup_insert_eq.
    + intros b br [[<- <-]|[_ Hbr]]%lookup_insert_Some.
      * right. exists x. split; [|done]. apply elem_of_app. right. by apply list_elem_of_singleton.
      * destruct (Hc _ _ Hbr) as [?|(kr & Hin & ->)]; [by left|right]. exists kr. split; [|done].
        apply elem_of_app. by left.
    + intros b1 b2 r1 r2 [[<- <-]|[_ Hb1]]%lookup_insert_Some [[<- <-]|[_ Hb2]]%lookup_insert_Some; simpl;
        [done| | |by eauto]; intros He Hs; [destruct (Hnone _ _ Hb2)|destruct (Hnone _ _ Hb1)]; done.
  - exists w.(w_db).(bookings). split; [|split; [by destruct w as [[] ]|done]].
    split; [done| |by left|done]. intros kr Hin. by apply not_elem_of_nil in Hin.
  - intros [] w' (m' & Hm & Hdb & Hoth). wp_sql. apply wp_event. intros w2 id t _ Hdb2 Hoth2.
    eapply (HQ w2 _ m'); [done| |by etrans; [|exact Hoth2]]. rewrite Hdb2. simpl.
    rewrite set_orders_where_true, set_holds_where_true, Hdb.
    unfold booked, seat_held. reflexivity.
Qed.

(** The database after a refund or a failure, the payment row aside. *)
Definition refunded (dec : decision) (p o h : uuid) (d : db) : db :=
  let refund := bool_decide (dec = REFUND) in
  let d1 := with_order_status o (if refund then O_REFUND_PENDING else O_FAILED)
              (released h o (if refund then H_EXPIRED else H_RELEASED) d) in
  if refund && negb (has d.(refund_requests) p)
  then set_refund_requests <[p := RefundRow o R_PENDING]> d1 else d1.

Lemma wp_refund_or_fail dec p o r Q w :
  (forall w' f, w'.(w_db) = set_outbox_events f (refunded dec p o r.(o_hold_id) w.(w_db)) ->
     others_eq w w' -> Q tt w') ->
  wp (refund_or_fail dec p o r) Q w.
Proof.
  intros HQ. unfold refund_or_fail. apply wp_bind, wp_release. intros w1 f Hdb1 Hoth1.
  apply wp_bind, wp_update_order_status.
  unfold refunded in HQ. case_bool_decide as Hdec; simpl in HQ.
  - apply wp_bind, wp_insert_refund; simpl; rewrite Hdb1; simpl.
    + intros Hh%has_true. apply wp_event. intros w2 id t _ Hdb2 Hoth2.
      eapply (HQ w2 (fun m => <[id := _]> (f m))); [|by etrans; [|exact Hoth2]]. rewrite Hdb2. simpl.
      by rewrite set_orders_where_true, Hdb1, Hh.
    + intros Hh%has_false _. apply wp_event. intros w2 id t _ Hdb2 Hoth2.
      eapply (HQ w2 (fun m => <[id := _]> (f m))); [|by etrans; [|exact Hoth2]]. rewrite Hdb2. simpl.
      by rewrite set_orders_where_true, Hdb1, Hh.
  - apply wp_ret. eapply (HQ _ f); [|done]. simpl. by rewrite set_orders_where_true, Hdb1.
Qed.
(** ** callback_tx *)

(** The tables after the callback row and the payment's new status are written. *)
Definition noted (payload : callback_payload) (d : db) : db :=
  set_payment_attempts (update_where (fun k _ => bool_decide (k = payload.(cb_payment_id)))
      (payment_with_status (outcome_status payload.(cb_outcome))))
    (set_payment_callbacks
      <[payload.(cb_callback_id) := CallbackRow payload.(cb_payment_id) (digest (ReqCallback payload))]> d).

Definition settle (dec : decision) (p o h : uuid) (m' : gmap uuid booking_row) (d : db) : db :=
  match dec with
  | BOOK => booked o h m' d
  | REFUND | FAIL => refunded dec p o h d
  | UNCHANGED => d
  end.

(** Validity of the hold as the callback computes it. *)
Definition callback_valid (h : uuid) (hold : option hold_row) (now : Z)
    (seats : list ((uuid * string) * seat_row)) : bool :=
  match seats, hold with
  | _ :: _, Some hr => hold_valid h hr now seats
  | _, _ => false
  end.

(** What a callback that reaches the decision has read. *)
Record callback_facts (payload : callback_payload) (d : db) (o : uuid) (orow : order_row)
    (pr : payment_row) (now : Z) (valid : bool) (dec : decision) : Prop := CallbackFacts {
  cf_now : exists i, now = e_clock i;
  cf_payment : d.(payment_attempts) !! payload.(cb_payment_id) = Some pr;
  cf_order_id : pr.(p_order_id) = o /\ o = payload.(cb_order_id);
  cf_order : d.(orders) !! o = Some orow;
  cf_amount : orow.(o_total) = payload.(cb_amount) /\ orow.(o_currency) = payload.(cb_currency);
  cf_new : d.(payment_callbacks) !! payload.(cb_callback_id) = None;
  cf_open : pr.(p_status) <> P_SUCCEEDED;
  cf_valid : valid = callback_valid orow.(o_hold_id) (d.(holds) !! orow.(o_hold_id)) now (seats_of_order o d);
  cf_dec : dec = payment_decision orow.(o_status) valid payload.(cb_outcome);
}.

(** The state a decided callback leaves. *)
Definition decided (payload : callback_payload) (d : db) (o : uuid) (orow : order_row) (dec : decision)
    (m' : gmap uuid booking_row) (d' : db) : Prop :=
  (dec = BOOK -> booked_for o orow.(o_event_id) (seats_of_order o d) d.(bookings) m') /\
  exists f, d' = set_outbox_events f (settle dec payload.(cb_payment_id) o orow.(o_hold_id) m' (noted payload d)).

Lemma wp_callback_tx payload (Q : string -> world -> Prop) w :
  inv_core w.(w_db) ->
  (forall w' c, w.(w_db).(payment_callbacks) !! payload.(cb_callback_id) = Some c ->
     c.(c_payload_hash) = digest (ReqCallback payload) -> w'.(w_db) = w.(w_db) -> others_eq w w' ->
     Q "duplicate" w') ->
  (forall w' pr, w.(w_db).(payment_attempts) !! payload.(cb_payment_id) = Some pr ->
     pr.(p_status) = P_SUCCEEDED -> w.(w_db).(payment_callbacks) !! payload.(cb_callback_id) = None ->
     w'.(w_db) = set_payment_callbacks
       <[payload.(cb_callback_id) := CallbackRow payload.(cb_payment_id) (digest (ReqCallback payload))]> w.(w_db) ->
     others_eq w w' -> Q "duplicate" w') ->
  (forall w' o orow pr now valid dec m', callback_facts payload w.(w_db) o orow pr now valid dec ->
     decided payload w.(w_db) o orow dec m' w'.(w_db) -> others_eq w w' -> Q (decision_lower dec) w') ->
  wp (callback_tx payload) Q w.
Proof.
  intros Hinv Hdup Hsucc Hdec. unfold callback_tx.
  apply wp_bind, wp_sql, wp_bind, wp_or_raise. intros pr Hpr.
  apply wp_bind, wp_sql, wp_bind, wp_lock_nowait, wp_bind, wp_sql, wp_bind, wp_lock_nowait.
  apply wp_bind, wp_or_raise. intros orow Ho. apply wp_bind, wp_or_raise. intros pr' Hpr'. simpl in *.
  rewrite Hpr in Hpr'. injection Hpr' as <-.
  apply wp_bind, wp_raise_if. intros Hmatch. bool_hyps. apply wp_bind, wp_sql. simpl.
  destruct (payment_callbacks _ !! _) as [c|] eqn:Hc.
  { apply wp_bind, wp_raise_if. intros Hh. bool_hyps. apply wp_ret. by eapply Hdup; [done|apply dec_stable|..]. }
  apply wp_bind, wp_insert_callback. intros _ _. case_bool_decide as Hst.
  { apply wp_ret. by eapply Hsucc. }
  apply wp_bind, wp_sql, wp_bind, wp_lock_nowait, wp_bind, wp_sql, wp_bind, wp_lock_nowait, wp_bind, wp_clock.
  cbv beta. simpl. set (now := e_clock _).
  destruct (ic_order_hold _ Hinv _ _ Ho) as (hr & Hhr & _).
  set (valid := callback_valid orow.(o_hold_id) (Some hr) now (seats_of_order pr.(p_order_id) w.(w_db))).
  apply wp_bind. eapply (wp_mono _ (fun b w' => b = valid /\ w' = _)).
  { unfold valid. destruct (seats_of_order _ _) eqn:Hs; [by apply wp_ret|].
    rewrite Hhr. apply wp_bind, wp_or_raise. intros ? [= <-]. by apply wp_ret. }
  intros b w1 [-> ->]. apply wp_bind, wp_update_db. simpl.
  set (dec := payment_decision orow.(o_status) valid payload.(cb_outcome)).
  assert (callback_facts payload w.(w_db) pr.(p_order_id) orow pr now valid dec) as Hfacts.
  { split; try done; [by eexists|split; [done|by apply dec_stable]|split; [done|by apply dec_stable]|by rewrite Hhr]. }
  apply wp_bind.
  eapply (wp_mono _ (fun _ w' => (exists m', decided payload w.(w_db) pr.(p_order_id) orow dec m' w'.(w_db)) /\
    others_eq w w')).
  - destruct dec eqn:Hd; unfold decided, settle.
    + apply wp_book; [apply Hinv|]. intros w2 f m' Hm Hdb Hoth. split; [|done]. exists m'. split; [done|].
      exists f. by rewrite Hdb.
    + apply wp_refund_or_fail. intros w2 f Hdb Hoth. split; [|done]. exists ∅. split; [done|].
      exists f. by rewrite Hdb.
    + apply wp_refund_or_fail. intros w2 f Hdb Hoth. split; [|done]. exists ∅. split; [done|].
      exists f. by rewrite Hdb.
    + apply wp_ret. split; [|done]. exists ∅. split; [done|]. by exists (fun m => m).
  - intros [] w2 [[m' [Hm [f Hdb]]] Hoth]. apply wp_bind, wp_event. intros w3 id t _ Hdb3 Hoth3. apply wp_ret.
    eapply (Hdec w3 _ _ _ _ _ _ m'); [done| |by etrans]. split; [done|].
    exists (fun m => <[id := OutboxRow pr.(p_order_id) (EvSeatsChanged orow.(o_event_id)
      (Some (map (fun kr => kr.1.2) (seats_of_order pr.(p_order_id) w.(w_db))))) w2.(w_request_id) 1 t None None None]> (f m)).
    by rewrite Hdb3, Hdb.
Qed.
End callback_rules.

(** ** Decided callbacks keep the invariant *)

Lemma payment_decision_inv st v out dec :
  payment_decision st v out = dec ->
  match dec with
  | BOOK => st = O_PENDING /\ v = true /\ out = SUCCEEDED
  | REFUND => is_booked st = false /\ out = SUCCEEDED
  | FAIL => st = O_PENDING /\ out = FAILED
  | UNCHANGED => is_booked st = true \/ (st <> O_PENDING /\ out = FAILED)
  end.
Proof. intros <-. destruct st, v, out; simpl; auto. Qed.

(** The core reads neither payments, callbacks nor refunds. *)
Lemma inv_core_eq d d' :
  d'.(holds) = d.(holds) -> d'.(orders) = d.(orders) -> d'.(event_seats) = d.(event_seats) ->
  d'.(order_items) = d.(order_items) -> d'.(bookings) = d.(bookings) -> inv_core d -> inv_core d'.
Proof. intros Hh Ho Hs Hi Hb []. split; rewrite ?Hh, ?Ho, ?Hs, ?Hi, ?Hb; done. Qed.

Section decided_inv.
Context `{E : Env} (payload : callback_payload) (d d' : db) (o : uuid) (orow : order_row)
  (pr : payment_row) (now : Z) (valid : bool) (dec : decision) (m' : gmap uuid booking_row).
Context (Hinv : inv_commerce d) (Hf : callback_facts payload d o orow pr now valid dec).

Local Abbreviation p := (payload.(cb_payment_id)).
Local Abbreviation h := (orow.(o_hold_id)).
Local Abbreviation d0 := (noted payload d).

Lemma noted_core : inv_core d0.
Proof. apply (inv_core_eq d); [done..|apply Hinv]. Qed.

(** An undecided payment belongs to an unsettled order without a refund. *)
Lemma open_unsettled : settled orow.(o_status) = false.
Proof.
  apply not_true_iff_false. intros Hs. destruct (inv_p d Hinv) as [_ H2 _ H4 _ _].
  destruct (H4 _ _ (cf_order _ _ _ _ _ _ _ _ Hf) Hs) as (p2 & pr2 & Hp2 & Ho2 & Hs2).
  destruct (cf_order_id _ _ _ _ _ _ _ _ Hf) as [Hpo _].
  assert (p2 = p) as -> by (eapply H2; [done|apply Hf|congruence]).
  rewrite (cf_payment _ _ _ _ _ _ _ _ Hf) in Hp2. injection Hp2 as ->.
  by apply (cf_open _ _ _ _ _ _ _ _ Hf).
Qed.

Lemma open_no_refund : d.(refund_requests) !! p = None.
Proof.
  apply eq_None_not_Some. intros [rr Hrr].
  destruct (ip_refund d (inv_p d Hinv) _ _ Hrr) as (pr2 & _ & Hp2 & _ & Hs & _).
  rewrite (cf_payment _ _ _ _ _ _ _ _ Hf) in Hp2. injection Hp2 as ->.
  by apply (cf_open _ _ _ _ _ _ _ _ Hf).
Qed.

Lemma settle_pay d1 st s' :
  outcome_status payload.(cb_outcome) = st ->
  d1.(payment_attempts) = d0.(payment_attempts) ->
  (forall o', o' <> o -> d1.(orders) !! o' = d.(orders) !! o') ->
  (exists r', d1.(orders) !! o = Some r' /\ r'.(o_status) = s') ->
  (st = P_SUCCEEDED <-> settled s' = true) ->
  d1.(refund_requests) = (if refunding s' then <[p := RefundRow o R_PENDING]> d.(refund_requests)
                          else d.(refund_requests)) ->
  inv_pay d1.
Proof.
  intros Hst Hp Hoth Hs Hset Href.
  apply (inv_pay_update d d1 p o pr orow st s'); try done; try apply Hf; [apply Hinv|].
  by rewrite Hp, <-Hst.
Qed.

Lemma decided_book : dec = BOOK -> booked_for o orow.(o_event_id) (seats_of_order o d) d.(bookings) m' ->
  inv_commerce (booked o h m' d0).
Proof.
  intros Hdec Hm. pose proof (cf_dec _ _ _ _ _ _ _ _ Hf) as Hd. rewrite Hdec in Hd. symmetry in Hd.
  apply payment_decision_inv in Hd as (Hpend & Hv & Hout).
  assert (forall kr, kr ∈ seats_of_order o d -> kr.2.(s_hold_id) = Some h) as Hheld.
  { intros kr Hin. rewrite (cf_valid _ _ _ _ _ _ _ _ Hf) in Hv. unfold callback_valid, hold_valid in Hv.
    destruct (seats_of_order o d) as [|x l] eqn:Hs; [done|]. destruct (holds d !! h); [|done]. bool_hyps.
    rewrite forallb_forall in H0. specialize (H0 kr (proj1 (list_elem_of_In _ _) Hin)).
    unfold seat_valid in H0. bool_hyps. done. }
  split.
  - apply (booked_core _ _ _ _ orow (seats_of_order o d0)); try done; [apply noted_core|apply Hf].
  - apply (settle_pay _ P_SUCCEEDED O_PAID); try done; [by rewrite Hout|by intros; rewrite booked_order_other|].
    eexists. split; [apply booked_order; exists orow; split; [apply Hf|done]|]. by rewrite bool_decide_eq_true_2.
  - apply booked_totals. apply Hinv.
  - eapply (booked_tickets _ _ _ d0 orow (seats_of_order o d0)); [done|]. by destruct (inv_tk d Hinv); split.
Qed.

Lemma released_noted_order st :
  exists r', (released h o st d0).(orders) !! o = Some r' /\ r'.(o_total) = orow.(o_total) /\
    r'.(o_status) <> O_PENDING /\ is_booked r'.(o_status) = is_booked orow.(o_status).
Proof.
  eexists. split; [apply released_order; exists orow; split; [apply Hf|done]|].
  unfold pending_order. rewrite bool_decide_eq_true_2 by done. simpl.
  case_bool_decide as Hp; simpl; [by rewrite Hp|done].
Qed.

Lemma refunded_orders_other k :
  k <> o -> (refunded dec p o h d0).(orders) !! k = d.(orders) !! k.
Proof.
  intros Hne. unfold refunded, with_order_status, released. destruct (_ && _); simpl;
    rewrite !lookup_update_where; unfold order_is, pending_order;
    rewrite !bool_decide_eq_false_2 by done; by destruct (orders d !! k).
Qed.

Lemma refunded_order :
  exists r', (refunded dec p o h d0).(orders) !! o = Some r' /\ r'.(o_total) = orow.(o_total) /\
    r'.(o_status) = if bool_decide (dec = REFUND) then O_REFUND_PENDING else O_FAILED.
Proof.
  destruct (released_noted_order (if bool_decide (dec = REFUND) then H_EXPIRED else H_RELEASED))
    as (r1 & Hr1 & Ht & _).
  exists (order_with_status (if bool_decide (dec = REFUND) then O_REFUND_PENDING else O_FAILED) r1).
  split; [|done]. unfold refunded. destruct (_ && _); apply with_order_status_Some; exists r1;
    split; try done; by rewrite (bool_decide_eq_true_2 (o = o)).
Qed.

Lemma decided_refund : dec = REFUND \/ dec = FAIL -> inv_commerce (refunded dec p o h d0).
Proof.
  intros Hcase. pose proof (cf_dec _ _ _ _ _ _ _ _ Hf) as Hd. symmetry in Hd.
  apply payment_decision_inv in Hd. set (rf := bool_decide (dec = REFUND)).
  assert (is_booked orow.(o_status) = false) as Hnb.
  { destruct Hcase as [-> | ->]; destruct Hd as [Hd _]; [done|by rewrite Hd]. }
  assert (outcome_status payload.(cb_outcome) = if rf then P_SUCCEEDED else P_FAILED) as Hout.
  { unfold rf. destruct Hcase as [-> | ->]; destruct Hd as [_ ->]; done. }
  assert (inv_core (released h o (if rf then H_EXPIRED else H_RELEASED) d0)) as Hrc.
  { apply (released_core h o _ d0 orow); [apply noted_core|destruct rf; auto|apply Hf|done]. }
  destruct (released_noted_order (if rf then H_EXPIRED else H_RELEASED)) as (r1 & Hr1 & Ht1 & Hp1 & Hb1).
  destruct refunded_order as (r2 & Hr2 & Ht2 & Hs2). split.
  - apply (inv_core_eq (with_order_status o (if rf then O_REFUND_PENDING else O_FAILED)
      (released h o (if rf then H_EXPIRED else H_RELEASED) d0)));
      [by unfold refunded; destruct (_ && _)..|].
    apply (with_order_status_core _ r1); [done|done| |]; [by destruct rf|]. rewrite Hb1, Hnb. by destruct rf.
  - apply (settle_pay _ (if rf then P_SUCCEEDED else P_FAILED) (if rf then O_REFUND_PENDING else O_FAILED));
      [done|by unfold refunded; destruct (_ && _)|apply refunded_orders_other|by exists r2|by destruct rf|].
    unfold refunded. change (bool_decide (dec = REFUND)) with rf.
    assert (has d0.(refund_requests) p = false) as -> by apply has_false, open_no_refund. by destruct rf.
  - apply (inv_totals_ext d); [apply Hinv|by unfold refunded; destruct (_ && _)|]. intros k r' Hk.
    destruct (decide (k = o)) as [->|Hne]; [|rewrite refunded_orders_other in Hk by done; eauto].
    exists orow. rewrite Hr2 in Hk. injection Hk as <-. split; [apply Hf|done].
  - destruct (inv_tk d Hinv) as [H1 H2 H3].
    assert ((refunded dec p o h d0).(tickets) = d.(tickets) /\ (refunded dec p o h d0).(bookings) = d.(bookings))
      as [Htk Hbk] by (unfold refunded; by destruct (_ && _)).
    split; rewrite ?Htk, ?Hbk; [done..|]. intros k r' b br Hk Hs. destruct (decide (k = o)) as [->|Hne].
    + rewrite Hr2 in Hk. injection Hk as <-. rewrite Hs2 in Hs. by case_bool_decide.
    + rewrite refunded_orders_other in Hk by done. by apply (H3 k r').
Qed.

Lemma decided_unchanged : dec = UNCHANGED -> inv_commerce d0.
Proof.
  intros Hdec. pose proof (cf_dec _ _ _ _ _ _ _ _ Hf) as Hd. rewrite Hdec in Hd. symmetry in Hd.
  apply payment_decision_inv in Hd.
  pose proof open_unsettled as Hset. destruct Hd as [Hb|[Hnp Hout]]; [by destruct (o_status orow)|].
  split; [apply noted_core| |apply Hinv|by destruct (inv_tk d Hinv); split].
  apply (settle_pay _ P_FAILED orow.(o_status)); try done; [by rewrite Hout|exists orow; split; [apply Hf|done]| |].
  - by rewrite Hset.
  - by destruct (o_status orow).
Qed.

Lemma decided_commerce : decided payload d o orow dec m' d' -> inv_commerce d'.
Proof.
  intros [Hm [f ->]]. apply inv_commerce_outbox. unfold settle. case_eq dec; intros Hd.
  - apply decided_book; auto.
  - rewrite <-Hd. apply decided_refund; auto.
  - rewrite <-Hd. apply decided_refund; auto.
  - by apply decided_unchanged.
Qed.
End decided_inv.

Lemma callback_tx_inv `{E : Env} payload w :
  inv w.(w_db) -> wp (callback_tx payload) (fun _ w' => inv w'.(w_db)) w.
Proof.
  intros Hinv. pose proof Hinv as [Hc Hi]. apply wp_callback_tx; [apply Hc| | |].
  - by intros w' c _ _ ->.
  - intros w' pr _ _ _ -> _. split; [by apply inv_commerce_callbacks|done].
  - intros w' o orow pr now valid dec m' Hf Hd _. split; [by eapply decided_commerce|].
    destruct Hd as [_ [f ->]]. unfold settle, refunded. destruct dec; try destruct (_ && _); exact Hi.
Qed.
