(* ===== verification/Fulfilment.v ===== *)
(** * The fulfilment consumer

    [consume_event], [request_refresh] and the consumer role of [main] in
    [src/ticketing/workers.py]: exactly-once effects of at-least-once deliveries, through the
    consumer inbox, and the dead letter written before an offset is committed past a message that
    cannot be processed.  [json.loads] of a message is the parameter [decode], the lenient
    [bytes.decode] of the dead letter [decode_replace], and what the Kafka client answers to a poll and
    a commit are [poll_fails] and [commit_fails]. *)

From S2P Require Import Prelude Domain Schema World Postgres Sql Observability Reservations.

Section fulfilment.
Context `{E : Env}.

(** ** request_refresh *)

(** The row an [INSERT .. ON CONFLICT(event_id) DO UPDATE] leaves. *)
Definition bump_refresh (now : Z) (seats : option (list string)) (r : refresh_row) : refresh_row :=
  let idle := r.(rq_generation) =? r.(rq_completed_generation) in
  RefreshRow (r.(rq_generation) + 1) r.(rq_completed_generation)
    (if idle then now else r.(rq_requested_at)) r.(rq_next_attempt_at) r.(rq_lease_until) r.(rq_lease_token)
    (if idle then seats
     else match r.(rq_seat_ids), seats with
          | Some old, Some new => Some (remove_dups (old ++ new))
          | _, _ => None
          end).

Definition request_refresh (event_id : uuid) (seats : option (list string)) : W unit :=
  d ← the_db;
  _ ← require (has d.(events) event_id) ForeignKeyViolation;
  now ← clock_timestamp;
  match d.(seat_refresh_requests) !! event_id with
  | None =>
      next ← clock_timestamp;
      update_db (set_seat_refresh_requests <[event_id := RefreshRow 1 0 now next None None seats]>)
  | Some r => update_db (set_seat_refresh_requests <[event_id := bump_refresh now seats r]>)
  end.

(** ** consume_event *)

Definition ValueError (message : string) : exn := PyError "ValueError" message.

(** [kind == "OrderPaid"] *)
Definition fulfil_order (order_id : uuid) : W unit :=
  found ← sql (fun d => d.(orders) !! order_id);
  _ ← lock_nowait [LockOrder order_id];
  order ← or_raise found NoneType;
  _ ← require (is_booked order.(o_status)) (ValueError "OrderPaid has no paid order");
  rows ← sql (bookings_of_order order_id);
  _ ← for_each rows (fun kb =>
        id ← uuid4; issued ← clock_timestamp; insert_ticket id (TicketRow kb.1 issued));
  _ ← update_order_status order_id (fun _ => true) O_FULFILLED;
  event order_id (EvTicketsIssued order_id).

Definition refund_with_status (st : refund_status) (r : refund_row) : refund_row := RefundRow r.(r_order_id) st.

(** [kind == "RefundRequested"] *)
Definition settle_refund (payment_id order_id : uuid) : W unit :=
  _ ← lock_nowait [LockOrder order_id];
  _ ← update_db (set_refund_requests
        (update_where (fun k _ => bool_decide (k = payment_id)) (refund_with_status R_REFUNDED)));
  update_order_status order_id (fun r => bool_decide (r.(o_status) = O_REFUND_PENDING)) O_REFUNDED.

Definition consume_tx (event_id : uuid) (body : event_body) : W unit :=
  seen ← sql (fun d => bool_decide (event_id ∈ d.(consumer_inbox)));
  if seen : bool then mret tt
  else
    _ ← update_db (set_consumer_inbox (fun s => {[event_id]} ∪ s));
    match body with
    | EvSeatsChanged ev seats => request_refresh ev seats
    | EvOrderPaid order_id => fulfil_order order_id
    | EvRefundRequested payment_id order_id => settle_refund payment_id order_id
    | EvTicketsIssued _ => inc "log:development_notification" []
    | EvOther _ => raise (ValueError "Unknown event type")
    end.

Definition consume_event (env : envelope) : W unit :=
  measured_work "consume_event" (
    _ ← require (env.(en_schema_version) =? 1) (ValueError "Unsupported event schema");
    transaction (consume_tx env.(en_event_id) env.(en_body))).

(** ** The consumer loop of main *)

(** The consumer's position in the topic and the offset committed for the group. *)
Record consumer_pos : Type := ConsumerPos { kc_position : nat; kc_committed : nat }.

Definition lift {A} (m : W A) : M (world * consumer_pos) A := fun s =>
  let '(w', r) := m s.1 in ((w', s.2), r).

Definition seek (offset : nat) : M (world * consumer_pos) unit :=
  modify (fun s => (s.1, ConsumerPos offset s.2.(kc_committed))).
(** What [consumer.poll] and [consumer.commit] answer at a draw: a poll may raise, and a commit may raise
    (a rebalance, a broker error) before or after the offset is stored. *)
Context (poll_fails : nat -> option exn) (commit_fails : nat -> fault).

(** [consumer.commit()] commits the current position. *)
Definition commit_offset : M (world * consumer_pos) unit :=
  i ← lift draw;
  let stored := modify (fun s => (s.1, ConsumerPos s.2.(kc_position) s.2.(kc_position))) in
  match commit_fails i with
  | NoFault => stored
  | FaultBefore e => raise e
  | FaultAfter e => _ ← stored; raise e
  end.

Definition dead_letter_error : string := "Processing failed after 5 attempts; inspect worker logs".

Fixpoint has_nul (s : string) : bool :=
  match s with
  | EmptyString => false
  | String c s' => bool_decide (c = Ascii.zero) || has_nul s'
  end.

(** The row [{"raw": text}]: a [jsonb] column refuses the character [U+0000]. *)
Definition write_dead_letter (text : string) : W unit :=
  transaction (
    id ← uuid4;
    _ ← raise_if (has_nul text) UntranslatableCharacter;
    d ← the_db;
    _ ← require (negb (has d.(dead_letters) id)) UniqueViolation;
    update_db (set_dead_letters <[id := DeadLetterRow text dead_letter_error]>)).

(** [json.loads(message.value)], and [message.value.decode(errors="replace")]. *)
Context (decode : string -> outcome envelope) (decode_replace : string -> string).

(** One [json.loads] and [consume_event]. *)
Definition attempt_message (raw : string) : W unit :=
  env ← match decode raw with Ok env => mret env | Raise e => raise e end;
  consume_event env.

(** [for attempt in range(5)], the attempts left counted down. *)
Fixpoint attempts (left : nat) (raw : string) (offset : nat) : M (world * consumer_pos) unit :=
  match left with
  | O => mret tt
  | S left' =>
      try_except (lift (attempt_message raw)) (fun _ =>
        match left' with
        | O =>
            _ ← try_except (lift (write_dead_letter (decode_replace raw))) (fun e => _ ← seek offset; raise e);
            lift (inc "log:dead_letter" [])
        | _ => attempts left' raw offset
        end)
  end.

Definition handle_message (raw : string) (offset : nat) : M (world * consumer_pos) unit :=
  _ ← attempts 5 raw offset;
  commit_offset.

(** [consumer.poll(max_records=1)]: the message at the position, which then advances. *)
Definition poll (topic : list string) : M (world * consumer_pos) (option (string * nat)) :=
  i ← lift draw;
  _ ← match poll_fails i with Some e => raise e | None => mret tt end;
  s ← gets (fun s => s);
  match topic !! s.2.(kc_position) with
  | Some raw => _ ← seek (S s.2.(kc_position)); mret (Some (raw, s.2.(kc_position)))
  | None => mret None
  end.

Definition consumer_iteration (topic : list string) : M (world * consumer_pos) bool :=
  polled ← poll topic;
  match polled with
  | Some (raw, offset) => _ ← handle_message raw offset; mret true
  | None => mret false
  end.
End fulfilment.
