(* ===== verification/InvFulfil.v ===== *)
(** * Fulfilment keeps the invariant

    Tickets and refunds: the bodies of [consume_event], and the whole consumer loop with its retries
    and dead letters.  A ticket is inserted with [ON CONFLICT DO NOTHING], so issuing one for every
    booking needs the drawn identifiers to be new: [FreshFor]. *)

From S2P Require Import Prelude Domain Schema World Postgres Sql Observability Reservations Fulfilment.
From S2P Require Import Invariant InvReserve InvPayment InvCallback.

(** What [uuid4] is relied on for: it never repeats and never draws the id of an existing ticket. *)
Class FreshFor `{E : Env} (d : db) : Prop := {
  fresh_inj :: Inj (=) (=) e_rng;
  fresh_ticket : forall i, d.(tickets) !! e_rng i = None;
}.

(** ** Operations that keep a property of the database on every outcome *)

Definition keeps {A} (P : db -> Prop) (m : W A) : Prop :=
  forall w, P w.(w_db) -> P (m w).1.(w_db).

Section keeps.
Context `{E : Env} (P : db -> Prop).

Lemma keeps_run {A} (m : W A) w w' r : keeps P m -> m w = (w', r) -> P w.(w_db) -> P w'.(w_db).
Proof. intros Hm Hr Hw. specialize (Hm w Hw). by rewrite Hr in Hm. Qed.

Lemma keeps_ret {A} (a : A) : keeps P (mret a).
Proof. by intros w. Qed.

Lemma keeps_raise {A} e : keeps P (raise (A := A) e).
Proof. by intros w. Qed.

Lemma keeps_bind {A B} (m : W A) (f : A -> W B) : keeps P m -> (forall a, keeps P (f a)) -> keeps P (m ≫= f).
Proof.
  intros Hm Hf w Hw. specialize (Hm w Hw). unfold mbind, M_bind.
  destruct (m w) as [w' [a|e]]; [by apply Hf|done].
Qed.

Lemma keeps_try {A} (m : W A) h : keeps P m -> (forall e, keeps P (h e)) -> keeps P (try_except m h).
Proof.
  intros Hm Hh w Hw. specialize (Hm w Hw). unfold try_except.
  destruct (m w) as [w' [a|e]]; [done|by apply Hh].
Qed.

Lemma keeps_for_each_in {X} (l : list X) f : (forall x, x ∈ l -> keeps P (f x)) -> keeps P (for_each l f).
Proof.
  intros Hf. induction l as [|x l IH]; [apply keeps_ret|]. apply keeps_bind; [apply Hf; left|intros _]. apply IH. intros y Hy. apply Hf. by right.
Qed.

Lemma keeps_for_each {X} (l : list X) f : (forall x, keeps P (f x)) -> keeps P (for_each l f).
Proof. intros Hf. by apply keeps_for_each_in. Qed.

Lemma keeps_draw {A} (f : nat -> W A) : (forall i, keeps P (f i)) -> keeps P (draw ≫= f).
Proof. intros Hf w Hw. by apply Hf. Qed.

Lemma keeps_obs o : keeps P (modify (add_obs o)).
Proof. by intros w. Qed.

Lemma keeps_sql {A} (f : db -> A) : keeps P (sql f).
Proof. by intros w. Qed.

Lemma keeps_uuid4 : keeps P uuid4.
Proof. by intros w. Qed.

Lemma keeps_monotonic : keeps P monotonic.
Proof. by intros w. Qed.

Lemma keeps_clock : keeps P clock_timestamp.
Proof. by intros w. Qed.

Lemma keeps_redis {A} (f : redis -> redis * A) : keeps P (redis_call f).
Proof. intros w Hw. unfold redis_call, draw, mbind, M_bind. simpl. by destruct (e_redis _). Qed.

Lemma keeps_transaction {A} (body : W A) :
  (forall w, P w.(w_db) -> wp body (fun _ w' => P w'.(w_db)) w) -> keeps P (transaction body).
Proof. intros Hb w Hw. apply transaction_preserves; [done|]. intros w0 Hdb _. apply Hb. by rewrite Hdb. Qed.

Lemma keeps_measured {A} op (m : W A) : keeps P m -> keeps P (measured_work op m).
Proof.
  intros Hm w Hw. unfold measured_work.
  specialize (Hm (add_obs (Obs "WORK_ACTIVE" [op] 1) w) Hw).
  unfold mbind, M_bind, inc, modify. simpl. by destruct (m _) as [w' [a|e]].
Qed.

Lemma keeps_hold_phase {A} ph (m : W A) : keeps P m -> keeps P (hold_phase ph m).
Proof. intros Hm w Hw. specialize (Hm w Hw). unfold hold_phase. by destruct (m w) as [w' [a|e]]. Qed.

Lemma keeps_raise_if b e : keeps P (raise_if b e).
Proof. intros w. by destruct b. Qed.

Lemma keeps_or_raise {A} (o : option A) e : keeps P (or_raise o e).
Proof. intros w. by destruct o. Qed.
End keeps.

Create HintDb keeps discriminated.
#[export] Hint Resolve keeps_ret keeps_raise keeps_bind keeps_try keeps_for_each keeps_draw keeps_obs
  keeps_sql keeps_uuid4 keeps_monotonic keeps_clock keeps_redis keeps_measured keeps_hold_phase
  keeps_raise_if keeps_or_raise : keeps.

(** ** Effects of consume_event *)

Section consume_inv.
Context `{E : Env}.

Lemma request_refresh_commerce ev seats w :
  wp (request_refresh ev seats) (fun _ w' => commerce_eq w.(w_db) w'.(w_db) /\
     w'.(w_db).(idempotency_records) = w.(w_db).(idempotency_records)) w.
Proof. unfold request_refresh. wp_sql; done. Qed.

(** Tickets [m'] extend [m] by at most one new ticket for each booking of [rows], none repeated. *)
Record ticketed (rows : list (uuid * booking_row)) (m m' : gmap uuid ticket_row) : Prop := Ticketed {
  tk_old : forall t tr, m !! t = Some tr -> m' !! t = Some tr;
  tk_new : forall kb, kb ∈ rows -> exists t tr, m' !! t = Some tr /\ tr.(t_booking_id) = kb.1;
  tk_inv : forall t tr, m' !! t = Some tr -> m !! t = Some tr \/ exists kb, kb ∈ rows /\ tr.(t_booking_id) = kb.1;
  tk_unique : forall t1 t2 r1 r2, m' !! t1 = Some r1 -> m' !! t2 = Some r2 ->
    r1.(t_booking_id) = r2.(t_booking_id) -> t1 = t2;
}.

Definition fulfilled (o : uuid) (m' : gmap uuid ticket_row) (d : db) : db :=
  with_order_status o O_FULFILLED (set_tickets (fun _ => m') d).

Definition issue (kb : uuid * booking_row) : W unit :=
  id ← uuid4; issued ← clock_timestamp; insert_ticket id (TicketRow kb.1 issued).

Lemma wp_issue_all rows w :
  FreshFor w.(w_db) ->
  (forall t1 t2 r1 r2, w.(w_db).(tickets) !! t1 = Some r1 -> w.(w_db).(tickets) !! t2 = Some r2 ->
     r1.(t_booking_id) = r2.(t_booking_id) -> t1 = t2) ->
  wp (for_each rows issue) (fun _ w' => exists m', ticketed rows w.(w_db).(tickets) m' /\
     w'.(w_db) = set_tickets (fun _ => m') w.(w_db) /\ others_eq w w') w.
Proof.
  intros Hfresh Huniq.
  eapply wp_mono; [apply (wp_for_each_prefix (fun pre w' => exists m',
    ticketed pre w.(w_db).(tickets) m' /\ w'.(w_db) = set_tickets (fun _ => m') w.(w_db) /\ others_eq w w' /\
    (forall i, (w'.(w_tick) <= i)%nat -> m' !! e_rng i = None)))|].
  - intros pre x rest w' _ (m' & [Ha Hb Hc Hd] & Hdb & Hoth & Hf).
    apply wp_bind, wp_uuid4, wp_bind, wp_clock. set (id := e_rng (w_tick w')).
    assert (m' !! id = None) as Hid by (apply Hf; lia). simpl.
    apply wp_insert_ticket; simpl; rewrite Hdb; simpl.
    + intros [[tr Htr]|(t & tr & Ht & Hbt)]; [congruence|].
      exists m'. split; [|split; [done|split; [done|]]]; [|intros i Hi; apply Hf; lia].
      split; [done| | |done].
      * intros kb [Hin| ->%list_elem_of_singleton]%elem_of_app; eauto.
      * intros t' tr' Ht'. destruct (Hc _ _ Ht') as [?|(kb & Hin & ?)]; [by left|right].
        exists kb. rewrite elem_of_app. auto.
    + intros Hn Hnone Hbk. exists (<[id := TicketRow x.1 (e_clock (S (w_tick w')))]> m').
      split; [|split; [done|split; [done|]]].
      * split.
        -- intros t tr Ht. rewrite lookup_insert_ne; [auto|]. intros <-. apply Ha in Ht. congruence.
        -- intros kb [Hin| ->%list_elem_of_singleton]%elem_of_app.
           ++ destruct (Hb _ Hin) as (t & tr & Ht & ?). exists t, tr. split; [|done].
              rewrite lookup_insert_ne; [done|]. intros <-. congruence.
           ++ eexists id, _. by rewrite lookup_insert_eq.
        -- intros t tr [[<- <-]|[_ Ht]]%lookup_insert_Some.
           ++ right. exists x. rewrite elem_of_app. split; [right; by apply list_elem_of_singleton|done].
           ++ destruct (Hc _ _ Ht) as [?|(kb & Hin & ?)]; [by left|right]. exists kb. rewrite elem_of_app. auto.
        -- intros t1 t2 r1 r2 [[<- <-]|[_ H1]]%lookup_insert_Some [[<- <-]|[_ H2]]%lookup_insert_Some; simpl;
             [done| | |by eauto]; intros He; [destruct (Hnone _ _ H2)|destruct (Hnone _ _ H1)]; congruence.
      * intros i Hi. rewrite lookup_insert_ne; [apply Hf; lia|]. intros Heq%(inj e_rng). lia.
  - exists w.(w_db).(tickets). split; [|split; [by destruct w as [[]]|split; [done|]]].
    + split; [done| |by left|done]. intros kb Hin. by apply not_elem_of_nil in Hin.
    + intros. apply fresh_ticket.
  - intros [] w' (m' & ? & ? & ? & _). by exists m'.
Qed.

Lemma bookings_of_order_elem o d b br : (b, br) ∈ bookings_of_order o d <-> d.(bookings) !! b = Some br /\ br.(b_order_id) = o.
Proof. unfold bookings_of_order. rewrite list_elem_of_filter, elem_of_map_to_list. naive_solver. Qed.

Lemma with_order_status_sim o r st d :
  d.(orders) !! o = Some r -> is_booked st = is_booked r.(o_status) -> settled st = settled r.(o_status) ->
  refunding st = refunding r.(o_status) -> orders_sim d (with_order_status o st d).
Proof.
  intros Ho Hb Hs Hr.
  assert (forall k r0, d.(orders) !! k = Some r0 ->
    order_sim r0 (if bool_decide (k = o) then order_with_status st r0 else r0)) as Hsim.
  { intros k r0 Hk. case_bool_decide; [|apply order_sim_refl]. subst. simplify_eq. by split. }
  split.
  - intros k r0 Hk. eexists. split; [apply with_order_status_Some; eauto|eauto].
  - intros k r' (r0 & Hk & ->)%with_order_status_Some. eauto.
Qed.

Lemma fulfilled_commerce o r m' d :
  inv_commerce d -> d.(orders) !! o = Some r -> is_booked r.(o_status) = true ->
  ticketed (bookings_of_order o d) d.(tickets) m' -> inv_commerce (fulfilled o m' d).
Proof.
  intros [Hc Hp Ht [H1 H2 H3]] Ho Hb [Ta Tb Tc Td].
  assert (orders_sim (set_tickets (fun _ => m') d) (fulfilled o m' d)) as Hsim.
  { apply (with_order_status_sim _ r); [done|by destruct (o_status r)..]. }
  split.
  - apply (with_order_status_core _ r); [by apply (inv_core_eq d)|done|by destruct (o_status r)|by rewrite Hb].
  - apply (inv_pay_sim (set_tickets (fun _ => m') d)); [done..|]. by destruct Hp; split.
  - by apply (inv_totals_sim (set_tickets (fun _ => m') d)).
  - split.
    + intros t tr [Htr|([b br] & Hin & Heq)]%Tc; [eauto|].
      apply bookings_of_order_elem in Hin as [Hin _]. simpl in Heq. rewrite Heq. by exists br.
    + exact Td.
    + intros k r' b br (r0 & Hk & ->)%with_order_status_Some Hs Hbk Hbo.
      case_bool_decide as Hko; [subst k|].
      * apply (Tb (b, br)). by apply bookings_of_order_elem.
      * destruct (H3 _ _ _ _ Hk Hs Hbk Hbo) as (t & tr & Htr & Heq). exists t, tr. auto.
Qed.

Lemma fulfil_order_inv o w :
  FreshFor w.(w_db) -> inv w.(w_db) -> wp (fulfil_order o) (fun _ w' => inv w'.(w_db)) w.
Proof.
  intros Hfresh [Hc Hi]. unfold fulfil_order. apply wp_bind, wp_sql, wp_bind, wp_lock_nowait.
  apply wp_bind, wp_or_raise. intros r Ho. apply wp_bind, wp_require. intros Hb. apply wp_bind, wp_sql, wp_bind.
  eapply wp_mono; [apply (wp_issue_all (bookings_of_order o w.(w_db)) (next_tick w)); [done|apply Hc]|].
  intros [] w1 (m' & Hm & Hdb & Hoth). apply wp_bind, wp_update_order_status.
  apply wp_event. intros w2 id t _ Hdb2 _. simpl in Hdb2. rewrite set_orders_where_true, Hdb in Hdb2.
  rewrite Hdb2. split; [|done]. apply inv_commerce_outbox. by apply (fulfilled_commerce o r).
Qed.

(** A conditional change of one order is the unconditional one or none. *)
Lemma set_orders_where_if o P st d :
  set_orders (update_where (fun k r => bool_decide (k = o) && P r) (order_with_status st)) d =
  match d.(orders) !! o with
  | Some r => if P r then with_order_status o st d else d
  | None => d
  end.
Proof.
  assert (forall m, m = d.(orders) -> set_orders (fun _ => m) d = d) as Hsame by (intros ? ->; by destruct d).
  unfold with_order_status. destruct (orders d !! o) as [r|] eqn:Ho; [destruct (P r) eqn:HP|].
  - unfold set_orders. f_equal. apply map_eq. intros k. rewrite !lookup_update_where. unfold order_is.
    case_bool_decide; subst; [rewrite Ho; simpl; by rewrite HP|done].
  - etrans; [|apply (Hsame _ eq_refl)]. unfold set_orders. f_equal. apply map_eq. intros k.
    rewrite lookup_update_where. case_bool_decide; subst; [rewrite Ho; simpl; by rewrite HP|].
    by destruct (orders d !! k).
  - etrans; [|apply (Hsame _ eq_refl)]. unfold set_orders. f_equal. apply map_eq. intros k.
    rewrite lookup_update_where. case_bool_decide; subst; [by rewrite Ho|]. by destruct (orders d !! k).
Qed.

Lemma inv_pay_refund_status P st d :
  inv_pay d -> inv_pay (set_refund_requests (update_where P (refund_with_status st)) d).
Proof.
  intros [H1 H2 H3 H4 H5 H6]. split; simpl; [done..| |].
  - intros p rr (rr0 & Hrr & ->)%update_where_Some. destruct (H5 _ _ Hrr) as (pr & o & ?).
    exists pr, o. by destruct (P p rr0).
  - intros o r Ho Hr. destruct (H6 _ _ Ho Hr) as (p & pr & rr & ? & ? & Hrr & ?).
    eexists p, pr, _. split; [done|]. split; [done|]. split; [apply update_where_Some; eauto|].
    by destruct (P p rr).
Qed.

Lemma settle_refund_inv p o w :
  inv w.(w_db) -> wp (settle_refund p o) (fun _ w' => inv w'.(w_db)) w.
Proof.
  intros [[Hc Hp Ht Htk] Hi]. unfold settle_refund. wp_sql. simpl. rewrite set_orders_where_if. simpl.
  set (d1 := set_refund_requests _ _).
  assert (inv_commerce d1) as Hd1.
  { split; [by apply (inv_core_eq w.(w_db))|by apply inv_pay_refund_status|done|by destruct Htk; split]. }
  destruct (orders (w_db w) !! o) as [r|] eqn:Ho; [|by split].
  case_bool_decide as Hs; [|by split]. destruct Hd1 as [Hc1 Hp1 Ht1 Htk1].
  assert (orders_sim d1 (with_order_status o O_REFUNDED d1)) as Hsim.
  { apply (with_order_status_sim _ r); [done|by rewrite Hs..]. }
  split; [|done]. split.
  - apply (with_order_status_core _ r); [done|done|by rewrite Hs|by rewrite Hs].
  - by apply (inv_pay_sim d1).
  - by apply (inv_totals_sim d1).
  - apply (inv_tickets_sim d1); [|done..]. intros k r' (r0 & Hk & ->)%with_order_status_Some Hf.
    exists r0. split; [done|]. by case_bool_decide.
Qed.

(** The branches of [consume_tx] leave the inbox alone. *)
Lemma fulfil_order_inbox o w :
  wp (fulfil_order o) (fun _ w' => w'.(w_db).(consumer_inbox) = w.(w_db).(consumer_inbox)) w.
Proof.
  unfold fulfil_order. apply wp_bind, wp_sql, wp_bind, wp_lock_nowait, wp_bind, wp_or_raise. intros r _.
  apply wp_bind, wp_require. intros _. apply wp_bind, wp_sql, wp_bind.
  eapply wp_mono; [apply (wp_for_each (fun w' => w'.(w_db).(consumer_inbox) = w.(w_db).(consumer_inbox)))|].
  - intros x w' _ Hw. wp_sql; by rewrite <-Hw.
  - done.
  - intros [] w' Hw. apply wp_bind, wp_update_order_status, wp_event. intros w2 id t _ Hdb _. by rewrite Hdb.
Qed.

Lemma consume_tx_inv ev body w :
  inv w.(w_db) -> FreshFor w.(w_db) \/ ev ∈ w.(w_db).(consumer_inbox) ->
  wp (consume_tx ev body) (fun _ w' => inv w'.(w_db) /\ ev ∈ w'.(w_db).(consumer_inbox)) w.
Proof.
  intros Hinv Hfresh. unfold consume_tx. apply wp_bind, wp_sql. case_bool_decide as Hin; [by apply wp_ret|].
  destruct Hfresh as [Hfresh|]; [|done]. apply wp_bind, wp_update_db.
  set (w1 := set_db _ w).
  assert (inv w1.(w_db)) as Hinv1. { destruct Hinv. split; [by apply inv_commerce_inbox|done]. }
  assert (FreshFor w1.(w_db)) as Hf1 by (destruct Hfresh; by split).
  assert (ev ∈ w1.(w_db).(consumer_inbox)) as Hin1 by (simpl; set_solver).
  destruct body as [e seats|o|p o|o|k].
  - unfold request_refresh. destruct Hinv1 as [Hc Hi].
    wp_sql; (split; [split; [by apply inv_commerce_refresh|done]|done]).
  - apply wp_and; [by apply fulfil_order_inv|].
    eapply wp_mono; [apply fulfil_order_inbox|]. intros ? ? Heq; cbv beta in Heq. by rewrite Heq.
  - apply wp_and; [by apply settle_refund_inv|]. unfold settle_refund. by wp_sql.
  - by wp_sql.
  - by wp_sql.
Qed.

(** ** consume_event and the consumer loop *)

(** The invariant with the guard that makes a retry safe: the identifiers are still new, or the
    event is already in the inbox. *)
Definition inv_or_seen (ev : uuid) (d : db) : Prop := inv d /\ (FreshFor d \/ ev ∈ d.(consumer_inbox)).

Lemma consume_event_keeps env : keeps (inv_or_seen env.(en_event_id)) (consume_event env).
Proof.
  apply keeps_measured, keeps_bind; [apply keeps_raise_if|]. intros _. apply keeps_transaction.
  intros w [Hinv Hf]. eapply wp_mono; [by apply consume_tx_inv|]. intros [] w' [? ?]. split; auto.
Qed.

Lemma write_dead_letter_keeps raw : keeps inv (write_dead_letter raw).
Proof.
  apply keeps_transaction. intros w Hinv. wp_sql. destruct Hinv as [Hc Hi].
  split; [by apply (inv_commerce_eq w.(w_db))|done].
Qed.

Context (decode : string -> outcome envelope) (decode_replace : string -> string).

Lemma lift_run {A} (m : W A) s : (lift m s).1 = ((m s.1).1, s.2) /\ (lift m s).2 = (m s.1).2.
Proof. unfold lift. by destruct (m s.1). Qed.

Lemma attempts_inv n raw offset s :
  inv s.1.(w_db) -> FreshFor s.1.(w_db) \/
    (exists env, decode raw = Ok env /\ env.(en_event_id) ∈ s.1.(w_db).(consumer_inbox)) ->
  inv (attempts decode decode_replace n raw offset s).1.1.(w_db).
Proof.
  revert s. induction n as [|n IH]; intros s Hinv Hf; [done|]. simpl. unfold try_except at 1.
  destruct (lift_run (attempt_message decode raw) s) as [H1 H2].
  destruct (lift (attempt_message decode raw) s) as [s' r]. simpl in H1, H2. subst s'.
  assert (inv (attempt_message decode raw s.1).1.(w_db) /\
    (FreshFor (attempt_message decode raw s.1).1.(w_db) \/
     (exists env, decode raw = Ok env /\ env.(en_event_id) ∈ (attempt_message decode raw s.1).1.(w_db).(consumer_inbox)))) as [Hi Hf'].
  { unfold attempt_message. destruct (decode raw) as [env|e] eqn:Hd; [|destruct Hf as [?|(? & ? & _)]; auto; done].
    assert (inv_or_seen env.(en_event_id) s.1.(w_db)) as Hs.
    { split; [done|]. destruct Hf as [?|(env' & [= ->] & ?)]; auto. }
    destruct (consume_event_keeps env s.1 Hs) as [Hi Hf']. split; [exact Hi|].
    destruct Hf'; [by left|right]. by exists env. }
  destruct r as [[]|e]; [done|]. destruct n as [|n].
  - unfold try_except, mbind, M_bind.
    pose proof (write_dead_letter_keeps (decode_replace raw) (attempt_message decode raw s.1).1 Hi) as Hdl.
    unfold lift at 1. simpl. destruct (write_dead_letter _ _) as [w2 [[]|e2]]; done.
  - by apply IH.
Qed.
End consume_inv.
