(* ===== verification/Cache.v ===== *)
(** * The Redis seat cache

    [src/ticketing/infrastructure/cache.py]: the Lua scripts ACQUIRE, RELEASE, PUT, BROWSE, RATE and
    TOUCH, each one atomic function of the Redis state, and the methods of [RedisSeats] around them.
    Redis removes expired keys before a script sees them ([purge]).  Epochs are microseconds, as
    everywhere; a script's [TIME] is whole seconds. *)

From S2P Require Import Prelude Domain Schema World Observability Sql.

(** ** Expiry *)

Definition alive (now : Z) (expires : option Z) : bool :=
  match expires with Some t => now <? t | None => true end.

Definition live {K A} `{Countable K} (expires : A -> option Z) (now : Z) (m : gmap K A) : gmap K A :=
  filter (fun ka : K * A => alive now (expires ka.2) = true) m.

Definition purge (now : Z) (r : redis) : redis :=
  Redis (live (fun s => Some s.2) now r.(r_shields)) (live (fun s => Some s.2) now r.(r_rates))
    (live sh_expires now r.(r_seatmaps)) (live (fun e => Some e.(ie_expires)) now r.(r_idems))
    (live (fun e => Some e.(ce_expires)) now r.(r_commands)) r.(r_streams) r.(r_expiry) r.(r_registry).

Section eval.
Context `{E : Env}.

(** [redis.eval(script, ...)]: the server's clock, then the script on the live keys. *)
Definition redis_eval {A} (script : Z -> redis -> redis * A) : W A :=
  now ← clock_timestamp;
  redis_call (fun r => script now (purge now r)).
End eval.

(** ** The admission shield *)

(** ACQUIRE: all keys are free, or nothing is set.  [px] is in milliseconds. *)
Definition ACQUIRE (keys : list (uuid * string)) (token : uuid) (px : Z) (now : Z) (r : redis) : redis * bool :=
  if existsb (fun k => bool_decide (is_Some (r.(r_shields) !! k))) keys then (r, false)
  else (set_shields (fun m => foldl (fun m k => <[k := (token, now + milliseconds px)]> m) m keys) r, true).

(** RELEASE: only keys that carry the token are deleted. *)
Definition RELEASE (keys : list (uuid * string)) (token : uuid) (_ : Z) (r : redis) : redis * unit :=
  (set_shields (fun m => foldl (fun m k =>
     match m !! k with
     | Some (t, _) => if bool_decide (t = token) then delete k m else m
     | None => m
     end) m keys) r, tt).

(** RATE: the first increment of a window starts its one second expiry. *)
Definition RATE (actor : string) (now : Z) (r : redis) : redis * Z :=
  let '(n, t) := match r.(r_rates) !! actor with
                 | Some (n, t) => (n + 1, t)
                 | None => (1, now + seconds 1)
                 end in
  (set_rates <[actor := (n, t)]> r, n).

Definition shield_keys (event : uuid) (seats : list string) : list (uuid * string) :=
  map (fun s => (event, s)) seats.

Section admission.
Context `{E : Env}.

(** [with cache.shield(event, seats)]: the entered value is the token. *)
Definition shield (event : uuid) (seats : list string) : resource uuid :=
  Resource
    (token ← uuid4;
     acquired ← try_except (redis_eval (ACQUIRE (shield_keys event seats) token 2000))
                  (fun _ => raise (Failure "ADMISSION_UNAVAILABLE" 503));
     _ ← raise_if (negb acquired) (Failure "SEAT_BUSY" 409);
     mret token)
    (fun token _ =>
     _ ← try_except (redis_eval (RELEASE (shield_keys event seats) token)) (fun _ => mret tt);
     mret false).

Definition rate_limit (actor : string) : W unit :=
  n ← try_except (redis_eval (RATE actor)) (fun _ => raise (Failure "ADMISSION_UNAVAILABLE" 503));
  raise_if (20 <? n) (Failure "RATE_LIMITED" 429).
End admission.

(** ** The seat map *)

(** A seat document as [snapshot] and [changed_snapshot] build it from a row. *)
Definition cached_status (r : seat_row) : seat_status :=
  if bool_decide (is_Some r.(s_booked_order_id)) then SOLD
  else if bool_decide (is_Some r.(s_hold_id)) then HELD else AVAILABLE.

Inductive put_mode : Type := FULL | PATCH.

#[global] Instance put_mode_eq_dec : EqDecision put_mode.
Proof. solve_decision. Defined.

(** What a full rebuild carries besides the rows: layout, its tag, a new incarnation, the TTL in
    seconds and the sale window with the currency, absent for a caller that has none. *)
Record put_meta : Type := PutMeta {
  pm_layout : layout_doc;
  pm_layout_etag : string;
  pm_incarnation : uuid;
  pm_ttl_seconds : Z;
  pm_sale : option (Z * Z * string);
}.

(** The document written for a row: the incoming one if it is newer than the cached one. *)
Definition put_newer (old : option cseat) (seat : cseat) : bool :=
  match old with
  | None => true
  | Some o => o.(cs_source_version) <? seat.(cs_source_version)
  end.

Definition put_selected (old : option cseat) (seat : cseat) : cseat :=
  match old with
  | Some o => if put_newer old seat then seat else o
  | None => seat
  end.

(** One pass over the rows: the version and the documents to write. *)
Definition put_row (mode : put_mode) (dirty : bool) (m : gmap string cseat) (acc : Z * list cseat) (seat : cseat)
    : Z * list cseat :=
  let old := m !! seat.(cs_seat_id) in
  let newer := put_newer old seat in
  let selected := put_selected old seat in
  let version :=
    match mode with
    | FULL => acc.1 + selected.(cs_source_version)
    | PATCH => if newer
               then acc.1 + seat.(cs_source_version)
                    - match old with Some o => o.(cs_source_version) | None => 0 end
               else acc.1
    end in
  (version, if newer || dirty then acc.2 ++ [selected] else acc.2).

Definition with_version (v : Z) (s : cseat) : cseat :=
  CSeat s.(cs_seat_id) s.(cs_price) s.(cs_status) s.(cs_reserved_until) s.(cs_reserved_until_epoch) v
    s.(cs_source_version) s.(cs_hold_id).

Definition write_seats (v : Z) (changed : list cseat) (m : gmap string cseat) : gmap string cseat :=
  foldl (fun m s => <[s.(cs_seat_id) := with_version v s]> m) m changed.

(** The hash after PUT, and the version it returns; [-1] refuses a patch of a missing or dirty map. *)
Definition put_hash (mode : put_mode) (rows : list cseat) (meta : option put_meta) (now : Z) (h : option seat_hash)
    : option seat_hash * Z :=
  let h0 := default empty_hash h in
  let exists_ := bool_decide (is_Some h0.(sh_version)) in
  let dirty := h0.(sh_updating) in
  if bool_decide (mode = PATCH) && (negb exists_ || dirty) then (h, -1)
  else
    let start := match mode with FULL => 0 | PATCH => default 0 h0.(sh_version) end in
    let '(version, changed) := foldl (put_row mode dirty h0.(sh_seats)) (start, []) rows in
    let seats := write_seats version changed h0.(sh_seats) in
    match mode, meta with
    | FULL, Some pm =>
        (Some (SeatHash (Some version) false
                 (Some (default pm.(pm_incarnation) h0.(sh_incarnation)))
                 (Some pm.(pm_layout)) (Some pm.(pm_layout_etag))
                 (match pm.(pm_sale) with Some (a, _, _) => Some a | None => h0.(sh_sale_starts_epoch) end)
                 (match pm.(pm_sale) with Some (_, b, _) => Some b | None => h0.(sh_sale_ends_epoch) end)
                 (match pm.(pm_sale) with Some (_, _, c) => Some c | None => h0.(sh_currency) end)
                 seats (Some (now + seconds pm.(pm_ttl_seconds)))), version)
    | _, _ =>
        (Some (SeatHash (Some version) false h0.(sh_incarnation) h0.(sh_layout) h0.(sh_layout_etag)
                 h0.(sh_sale_starts_epoch) h0.(sh_sale_ends_epoch) h0.(sh_currency) seats h0.(sh_expires)), version)
    end.

Definition PUT (event : uuid) (mode : put_mode) (rows : list cseat) (meta : option put_meta) (now : Z) (r : redis)
    : redis * Z :=
  let '(h, v) := put_hash mode rows meta now (r.(r_seatmaps) !! event) in
  (set_seatmaps (fun m => match h with Some h' => <[event := h']> m | None => m end) r, v).

(** ** Validators and browsing *)

Inductive browse_kind : Type := LAYOUT | AVAILABILITY.

#[global] Instance browse_kind_eq_dec : EqDecision browse_kind.
Proof. solve_decision. Defined.

(** An entity tag: the layout tag is a hash of the layout, the availability tag names the event, the
    incarnation of the hash and its version.  [Other] is any other validator a client sends. *)
Inductive etag : Type :=
| LayoutTag (hash : string)
| AvailabilityTag (event : uuid) (incarnation : uuid) (version : Z)
| OtherTag (text : string).

#[global] Instance etag_eq_dec : EqDecision etag.
Proof. solve_decision. Defined.

(** One candidate of an [If-None-Match] list, with [W/] and blanks removed. *)
Inductive validator : Type := AnyTag | ExactTag (t : etag).

#[global] Instance validator_eq_dec : EqDecision validator.
Proof. solve_decision. Defined.

Inductive browse_result : Type :=
| BrowseWarming
| BrowseNotModified (tag : etag)
| BrowseLayout (tag : etag) (layout : layout_doc)
| BrowseSeats (tag : etag) (version : Z) (seats : list cseat).

Definition tag_of (kind : browse_kind) (event : uuid) (version : Z) (incarnation : uuid) (layout_etag : string) : etag :=
  match kind with
  | LAYOUT => LayoutTag layout_etag
  | AVAILABILITY => AvailabilityTag event incarnation version
  end.

Definition matches (tag : etag) (candidates : list validator) : bool :=
  bool_decide (AnyTag ∈ candidates) || bool_decide (ExactTag tag ∈ candidates).

Definition touch_hash (now ttl_seconds : Z) (h : seat_hash) : seat_hash :=
  SeatHash h.(sh_version) h.(sh_updating) h.(sh_incarnation) h.(sh_layout) h.(sh_layout_etag)
    h.(sh_sale_starts_epoch) h.(sh_sale_ends_epoch) h.(sh_currency) h.(sh_seats)
    (Some (now + seconds ttl_seconds)).

Definition BROWSE (event : uuid) (kind : browse_kind) (candidates : list validator) (ttl_seconds : Z)
    (now : Z) (r : redis) : redis * browse_result :=
  match r.(r_seatmaps) !! event with
  | None => (r, BrowseWarming)
  | Some h =>
      let touched := set_seatmaps <[event := touch_hash now ttl_seconds h]> r in
      match h.(sh_version), h.(sh_incarnation), h.(sh_updating), h.(sh_layout_etag) with
      | Some v, Some inc, false, Some ly =>
          let tag := tag_of kind event v inc ly in
          if matches tag candidates then (touched, BrowseNotModified tag)
          else match kind with
               | LAYOUT => match h.(sh_layout) with
                           | None => (r, BrowseWarming)
                           | Some layout => (touched, BrowseLayout tag layout)
                           end
               | AVAILABILITY => (touched, BrowseSeats tag v (map_to_list h.(sh_seats)).*2)
               end
      | _, _, _, _ => (r, BrowseWarming)
      end
  end.

(** TOUCH: [ttl] is given in milliseconds. *)
Definition TOUCH (event : uuid) (ttl_ms : Z) (now : Z) (r : redis) : redis * bool :=
  match r.(r_seatmaps) !! event with
  | Some h =>
      match h.(sh_version), h.(sh_updating) with
      | Some _, false =>
          (set_seatmaps <[event := SeatHash h.(sh_version) h.(sh_updating) h.(sh_incarnation) h.(sh_layout)
             h.(sh_layout_etag) h.(sh_sale_starts_epoch) h.(sh_sale_ends_epoch) h.(sh_currency) h.(sh_seats)
             (Some (now + milliseconds ttl_ms))]> r, true)
      | _, _ => (r, false)
      end
  | None => (r, false)
  end.

(** The availability document: three fields of each seat, sorted by seat. *)
Record availability_doc : Type := AvailabilityDoc {
  av_event_id : uuid;
  av_version : Z;
  av_seats : list (string * seat_status * option Z);
}.

Definition public_seat (s : cseat) : string * seat_status * option Z :=
  (s.(cs_seat_id), s.(cs_status), s.(cs_reserved_until)).

Definition sort_seats (l : list cseat) : list cseat := order_by_text cs_seat_id l.

(** The whole document [read] returns. *)
Record seatmap_doc : Type := SeatmapDoc { sd_event_id : uuid; sd_version : Z; sd_seats : list cseat }.

Inductive browse_body : Type := BodyLayout (d : layout_doc) | BodyAvailability (d : availability_doc).

Section seats.
Context `{E : Env} (seatmap_ttl_seconds : Z).

(** [_touch] *)
Definition touch (event : uuid) : W unit :=
  try_except (_ ← redis_eval (TOUCH event (seatmap_ttl_seconds * 1000)); mret tt) (fun _ => mret tt).

Definition read (event : uuid) : W seatmap_doc :=
  raw ← try_except (redis_eval (fun _ r => (r, r.(r_seatmaps) !! event)))
          (fun _ => raise (Failure "SEATMAP_UNAVAILABLE" 503));
  let h := default empty_hash raw in
  match h.(sh_version), h.(sh_updating) with
  | Some v, false =>
      _ ← touch event;
      mret (SeatmapDoc event v (sort_seats (map_to_list h.(sh_seats)).*2))
  | _, _ => raise (Failure "SEATMAP_WARMING" 503)
  end.

Context (encode_layout : layout_doc -> string).

(** [put]: the layout is the seats sorted by identifier, its tag the hash of its JSON text. *)
Definition layout_of (event : uuid) (seats : list cseat) : layout_doc :=
  LayoutDoc event (map (fun s => (s.(cs_seat_id), s.(cs_price))) (sort_seats seats)).

Definition layout_tag (l : layout_doc) : string := "layout:" +:+ e_sha256 (encode_layout l).

Definition put (event : uuid) (seats : list cseat) (sale : option (Z * Z * string)) : W Z :=
  let layout := layout_of event seats in
  incarnation ← uuid4;
  redis_eval (PUT event FULL seats
    (Some (PutMeta layout (layout_tag layout) incarnation seatmap_ttl_seconds sale))).

Definition patch (event : uuid) (seats : list cseat) : W bool :=
  v ← redis_eval (PUT event PATCH seats None); mret (0 <=? v).

Definition browse (event : uuid) (kind : browse_kind) (tags : list validator) : W (Z * etag * option browse_body) :=
  result ← try_except (redis_eval (BROWSE event kind tags seatmap_ttl_seconds))
             (fun _ => raise (Failure "SEATMAP_UNAVAILABLE" 503));
  match result with
  | BrowseWarming => raise (Failure "SEATMAP_WARMING" 503)
  | BrowseNotModified tag => mret (304, tag, None)
  | BrowseLayout tag l => mret (200, tag, Some (BodyLayout l))
  | BrowseSeats tag v seats =>
      mret (200, tag, Some (BodyAvailability (AvailabilityDoc event v (map public_seat (sort_seats seats)))))
  end.
End seats.
