(* ===== verification/CacheFacts.v ===== *)
(** * Properties of the seat cache

    Mutual exclusion of the admission shield, fencing by source version and the version counter of
    PUT, validators and warming in BROWSE, and the rate window. *)

From S2P Require Import Prelude Domain Schema World Observability Sql Cache.

(** ** Expiry *)

Lemma lookup_live {K A} `{Countable K} (ex : A -> option Z) now (m : gmap K A) k a :
  live ex now m !! k = Some a <-> m !! k = Some a /\ alive now (ex a) = true.
Proof. unfold live. by rewrite map_lookup_filter_Some. Qed.

Lemma live_idem {K A} `{Countable K} (ex : A -> option Z) now (m : gmap K A) k a :
  m !! k = Some a -> alive now (ex a) = true -> live ex now m !! k = Some a.
Proof. intros. by apply lookup_live. Qed.

(** ** The shield *)

(** The two scripts as operations on the shield keys, at a time. *)
Inductive shield_op : Type :=
| Acquire (keys : list (uuid * string)) (token : uuid) (now : Z)
| Release (keys : list (uuid * string)) (token : uuid) (now : Z).

Definition op_time (o : shield_op) : Z :=
  match o with Acquire _ _ t | Release _ _ t => t end.

(** The state after an operation and, for an acquisition, whether it succeeded. *)
Definition shield_step (o : shield_op) (r : redis) : redis * bool :=
  match o with
  | Acquire keys token now => ACQUIRE keys token 2000 now (purge now r)
  | Release keys token now => let '(r', _) := RELEASE keys token now (purge now r) in (r', true)
  end.

Fixpoint shield_run (ops : list shield_op) (r : redis) : redis * list bool :=
  match ops with
  | [] => (r, [])
  | o :: ops' => let '(r1, b) := shield_step o r in let '(r2, bs) := shield_run ops' r1 in (r2, b :: bs)
  end.

(** The key is held by [token] until [until]. *)
Definition holds_key (r : redis) (k : uuid * string) (token : uuid) (until : Z) : Prop :=
  r.(r_shields) !! k = Some (token, until).

Lemma acquired_keys (keys : list (uuid * string)) (token : uuid) (now : Z)
    (m : gmap (uuid * string) (uuid * Z)) k :
  k ∈ keys -> foldl (fun m k => <[k := (token, now)]> m) m keys !! k = Some (token, now).
Proof.
  revert m. induction keys as [|x l IH]; intros m Hin; [by apply not_elem_of_nil in Hin|]. simpl.
  destruct (decide (k ∈ l)) as [Hl|Hl]; [by apply IH|].
  apply elem_of_cons in Hin as [->|Hin]; [|done]. clear IH.
  assert (forall m' : gmap (uuid * string) (uuid * Z), m' !! x = Some (token, now) -> foldl (fun m k => <[k := (token, now)]> m) m' l !! x = Some (token, now)) as Hk.
  { revert Hl. induction l as [|y l IH]; intros Hl m' Hm'; [done|]. simpl. apply not_elem_of_cons in Hl as [Hne Hl].
    apply IH; [done|]. by rewrite lookup_insert_ne. }
  apply Hk, lookup_insert_eq.
Qed.

Lemma released_other (keys : list (uuid * string)) (token : uuid) (k : uuid * string) (v : uuid * Z) (m : gmap (uuid * string) (uuid * Z)) :
  m !! k = Some v -> v.1 <> token ->
  foldl (fun m k => match m !! k with
     | Some (t, _) => if bool_decide (t = token) then delete k m else m
     | None => m end) m keys !! k = Some v.
Proof.
  intros Hk Hv. revert m Hk. induction keys as [|x l IH]; intros m Hk; [done|]. simpl. apply IH.
  destruct (m !! x) as [[t' u]|] eqn:Hx; [|done]. case_bool_decide; [|done].
  rewrite lookup_delete_ne; [done|]. intros <-. rewrite Hk in Hx. by simplify_eq.
Qed.

(** A held key is neither taken nor freed by anyone else's step before it expires. *)
Lemma shield_step_keeps o r k token until :
  holds_key r k token until -> op_time o < until ->
  match o with Release _ t _ => t <> token | Acquire _ _ _ => True end ->
  holds_key (shield_step o r).1 k token until /\
  match o with Acquire keys _ _ => k ∈ keys -> (shield_step o r).2 = false | _ => True end.
Proof.
  unfold holds_key. intros Hk Ht Ho.
  assert (forall now, now < until -> (purge now r).(r_shields) !! k = Some (token, until)) as Hp.
  { intros now Hn. simpl. apply live_idem; [done|]. simpl. by apply Z.ltb_lt. }
  destruct o as [keys t now|keys t now]; simpl in *.
  - unfold ACQUIRE. destruct (existsb _ keys) eqn:Hex; simpl; [by split; [apply Hp|]|].
    assert (k ∉ keys) as Hnin.
    { intros Hin. apply not_true_iff_false in Hex. apply Hex. apply existsb_exists.
      exists k. split; [by apply list_elem_of_In|]. apply bool_decide_eq_true. by eexists; apply Hp. }
    split; [|done]. specialize (Hp now Ht). simpl in Hp. revert Hp.
    generalize (live (fun s : uuid * Z => Some s.2) now (r_shields r)). clear -Hnin.
    induction keys as [|x l IH]; intros m Hm; [done|]. simpl. apply not_elem_of_cons in Hnin as [Hne Hl].
    apply IH; [done|]. by rewrite lookup_insert_ne.
  - split; [|done]. unfold RELEASE. simpl. apply released_other; [by apply (Hp now)|]. simpl. done.
Qed.

(** The holder's keys survive every run of other clients' operations, and each acquisition that
    overlaps them fails. *)
Lemma shield_run_keeps ops r k token until :
  holds_key r k token until ->
  (forall o, o ∈ ops -> op_time o < until) ->
  (forall keys t, Release keys token t ∉ ops) ->
  holds_key (shield_run ops r).1 k token until /\
  forall i keys t now, ops !! i = Some (Acquire keys t now) -> k ∈ keys ->
    (shield_run ops r).2 !! i = Some false.
Proof.
  revert r. induction ops as [|o ops IH]; intros r Hk Ht Hrel; [done|]. simpl.
  destruct (shield_step_keeps o r k token until Hk) as [Hk1 Hb].
  { apply Ht, list_elem_of_here. }
  { destruct o as [|keys t now]; [done|]. intros ->. apply (Hrel keys now). apply list_elem_of_here. }
  destruct (shield_step o r) as [r1 b] eqn:Hs. simpl in *.
  destruct (IH r1 Hk1) as [Hk2 Hbs].
  { intros o' Ho'. apply Ht. by apply list_elem_of_further. }
  { intros keys t Hin. apply (Hrel keys t). by apply list_elem_of_further. }
  destruct (shield_run ops r1) as [r2 bs]. simpl in *. split; [done|].
  intros [|i] keys t now; simpl; [intros [= ->] Hin; by rewrite Hb|intros; by eapply Hbs].
Qed.

Lemma acquire_holds keys token now r r' k :
  shield_step (Acquire keys token now) r = (r', true) -> k ∈ keys ->
  holds_key r' k token (now + milliseconds 2000).
Proof.
  unfold shield_step, ACQUIRE. destruct (existsb _ keys); intros [= <-] Hin.
  unfold holds_key. simpl. by apply acquired_keys.
Qed.

(** ** PUT: source versions and the map version *)

(** Every document is stored under its own seat identifier. *)
Definition keyed (m : gmap string cseat) : Prop := forall k s, m !! k = Some s -> s.(cs_seat_id) = k.

(** The sum of the source versions, what a full rebuild sets the map version to. *)
Definition source_sum (m : gmap string cseat) : Z := map_fold (fun _ s n => s.(cs_source_version) + n) 0 m.

Definition src (o : option cseat) : Z := match o with Some s => s.(cs_source_version) | None => 0 end.

Definition zsum {A} (f : A -> Z) (l : list A) : Z := foldr (fun a n => f a + n) 0 l.

Lemma zsum_app {A} (f : A -> Z) l1 l2 : zsum f (l1 ++ l2) = zsum f l1 + zsum f l2.
Proof. induction l1 as [|x l1 IH]; simpl; [done|]. rewrite IH. lia. Qed.

Lemma source_sum_insert_fresh k s m : m !! k = None -> source_sum (<[k := s]> m) = s.(cs_source_version) + source_sum m.
Proof. intros Hn. unfold source_sum. rewrite map_fold_insert_L; [done| |done]. intros. lia. Qed.

Lemma source_sum_delete k m : source_sum m = src (m !! k) + source_sum (delete k m).
Proof.
  destruct (m !! k) as [s|] eqn:Hk; simpl; [|by rewrite delete_id].
  rewrite <-(insert_delete_id m k s) at 1 by done.
  rewrite source_sum_insert_fresh; [done|apply lookup_delete_eq].
Qed.

Lemma source_sum_insert k s m : source_sum (<[k := s]> m) = source_sum m + s.(cs_source_version) - src (m !! k).
Proof.
  rewrite (source_sum_delete k m), (source_sum_delete k (<[k := s]> m)), lookup_insert_eq, delete_insert_eq.
  simpl. lia.
Qed.

(** The document PUT keeps for a row. *)
Definition kept (m : gmap string cseat) (s : cseat) : cseat := put_selected (m !! s.(cs_seat_id)) s.
Definition rewritten (dirty : bool) (m : gmap string cseat) (s : cseat) : Prop :=
  put_newer (m !! s.(cs_seat_id)) s || dirty = true.

#[global] Instance rewritten_dec dirty m s : Decision (rewritten dirty m s).
Proof. unfold rewritten. apply _. Defined.

Lemma kept_src m s : (kept m s).(cs_source_version) = Z.max (src (m !! s.(cs_seat_id))) s.(cs_source_version) \/
  m !! s.(cs_seat_id) = None.
Proof.
  unfold kept, put_selected, put_newer. destruct (m !! _) as [o|]; [left|by right]. simpl.
  destruct (o.(cs_source_version) <? _) eqn:Hlt; bool_hyps; lia.
Qed.

Lemma kept_id m s : keyed m -> (kept m s).(cs_seat_id) = s.(cs_seat_id).
Proof.
  intros Hm. unfold kept, put_selected. destruct (m !! _) as [o|] eqn:Ho; [|done].
  destruct (put_newer _ _); [done|]. by apply Hm.
Qed.

Lemma put_fold mode dirty m rows v acc :
  foldl (put_row mode dirty m) (v, acc) rows =
  (v + zsum (fun s => (kept m s).(cs_source_version)
                      - match mode with FULL => 0 | PATCH => src (m !! s.(cs_seat_id)) end) rows,
   acc ++ map (kept m) (filter (rewritten dirty m) rows)).
Proof.
  revert v acc. induction rows as [|s rows IH]; intros v acc.
  { simpl. by rewrite Z.add_0_r, app_nil_r. }
  simpl. unfold put_row at 2. fold (kept m s). simpl. rewrite IH. f_equal.
  - destruct mode; [lia|]. unfold kept, put_selected, put_newer. destruct (m !! cs_seat_id s) as [o|]; simpl; [|lia].
    destruct (_ <? _); simpl; lia.
  - rewrite filter_cons. case_decide as Hr; unfold rewritten in Hr.
    + rewrite Hr. simpl. by rewrite <-app_assoc.
    + apply not_true_is_false in Hr. by rewrite Hr.
Qed.

Lemma write_seats_cons v x l m : write_seats v (x :: l) m = write_seats v l (<[x.(cs_seat_id) := with_version v x]> m).
Proof. done. Qed.

Lemma write_seats_miss v changed m k :
  (forall s, s ∈ changed -> s.(cs_seat_id) <> k) -> write_seats v changed m !! k = m !! k.
Proof.
  revert m. induction changed as [|x l IH]; intros m Hn; [done|]. rewrite write_seats_cons.
  rewrite IH by (intros s Hs; apply Hn; by apply list_elem_of_further).
  rewrite lookup_insert_ne; [done|]. apply Hn, list_elem_of_here.
Qed.

Lemma write_seats_hit v changed m s :
  NoDup (map cs_seat_id changed) -> s ∈ changed ->
  write_seats v changed m !! s.(cs_seat_id) = Some (with_version v s).
Proof.
  revert m. induction changed as [|x l IH]; intros m Hnd Hin; [by apply not_elem_of_nil in Hin|].
  simpl in Hnd. apply NoDup_cons in Hnd as [Hx Hnd]. rewrite write_seats_cons.
  apply elem_of_cons in Hin as [->|Hin]; [|by apply IH].
  rewrite (write_seats_miss v l); [apply lookup_insert_eq|].
  intros y Hy Heq. apply Hx. rewrite <-Heq. by apply (list_elem_of_fmap_2 cs_seat_id).
Qed.

Lemma write_seats_sum v changed m :
  NoDup (map cs_seat_id changed) ->
  source_sum (write_seats v changed m) =
  source_sum m + zsum (fun s => s.(cs_source_version) - src (m !! s.(cs_seat_id))) changed.
Proof.
  revert m. induction changed as [|x l IH]; intros m Hnd; [simpl; lia|].
  simpl in Hnd. apply NoDup_cons in Hnd as [Hx Hnd]. rewrite write_seats_cons.
  rewrite IH by done. rewrite source_sum_insert. simpl.
  assert (zsum (fun s => cs_source_version s - src (<[cs_seat_id x := with_version v x]> m !! cs_seat_id s)) l =
          zsum (fun s => cs_source_version s - src (m !! cs_seat_id s)) l) as ->; [|lia].
  clear IH Hnd. induction l as [|y l IH]; [done|]. simpl in *. apply not_elem_of_cons in Hx as [Hne Hx].
  rewrite lookup_insert_ne by done. by rewrite IH.
Qed.

Lemma kept_ids m rows : keyed m -> map cs_seat_id (map (kept m) rows) = map cs_seat_id rows.
Proof. intros Hm. rewrite map_map. apply map_ext. intros s. by apply kept_id. Qed.

(** Rows that are not rewritten contribute nothing. *)
Lemma changed_sum dirty m rows :
  keyed m ->
  zsum (fun s => s.(cs_source_version) - src (m !! s.(cs_seat_id))) (map (kept m) (filter (rewritten dirty m) rows)) =
  zsum (fun s => (kept m s).(cs_source_version) - src (m !! s.(cs_seat_id))) rows.
Proof.
  intros Hm. induction rows as [|s rows IH]; [done|]. rewrite filter_cons. simpl.
  case_decide as Hr; simpl; rewrite IH; [by rewrite kept_id|].
  unfold rewritten in Hr. apply not_true_iff_false, orb_false_iff in Hr as [Hr _].
  unfold kept, put_selected. destruct (m !! cs_seat_id s) as [o|]; [|done]. rewrite Hr. simpl. lia.
Qed.

Lemma sum_over_rows m rows :
  NoDup (map cs_seat_id rows) -> (forall k, is_Some (m !! k) -> k ∈ map cs_seat_id rows) ->
  source_sum m = zsum (fun s => src (m !! s.(cs_seat_id))) rows.
Proof.
  revert m. induction rows as [|s rows IH]; intros m Hnd Hdom; simpl.
  - assert (m = ∅) as ->; [|done]. apply map_eq. intros k. rewrite lookup_empty.
    apply eq_None_not_Some. intros Hk. by apply Hdom, not_elem_of_nil in Hk.
  - simpl in *. apply NoDup_cons in Hnd as [Hs Hnd]. rewrite (source_sum_delete s.(cs_seat_id) m).
    rewrite (IH (delete s.(cs_seat_id) m)); [|done|].
    + f_equal. clear -Hs. induction rows as [|y l IH]; [done|]. simpl in *.
      apply not_elem_of_cons in Hs as [Hne Hl]. by rewrite lookup_delete_ne, IH by done.
    + intros k [x Hx]. apply lookup_delete_Some in Hx as [Hne Hx].
      assert (k ∈ cs_seat_id s :: map cs_seat_id rows) as Hin by (apply Hdom; by exists x).
      apply elem_of_cons in Hin as [->|]; done.
Qed.

(** PUT refuses: a patch of a map that is missing or being written. *)
Definition put_refused (mode : put_mode) (h : option seat_hash) : bool :=
  bool_decide (mode = PATCH) &&
  (negb (bool_decide (is_Some (default empty_hash h).(sh_version))) || (default empty_hash h).(sh_updating)).

Definition seats_of (h : option seat_hash) : gmap string cseat := (default empty_hash h).(sh_seats).

(** What PUT writes, in one equation. *)
Lemma put_hash_run mode rows meta now h :
  put_refused mode h = false ->
  let m := seats_of h in
  let dirty := (default empty_hash h).(sh_updating) in
  let v := match mode with FULL => 0 | PATCH => default 0 (default empty_hash h).(sh_version) end +
           zsum (fun s => (kept m s).(cs_source_version)
                          - match mode with FULL => 0 | PATCH => src (m !! s.(cs_seat_id)) end) rows in
  exists h', put_hash mode rows meta now h = (Some h', v) /\ h'.(sh_version) = Some v /\
    h'.(sh_updating) = false /\
    h'.(sh_seats) = write_seats v (map (kept m) (filter (rewritten dirty m) rows)) m.
Proof.
  intros Hr. unfold put_refused in Hr. unfold put_hash. rewrite Hr, put_fold. simpl.
  destruct mode, meta as [pm|]; eexists; split; try reflexivity; done.
Qed.

Lemma NoDup_changed dirty m rows :
  keyed m -> NoDup (map cs_seat_id rows) ->
  NoDup (map cs_seat_id (map (kept m) (filter (rewritten dirty m) rows))).
Proof.
  intros Hm Hnd. rewrite kept_ids by done.
  induction rows as [|s rows IH]; [constructor|]. simpl in Hnd. apply NoDup_cons in Hnd as [Hs Hnd].
  rewrite filter_cons. case_decide; [|auto]. simpl. constructor; [|auto].
  intros (y & Hy & Hin)%list_elem_of_fmap. apply Hs. rewrite Hy. apply list_elem_of_fmap.
  exists y. split; [done|]. by apply list_elem_of_filter in Hin as [_ ?].
Qed.

(** A document after PUT is the old one, or the kept document of its row with the new version. *)
Lemma put_document mode rows meta now h h' v k :
  keyed (seats_of h) -> NoDup (map cs_seat_id rows) -> put_refused mode h = false ->
  put_hash mode rows meta now h = (Some h', v) ->
  (exists s, s ∈ rows /\ s.(cs_seat_id) = k /\ h'.(sh_seats) !! k = Some (with_version v (kept (seats_of h) s))) \/
  (h'.(sh_seats) !! k = seats_of h !! k /\
   forall s, s ∈ rows -> s.(cs_seat_id) = k ->
     exists o, seats_of h !! k = Some o /\ s.(cs_source_version) <= o.(cs_source_version)).
Proof.
  intros Hm Hnd Hr Hp. destruct (put_hash_run mode rows meta now h Hr) as (h1 & Hp1 & _ & _ & Hs).
  rewrite Hp in Hp1. injection Hp1 as <- Hv. rewrite <-Hv in Hs. rewrite Hs.
  set (dirty := (default empty_hash h).(sh_updating)) in *.
  destruct (decide (Exists (fun s => s.(cs_seat_id) = k /\ rewritten dirty (seats_of h) s) rows)) as [Hex|Hex].
  - apply Exists_exists in Hex as (s & Hin & Hk & Hw). left. exists s. split; [done|]. split; [done|].
    rewrite <-Hk, <-(kept_id (seats_of h) s) by done.
    apply write_seats_hit; [by apply NoDup_changed|]. apply list_elem_of_fmap. exists s.
    split; [done|]. by apply list_elem_of_filter.
  - right. split.
    + apply write_seats_miss. intros y Hy Heq. apply list_elem_of_fmap in Hy as (s & -> & Hin).
      apply list_elem_of_filter in Hin as [Hw Hin]. rewrite kept_id in Heq by done.
      apply Hex, Exists_exists. eauto.
    + intros s Hin Hk. assert (~ rewritten dirty (seats_of h) s) as Hw.
      { intros Hw. apply Hex, Exists_exists. eauto. }
      unfold rewritten in Hw. apply not_true_iff_false, orb_false_iff in Hw as [Hw _].
      rewrite Hk in Hw. unfold put_newer in Hw. destruct (seats_of h !! k) as [o|]; [|done].
      exists o. split; [done|]. by apply Z.ltb_ge in Hw.
Qed.

Lemma put_keyed mode rows meta now h h' v :
  keyed (seats_of h) -> NoDup (map cs_seat_id rows) -> put_hash mode rows meta now h = (Some h', v) ->
  keyed h'.(sh_seats).
Proof.
  intros Hm Hnd Hp. destruct (put_refused mode h) eqn:Hr.
  { unfold put_refused in Hr. unfold put_hash in Hp. rewrite Hr in Hp. injection Hp as -> _. exact Hm. }
  intros k d Hd. destruct (put_document mode rows meta now h h' v k Hm Hnd Hr Hp) as [(s & _ & Hk & Hs)|[Heq _]].
  - rewrite Hs in Hd. injection Hd as <-. simpl. by rewrite kept_id.
  - apply Hm. by rewrite <-Heq.
Qed.

(** The version PUT sets, against the sum of source versions. *)
Lemma put_version mode rows meta now h h' v :
  keyed (seats_of h) -> NoDup (map cs_seat_id rows) -> put_refused mode h = false ->
  put_hash mode rows meta now h = (Some h', v) ->
  match mode with
  | FULL => forall k, is_Some (seats_of h !! k) -> k ∈ map cs_seat_id rows
  | PATCH => (default empty_hash h).(sh_version) = Some (source_sum (seats_of h))
  end ->
  h'.(sh_version) = Some v /\ v = source_sum h'.(sh_seats).
Proof.
  intros Hm Hnd Hr Hp Hmode. destruct (put_hash_run mode rows meta now h Hr) as (h1 & Hp1 & Hver & _ & Hs).
  rewrite Hp in Hp1. injection Hp1 as <- Hv. split; [by rewrite Hv|].
  rewrite Hs, write_seats_sum by by apply NoDup_changed. rewrite changed_sum by done.
  destruct mode.
  - rewrite (sum_over_rows (seats_of h) rows) by done. rewrite Hv. clear. simpl.
    induction rows as [|s rows IH]; simpl; [done|]. lia.
  - rewrite Hmode in Hv. simpl in Hv. by rewrite Hv.
Qed.
