(* ===== verification/Browse.v ===== *)
(** * Encoded browse bodies

    [RedisSeats.browse_encoded]: an in-process LRU of encoded representations ([OrderedDict], oldest
    first), reused only after the Redis validator has confirmed the tag.  [json.dumps(...).encode()]
    of a body is the parameter [encode]. *)

From S2P Require Import Prelude Domain Schema World Observability Sql Cache.

Definition body_key : Type := (uuid * browse_kind)%type.

(** [_bodies] and [_body_bytes]. *)
Record body_cache : Type := BodyCache {
  bc_bodies : list (body_key * (etag * string));
  bc_bytes : Z;
}.

Definition empty_bodies : body_cache := BodyCache [] 0.

Definition body_bytes (b : etag * string) : Z := Z.of_nat (String.length b.2).

(** [self._bodies.get(key)] *)
Definition get_body (key : body_key) (l : list (body_key * (etag * string))) : option (etag * string) :=
  snd <$> head (filter (fun kb => kb.1 = key) l).
(** The dictionary without the key. *)
Definition drop_body (key : body_key) (l : list (body_key * (etag * string))) : list (body_key * (etag * string)) :=
  filter (fun kb => kb.1 <> key) l.

(** The first critical section: look up, and move to the end when found. *)
Definition lookup_body (key : body_key) (c : body_cache) : body_cache * option (etag * string) :=
  match get_body key c.(bc_bodies) with
  | Some b => (BodyCache (drop_body key c.(bc_bodies) ++ [(key, b)]) c.(bc_bytes), Some b)
  | None => (c, None)
  end.

(** [while len(self._bodies) > entries or self._body_bytes > limit: popitem(last=False)] *)
Fixpoint evict (fuel : nat) (entries limit : Z) (c : body_cache) : body_cache :=
  match fuel with
  | O => c
  | S fuel' =>
      if (entries <? Z.of_nat (length c.(bc_bodies))) || (limit <? c.(bc_bytes)) then
        match c.(bc_bodies) with
        | [] => c
        | (_, removed) :: rest => evict fuel' entries limit (BodyCache rest (c.(bc_bytes) - body_bytes removed))
        end
      else c
  end.

(** The second critical section. *)
Definition store_body (entries limit : Z) (key : body_key) (b : etag * string) (c : body_cache) : body_cache :=
  let c1 := match get_body key c.(bc_bodies) with
            | Some previous => BodyCache (drop_body key c.(bc_bodies)) (c.(bc_bytes) - body_bytes previous)
            | None => c
            end in
  if negb (entries =? 0) && (body_bytes b <=? limit) then
    let c2 := BodyCache (c1.(bc_bodies) ++ [(key, b)]) (c1.(bc_bytes) + body_bytes b) in
    evict (S (length c2.(bc_bodies))) entries limit c2
  else c1.

Section browse_encoded.
Context `{E : Env} (seatmap_ttl_seconds entries limit : Z) (encode : browse_body -> string).

Definition AssertionError : exn := PyError "AssertionError" "".

(** The request between and around the critical sections; the state is the world and this process's
    bodies. *)
Definition browse_encoded (event : uuid) (kind : browse_kind) (client_tags : list validator)
    : M (world * body_cache) (Z * etag * option string) := fun s =>
  let key := (event, kind) in
  let '(c1, cached) := lookup_body key s.2 in
  let validators := client_tags ++ match cached with Some b => [ExactTag b.1] | None => [] end in
  match browse seatmap_ttl_seconds event kind validators s.1 with
  | (w', Raise e) => ((w', c1), Raise e)
  | (w', Ok (status, tag, body)) =>
      if status =? 304 then
        if matches tag client_tags then
          ((add_obs (Obs "BROWSE_BODY_OUTCOMES" ["client_304"] 1) w', c1), Ok (304, tag, None))
        else
          match cached with
          | Some (t, encoded) =>
              if bool_decide (t = tag)
              then ((add_obs (Obs "BROWSE_BODY_OUTCOMES" ["reuse"] 1) w', c1), Ok (200, tag, Some encoded))
              else ((w', c1), Raise AssertionError)
          | None => ((w', c1), Raise AssertionError)
          end
      else
        match body with
        | Some b =>
            let encoded := encode b in
            ((add_obs (Obs "BROWSE_BODY_OUTCOMES" ["serialize"] 1) w',
              store_body entries limit key (tag, encoded) c1), Ok (200, tag, Some encoded))
        | None => ((w', c1), Raise (PyError "TypeError" "body"))
        end
  end.
End browse_encoded.

(** ** The cache stays within its bounds *)

Definition total_bytes (l : list (body_key * (etag * string))) : Z :=
  foldr (fun kb n => body_bytes kb.2 + n) 0 l.

Record bounded (entries limit : Z) (c : body_cache) : Prop := Bounded {
  bd_unique : NoDup c.(bc_bodies).*1;
  bd_bytes : c.(bc_bytes) = total_bytes c.(bc_bodies);
  bd_entries : Z.of_nat (length c.(bc_bodies)) <= entries;
  bd_limit : c.(bc_bytes) <= limit;
}.

Lemma total_bytes_app l1 l2 : total_bytes (l1 ++ l2) = total_bytes l1 + total_bytes l2.
Proof. induction l1 as [|x l1 IH]; simpl; [done|]. rewrite IH. lia. Qed.

Lemma total_bytes_nonneg l : 0 <= total_bytes l.
Proof. induction l as [|x l IH]; simpl; [done|]. unfold body_bytes. lia. Qed.

Lemma get_body_cons key x b l :
  get_body key ((x, b) :: l) = if decide (x = key) then Some b else get_body key l.
Proof. unfold get_body. rewrite filter_cons. simpl. by case_decide. Qed.

Lemma drop_body_cons key x b l :
  drop_body key ((x, b) :: l) = if decide (x = key) then drop_body key l else (x, b) :: drop_body key l.
Proof. unfold drop_body. rewrite filter_cons. simpl. repeat case_decide; done. Qed.

Lemma drop_body_miss key l : key ∉ l.*1 -> drop_body key l = l /\ get_body key l = None.
Proof.
  induction l as [|[x b] l IH]; [done|]. simpl. rewrite not_elem_of_cons. intros [Hne Hl].
  rewrite drop_body_cons, get_body_cons. rewrite !decide_False by done. destruct (IH Hl) as [-> ->]. done.
Qed.

(** Removing a key removes exactly its entry. *)
Lemma drop_body_facts key l :
  NoDup l.*1 ->
  NoDup (drop_body key l).*1 /\ key ∉ (drop_body key l).*1 /\
  match get_body key l with
  | Some b => total_bytes l = total_bytes (drop_body key l) + body_bytes b /\
              length l = S (length (drop_body key l))
  | None => drop_body key l = l
  end.
Proof.
  assert (forall l x, x ∈ (drop_body key l).*1 -> x ∈ l.*1 /\ x <> key) as Hsub.
  { intros l' x (kb & -> & Hin)%list_elem_of_fmap. apply list_elem_of_filter in Hin as [Hne Hin].
    split; [|done]. apply list_elem_of_fmap. eauto. }
  induction l as [|[x b] l IH]; simpl; [repeat split; [constructor|apply not_elem_of_nil]|].
  intros [Hx Hnd]%NoDup_cons. rewrite drop_body_cons, get_body_cons. case_decide as Hk.
  - subst x. destruct (drop_body_miss key l Hx) as [-> _]. repeat split; [done|done|lia].
  - destruct (IH Hnd) as (H1 & H2 & H3). repeat split.
    + simpl. constructor; [|done]. intros [? _]%Hsub. done.
    + simpl. apply not_elem_of_cons. split; [congruence|done].
    + destruct (get_body key l) as [b'|]; [|by f_equal]. simpl. destruct H3. split; lia.
Qed.

Lemma lookup_body_bounded entries limit key c :
  bounded entries limit c -> bounded entries limit (lookup_body key c).1.
Proof.
  intros [Hu Hb He Hl]. unfold lookup_body. destruct (drop_body_facts key c.(bc_bodies) Hu) as (H1 & H2 & H3).
  destruct (get_body key (bc_bodies c)) as [b|]; [|done]. destruct H3 as [Ht Hlen]. split; simpl.
  - rewrite fmap_app. apply NoDup_app. split; [done|]. split; [|apply NoDup_singleton].
    intros x Hx ->%list_elem_of_singleton. done.
  - rewrite total_bytes_app. simpl. lia.
  - rewrite length_app. simpl. lia.
  - done.
Qed.

(** Eviction from the front reaches the bounds, as long as the newest entry alone fits. *)
Lemma evict_bounded fuel entries limit l x n :
  (length l < fuel)%nat -> NoDup (l ++ [x]).*1 -> 1 <= entries -> body_bytes x.2 <= limit ->
  n = total_bytes (l ++ [x]) -> bounded entries limit (evict fuel entries limit (BodyCache (l ++ [x]) n)).
Proof.
  intros Hf Hnd He Hl ->. revert l Hf Hnd. induction fuel as [|fuel IH]; intros l Hf Hnd; [lia|]. simpl.
  destruct (_ || _) eqn:Hc.
  - destruct l as [|[k b] l]; simpl in *.
    + apply orb_true_iff in Hc as [Hc|Hc]; bool_hyps; lia.
    + replace (body_bytes b + total_bytes (l ++ [x]) - body_bytes b) with (total_bytes (l ++ [x])) by lia.
      apply IH; [lia|]. by apply NoDup_cons in Hnd as [_ ?].
  - bool_hyps. split; simpl; [done|done|lia|lia].
Qed.

Lemma store_body_bounded entries limit key b c :
  0 <= entries -> bounded entries limit c -> bounded entries limit (store_body entries limit key b c).
Proof.
  intros Hpos [Hu Hb He Hl]. unfold store_body.
  destruct (drop_body_facts key c.(bc_bodies) Hu) as (H1 & H2 & H3).
  assert (exists c1, c1 = match get_body key c.(bc_bodies) with
            | Some previous => BodyCache (drop_body key c.(bc_bodies)) (c.(bc_bytes) - body_bytes previous)
            | None => c end /\
          bounded entries limit c1 /\ c1.(bc_bodies) = drop_body key c.(bc_bodies)) as (c1 & <- & [Hu1 Hb1 He1 Hl1] & Heq).
  { eexists. split; [done|]. destruct (get_body key (bc_bodies c)) as [p|]; [|done]. destruct H3 as [Ht Hlen].
    split; [|done]. split; simpl; [done|lia|lia|]. unfold body_bytes in *. lia. }
  destruct (_ && _) eqn:Hc; [|done]. bool_hyps. apply evict_bounded; [simpl; rewrite ?length_app; simpl; lia| |lia|done|].
  - rewrite fmap_app, Heq. apply NoDup_app. split; [done|]. split; [|apply NoDup_singleton].
    intros x Hx ->%list_elem_of_singleton. done.
  - rewrite total_bytes_app. simpl. lia.
Qed.

(** ** A confirmed validator is the cached one *)

Section facts.
Context `{E : Env} (ttl entries limit : Z) (encode : browse_body -> string).

Lemma browse_status w event kind tags w' status tag body :
  browse ttl event kind tags w = (w', Ok (status, tag, body)) ->
  (status = 304 /\ body = None /\ matches tag tags = true) \/ (status = 200 /\ is_Some body).
Proof.
  unfold browse. intros (res & w1 & H1 & H2)%bind_inv_ok. unfold try_except, redis_eval in H1.
  destruct ((clock_timestamp ≫= _) w) as [w2 [res'|e]] eqn:Hrun; [|done]. simplify_eq.
  assert (forall t, res = BrowseNotModified t -> matches t tags = true) as Hnm.
  { intros t ->. apply bind_inv_ok in Hrun as (now & w3 & Hclk & Hcall). unfold redis_call in Hcall.
    apply bind_inv_ok in Hcall as (i & w4 & Hd & Hcall). destruct (e_redis i); [|done|by simplify_eq/=].
    injection Hcall as _ Hres. unfold BROWSE in Hres. repeat case_match; simplify_eq/=; done. }
  destruct res; [done|..]; unfold mret, M_ret in H2; injection H2 as <- <- <- <-;
    [left; repeat split; by apply Hnm|right; split; [done|by eexists]..].
Qed.

(** [assert cached is not None and cached[0] == tag] never fails. *)
Lemma browse_encoded_asserts s event kind tags s' :
  browse_encoded ttl entries limit encode event kind tags s <> (s', Raise AssertionError).
Proof.
  unfold browse_encoded. destruct (lookup_body (event, kind) s.2) as [c1 cached].
  destruct (browse _ _ _ _ _) as [w' [[[status tag] body]|e]] eqn:Hb; simpl.
  - apply browse_status in Hb as [(-> & -> & Hm)|[-> [b ->]]]; simpl; [|done].
    destruct (matches tag tags) eqn:Hc; [done|]. unfold matches in Hm, Hc. bool_hyps.
    apply orb_true_iff in Hm as [Hm|Hm]; bool_hyps; apply elem_of_app in Hm as [Hm|Hm]; try done;
      destruct cached as [[t enc]|]; try by apply not_elem_of_nil in Hm.
    + by apply list_elem_of_singleton in Hm.
    + apply list_elem_of_singleton in Hm. simplify_eq/=. by rewrite bool_decide_eq_true_2.
  - intros [= _ ->]. unfold browse in Hb. unfold mbind, M_bind, try_except in Hb.
    destruct (redis_eval _ _) as [w2 [res|e2]]; [|done]. by destruct res.
Qed.
End facts.
