(* ===== verification/Intake.v ===== *)
(** * The Redis-first reservation intake

    [src/ticketing/infrastructure/redis_reservations.py]: the Lua scripts ENQUEUE, MARK_DURABLE and
    MARK_FAILED, and the methods of [RedisReservationIntake] over the command hashes and the
    per-event streams.  Stream commands (XADD, XLEN, XGROUP, XAUTOCLAIM, XREADGROUP, XACK, XDEL) are
    modelled on [World.stream]; what SCAN and WAIT answer is drawn from the environment. *)

From S2P Require Import Prelude Domain Schema World Observability Sql Cache.

(** ** ENQUEUE *)

Inductive enqueue_result : Type :=
| Accepted (doc : hold_doc)
| Replayed (doc : hold_doc)
| Refused (code : Z)
| ScriptError.

(** Whole seconds of [redis.call('TIME')], as an instant. *)
Definition time_seconds (now : Z) : Z := seconds (now / us_per_second).

(** The test of one seat: [None] when it can be taken, or the code to return. *)
Definition seat_refusal (now : Z) (s : option cseat) : option enqueue_result :=
  match s with
  | None => Some (Refused (-5))
  | Some c =>
      match c.(cs_status) with
      | AVAILABLE => None
      | SOLD => Some (Refused (-6))
      | HELD => match c.(cs_reserved_until_epoch) with
                | None => Some ScriptError
                | Some t => if t <=? now then None else Some (Refused (-6))
                end
      end
  end.

(** The loop over the requested seats: the first refusal, or the documents selected. *)
Fixpoint select_cached (now : Z) (m : gmap string cseat) (ids : list string) : enqueue_result + list cseat :=
  match ids with
  | [] => inr []
  | s :: ids' =>
      match seat_refusal now (m !! s), m !! s with
      | Some e, _ => inl e
      | None, Some c => match select_cached now m ids' with
                        | inl e => inl e
                        | inr l => inr (c :: l)
                        end
      | None, None => inl ScriptError
      end
  end.

Definition provisional (hold : uuid) (expires_at expires_epoch v : Z) (c : cseat) : cseat :=
  CSeat c.(cs_seat_id) c.(cs_price) HELD (Some expires_at) (Some expires_epoch) v c.(cs_source_version) (Some hold).

(** The writing loop: each seat takes the next version. *)
Fixpoint hold_seats (hold : uuid) (expires_at expires_epoch v : Z) (sel : list (string * cseat)) (m : gmap string cseat)
    : gmap string cseat * Z :=
  match sel with
  | [] => (m, v)
  | (s, c) :: sel' =>
      hold_seats hold expires_at expires_epoch (v + 1) sel' (<[s := provisional hold expires_at expires_epoch (v + 1) c]> m)
  end.

Definition set_seats (v : Z) (m : gmap string cseat) (h : seat_hash) : seat_hash :=
  SeatHash (Some v) h.(sh_updating) h.(sh_incarnation) h.(sh_layout) h.(sh_layout_etag)
    h.(sh_sale_starts_epoch) h.(sh_sale_ends_epoch) h.(sh_currency) m h.(sh_expires).

Definition xadd (msg : stream_msg) (s : stream) : stream :=
  Stream (s.(st_entries) ++ [(s.(st_next_id), msg)]) (s.(st_next_id) + 1) s.(st_group) s.(st_last_delivered)
    s.(st_pending).

(** What the caller passes besides the keys. *)
Record enqueue_args : Type := EnqueueArgs {
  ea_event : uuid;
  ea_identity : string;
  ea_request_hash : string;
  ea_max_backlog : Z;
  ea_hold_seconds : Z;
  ea_expires_at : Z;
  ea_retention_seconds : Z;
  ea_payload : command_payload;
}.

Definition ENQUEUE (a : enqueue_args) (now : Z) (r : redis) : redis * enqueue_result :=
  let ev := a.(ea_event) in
  let p := a.(ea_payload) in
  let h := default empty_hash (r.(r_seatmaps) !! ev) in
  match h.(sh_version), h.(sh_updating), h.(sh_sale_starts_epoch), h.(sh_sale_ends_epoch), h.(sh_currency) with
  | Some version, false, Some starts, Some ends, Some currency =>
      let t := time_seconds now in
      if (t <? starts) || (ends <=? t) then (r, Refused (-2))
      else match r.(r_idems) !! (ev, a.(ea_identity)) with
      | Some e => if bool_decide (e.(ie_request_hash) <> a.(ea_request_hash)) then (r, Refused (-3))
                  else (r, Replayed e.(ie_response))
      | None =>
          let st := default empty_stream (r.(r_streams) !! ev) in
          if a.(ea_max_backlog) <=? Z.of_nat (length st.(st_entries)) then (r, Refused (-4))
          else match select_cached t h.(sh_seats) p.(cp_seat_ids) with
          | inl e => (r, e)
          | inr sel =>
              let total := foldr (fun c n => c.(cs_price) + n) 0 sel in
              let epoch := t + seconds a.(ea_hold_seconds) in
              let doc := HoldDoc p.(cp_hold_id) p.(cp_order_id) a.(ea_expires_at) total currency p.(cp_seat_ids)
                           (Some p.(cp_command_id)) (Some epoch) (Some PS_PENDING) None in
              let '(seats, v) := hold_seats p.(cp_hold_id) a.(ea_expires_at) epoch version
                                   (zip p.(cp_seat_ids) sel) h.(sh_seats) in
              let r1 := set_seatmaps <[ev := set_seats v seats h]> r in
              let r2 := set_idems <[(ev, a.(ea_identity)) :=
                          IdemEntry a.(ea_request_hash) doc (now + seconds a.(ea_retention_seconds))]> r1 in
              let r3 := set_commands <[(ev, p.(cp_command_id)) :=
                          CommandEntry PS_PENDING doc p None t (now + seconds a.(ea_retention_seconds))]> r2 in
              let r4 := set_expiry (fun m => <[ev := <[p.(cp_command_id) := epoch]> (default ∅ (m !! ev))]> m) r3 in
              (set_streams <[ev := xadd (StreamMsg p.(cp_command_id) p doc t) st]> r4, Accepted doc)
          end
      end
  | _, _, _, _, _ => (r, Refused (-1))
  end.

(** ** MARK_DURABLE and MARK_FAILED *)

Definition command_with_status (st : persistence) (err : option string) (c : command_entry) : command_entry :=
  CommandEntry st c.(ce_response) c.(ce_payload) err c.(ce_created_at_epoch) c.(ce_expires).

Definition MARK_DURABLE (ev command : uuid) (_ : Z) (r : redis) : redis * Z :=
  match r.(r_commands) !! (ev, command) with
  | None => (r, 0)
  | Some c =>
      match c.(ce_status) with
      | PS_FAILED => (r, -1)
      | PS_PENDING => (set_commands <[(ev, command) := command_with_status PS_DURABLE c.(ce_error_code) c]> r, 1)
      | PS_DURABLE => (r, 1)
      end
  end.

Definition freed (v : Z) (c : cseat) : cseat :=
  CSeat c.(cs_seat_id) c.(cs_price) AVAILABLE None None v c.(cs_source_version) None.

(** One seat of the failed command: freed if it still carries the command's hold. *)
Definition free_cached (hold : uuid) (h : seat_hash) (s : string) : seat_hash :=
  match h.(sh_seats) !! s with
  | Some c => if bool_decide (c.(cs_hold_id) = Some hold)
              then let v := default 0 h.(sh_version) + 1 in set_seats v (<[s := freed v c]> h.(sh_seats)) h
              else h
  | None => h
  end.

Definition MARK_FAILED (ev command : uuid) (seat_ids : list string) (error : string) (_ : Z) (r : redis) : redis * Z :=
  match r.(r_commands) !! (ev, command) with
  | None => (r, 0)
  | Some c =>
      match c.(ce_status) with
      | PS_DURABLE => (r, -1)
      | _ =>
          let r1 := match r.(r_seatmaps) !! ev with
                    | Some h => set_seatmaps <[ev := foldl (free_cached c.(ce_response).(hd_hold_id)) h seat_ids]> r
                    | None => r
                    end in
          let r2 := match c.(ce_response).(hd_command_id) with
                    | Some id => set_expiry (fun m => match m !! ev with
                                                      | Some z => <[ev := delete id z]> m
                                                      | None => m
                                                      end) r1
                    | None => r1
                    end in
          (set_commands <[(ev, command) := command_with_status PS_FAILED (Some error) c]> r2, 1)
      end
  end.

(** ** The intake *)

Definition identity (actor key : string) : string := actor +:+ String (Ascii.ascii_of_nat 0) key.

(** [failures.get(code, ("ADMISSION_UNAVAILABLE", 503))] *)
Definition enqueue_failure (code : Z) : exn :=
  match code with
  | -1 => Failure "SEATMAP_WARMING" 503
  | -2 => Failure "SALE_CLOSED" 409
  | -3 => Failure "IDEMPOTENCY_MISMATCH" 409
  | -4 => Failure "RESERVATION_BACKLOG_FULL" 503
  | -5 => Failure "SEAT_NOT_FOUND" 404
  | -6 => Failure "SEAT_UNAVAILABLE" 409
  | _ => Failure "ADMISSION_UNAVAILABLE" 503
  end.

Definition failure_label (e : exn) : string :=
  match e with
  | Failure "SEATMAP_WARMING" _ => "seatmap_warming"
  | Failure "SALE_CLOSED" _ => "sale_closed"
  | Failure "IDEMPOTENCY_MISMATCH" _ => "idempotency_mismatch"
  | Failure "RESERVATION_BACKLOG_FULL" _ => "reservation_backlog_full"
  | Failure "SEAT_NOT_FOUND" _ => "seat_not_found"
  | Failure "SEAT_UNAVAILABLE" _ => "seat_unavailable"
  | _ => "admission_unavailable"
  end.

Record intake_config : Type := IntakeConfig {
  ic_hold_seconds : Z;
  ic_replica_acks : Z;
  ic_max_backlog : Z;
  ic_retention_seconds : Z;
}.

Section intake.
Context `{E : Env} (cfg : intake_config).
(** What WAIT answers, and the pages SCAN returns, at a draw. *)
Context (wait_acks : nat -> Z) (scan_pages : nat -> list (list uuid)).

Definition is_failure (e : exn) : bool := match e with Failure _ _ => true | _ => false end.

(** The response with the current persistence status and, if any, the error code. *)
Definition status_doc (c : command_entry) : hold_doc :=
  let d := c.(ce_response) in
  HoldDoc d.(hd_hold_id) d.(hd_order_id) d.(hd_expires_at) d.(hd_total) d.(hd_currency) d.(hd_seats)
    d.(hd_command_id) d.(hd_expires_at_epoch) (Some c.(ce_status))
    (match c.(ce_error_code) with Some e => Some e | None => d.(hd_error_code) end).

Definition status (event_id command_id : uuid) (actor : option string) : W hold_doc :=
  row ← try_except (redis_eval (fun _ r => (r, r.(r_commands) !! (event_id, command_id))))
          (fun _ => _ ← inc "RESERVATION_INTAKE" ["redis_error"]; raise (Failure "ADMISSION_UNAVAILABLE" 503));
  c ← or_raise row (Failure "RESERVATION_COMMAND_NOT_FOUND" 404);
  _ ← match actor with
      | Some a => raise_if (bool_decide (c.(ce_payload).(cp_actor) <> a)) (Failure "RESERVATION_COMMAND_NOT_FOUND" 404)
      | None => mret tt
      end;
  mret (status_doc c).

(** EVAL, and WAIT on the same connection when replica acknowledgements are configured. *)
Definition eval_enqueue (a : enqueue_args) : W (enqueue_result * option Z) :=
  result ← redis_eval (ENQUEUE a);
  if ic_replica_acks cfg =? 0 then mret (result, None)
  else
    _ ← redis_call (fun r => (r, tt));
    i ← draw;
    mret (result, Some (wait_acks i)).

(** After an accepted or replayed command. *)
Definition acknowledge_enqueue (event : uuid) (acknowledged : option Z) (label : string) (stored : hold_doc) : W hold_doc :=
  _ ← match acknowledged with
      | Some n =>
          _ ← observe "RESERVATION_REPLICA_ACKS" [];
          if n <? ic_replica_acks cfg then
            _ ← inc "RESERVATION_INTAKE" ["durability_unknown"];
            raise (Failure "RESERVATION_DURABILITY_UNKNOWN" 503)
          else mret tt
      | None => mret tt
      end;
  _ ← try_except (redis_eval (fun _ r => (set_registry (fun s => {[event]} ∪ s) r, tt)))
        (fun _ => inc "RESERVATION_INTAKE" ["registry_error"]);
  _ ← inc "RESERVATION_INTAKE" [label];
  mret stored.

Definition enqueue (actor : string) (event : uuid) (seat_ids : list string) (key : string) : W hold_doc :=
  let seats := sorted_seats (set_of seat_ids) in
  let request_hash := e_digest (ReqHold event seats) in
  command_id ← uuid4;
  hold_id ← uuid4;
  order_id ← uuid4;
  now ← clock_timestamp;
  let expires := now + seconds (ic_hold_seconds cfg) in
  let payload := Command command_id actor key request_hash event seats hold_id order_id expires in
  let args := EnqueueArgs event (e_sha256 (identity actor key)) request_hash (ic_max_backlog cfg)
                (ic_hold_seconds cfg) expires (ic_retention_seconds cfg) payload in
  outcome ← try_except
    (result ← eval_enqueue args;
     match result with
     | (Accepted doc, acks) => d ← acknowledge_enqueue event acks "accepted" doc; mret (inl d)
     | (Replayed doc, acks) =>
         stored ← match doc.(hd_command_id) with
                  | Some id => status event id None
                  | None => raise (PyError "KeyError" "command_id")
                  end;
         d ← acknowledge_enqueue event acks "replay" stored; mret (inl d)
     | (Refused code, _) => mret (inr code)
     | (ScriptError, _) => raise RedisError
     end)
    (fun e => if bool_decide (e = RedisError) then
                _ ← inc "RESERVATION_INTAKE" ["redis_error"]; raise (Failure "ADMISSION_UNAVAILABLE" 503)
              else raise e);
  match outcome with
  | inl d => mret d
  | inr code =>
      _ ← inc "RESERVATION_INTAKE" [failure_label (enqueue_failure code)];
      raise (enqueue_failure code)
  end.

(** ** Streams *)

(** [while len(keys) < limit: ...]: pages are added until the limit or the end of the scan. *)
Fixpoint scan_streams (limit : nat) (keys : gset uuid) (pages : list (list uuid)) : gset uuid :=
  match pages with
  | [] => keys
  | page :: rest => if (size keys <? limit)%nat then scan_streams limit (list_to_set page ∪ keys) rest else keys
  end.

Definition sort_uuids (l : list uuid) : list uuid := order_by Zpos l.

Definition streams (limit : nat) : W (list uuid) :=
  registry ← redis_eval (fun _ r => (r, r.(r_registry)));
  i ← draw;
  mret (take limit (sort_uuids (elements (scan_streams limit registry (scan_pages i))))).

Definition ensure_group (event : uuid) : W unit :=
  redis_eval (fun _ r =>
    (set_streams (fun m => let s := default empty_stream (m !! event) in
       <[event := if s.(st_group) then s
                  else Stream s.(st_entries) s.(st_next_id) true 0 s.(st_pending)]> m) r, tt)).

Definition message : Type := (uuid * Z * stream_msg)%type.

Definition entry (s : stream) (id : Z) : option stream_msg :=
  snd <$> head (filter (fun e => e.1 = id) s.(st_entries)).

(** XAUTOCLAIM from [0-0]: pending entries idle for [min_idle_ms], oldest first; entries that no
    longer exist leave the pending list. *)
Definition xautoclaim (event : uuid) (consumer : string) (min_idle_ms : Z) (count : nat) (now : Z) (r : redis)
    : redis * list message :=
  let s := default empty_stream (r.(r_streams) !! event) in
  let idle := filter (fun kp : Z * (string * Z) => kp.2.2 + milliseconds min_idle_ms <= now)
                (order_by fst (map_to_list s.(st_pending))) in
  let claimed := take count (omap (fun kp => (fun m => (event, kp.1, m)) <$> entry s kp.1) idle) in
  let gone := (filter (fun kp : Z * (string * Z) => entry s kp.1 = None) idle).*1 in
  let pending := foldl (fun m c => <[c.1.2 := (consumer, now)]> m)
                   (foldl (fun m id => delete id m) s.(st_pending) gone) claimed in
  (set_streams <[event := Stream s.(st_entries) s.(st_next_id) s.(st_group) s.(st_last_delivered) pending]> r, claimed).

(** One stream of XREADGROUP with [>]: entries after the last delivered one. *)
Definition xread (event : uuid) (consumer : string) (count : nat) (now : Z) (r : redis) : redis * list message :=
  let s := default empty_stream (r.(r_streams) !! event) in
  let fresh := take count (filter (fun e : Z * stream_msg => s.(st_last_delivered) < e.1) s.(st_entries)) in
  let last := foldl (fun n e => Z.max n e.1) s.(st_last_delivered) fresh in
  let pending := foldl (fun m e => <[e.1 := (consumer, now)]> m) s.(st_pending) fresh in
  (set_streams <[event := Stream s.(st_entries) s.(st_next_id) s.(st_group) last pending]> r,
   map (fun e => (event, e.1, e.2)) fresh).

Fixpoint xreadgroup (events : list uuid) (consumer : string) (count : nat) (now : Z) (r : redis) : redis * list message :=
  match events with
  | [] => (r, [])
  | ev :: rest =>
      let '(r1, l1) := xread ev consumer count now r in
      let '(r2, l2) := xreadgroup rest consumer count now r1 in
      (r2, l1 ++ l2)
  end.

Fixpoint reclaim (events : list uuid) (consumer : string) (count : nat) (idle_ms : Z) : W (list message) :=
  match events with
  | [] => mret []
  | ev :: rest =>
      claimed ← redis_eval (xautoclaim ev consumer idle_ms count);
      match claimed with
      | [] => reclaim rest consumer count idle_ms
      | _ => mret claimed
      end
  end.

(** [messages(consumer, count, reclaim_idle_ms)]: abandoned deliveries first. *)
Definition messages (consumer : string) (count : nat) (reclaim_idle_ms : Z) : W (list message) :=
  events ← streams 5000;
  _ ← for_each events ensure_group;
  claimed ← reclaim events consumer count reclaim_idle_ms;
  match claimed, events with
  | _ :: _, _ => mret claimed
  | [], [] => mret []
  | [], _ => redis_eval (xreadgroup events consumer count)
  end.

Definition mark_durable (event_id command_id : uuid) : W Z := redis_eval (MARK_DURABLE event_id command_id).

Definition mark_failed (event_id command_id : uuid) (seat_ids : list string) (error_code : string) : W Z :=
  redis_eval (MARK_FAILED event_id command_id seat_ids error_code).

Definition update_stream (event : uuid) (f : stream -> stream) (r : redis) : redis :=
  match r.(r_streams) !! event with
  | Some s => set_streams <[event := f s]> r
  | None => r
  end.

(** XACK and XDEL, two commands of one pipeline. *)
Definition acknowledge (event : uuid) (id : Z) : W unit :=
  _ ← redis_eval (fun _ r => (update_stream event (fun s =>
        Stream s.(st_entries) s.(st_next_id) s.(st_group) s.(st_last_delivered) (delete id s.(st_pending))) r, tt));
  redis_eval (fun _ r => (update_stream event (fun s =>
        Stream (filter (fun e => e.1 <> id) s.(st_entries)) s.(st_next_id) s.(st_group) s.(st_last_delivered)
          s.(st_pending)) r, tt)).
End intake.
