(* ===== verification/IntakeFacts.v ===== *)
(** * Properties of the Redis-first intake

    ENQUEUE is all-or-nothing and exclusive, respects the backlog bound and replays by key; the
    command state machine PENDING -> DURABLE | FAILED never leaves a terminal state; MARK_FAILED frees
    only seats that still carry the failed hold. *)

From S2P Require Import Prelude Domain Schema World Observability Sql Cache CacheFacts Intake.

(** ** Selection and writing loops *)

Lemma select_cached_ok now m ids sel :
  select_cached now m ids = inr sel ->
  length sel = length ids /\
  forall i s, ids !! i = Some s -> exists c, sel !! i = Some c /\ m !! s = Some c /\ seat_refusal now (Some c) = None.
Proof.
  revert sel. induction ids as [|s ids IH]; intros sel; simpl; [by intros [= <-]|].
  destruct (seat_refusal now (m !! s)) eqn:Hr; [done|]. destruct (m !! s) as [c|] eqn:Hs; [|done].
  destruct (select_cached now m ids) as [|l] eqn:Hl; [done|]. intros [= <-].
  destruct (IH l eq_refl) as [Hlen Hall]. split; [by simpl; f_equal|].
  intros [|i] x; simpl; [intros [= <-]; eauto|apply Hall].
Qed.

Lemma hold_seats_miss hold ea ee v sel m k :
  k ∉ sel.*1 -> (hold_seats hold ea ee v sel m).1 !! k = m !! k.
Proof.
  revert v m. induction sel as [|[s c] sel IH]; intros v m; simpl; [done|].
  rewrite not_elem_of_cons. intros [Hne Hn]. rewrite IH by done. by rewrite lookup_insert_ne.
Qed.

Lemma hold_seats_hit hold ea ee v sel m s c :
  NoDup sel.*1 -> (s, c) ∈ sel ->
  exists v', (hold_seats hold ea ee v sel m).1 !! s = Some (provisional hold ea ee v' c).
Proof.
  revert v m. induction sel as [|[x d] sel IH]; intros v m Hnd Hin; simpl; [by apply not_elem_of_nil in Hin|].
  simpl in Hnd. apply NoDup_cons in Hnd as [Hx Hnd]. apply elem_of_cons in Hin as [[= -> ->]|Hin]; [|by apply IH].
  rewrite hold_seats_miss by done. rewrite lookup_insert_eq. eauto.
Qed.

Lemma hold_seats_version hold ea ee v sel m :
  (hold_seats hold ea ee v sel m).2 = v + Z.of_nat (length sel).
Proof.
  revert v m. induction sel as [|[s c] sel IH]; intros v m; simpl; [lia|]. rewrite IH. lia.
Qed.

(** ** What an accepted command has found and left *)

(** The seats of the map as a script at [now] sees them. *)
Definition cached_seat (r : redis) (ev : uuid) (s : string) : option cseat :=
  (default empty_hash (r.(r_seatmaps) !! ev)).(sh_seats) !! s.

Definition map_version (r : redis) (ev : uuid) : option Z := (default empty_hash (r.(r_seatmaps) !! ev)).(sh_version).

Definition backlog (r : redis) (ev : uuid) : Z := Z.of_nat (length (default empty_stream (r.(r_streams) !! ev)).(st_entries)).

Record accepted (a : enqueue_args) (now : Z) (r r' : redis) (doc : hold_doc) : Prop := AcceptedFacts {
  ac_free : forall s, s ∈ a.(ea_payload).(cp_seat_ids) ->
    exists c, cached_seat r a.(ea_event) s = Some c /\ seat_refusal (time_seconds now) (Some c) = None;
  ac_held : NoDup a.(ea_payload).(cp_seat_ids) -> forall s, s ∈ a.(ea_payload).(cp_seat_ids) ->
    exists c, cached_seat r' a.(ea_event) s = Some c /\ c.(cs_status) = HELD /\
      c.(cs_hold_id) = Some a.(ea_payload).(cp_hold_id) /\
      c.(cs_reserved_until_epoch) = Some (time_seconds now + seconds a.(ea_hold_seconds)) /\
      exists old, cached_seat r a.(ea_event) s = Some old /\ c.(cs_source_version) = old.(cs_source_version) /\
        c.(cs_price) = old.(cs_price);
  ac_other : forall s, s ∉ a.(ea_payload).(cp_seat_ids) ->
    cached_seat r' a.(ea_event) s = cached_seat r a.(ea_event) s;
  ac_map : exists h', r'.(r_seatmaps) = <[a.(ea_event) := h']> r.(r_seatmaps) /\
    h'.(sh_expires) = (default empty_hash (r.(r_seatmaps) !! a.(ea_event))).(sh_expires);
  ac_version : exists v, map_version r a.(ea_event) = Some v /\
    map_version r' a.(ea_event) = Some (v + Z.of_nat (length a.(ea_payload).(cp_seat_ids)));
  ac_backlog : backlog r a.(ea_event) < a.(ea_max_backlog) /\ backlog r' a.(ea_event) = backlog r a.(ea_event) + 1;
  ac_idem : r.(r_idems) !! (a.(ea_event), a.(ea_identity)) = None /\
    exists t, r'.(r_idems) !! (a.(ea_event), a.(ea_identity)) = Some (IdemEntry a.(ea_request_hash) doc t);
  ac_commands : exists t t', r'.(r_commands) =
    <[(a.(ea_event), a.(ea_payload).(cp_command_id)) := CommandEntry PS_PENDING doc a.(ea_payload) None t t']> r.(r_commands);
  ac_doc : doc.(hd_hold_id) = a.(ea_payload).(cp_hold_id) /\ doc.(hd_order_id) = a.(ea_payload).(cp_order_id) /\
    doc.(hd_seats) = a.(ea_payload).(cp_seat_ids) /\ doc.(hd_persistence) = Some PS_PENDING;
}.

Lemma zip_fst {A B} (l : list A) (k : list B) : length k = length l -> (zip l k).*1 = l.
Proof. revert k. induction l as [|x l IH]; intros [|y k]; simpl; intros; try done. f_equal. apply IH. lia. Qed.

Lemma elem_of_zip_lookup {A B} (l : list A) (k : list B) i x y :
  l !! i = Some x -> k !! i = Some y -> (x, y) ∈ zip l k.
Proof.
  intros Hx Hy. apply list_elem_of_lookup. exists i. apply lookup_zip_with_Some. eauto.
Qed.

Lemma enqueue_cases a now r :
  (exists doc, (ENQUEUE a now r).2 = Accepted doc /\ accepted a now r (ENQUEUE a now r).1 doc) \/
  ((forall doc, (ENQUEUE a now r).2 <> Accepted doc) /\ (ENQUEUE a now r).1 = r).
Proof.
  unfold ENQUEUE. set (h := default empty_hash (r_seatmaps r !! ea_event a)). set (p := ea_payload a).
  destruct (sh_version h) as [version|] eqn:Hv; [|by right].
  destruct (sh_updating h) eqn:Hu; [by right|].
  destruct (sh_sale_starts_epoch h) as [starts|]; [|by right].
  destruct (sh_sale_ends_epoch h) as [ends|]; [|by right].
  destruct (sh_currency h) as [currency|]; [|by right].
  destruct (_ || _); [by right|].
  destruct (r_idems r !! _) as [e|] eqn:Hid; [right; by case_bool_decide|].
  set (st := default empty_stream (r_streams r !! ea_event a)).
  destruct (ea_max_backlog a <=? _) eqn:Hb; [by right|]. bool_hyps.
  destruct (select_cached _ _ _) as [e|sel] eqn:Hsel.
  { right. split; [|done]. intros doc Heq. simpl in Heq. subst e. clear -Hsel. revert Hsel. generalize (cp_seat_ids p).
    induction l as [|s ids IH]; simpl; [done|]. unfold seat_refusal. repeat case_match; intros; simplify_eq; auto. }
  destruct (select_cached_ok _ _ _ _ Hsel) as [Hlen Hall]. left.
  set (epoch := time_seconds now + seconds (ea_hold_seconds a)).
  pose proof (hold_seats_version (cp_hold_id p) (ea_expires_at a) epoch version (zip (cp_seat_ids p) sel) (sh_seats h)) as Hver.
  rewrite length_zip_with_l in Hver by lia.
  destruct (hold_seats _ _ _ _ _ _) as [seats v] eqn:Hhs. simpl in Hver. eexists. split; [done|].
  assert (seats = (hold_seats (cp_hold_id p) (ea_expires_at a) epoch version (zip (cp_seat_ids p) sel) (sh_seats h)).1)
    as Hseats by by rewrite Hhs.
  split; simpl.
  - intros s [i Hi]%list_elem_of_lookup. destruct (Hall i s Hi) as (c & _ & Hc & Hr). exists c. by split.
  - intros Hnd s [i Hi]%list_elem_of_lookup. destruct (Hall i s Hi) as (c & Hci & Hc & Hr).
    unfold cached_seat. simpl. rewrite lookup_insert_eq. simpl.
    destruct (hold_seats_hit (cp_hold_id p) (ea_expires_at a) epoch version (zip (cp_seat_ids p) sel) (sh_seats h) s c)
      as [v' Hv']; [by rewrite zip_fst|by eapply elem_of_zip_lookup|].
    rewrite Hseats, Hv'. eexists. repeat split. exists c. by rewrite <-Hc.
  - intros s Hs. unfold cached_seat. simpl. rewrite lookup_insert_eq. simpl. rewrite Hseats.
    apply hold_seats_miss. by rewrite zip_fst.
  - eexists. split; [done|]. done.
  - exists version. unfold map_version. simpl. rewrite lookup_insert_eq. simpl. split; [done|]. by rewrite Hver.
  - unfold backlog. simpl. rewrite lookup_insert_eq. simpl. rewrite length_app. simpl. unfold st in *. lia.
  - split; [done|]. eexists. by rewrite lookup_insert_eq.
  - by eexists _, _.
  - done.
Qed.

(** ** Runs of the scripts on a seat map *)

Inductive script : Type :=
| SEnqueue (a : enqueue_args)
| SDurable (ev command : uuid)
| SFailed (ev command : uuid) (seats : list string) (error : string)
| SPut (ev : uuid) (mode : put_mode) (rows : list cseat) (meta : option put_meta)
| SBrowse (ev : uuid) (kind : browse_kind) (candidates : list validator) (ttl_seconds : Z)
| STouch (ev : uuid) (ttl_ms : Z).

(** One script at [now]: the state it leaves, and whether it accepted a command. *)
Definition run_script (s : script) (now : Z) (r : redis) : redis * bool :=
  match s with
  | SEnqueue a => let '(r', res) := ENQUEUE a now (purge now r) in
                  (r', match res with Accepted _ => true | _ => false end)
  | SDurable ev c => ((MARK_DURABLE ev c now (purge now r)).1, false)
  | SFailed ev c seats err => ((MARK_FAILED ev c seats err now (purge now r)).1, false)
  | SPut ev mode rows meta => ((PUT ev mode rows meta now (purge now r)).1, false)
  | SBrowse ev kind candidates ttl => ((BROWSE ev kind candidates ttl now (purge now r)).1, false)
  | STouch ev ttl => ((TOUCH ev ttl now (purge now r)).1, false)
  end.

Fixpoint run_scripts (l : list (script * Z)) (r : redis) : redis * list bool :=
  match l with
  | [] => (r, [])
  | (s, now) :: l' =>
      let '(r1, b) := run_script s now r in
      let '(r2, bs) := run_scripts l' r1 in (r2, b :: bs)
  end.

(** The map shows the seat provisionally held by [hold] until [until], at source version [sv] or later. *)
Definition held_until (r : redis) (ev : uuid) (s : string) (hold : uuid) (until sv : Z) : Prop :=
  exists h c, r.(r_seatmaps) !! ev = Some h /\ keyed h.(sh_seats) /\ h.(sh_seats) !! s = Some c /\
    c.(cs_status) = HELD /\ c.(cs_hold_id) = Some hold /\ c.(cs_reserved_until_epoch) = Some until /\ sv <= c.(cs_source_version).

(** The key of the map has not expired at [now]. *)
Definition map_alive (r : redis) (ev : uuid) (now : Z) : Prop :=
  exists h, r.(r_seatmaps) !! ev = Some h /\ alive now h.(sh_expires) = true.

Lemma time_seconds_le now : time_seconds now <= now.
Proof. unfold time_seconds, seconds. pose proof (Z.mul_div_le now us_per_second). unfold us_per_second in *. lia. Qed.

Lemma held_until_purge now r ev s hold until sv :
  map_alive r ev now -> held_until r ev s hold until sv -> held_until (purge now r) ev s hold until sv.
Proof.
  intros (h' & Hh' & Ha) (h & c & Hh & Hrest). rewrite Hh in Hh'. injection Hh' as <-. exists h, c. split; [|done]. simpl. by apply live_idem.
Qed.

(** A held seat refuses every command before its expiry. *)
Lemma held_refuses a now r s hold until sv :
  held_until r a.(ea_event) s hold until sv -> now < until -> s ∈ a.(ea_payload).(cp_seat_ids) ->
  forall doc, (ENQUEUE a now r).2 <> Accepted doc.
Proof.
  intros (h & c & Hh & _ & Hc & Hst & _ & Hu & _) Hn Hin doc Hacc.
  destruct (enqueue_cases a now r) as [(doc' & _ & Hf)|[Hna _]]; [|by apply (Hna doc)].
  destruct (ac_free _ _ _ _ _ Hf s Hin) as (c' & Hc' & Hr). unfold cached_seat in Hc'. rewrite Hh in Hc'. simpl in Hc'.
  rewrite Hc in Hc'. injection Hc' as <-. simpl in Hr. rewrite Hst, Hu in Hr.
  pose proof (time_seconds_le now). rewrite (proj2 (Z.leb_gt _ _)) in Hr by lia. done.
Qed.

(** Without the map every command is refused. *)
Lemma unmapped_refuses a now r : r.(r_seatmaps) !! a.(ea_event) = None -> ENQUEUE a now r = (r, Refused (-1)).
Proof. intros Hn. unfold ENQUEUE. by rewrite Hn. Qed.

(** *** Documents stay under their seat's name *)

Lemma hold_seats_keyed hold ea ee v sel m :
  keyed m -> (forall s c, (s, c) ∈ sel -> c.(cs_seat_id) = s) -> keyed (hold_seats hold ea ee v sel m).1.
Proof.
  revert v m. induction sel as [|[s c] sel IH]; intros v m Hk Hs; simpl; [done|]. apply IH.
  - intros k d [[<- <-]|[_ Hd]]%lookup_insert_Some; [|by apply Hk]. apply (Hs s c). by left.
  - intros s' c' Hin. apply Hs. by right.
Qed.

Lemma enqueue_keyed a now r h :
  r.(r_seatmaps) !! a.(ea_event) = Some h -> keyed h.(sh_seats) ->
  exists h', (ENQUEUE a now r).1.(r_seatmaps) !! a.(ea_event) = Some h' /\ keyed h'.(sh_seats).
Proof.
  intros Hh Hk. assert (exists h', r.(r_seatmaps) !! a.(ea_event) = Some h' /\ keyed h'.(sh_seats)) as Hsame by (by exists h).
  unfold ENQUEUE. rewrite Hh. simpl. destruct (sh_version h) as [version|]; [|done]. destruct (sh_updating h); [done|].
  destruct (sh_sale_starts_epoch h); [|done]. destruct (sh_sale_ends_epoch h); [|done]. destruct (sh_currency h); [|done].
  destruct (_ || _); [done|]. destruct (r_idems r !! _); [by case_bool_decide|]. destruct (_ <=? _); [done|].
  destruct (select_cached _ _ _) as [e|sel] eqn:Hsel; [done|]. apply select_cached_ok in Hsel as [Hlen Hall].
  set (epoch := time_seconds now + _).
  pose proof (hold_seats_keyed (cp_hold_id (ea_payload a)) (ea_expires_at a) epoch version (zip (cp_seat_ids (ea_payload a)) sel) (sh_seats h) Hk) as Hks.
  destruct (hold_seats _ _ _ _ _ _) as [seats v]. simpl in *. rewrite lookup_insert_eq. eexists. split; [done|]. apply Hks.
  intros x c (i & Hi)%list_elem_of_lookup. apply lookup_zip_with_Some in Hi as (x' & c' & [= <- <-] & Hsi & Hci).
  destruct (Hall i x Hsi) as (c2 & Hc2 & Hm & _). simplify_eq. by apply Hk in Hm.
Qed.

Lemma free_cached_keyed hold h s : keyed h.(sh_seats) -> keyed (free_cached hold h s).(sh_seats).
Proof.
  intros Hk. unfold free_cached. destruct (sh_seats h !! s) as [d|] eqn:Hs; [|done]. case_bool_decide; [|done]. simpl.
  intros k c [[<- <-]|[_ Hc]]%lookup_insert_Some; [by apply Hk in Hs|by apply Hk].
Qed.

Lemma free_all_keyed hold seats h : keyed h.(sh_seats) -> keyed (foldl (free_cached hold) h seats).(sh_seats).
Proof. revert h. induction seats as [|s seats IH]; intros h Hk; [done|]. by apply IH, free_cached_keyed. Qed.

(** *** Seats of other holds *)

Lemma free_cached_other hold hold' h s k c :
  hold' <> hold -> h.(sh_seats) !! k = Some c -> c.(cs_hold_id) = Some hold' ->
  (free_cached hold h s).(sh_seats) !! k = Some c.
Proof.
  intros Hne Hk Hc. unfold free_cached. destruct (sh_seats h !! s) as [d|] eqn:Hs; [|done].
  case_bool_decide as Hd; [|done]. simpl. rewrite lookup_insert_ne; [done|]. intros ->. congruence.
Qed.

Lemma free_all_other hold hold' seats h k c :
  hold' <> hold -> h.(sh_seats) !! k = Some c -> c.(cs_hold_id) = Some hold' ->
  (foldl (free_cached hold) h seats).(sh_seats) !! k = Some c.
Proof.
  intros Hne. revert h. induction seats as [|s seats IH]; intros h Hk Hc; [done|]. simpl. apply IH; [|done]. by apply (free_cached_other hold hold').
Qed.

(** The script does not fail the command that owns [hold]. *)
Definition spares (hold : uuid) (r : redis) (s : script) : Prop :=
  match s with
  | SFailed ev c _ _ => forall e, r.(r_commands) !! (ev, c) = Some e -> e.(ce_response).(hd_hold_id) <> hold
  | _ => True
  end.

(** A rebuild or patch of the map from rows that do not know better than the map: each seat has one row, and the
    row of [s] is no newer than [sv], or is the hold itself, persisted. *)
Definition unaware (ev : uuid) (s : string) (hold : uuid) (until sv : Z) (x : script) : Prop :=
  match x with
  | SPut ev' _ rows _ => NoDup (map cs_seat_id rows) /\ (ev' = ev -> forall row, row ∈ rows -> row.(cs_seat_id) = s ->
      row.(cs_source_version) <= sv \/
      row.(cs_status) = HELD /\ row.(cs_hold_id) = Some hold /\ row.(cs_reserved_until_epoch) = Some until)
  | _ => True
  end.

Section keeps.
Context (ev : uuid) (s : string) (hold : uuid) (until sv : Z).
Abbreviation held r := (held_until r ev s hold until sv).

(** Writing maps of other events changes nothing, nor does a new expiry. *)
Lemma held_elsewhere r r' ev' h' :
  ev' <> ev -> r'.(r_seatmaps) = <[ev' := h']> r.(r_seatmaps) -> held r -> held r'.
Proof. intros Hne Hr (h & c & Hh & Hrest). exists h, c. by rewrite Hr, lookup_insert_ne. Qed.

Lemma held_same_seats r r' h h' :
  r.(r_seatmaps) !! ev = Some h -> r'.(r_seatmaps) !! ev = Some h' -> h'.(sh_seats) = h.(sh_seats) -> held r -> held r'.
Proof. intros Hh Hh' Hs (h0 & c & Hh0 & Hrest). rewrite Hh in Hh0. injection Hh0 as <-. exists h', c. by rewrite Hs. Qed.

Lemma enqueue_held a now r :
  now < until -> held r -> held (ENQUEUE a now r).1 /\
  (ea_event a = ev -> s ∈ a.(ea_payload).(cp_seat_ids) -> forall doc, (ENQUEUE a now r).2 <> Accepted doc).
Proof.
  intros Hn Hp. assert (ea_event a = ev -> s ∈ cp_seat_ids (ea_payload a) -> forall doc, (ENQUEUE a now r).2 <> Accepted doc) as Href.
  { intros <- Hin. by eapply held_refuses. }
  split; [|done]. destruct (enqueue_cases a now r) as [(doc & Hres & Hf)|[_ ->]]; [|done].
  destruct (ac_map _ _ _ _ _ Hf) as (h' & Hmaps & _). destruct (decide (ea_event a = ev)) as [He|Hne]; [|by eapply held_elsewhere].
  assert (s ∉ cp_seat_ids (ea_payload a)) as Hnin by (intros Hin; by apply (Href He Hin doc)). subst ev.
  pose proof (ac_other _ _ _ _ _ Hf s Hnin) as Hother. destruct Hp as (h & d & Hhm & Hk & Hd & Hrest).
  destruct (enqueue_keyed a now r h Hhm Hk) as (h2 & Hh2 & Hk2). unfold cached_seat in Hother. rewrite Hh2, Hhm in Hother. simpl in Hother.
  exists h2, d. rewrite Hother. done.
Qed.

Lemma failed_held e c l err now r :
  (forall ce, r.(r_commands) !! (e, c) = Some ce -> ce.(ce_response).(hd_hold_id) <> hold) -> held r ->
  held (MARK_FAILED e c l err now r).1.
Proof.
  intros Hs Hp. unfold MARK_FAILED. destruct (r_commands r !! (e, c)) as [ce|] eqn:Hce; [|done]. specialize (Hs ce eq_refl).
  assert (held (match r_seatmaps r !! e with
    | Some h => set_seatmaps <[e := foldl (free_cached (hd_hold_id (ce_response ce))) h l]> r
    | None => r end)) as Hkeep.
  { destruct (decide (e = ev)) as [->|Hev].
    - destruct Hp as (h & d & Hhm & Hk & Hd & Hst & Hho & Hrest). rewrite Hhm. exists (foldl (free_cached (hd_hold_id (ce_response ce))) h l), d. simpl.
      rewrite lookup_insert_eq. split_and!; [done|by apply free_all_keyed|by apply (free_all_other _ hold); [apply not_eq_sym|..]|done|done|apply Hrest..].
    - destruct (r_seatmaps r !! e); [|done]. by eapply held_elsewhere. }
  destruct (ce_status ce); try done; destruct (hd_command_id (ce_response ce)); exact Hkeep.
Qed.

Lemma put_held ev' mode rows meta now r :
  unaware ev s hold until sv (SPut ev' mode rows meta) -> held r -> held (PUT ev' mode rows meta now r).1.
Proof.
  intros [Hnd Hrows] Hp. unfold PUT. destruct (put_hash mode rows meta now (r_seatmaps r !! ev')) as [[h'|] v] eqn:Hput; [|done]. simpl.
  destruct (decide (ev' = ev)) as [->|Hne]; [|by eapply held_elsewhere]. specialize (Hrows eq_refl).
  destruct Hp as (h & c & Hh & Hk & Hc & Hst & Hho & Hu & Hsv). rewrite Hh in Hput.
  pose proof (put_keyed mode rows meta now (Some h) h' v Hk Hnd Hput) as Hk'.
  exists h'. simpl. rewrite lookup_insert_eq. destruct (put_refused mode (Some h)) eqn:Hr.
  { unfold put_refused in Hr. unfold put_hash in Hput. rewrite Hr in Hput. injection Hput as <- _. exists c. done. }
  destruct (put_document mode rows meta now (Some h) h' v s Hk Hnd Hr Hput) as [(row & Hin & Hid & Hs)|[Hs _]].
  2: { exists c. rewrite Hs. done. }
  exists (with_version v (kept (seats_of (Some h)) row)). rewrite Hs. unfold kept, put_selected, put_newer. change (seats_of (Some h)) with (sh_seats h). rewrite Hid, Hc.
  destruct (cs_source_version c <? cs_source_version row) eqn:Hlt; bool_hyps; [|done].
  destruct (Hrows row Hin Hid) as [Hle|(? & ? & ?)]; [lia|]. simpl. split_and!; try done. lia.
Qed.

(** Every script on a live map. *)
Lemma run_script_keeps x now r :
  held r -> map_alive r ev now -> now < until -> spares hold r x -> unaware ev s hold until sv x ->
  held (run_script x now r).1 /\
  match x with SEnqueue a => ea_event a = ev -> s ∈ a.(ea_payload).(cp_seat_ids) -> (run_script x now r).2 = false
  | _ => True end.
Proof.
  intros Hh Ha Hn Hs Hu. pose proof (held_until_purge now r ev s hold until sv Ha Hh) as Hp.
  destruct x as [a|e c|e c l err|e m rows meta|e k cs t|e t]; cbn [run_script].
  - destruct (enqueue_held a now (purge now r) Hn Hp) as [Hk Href]. destruct (ENQUEUE a now (purge now r)) as [r' res]. simpl in *.
    split; [done|]. intros He Hin. specialize (Href He Hin). destruct res; try done. by destruct (Href doc).
  - split; [|done]. unfold MARK_DURABLE. by repeat case_match.
  - split; [|done]. apply failed_held; [|done]. intros ce [Hce _]%lookup_live. by apply (Hs ce).
  - split; [|done]. by apply put_held.
  - split; [|done]. unfold BROWSE. destruct (r_seatmaps (purge now r) !! e) as [h|] eqn:Hm; [|done].
    destruct (decide (e = ev)) as [->|Hne].
    + assert (held (set_seatmaps <[ev := touch_hash now t h]> (purge now r))) by
        (eapply (held_same_seats (purge now r) _ h (touch_hash now t h)); [done|simpl; apply lookup_insert_eq|done|done]). by repeat case_match.
    + assert (held (set_seatmaps <[e := touch_hash now t h]> (purge now r))) by (by eapply held_elsewhere). by repeat case_match.
  - split; [|done]. unfold TOUCH. destruct (r_seatmaps (purge now r) !! e) as [h|] eqn:Hm; [|done].
    destruct (sh_version h) as [v|]; [|done]. destruct (sh_updating h); [done|]. simpl. destruct (decide (e = ev)) as [->|Hne].
    + eapply held_same_seats; [exact Hm|simpl; apply lookup_insert_eq|done|done].
    + by eapply held_elsewhere.
Qed.
End keeps.

(** Only the command [c0] carries [hold]. *)
Definition owned_by (hold c0 : uuid) (r : redis) : Prop :=
  forall e c en, r.(r_commands) !! (e, c) = Some en -> en.(ce_response).(hd_hold_id) = hold -> c = c0.

(** A script of another client: it neither reuses the hold identifier nor fails the owning command. *)
Definition of_others (hold c0 : uuid) (x : script) : Prop :=
  match x with
  | SEnqueue a => a.(ea_payload).(cp_hold_id) <> hold
  | SDurable _ _ => True
  | SFailed _ c _ _ => c <> c0
  | _ => True
  end.

Lemma owned_by_purge hold c0 now r : owned_by hold c0 r -> owned_by hold c0 (purge now r).
Proof. intros Ho e c en Hen%lookup_live Hh. destruct Hen as [Hen _]. eauto. Qed.

Lemma run_script_owned x now r hold c0 :
  owned_by hold c0 r -> of_others hold c0 x -> owned_by hold c0 (run_script x now r).1.
Proof.
  intros Ho%(owned_by_purge _ _ now) Hx. destruct x as [a|e c|e c l err|e m rows meta|e k cs t|e t]; cbn [run_script fst] in *.
  - destruct (ENQUEUE a now (purge now r)) as [r' res] eqn:Henq. simpl.
    destruct (enqueue_cases a now (purge now r)) as [(doc & _ & Hf)|[_ Heq]]; rewrite Henq in *; simpl in *; [|by subst].
    destruct (ac_commands _ _ _ _ _ Hf) as (t & t' & Hcmds). destruct (ac_doc _ _ _ _ _ Hf) as [Hd _].
    intros e c en. rewrite Hcmds. intros [[_ <-]|[_ Hen]]%lookup_insert_Some; [simpl; congruence|by apply (Ho e)].
  - unfold MARK_DURABLE. destruct (r_commands (purge now r) !! (e, c)) as [ce|] eqn:Hce; [|done].
    destruct (ce_status ce); try done. intros e' c' en. cbn [fst r_commands set_commands].
    intros [[[= -> ->] <-]|[_ Hen]]%lookup_insert_Some; simpl; by apply (Ho e').
  - unfold MARK_FAILED. destruct (r_commands (purge now r) !! (e, c)) as [ce|] eqn:Hce; [|done].
    assert (forall r1, r1.(r_commands) = (purge now r).(r_commands) ->
      owned_by hold c0 (set_commands <[(e, c) := command_with_status PS_FAILED (Some err) ce]> r1)) as Hset.
    { intros r1 Hr1 e' c' en. simpl. rewrite Hr1.
      intros [[[= -> ->] <-]|[_ Hen]]%lookup_insert_Some; simpl; [by apply (Ho e')|by apply (Ho e')]. }
    destruct (ce_status ce); try done; apply Hset; by repeat case_match.
  - unfold PUT. destruct (put_hash _ _ _ _ _) as [[h'|] v]; exact Ho.
  - unfold BROWSE. repeat case_match; exact Ho.
  - unfold TOUCH. repeat case_match; exact Ho.
Qed.

Lemma owned_spares hold c0 r x : owned_by hold c0 r -> of_others hold c0 x -> spares hold r x.
Proof. destruct x; simpl; try done. intros Ho Hc e He Hh. apply Hc. by eapply Ho. Qed.

(** The key of the map is there at every script of the run. *)
Fixpoint map_lives (ev : uuid) (l : list (script * Z)) (r : redis) : Prop :=
  match l with
  | [] => True
  | (x, now) :: l' => map_alive r ev now /\ map_lives ev l' (run_script x now r).1
  end.

(** No run of other clients' scripts takes a provisionally held seat away before it expires, while the map lives. *)
Lemma run_scripts_keeps l r ev s hold c0 until sv :
  held_until r ev s hold until sv -> owned_by hold c0 r -> map_lives ev l r ->
  (forall x now, (x, now) ∈ l -> now < until /\ of_others hold c0 x /\ unaware ev s hold until sv x) ->
  held_until (run_scripts l r).1 ev s hold until sv /\
  forall i a now, l !! i = Some (SEnqueue a, now) -> ea_event a = ev -> s ∈ a.(ea_payload).(cp_seat_ids) ->
    (run_scripts l r).2 !! i = Some false.
Proof.
  revert r. induction l as [|[x now] l IH]; intros r Hh Ho Hl Ht; [done|]. destruct Hl as [Ha Hl]. simpl.
  destruct (Ht x now (list_elem_of_here _ _)) as (Hn & Hx & Hu).
  destruct (run_script_keeps ev s hold until sv x now r Hh Ha Hn (owned_spares _ _ _ _ Ho Hx) Hu) as [Hh1 Hb].
  pose proof (run_script_owned x now r hold c0 Ho Hx) as Ho1.
  destruct (run_script x now r) as [r1 b] eqn:Hr1. simpl in *.
  destruct (IH r1 Hh1 Ho1 Hl) as [Hh2 Hbs].
  { intros y t Hin. apply Ht. by apply list_elem_of_further. }
  destruct (run_scripts l r1) as [r2 bs]. simpl in *. split; [done|].
  intros [|i] a t; simpl; [intros [= -> ->] He Hin; by rewrite Hb|intros; by eapply Hbs].
Qed.

(** ** The command state machine *)

Definition persisted_status (r : redis) (ev c : uuid) : option persistence := ce_status <$> r.(r_commands) !! (ev, c).

(** The steps a command's status may take. *)
Inductive status_step : option persistence -> option persistence -> Prop :=
| st_same s : status_step s s
| st_expire s : status_step s None
| st_new : status_step None (Some PS_PENDING)
| st_durable : status_step (Some PS_PENDING) (Some PS_DURABLE)
| st_failed : status_step (Some PS_PENDING) (Some PS_FAILED).

Lemma purge_status now r ev c :
  persisted_status (purge now r) ev c = persisted_status r ev c \/ persisted_status (purge now r) ev c = None.
Proof.
  unfold persisted_status. destruct (r_commands (purge now r) !! (ev, c)) as [e|] eqn:He; [left|by right].
  apply lookup_live in He as [-> _]. done.
Qed.

(** A script on live keys: a command's status is unchanged, new, or moved out of PENDING. *)
Lemma run_script_moves x now r ev c :
  let before := persisted_status (purge now r) ev c in
  let after := persisted_status (run_script x now r).1 ev c in
  after = before \/
  (exists a, x = SEnqueue a /\ a.(ea_event) = ev /\ a.(ea_payload).(cp_command_id) = c /\ after = Some PS_PENDING) \/
  (before = Some PS_PENDING /\ (after = Some PS_DURABLE \/ after = Some PS_FAILED)).
Proof.
  assert (forall r1 e d ce ce', r1.(r_commands) = <[(e, d) := ce']> (purge now r).(r_commands) ->
    (purge now r).(r_commands) !! (e, d) = Some ce -> ce_status ce = PS_PENDING \/ ce_status ce' = ce_status ce ->
    ce_status ce' <> PS_PENDING ->
    persisted_status r1 ev c = persisted_status (purge now r) ev c \/
    (persisted_status (purge now r) ev c = Some PS_PENDING /\
     (persisted_status r1 ev c = Some PS_DURABLE \/ persisted_status r1 ev c = Some PS_FAILED))) as Hset.
  { intros r1 e d ce ce' Hr1 Hce Hst Hnp. unfold persisted_status. rewrite Hr1.
    destruct (decide ((e, d) = (ev, c))) as [[= -> ->]|Hne]; [|left; by rewrite lookup_insert_ne].
    rewrite lookup_insert_eq, Hce. simpl. destruct Hst as [-> | ->]; [right|by left].
    split; [done|]. destruct (ce_status ce'); [done|by left|by right]. }
  destruct x as [a|e d|e d l err|e m rows meta|e k cs t|e t]; cbn [run_script].
  - destruct (ENQUEUE a now (purge now r)) as [r' res] eqn:Henq. cbn [fst].
    destruct (enqueue_cases a now (purge now r)) as [(doc & _ & Hf)|[_ Heq]]; rewrite Henq in *; cbn [fst] in *;
      [|subst; by left].
    destruct (ac_commands _ _ _ _ _ Hf) as (t & t' & Hcmds). unfold persisted_status at 1 3. rewrite Hcmds.
    destruct (decide ((a.(ea_event), a.(ea_payload).(cp_command_id)) = (ev, c))) as [[= He Hc]|Hne].
    + right. left. exists a. by rewrite He, Hc, lookup_insert_eq.
    + left. by rewrite lookup_insert_ne.
  - unfold MARK_DURABLE. destruct (r_commands (purge now r) !! (e, d)) as [ce|] eqn:Hce; [|by left].
    destruct (ce_status ce) eqn:Hst; [|by left..].
    destruct (Hset (set_commands <[(e, d) := command_with_status PS_DURABLE (ce_error_code ce) ce]> (purge now r))
      e d ce _ eq_refl Hce (or_introl Hst)) as [Hs|Hs]; [done|by left|by right; right].
  - unfold MARK_FAILED. destruct (r_commands (purge now r) !! (e, d)) as [ce|] eqn:Hce; [|by left].
    assert (forall r1, r1.(r_commands) = (purge now r).(r_commands) -> ce_status ce <> PS_DURABLE ->
      let r2 := set_commands <[(e, d) := command_with_status PS_FAILED (Some err) ce]> r1 in
      persisted_status r2 ev c = persisted_status (purge now r) ev c \/
      (persisted_status (purge now r) ev c = Some PS_PENDING /\
       (persisted_status r2 ev c = Some PS_DURABLE \/ persisted_status r2 ev c = Some PS_FAILED))) as Hf.
    { intros r1 Hr1 Hnd. apply (Hset _ e d ce (command_with_status PS_FAILED (Some err) ce));
        [by simpl; rewrite Hr1|done| |done]. destruct (ce_status ce); [by left|done|by right]. }
    destruct (ce_status ce) eqn:Hst; [|by left|]; cbn [fst];
      (match goal with |- persisted_status (set_commands _ ?r1) _ _ = _ \/ _ =>
         destruct (Hf r1) as [Hs|Hs]; [by repeat case_match|done|by left|by right; right] end).
  - left. unfold PUT. by destruct (put_hash _ _ _ _ _) as [[h'|] v].
  - left. unfold BROWSE. by repeat case_match.
  - left. unfold TOUCH. by repeat case_match.
Qed.

(** A script that does not reuse a command identifier moves each command along the state machine. *)
Lemma run_script_status x now r ev c :
  (forall a, x = SEnqueue a -> a.(ea_event) = ev -> a.(ea_payload).(cp_command_id) = c -> persisted_status r ev c = None) ->
  status_step (persisted_status r ev c) (persisted_status (run_script x now r).1 ev c).
Proof.
  intros Hnew. destruct (run_script_moves x now r ev c) as [Hs|[(a & Hx & He & Hc & Hs)|[Hb Hs]]].
  - rewrite Hs. destruct (purge_status now r ev c) as [-> | ->]; constructor.
  - rewrite Hs, (Hnew a) by done. constructor.
  - destruct (purge_status now r ev c) as [Hp|Hp]; [|congruence]. rewrite <-Hp, Hb.
    destruct Hs as [-> | ->]; constructor.
Qed.
