(* ===== verification/Service.v ===== *)
(** * The application layer

    [src/ticketing/application]: the [ReservationStore] port as a class of operations with its laws,
    the use cases of [Reservations] written against it, and its two implementations,
    [PostgresReservations] ([reserve] puts the admission shield and the timed transaction around
    [reserve_tx]) and [RedisFirstReservations]. *)

From S2P Require Import Prelude Domain Schema World Observability Postgres Sql Reservations Cache Intake.
From S2P Require Import Invariant InvReserve InvPayment InvCallback Fulfilment InvFulfil.

(** ** The port *)

Class ReservationStore : Type := {
  store_reserve : string -> uuid -> list string -> string -> W response;
  store_checkout : string -> uuid -> string -> W response;
  store_get_order : string -> uuid -> W (order_row * list (uuid * string));
  store_get_hold : string -> uuid -> W hold_row;
  store_release : string -> uuid -> W string;
  store_expire_batch : Z -> W Z;
  store_expire_one : W bool;
  store_initiate_payment : string -> uuid -> string -> pay_outcome -> Z -> Z -> W response;
  store_callback : callback_payload -> W string;
}.

(** What a store promises: whatever an operation returns or raises, the commerce tables stay
    consistent. *)
Class LawfulStore (S : ReservationStore) : Prop := {
  law_reserve : forall actor ev seats key, keeps inv (store_reserve actor ev seats key);
  law_checkout : forall actor hold key, keeps inv (store_checkout actor hold key);
  law_get_order : forall actor order, keeps inv (store_get_order actor order);
  law_get_hold : forall actor hold, keeps inv (store_get_hold actor hold);
  law_release : forall actor hold, keeps inv (store_release actor hold);
  law_expire_batch : forall limit, keeps inv (store_expire_batch limit);
  law_expire_one : keeps inv store_expire_one;
  law_payment : forall actor order key out delay dups, keeps inv (store_initiate_payment actor order key out delay dups);
  law_callback : forall payload, keeps inv (store_callback payload);
}.

(** ** The use cases *)

Definition INVALID_SEATS : exn := Failure "INVALID_SEATS" 422.
Definition INVALID_PAYMENT : exn := Failure "INVALID_PAYMENT" 422.

Definition bad_count (seat_ids : list string) : bool :=
  negb ((1 <=? Z.of_nat (length seat_ids)) && (Z.of_nat (length seat_ids) <=? 8)) ||
  negb (Nat.eqb (length (set_of seat_ids)) (length seat_ids)).

Definition bad_name (seat : string) : bool :=
  Nat.eqb (String.length seat) 0 || (64 <? Z.of_nat (String.length seat)).

Section use_cases.
Context `{S : ReservationStore}.

Definition app_reserve (actor : string) (event_id : uuid) (seat_ids : list string) (key : string) : W response :=
  _ ← raise_if (bad_count seat_ids) INVALID_SEATS;
  _ ← raise_if (existsb bad_name seat_ids) INVALID_SEATS;
  store_reserve actor event_id (sorted_seats seat_ids) key.

Definition app_checkout (actor : string) (hold_id : uuid) (key : string) : W response := store_checkout actor hold_id key.
Definition app_get_order (actor : string) (order_id : uuid) := store_get_order actor order_id.
Definition app_get_hold (actor : string) (hold_id : uuid) := store_get_hold actor hold_id.
Definition app_release (actor : string) (hold_id : uuid) : W string := store_release actor hold_id.
Definition app_expire_one : W bool := store_expire_one.
Definition app_expire_batch (limit : Z) : W Z := store_expire_batch limit.

Definition app_initiate_payment (actor : string) (order_id : uuid) (key : string) (outcome : pay_outcome)
    (delay_seconds duplicates : Z) : W response :=
  _ ← raise_if (negb ((0 <=? delay_seconds) && (delay_seconds <=? 600)) ||
                negb ((1 <=? duplicates) && (duplicates <=? 10))) INVALID_PAYMENT;
  store_initiate_payment actor order_id key outcome delay_seconds duplicates.

Definition app_callback (payload : callback_payload) : W string := store_callback payload.

(** A call of a use case. *)
Inductive use_case : Type :=
| UReserve (actor : string) (ev : uuid) (seats : list string) (key : string)
| UCheckout (actor : string) (hold : uuid) (key : string)
| UGetOrder (actor : string) (order : uuid)
| UGetHold (actor : string) (hold : uuid)
| URelease (actor : string) (hold : uuid)
| UExpireOne
| UExpireBatch (limit : Z)
| UPayment (actor : string) (order : uuid) (key : string) (out : pay_outcome) (delay dups : Z)
| UCallback (payload : callback_payload).

(** Its effect, the result forgotten. *)
Definition run_use_case (u : use_case) : W unit :=
  match u with
  | UReserve actor ev seats key => _ ← app_reserve actor ev seats key; mret tt
  | UCheckout actor hold key => _ ← app_checkout actor hold key; mret tt
  | UGetOrder actor order => _ ← app_get_order actor order; mret tt
  | UGetHold actor hold => _ ← app_get_hold actor hold; mret tt
  | URelease actor hold => _ ← app_release actor hold; mret tt
  | UExpireOne => _ ← app_expire_one; mret tt
  | UExpireBatch limit => _ ← app_expire_batch limit; mret tt
  | UPayment actor order key out delay dups => _ ← app_initiate_payment actor order key out delay dups; mret tt
  | UCallback payload => _ ← app_callback payload; mret tt
  end.

Context `{L : !LawfulStore S}.

(** Every use case keeps the invariant, for any lawful store. *)
Lemma use_case_keeps u : keeps inv (run_use_case u).
Proof.
  destruct u; simpl; (apply keeps_bind; [|intros; apply keeps_ret]).
  - unfold app_reserve. repeat (apply keeps_bind; [apply keeps_raise_if|intros _]). apply law_reserve.
  - apply law_checkout.
  - apply law_get_order.
  - apply law_get_hold.
  - apply law_release.
  - apply law_expire_one.
  - apply law_expire_batch.
  - unfold app_initiate_payment. apply keeps_bind; [apply keeps_raise_if|intros _]. apply law_payment.
  - apply law_callback.
Qed.
End use_cases.

(** ** PostgresReservations *)

Section postgres_store.
Context `{E : Env} (hold_seconds : Z).

Definition reserve (actor : string) (event_id : uuid) (seat_ids : list string) (key : string) : W response :=
  let seats := sorted_seats (set_of seat_ids) in
  let n := Z.of_nat (length seats) in
  _ ← raise_if (negb (Nat.eqb (length seats) (length seat_ids)) || negb ((1 <=? n) && (n <=? 8))) INVALID_SEATS;
  within (TimedHoldResource "redis" (shield event_id seats)) (fun _ =>
    within (TimedHoldResource "db" tx_resource) (fun _ =>
      hold_phase "database_body" (reserve_tx hold_seconds actor event_id seats key))).

#[export] Instance PostgresReservations : ReservationStore := {|
  store_reserve := reserve;
  store_checkout := checkout;
  store_get_order := get_order;
  store_get_hold := get_hold;
  store_release := release;
  store_expire_batch := expire_batch;
  store_expire_one := expire_one;
  store_initiate_payment := initiate_payment;
  store_callback := callback;
|}.

(** A context manager keeps what its entry, its exit and the body keep. *)
Lemma keeps_within {R A} P (r : resource R) (body : R -> W A) :
  keeps P (res_enter r) -> (forall x e, keeps P (res_exit r x e)) -> (forall x, keeps P (body x)) ->
  keeps P (within r body).
Proof.
  intros Hen Hex Hb. unfold within, with_resource. apply keeps_bind; [done|]. intros x w Hw.
  specialize (Hb x w Hw). destruct (body x w) as [w1 [a|e]]; simpl in *.
  - apply (keeps_bind P (res_exit r x None) (fun _ => mret a)); [apply Hex|intros; apply keeps_ret|done].
  - apply (keeps_bind P (res_exit r x (Some e)) (fun b : bool => if b then _ else raise e)); [apply Hex| |done].
    intros []; apply keeps_raise.
Qed.

(** A body that returns through a context manager: entered, run, left. *)
Lemma within_ok {R A} (r : resource R) (body : R -> W A) w w' a :
  within r body w = (w', Ok a) ->
  exists x w0 w1 b, res_enter r w = (w0, Ok x) /\ body x w0 = (w1, Ok a) /\ res_exit r x None w1 = (w', Ok b).
Proof.
  unfold within, with_resource. intros (x & w0 & Hen & Hrun)%bind_inv_ok.
  destruct (body x w0) as [w1 [a'|e]] eqn:Hb.
  - apply bind_inv_ok in Hrun as (b & w2 & Hex & [= <- <-]). eauto 10.
  - by apply bind_inv_ok in Hrun as ([] & w2 & Hex & ?).
Qed.

Lemma keeps_redis_eval {A} P (f : Z -> redis -> redis * A) : keeps P (redis_eval f).
Proof. apply keeps_bind; [apply keeps_clock|]. intros. apply keeps_redis. Qed.

Lemma keeps_shield P ev seats :
  keeps P (res_enter (shield ev seats)) /\ forall x e, keeps P (res_exit (shield ev seats) x e).
Proof.
  split; simpl.
  - apply keeps_bind; [apply keeps_uuid4|intros]. apply keeps_bind.
    { apply keeps_try; [apply keeps_redis_eval|intros; apply keeps_raise]. }
    intros. apply keeps_bind; [apply keeps_raise_if|intros; apply keeps_ret].
  - intros. apply keeps_bind; [|intros; apply keeps_ret].
    apply keeps_try; [apply keeps_redis_eval|intros; apply keeps_ret].
Qed.

(** A timed transaction keeps what its body keeps when it returns. *)
Lemma keeps_timed_tx {A} P ph (body : W A) :
  (forall w, P w.(w_db) -> wp body (fun _ w' => P w'.(w_db)) w) ->
  keeps P (within (TimedHoldResource ph tx_resource) (fun _ => body)).
Proof.
  intros Hb w Hw. apply (tx_result_preserves P body w); [done| |apply within_tx_spec, like_tx_timed].
  intros w0 Hdb _. apply Hb. by rewrite Hdb.
Qed.

(** The whole [reserve] keeps what its transaction keeps when it returns. *)
Lemma reserve_keeps_body P actor ev seats key :
  (forall w, P w.(w_db) ->
     wp (reserve_tx hold_seconds actor ev (sorted_seats (set_of seats)) key) (fun _ w' => P w'.(w_db)) w) ->
  keeps P (reserve actor ev seats key).
Proof.
  intros Hb. unfold reserve. apply keeps_bind; [apply keeps_raise_if|intros _].
  destruct (keeps_shield P ev (sorted_seats (set_of seats))) as [Hen Hex]. apply keeps_within.
  - by apply keeps_hold_phase.
  - intros. by apply keeps_hold_phase.
  - intros _. apply keeps_timed_tx. intros w Hw. apply wp_hold_phase. eapply wp_mono; [by apply Hb|]. done.
Qed.

Lemma reserve_keeps actor ev seats key : keeps inv (reserve actor ev seats key).
Proof. apply reserve_keeps_body. intros. by apply reserve_tx_inv. Qed.

(** A [reserve] that returns has committed a transaction that returned the same response. *)
Lemma reserve_ok actor ev ids key w w' r :
  reserve actor ev ids key w = (w', Ok r) ->
  let seats := sorted_seats (set_of ids) in
  length seats = length ids /\ (1 <= length seats <= 8)%nat /\
  exists w0 w1, w0.(w_db) = w.(w_db) /\
    reserve_tx hold_seconds actor ev seats key w0 = (w1, Ok r) /\ w'.(w_db) = w1.(w_db).
Proof.
  unfold reserve. cbv zeta. set (seats := sorted_seats (set_of ids)).
  intros ([] & w1 & Hcheck & Hrun)%bind_inv_ok.
  unfold raise_if, raise in Hcheck. destruct (_ || _) eqn:Hb; [done|]. injection Hcheck as <-. bool_hyps.
  apply Nat.eqb_eq in H. split; [done|]. split; [lia|].
  apply within_ok in Hrun as (tok & w2 & w3 & b & Hen & Hbody & Hex).
  pose proof (within_tx_spec _ (hold_phase "database_body" (reserve_tx hold_seconds actor ev seats key)) w2
                (like_tx_timed "db")) as Hspec. rewrite Hbody in Hspec.
  inversion Hspec as [| |w4 w5 ? ? Hs Hb5 Hs'|]; subst. unfold hold_phase in Hb5.
  destruct (reserve_tx _ _ _ _ _ w4) as [w6 [r'|e]] eqn:Htx; [|done]. injection Hb5 as <- <-.
  destruct (keeps_shield (fun d => d = w.(w_db)) ev seats) as [Hken _].
  destruct (keeps_shield (fun d => d = w3.(w_db)) ev seats) as [_ Hkex].
  assert (w2.(w_db) = w.(w_db)) as Hd2 by exact (keeps_run _ _ _ _ _ (keeps_hold_phase _ _ _ Hken) Hen eq_refl).
  assert (w'.(w_db) = w3.(w_db)) as Hd3 by exact (keeps_run _ _ _ _ _ (keeps_hold_phase _ _ _ (Hkex tok None)) Hex eq_refl).
  exists w4, w6. split; [by rewrite (ss_db _ _ Hs)|]. split; [done|]. by rewrite Hd3, (ss_db _ _ Hs').
Qed.

#[export] Instance postgres_lawful : LawfulStore PostgresReservations.
Proof.
  split; simpl; intros.
  - apply reserve_keeps.
  - apply keeps_transaction. intros. by apply checkout_tx_inv.
  - apply keeps_transaction. intros. by wp_sql.
  - apply keeps_transaction. intros. by wp_sql.
  - apply keeps_bind; [|intros; apply keeps_ret]. apply keeps_transaction. intros. by apply release_tx_inv.
  - apply keeps_bind; [apply keeps_raise_if|intros _]. apply keeps_transaction. intros. by apply expire_tx_inv.
  - apply keeps_bind; [|intros; apply keeps_ret]. apply keeps_bind; [apply keeps_raise_if|intros _].
    apply keeps_transaction. intros. by apply expire_tx_inv.
  - apply keeps_transaction. intros. by apply initiate_payment_tx_inv.
  - apply keeps_transaction. intros. by apply callback_tx_inv.
Qed.
End postgres_store.

(** ** RedisFirstReservations *)

Section redis_first.
Context `{E : Env} (durable : ReservationStore) (cfg : intake_config) (wait_acks : nat -> Z).

(** [reserve] goes to the intake, everything else to the durable store. *)
Definition RedisFirstReservations : ReservationStore := {|
  store_reserve := fun actor ev seats key => d ← enqueue cfg wait_acks actor ev seats key; mret (RHold d);
  store_checkout := durable.(store_checkout);
  store_get_order := durable.(store_get_order);
  store_get_hold := durable.(store_get_hold);
  store_release := durable.(store_release);
  store_expire_batch := durable.(store_expire_batch);
  store_expire_one := durable.(store_expire_one);
  store_initiate_payment := durable.(store_initiate_payment);
  store_callback := durable.(store_callback);
|}.

Definition command_status (event_id command_id : uuid) : W hold_doc := status event_id command_id None.

Lemma status_keeps P ev c actor : keeps P (status ev c actor).
Proof.
  unfold status. apply keeps_bind.
  { apply keeps_try; [apply keeps_redis_eval|intros]. apply keeps_bind; [apply keeps_obs|intros; apply keeps_raise]. }
  intros row. apply keeps_bind; [apply keeps_or_raise|intros]. apply keeps_bind; [|intros; apply keeps_ret].
  destruct actor; [apply keeps_raise_if|apply keeps_ret].
Qed.

Lemma enqueue_keeps P actor ev seats key : keeps P (enqueue cfg wait_acks actor ev seats key).
Proof.
  unfold enqueue. do 3 (apply keeps_bind; [apply keeps_uuid4|intros]). apply keeps_bind; [apply keeps_clock|intros].
  assert (forall acks l d, keeps P (acknowledge_enqueue cfg ev acks l d)) as Hack.
  { intros acks l d. unfold acknowledge_enqueue. apply keeps_bind.
    { destruct acks; [|apply keeps_ret]. apply keeps_bind; [apply keeps_obs|intros].
      destruct (_ <? _); [|apply keeps_ret]. apply keeps_bind; [apply keeps_obs|intros; apply keeps_raise]. }
    intros. apply keeps_bind; [apply keeps_try; [apply keeps_redis_eval|intros; apply keeps_obs]|].
    intros. apply keeps_bind; [apply keeps_obs|intros; apply keeps_ret]. }
  apply keeps_bind.
  - apply keeps_try.
    + apply keeps_bind.
      { apply keeps_bind; [apply keeps_redis_eval|intros]. destruct (_ =? _); [apply keeps_ret|].
        apply keeps_bind; [apply keeps_redis|intros]. apply keeps_draw. intros; apply keeps_ret. }
      intros [[doc|doc|code|] acks].
      * apply keeps_bind; [apply Hack|intros; apply keeps_ret].
      * apply keeps_bind; [destruct (hd_command_id doc); [apply status_keeps|apply keeps_raise]|intros].
        apply keeps_bind; [apply Hack|intros; apply keeps_ret].
      * apply keeps_ret.
      * apply keeps_raise.
    + intros e. case_bool_decide; [|apply keeps_raise].
      apply keeps_bind; [apply keeps_obs|intros; apply keeps_raise].
  - intros [d|code]; [apply keeps_ret|]. apply keeps_bind; [apply keeps_obs|intros; apply keeps_raise].
Qed.

#[export] Instance redis_first_lawful : LawfulStore durable -> LawfulStore RedisFirstReservations.
Proof.
  intros [H1 H2 H3 H4 H5 H6 H7 H8 H9]. split; simpl; try done.
  intros. apply keeps_bind; [apply enqueue_keeps|intros; apply keeps_ret].
Qed.
End redis_first.
