(* ===== verification/Workers.v ===== *)
(** * Background workers

    [src/ticketing/workers.py] except the fulfilment consumer ([Fulfilment]) and the reconciler
    ([Reconcile]): full and incremental cache snapshots, the outbox publisher, the refresh queue, the
    Redis-first writer and the payment simulator.  The Kafka producer and the HTTP client are
    parameters: what [send], [future.get] and the webhook request answer at a draw. *)

From S2P Require Import Prelude Domain Schema World Observability Postgres Sql Reservations.
From S2P Require Import Cache Intake Fulfilment.

(** ** Rows of an event *)

(** [SELECT .. FROM event_seats WHERE event_id=.. ORDER BY seat_id] *)
Definition event_rows (ev : uuid) (d : db) : list (string * seat_row) :=
  order_by_text fst
    (omap (fun kr : (uuid * string) * seat_row => if bool_decide (kr.1.1 = ev) then Some (kr.1.2, kr.2) else None)
       (map_to_list d.(event_seats))).

(** [SELECT .. WHERE event_id=.. AND seat_id=ANY(ids) ORDER BY seat_id] is [Sql.select_seats]. *)

(** [seat_state(row)] *)
Definition seat_state (version : Z) (sr : string * seat_row) : cseat :=
  CSeat sr.1 sr.2.(s_price) (cached_status sr.2) sr.2.(s_reserved_until) sr.2.(s_reserved_until) version
    sr.2.(s_version) None.

Definition version_sum (rows : list (string * seat_row)) : Z := foldr (fun sr n => sr.2.(s_version) + n) 0 rows.

(** ** Outbox and refresh selections *)

Definition lease_free (now : Z) (lease : option Z) : bool :=
  match lease with None => true | Some t => t <? now end.

(** [WHERE published_at IS NULL AND (lease_until IS NULL OR lease_until < clock_timestamp()) ORDER BY occurred_at] *)
Definition unpublished (now : Z) (d : db) : list (uuid * outbox_row) :=
  order_by (fun kr => kr.2.(ob_occurred_at))
    (filter (fun kr => bool_decide (kr.2.(ob_published_at) = None) && lease_free now kr.2.(ob_lease_until) = true)
       (map_to_list d.(outbox_events))).

(** [WHERE generation>completed_generation AND next_attempt_at<=now AND lease free ORDER BY requested_at] *)
Definition due_refreshes (now : Z) (d : db) : list (uuid * refresh_row) :=
  order_by (fun kr => kr.2.(rq_requested_at))
    (filter (fun kr => (kr.2.(rq_completed_generation) <? kr.2.(rq_generation)) &&
                       (kr.2.(rq_next_attempt_at) <=? now) && lease_free now kr.2.(rq_lease_until) = true)
       (map_to_list d.(seat_refresh_requests))).

Definition refresh_lease (until : option Z) (token : option uuid) (r : refresh_row) : refresh_row :=
  RefreshRow r.(rq_generation) r.(rq_completed_generation) r.(rq_requested_at) r.(rq_next_attempt_at) until token
    r.(rq_seat_ids).

(** The row a completed refresh of generation [g] leaves. *)
Definition refresh_completed (g claimed_at next : Z) (r : refresh_row) : refresh_row :=
  RefreshRow r.(rq_generation) g (if g <? r.(rq_generation) then claimed_at else r.(rq_requested_at)) next None None
    (if r.(rq_generation) =? g then None else r.(rq_seat_ids)).

(** [WHERE p.deliveries<p.target_deliveries AND p.due_at<=now AND lease free ORDER BY p.due_at], with
    the order's total and currency. *)
Definition due_payments (now : Z) (d : db) : list (uuid * payment_row * (Z * string)) :=
  order_by (fun x => x.1.2.(p_due_at))
    (omap (fun kp : uuid * payment_row =>
       if (kp.2.(p_deliveries) <? kp.2.(p_target_deliveries)) && (kp.2.(p_due_at) <=? now) &&
          lease_free now kp.2.(p_lease_until)
       then match d.(orders) !! kp.2.(p_order_id) with
            | Some o => Some (kp, (o.(o_total), o.(o_currency)))
            | None => None
            end
       else None) (map_to_list d.(payment_attempts))).

Definition envelope_of (id : uuid) (r : outbox_row) : envelope :=
  Envelope id r.(ob_aggregate_id) r.(ob_body) r.(ob_schema_version) r.(ob_occurred_at).

Section workers.
Context `{E : Env} (seatmap_ttl_seconds : Z) (encode_layout : layout_doc -> string).

(** ** snapshot and changed_snapshot *)

Definition snapshot (event_id : uuid) : W unit :=
  measured_work "snapshot" (
    read ← transaction (
      sale ← sql (fun d => d.(events) !! event_id);
      rows ← sql (event_rows event_id);
      mret (sale, rows));
    let rows := read.2 in
    _ ← modify (add_obs (Obs "CACHE_ROWS" ["full"] (Z.of_nat (length rows))));
    let version := version_sum rows in
    let seats := map (seat_state version) rows in
    sale ← or_raise read.1 NoneType;
    _ ← put seatmap_ttl_seconds encode_layout event_id seats
          (Some (sale.(ev_sale_starts), sale.(ev_sale_ends), sale.(ev_currency)));
    mret tt).

(** A patch document carries no [version]; PUT sets it. *)
Definition changed_snapshot (event_id : uuid) (seat_ids : list string) : W unit :=
  rows ← transaction (sql (select_seats event_id seat_ids));
  let seats := map (seat_state 0) rows in
  _ ← modify (add_obs (Obs "CACHE_ROWS" ["patch"] (Z.of_nat (length seats))));
  ok ← patch event_id seats;
  if ok : bool then mret tt else snapshot event_id.

(** ** The outbox publisher *)

(** What [producer.send] and [future.get] answer at a draw; [FaultAfter] is a delivery whose
    acknowledgement was lost. *)
Context (send : nat -> option exn) (ack : nat -> fault).

Definition claim_outbox (token : uuid) (limit : nat) : W (list (uuid * outbox_row)) :=
  now ← clock_timestamp;
  candidates ← sql (unpublished now);
  free ← skip_locked (fun kr => LockOutbox kr.1) candidates;
  let rows := take limit free in
  match rows with
  | [] => mret []
  | _ =>
      until ← clock_timestamp;
      _ ← update_db (set_outbox_events (update_where (fun k _ => bool_decide (k ∈ rows.*1))
            (outbox_lease (Some (until + seconds 30)) (Some token))));
      mret rows
  end.

(** The sending loop: stops at the deadline or at the first error of [send]. *)
Fixpoint send_rows (deadline : Z) (rows : list (uuid * outbox_row)) : W (list (uuid * outbox_row) * list exn) :=
  match rows with
  | [] => mret ([], [])
  | kr :: rest =>
      now ← monotonic;
      if deadline <=? now then mret ([], [])
      else
        i ← draw;
        match send i with
        | Some e => mret ([], [e])
        | None => r ← send_rows deadline rest; mret (kr :: r.1, r.2)
        end
  end.

(** The waiting loop over the futures. *)
Fixpoint await_rows (rows : list (uuid * outbox_row)) : W (list uuid * list exn) :=
  match rows with
  | [] => mret ([], [])
  | kr :: rest =>
      i ← draw;
      let deliver := modify (set_kafka (fun l => l ++ [envelope_of kr.1 kr.2])) in
      match ack i with
      | NoFault => _ ← deliver; r ← await_rows rest; mret (kr.1 :: r.1, r.2)
      | FaultBefore e => r ← await_rows rest; mret (r.1, e :: r.2)
      | FaultAfter e => _ ← deliver; r ← await_rows rest; mret (r.1, e :: r.2)
      end
  end.

Definition mark_published (token : uuid) (confirmed : list uuid) : W unit :=
  transaction (
    now ← clock_timestamp;
    update_db (set_outbox_events (update_where
      (fun k r => bool_decide (k ∈ confirmed) && bool_decide (r.(ob_lease_token) = Some token)) (outbox_published now)))).

Definition publish_batch_body (limit : nat) : W bool :=
  token ← uuid4;
  rows ← transaction (claim_outbox token limit);
  match rows with
  | [] => mret false
  | _ =>
      started ← monotonic;
      sent ← send_rows (started + seconds 10) rows;
      acked ← await_rows sent.1;
      let confirmed := acked.1 in
      let errors := sent.2 ++ acked.2 in
      _ ← match confirmed with [] => mret tt | _ => mark_published token confirmed end;
      match errors with
      | e :: _ => raise e
      | [] => mret (negb (bool_decide (confirmed = [])))
      end
  end.

Definition publish_batch (limit : nat) : W bool := measured_work "publish_batch" (publish_batch_body limit).

Definition publish_one : W bool := publish_batch 1.

(** ** The refresh queue *)

Definition claim_refreshes (token : uuid) (limit : nat) : W (list (uuid * refresh_row) * Z) :=
  now ← clock_timestamp;
  candidates ← sql (due_refreshes now);
  free ← skip_locked (fun kr => LockRefresh kr.1) candidates;
  let rows := take limit free in
  match rows with
  | [] => mret ([], 0)
  | _ =>
      claimed_at ← clock_timestamp;
      until ← clock_timestamp;
      _ ← update_db (set_seat_refresh_requests (update_where (fun k _ => bool_decide (k ∈ rows.*1))
            (refresh_lease (Some (until + seconds 30)) (Some token))));
      mret (rows, claimed_at)
  end.

Definition refresh_row_cache (kr : uuid * refresh_row) : W unit :=
  match kr.2.(rq_seat_ids) with
  | None => snapshot kr.1
  | Some ids => changed_snapshot kr.1 ids
  end.

(** The loop over the claimed rows: successes kept, exceptions collected. *)
Fixpoint refresh_rows (rows : list (uuid * refresh_row)) : W (list (uuid * refresh_row) * list exn) :=
  match rows with
  | [] => mret ([], [])
  | kr :: rest =>
      r ← try_except (_ ← refresh_row_cache kr; mret None) (fun e => mret (Some e));
      acc ← refresh_rows rest;
      match r with
      | None => mret (kr :: acc.1, acc.2)
      | Some e => mret (acc.1, e :: acc.2)
      end
  end.

(** [CHECK(completed_generation >= 0)] and [CHECK(completed_generation <= generation)] of a row. *)
Definition generations_ok (r : refresh_row) : bool :=
  (0 <=? r.(rq_completed_generation)) && (r.(rq_completed_generation) <=? r.(rq_generation)).

Definition complete_refresh (token : uuid) (claimed_at cooldown_ms : Z) (kr : uuid * refresh_row) : W unit :=
  now ← clock_timestamp;
  let mine k r := bool_decide (k = kr.1) && bool_decide (r.(rq_lease_token) = Some token) in
  let completed := refresh_completed kr.2.(rq_generation) claimed_at (now + milliseconds cooldown_ms) in
  d ← the_db;
  _ ← require (bool_decide (map_Forall (fun k r => mine k r = true -> generations_ok (completed r) = true) d.(seat_refresh_requests)))
        CheckViolation;
  update_db (set_seat_refresh_requests (update_where mine completed)).

Definition refresh_batch (limit : nat) (cooldown_ms : Z) : W Z :=
  measured_work "refresh_batch" (
    token ← uuid4;
    claim ← transaction (claim_refreshes token limit);
    match claim.1 with
    | [] => mret 0
    | rows =>
        done ← refresh_rows rows;
        _ ← match done.1 with
            | [] => mret tt
            | completed => transaction (for_each completed (complete_refresh token claim.2 cooldown_ms))
            end;
        match done.2 with
        | e :: _ => raise e
        | [] => mret (Z.of_nat (length done.1))
        end
    end).

Definition refresh_one (cooldown_ms : Z) : W bool :=
  measured_work "refresh_one" (n ← refresh_batch 1 cooldown_ms; mret (bool_decide (n <> 0))).

(** [workers.expire_batch(service, limit)] *)
Definition worker_expire_batch (limit : Z) : W Z := measured_work "expire_batch" (expire_batch limit).

(** ** The Redis-first writer *)

Context (cfg : intake_config) (scan_pages : nat -> list (list uuid)).

Definition persist_message (m : message) : W unit :=
  let '(stream, id, msg) := m in
  let p := msg.(sm_payload) in
  _ ← observe "RESERVATION_COMMAND_AGE_SECONDS" [];
  failed ← try_except (_ ← persist_reservation_command p msg.(sm_response); mret None)
             (fun e => match e with Failure code _ => mret (Some code) | _ => raise e end);
  match failed with
  | Some code =>
      _ ← mark_failed p.(cp_event_id) p.(cp_command_id) p.(cp_seat_ids) code;
      _ ← inc "RESERVATION_PERSISTENCE" ["failed"];
      _ ← inc "log:reservation_command_failed" [code];
      _ ← snapshot p.(cp_event_id);
      acknowledge stream id
  | None =>
      n ← mark_durable p.(cp_event_id) p.(cp_command_id);
      _ ← raise_if (negb (n =? 1)) (PyError "RuntimeError" "reservation command metadata expired before durable acknowledgement");
      _ ← acknowledge stream id;
      inc "RESERVATION_PERSISTENCE" ["durable"]
  end.

Definition persist_reservation_batch (consumer : string) (limit : nat) : W bool :=
  measured_work "reservation_write" (
    batch ← messages scan_pages consumer limit 30000;
    _ ← for_each batch persist_message;
    mret (negb (bool_decide (length batch = 0%nat)))).

(** ** The payment simulator *)

(** The webhook request: what the API does with the payload, raising when it answers an error. *)
Context (post : callback_payload -> W unit).

Definition claim_payment (token : uuid) : W (option (uuid * payment_row * (Z * string))) :=
  now ← clock_timestamp;
  candidates ← sql (due_payments now);
  free ← skip_locked (fun x => LockPayment x.1.1) candidates;
  match free with
  | [] => mret None
  | x :: _ =>
      until ← clock_timestamp;
      _ ← update_db (set_payment_attempts (update_where (fun k _ => bool_decide (k = x.1.1))
            (payment_lease (Some (until + seconds 15)) (Some token))));
      mret (Some x)
  end.

(** The callback a payment attempt is delivered with: its own identifier is the callback's. *)
Definition payload_of (x : uuid * payment_row * (Z * string)) : callback_payload :=
  Callback x.1.1 x.1.1 x.1.2.(p_order_id) x.2.1 x.2.2 x.1.2.(p_outcome).

Definition simulate_one : W bool :=
  measured_work "simulate_one" (
    token ← uuid4;
    claimed ← transaction (claim_payment token);
    match claimed with
    | None => mret false
    | Some x =>
        _ ← post (payload_of x);
        _ ← transaction (update_db (set_payment_attempts (update_where
              (fun k r => bool_decide (k = x.1.1) && bool_decide (r.(p_lease_token) = Some token)) payment_delivered)));
        mret true
    end).

Fixpoint simulate_batch (concurrency : nat) : W bool :=
  match concurrency with
  | O => mret false
  | S n =>
      r ← try_except simulate_one (fun _ => _ ← inc "WORKER_ERRORS" ["simulator"]; mret false);
      work ← simulate_batch n;
      mret (r || work)
  end.
End workers.
