(* ===== verification/Config.v ===== *)
(** * Configuration

    [src/ticketing/config.py]: the settings record, the admission limit and [validate].  Reading the
    environment variables is not modelled; a setting is whatever was read. *)

From S2P Require Import Prelude.

Record Settings : Type := {
  jwt_secret : string;
  webhook_secret : string;
  environment : string;
  hold_seconds : Z;
  pool_max : Z;
  pool_wait_ms : Z;
  seatmap_ttl_seconds : Z;
  reserve_concurrency : Z;
  reservation_mode : string;
  redis_reserve_concurrency : Z;
  redis_reservation_replica_acks : Z;
  redis_reservation_wait_ms : Z;
  redis_reservation_max_backlog : Z;
  publisher_batch_size : Z;
  simulator_concurrency : Z;
  refresh_cooldown_ms : Z;
  refresh_batch_size : Z;
  expiry_batch_size : Z;
  worker_port : Z;
  reconcile_interval_seconds : Z;
  reconcile_window_seconds : Z;
  reconcile_batch_size : Z;
  reconcile_budget_ms : Z;
  reconcile_lease_seconds : Z;
  reconcile_backoff_ms : Z;
  reconcile_seed_batch : Z;
}.

(** The defaults of the record, with the environment variables unset. *)
Definition default_settings : Settings := {|
  jwt_secret := "local-development-secret-change-me";
  webhook_secret := "local-webhook-secret-change-me";
  environment := "development";
  hold_seconds := 120; pool_max := 12; pool_wait_ms := 150; seatmap_ttl_seconds := 30;
  reserve_concurrency := 12; reservation_mode := "postgres"; redis_reserve_concurrency := 128;
  redis_reservation_replica_acks := 0; redis_reservation_wait_ms := 100; redis_reservation_max_backlog := 10000;
  publisher_batch_size := 32; simulator_concurrency := 4; refresh_cooldown_ms := 250; refresh_batch_size := 2;
  expiry_batch_size := 8; worker_port := 9101; reconcile_interval_seconds := 20; reconcile_window_seconds := 300;
  reconcile_batch_size := 8; reconcile_budget_ms := 500; reconcile_lease_seconds := 30; reconcile_backoff_ms := 1000;
  reconcile_seed_batch := 200;
|}.

Definition hold_admission_limit (s : Settings) : Z :=
  if bool_decide (s.(reservation_mode) = "redis-first") then s.(redis_reserve_concurrency) else s.(reserve_concurrency).

(** [lo <= x <= hi] *)
Definition within_range (lo x hi : Z) : bool := (lo <=? x) && (x <=? hi).

Definition local_secret (s : string) : bool := String.prefix "local-" s.

(** The guards of [validate] in order, each with the message it raises. *)
Definition validations (s : Settings) : list (bool * string) :=
  let dev := bool_decide (s.(environment) = "development") in
  [ (dev || negb (local_secret s.(jwt_secret) || local_secret s.(webhook_secret)),
     "Configure JWT_SECRET and WEBHOOK_SECRET outside development");
    (negb ((s.(hold_seconds) <? 1) || (s.(pool_max) <? 1) || (s.(reserve_concurrency) <? 1) || (s.(seatmap_ttl_seconds) <? 1)),
     "Invalid positive configuration");
    (within_range 50 s.(pool_wait_ms) 1000, "DB_POOL_WAIT_MS must be between 50 and 1000");
    (bool_decide (s.(reservation_mode) ∈ ["postgres"; "redis-first"]), "RESERVATION_MODE must be postgres or redis-first");
    (within_range 1 s.(redis_reserve_concurrency) 10000, "REDIS_RESERVE_CONCURRENCY must be between 1 and 10000");
    (within_range 0 s.(redis_reservation_replica_acks) 5, "REDIS_RESERVATION_REPLICA_ACKS must be between 0 and 5");
    (negb (bool_decide (s.(reservation_mode) = "redis-first") && negb dev && (s.(redis_reservation_replica_acks) <? 1)),
     "redis-first production mode requires a Redis replica acknowledgement");
    (within_range 10 s.(redis_reservation_wait_ms) 1000, "REDIS_RESERVATION_WAIT_MS must be between 10 and 1000");
    (within_range 100 s.(redis_reservation_max_backlog) 1000000,
     "REDIS_RESERVATION_MAX_BACKLOG must be between 100 and 1000000");
    (within_range 1 s.(publisher_batch_size) 100, "PUBLISHER_BATCH_SIZE must be between 1 and 100");
    (within_range 1 s.(simulator_concurrency) s.(pool_max), "SIMULATOR_CONCURRENCY must fit DB_POOL_MAX");
    (within_range 1 s.(refresh_cooldown_ms) 5000, "REFRESH_COOLDOWN_MS must be between 1 and 5000");
    (within_range 1 s.(refresh_batch_size) 100, "REFRESH_BATCH_SIZE must be between 1 and 100");
    (within_range 1 s.(expiry_batch_size) 100, "EXPIRY_BATCH_SIZE must be between 1 and 100");
    ((1 <=? s.(reconcile_interval_seconds)) && (s.(reconcile_interval_seconds) <? s.(seatmap_ttl_seconds)),
     "RECONCILE_INTERVAL_SECONDS must be below SEATMAP_TTL_SECONDS");
    (within_range 0 s.(reconcile_window_seconds) 86400, "RECONCILE_WINDOW_SECONDS must be between 0 and 86400");
    (within_range 1 s.(reconcile_batch_size) 100, "RECONCILE_BATCH_SIZE must be between 1 and 100");
    (within_range 50 s.(reconcile_budget_ms) 5000, "RECONCILE_BUDGET_MS must be between 50 and 5000");
    (within_range 5 s.(reconcile_lease_seconds) 300, "RECONCILE_LEASE_SECONDS must be between 5 and 300");
    (within_range 100 s.(reconcile_backoff_ms) 60000, "RECONCILE_BACKOFF_MS must be between 100 and 60000");
    (within_range 1 s.(reconcile_seed_batch) 5000, "RECONCILE_SEED_BATCH must be between 1 and 5000") ].

Definition RuntimeError (message : string) : exn := PyError "RuntimeError" message.

(** The first guard that fails raises. *)
Fixpoint first_failure (guards : list (bool * string)) : outcome unit :=
  match guards with
  | [] => Ok tt
  | (true, _) :: rest => first_failure rest
  | (false, message) :: _ => Raise (RuntimeError message)
  end.

Definition validate (s : Settings) : outcome unit := first_failure (validations s).

Lemma first_failure_ok guards : first_failure guards = Ok tt <-> Forall (fun g => g.1 = true) guards.
Proof.
  induction guards as [|[[] m] guards IH]; simpl.
  - split; [constructor|done].
  - rewrite IH, Forall_cons. simpl. tauto.
  - split; [done|]. by intros [? _]%Forall_cons.
Qed.

Lemma within_range_true lo x hi : within_range lo x hi = true <-> lo <= x <= hi.
Proof. unfold within_range. rewrite andb_true_iff, !Z.leb_le. tauto. Qed.

(** Every accepted configuration bounds the batches, budgets and concurrency of the workers. *)
Record sane (s : Settings) : Prop := Sane {
  sane_holds : 1 <= s.(hold_seconds) /\ 1 <= s.(seatmap_ttl_seconds);
  sane_pool : 1 <= s.(simulator_concurrency) <= s.(pool_max);
  sane_limit : 1 <= hold_admission_limit s;
  sane_backlog : 100 <= s.(redis_reservation_max_backlog) <= 1000000;
  sane_batches : 1 <= s.(publisher_batch_size) <= 100 /\ 1 <= s.(refresh_batch_size) <= 100 /\
    1 <= s.(expiry_batch_size) <= 100 /\ 1 <= s.(reconcile_batch_size) <= 100;
  sane_reconcile : 1 <= s.(reconcile_interval_seconds) < s.(seatmap_ttl_seconds);
  sane_lease : 5 <= s.(reconcile_lease_seconds) <= 300 /\ 100 <= s.(reconcile_backoff_ms) <= 60000;
  sane_secrets : s.(environment) <> "development" ->
    local_secret s.(jwt_secret) = false /\ local_secret s.(webhook_secret) = false;
  sane_replicas : s.(environment) <> "development" -> s.(reservation_mode) = "redis-first" ->
    1 <= s.(redis_reservation_replica_acks);
}.

Lemma validate_sane s : validate s = Ok tt -> sane s.
Proof.
  unfold validate. rewrite first_failure_ok. unfold validations. rewrite !Forall_cons. simpl.
  rewrite !within_range_true. intros (H1 & H2 & H3 & H4 & H5 & H6 & H7 & H8 & H9 & H10 & H11 & H12 & H13 & H14 & H15 & H16 & H17 & H18 & H19 & H20 & H21 & _).
  bool_hyps. split; try lia.
  - unfold hold_admission_limit. case_bool_decide; lia.
  - intros Hd. rewrite bool_decide_eq_false_2 in H1 by done. simpl in H1. bool_hyps. done.
  - intros Hd Hm. rewrite (bool_decide_eq_true_2 _ Hm), (bool_decide_eq_false_2 _ Hd) in H7. simpl in H7.
    bool_hyps. lia.
Qed.
