(* ===== verification/Reconcile.v ===== *)
(** * Proactive reconciliation

    The bounded reconciliation schedule of [src/ticketing/workers.py]: seeding and pruning the
    schedule, claiming due events under a lease token, completing or deferring with exponential
    backoff, and the pass that claims batches until its time budget is spent.
    [statement_timestamp()] and [clock_timestamp()] of one statement are one instant. *)

From S2P Require Import Prelude Domain Schema World Observability Postgres Sql Config.
From S2P Require Import Cache Workers.

Definition BACKOFF_SHIFT_CAP : Z := 5.
Definition BACKLOG_COUNT_CAP : Z := 10000.
Definition TRACKED_COUNT_CAP : Z := 50000.

(** [sale_starts <= now + window AND sale_ends > now - window] *)
Definition active_window (window now : Z) (e : event_row) : bool :=
  (e.(ev_sale_starts) <=? now + seconds window) && (now - seconds window <? e.(ev_sale_ends)).

(** The delay before the next attempt, in milliseconds: [LEAST(base * 2^LEAST(failures, 5), base * 2^5)]. *)
Definition backoff_ms (base failures : Z) : Z :=
  Z.min (base * 2 ^ (Z.min failures BACKOFF_SHIFT_CAP)) (base * 2 ^ BACKOFF_SHIFT_CAP).

Definition rec_lease (until : option Z) (token : option uuid) (claimed : option Z) (r : reconcile_row) : reconcile_row :=
  ReconcileRow r.(rc_next_due_at) r.(rc_last_reconciled_at) r.(rc_consecutive_failures) until token claimed.
Definition rec_completed (now due : Z) (r : reconcile_row) : reconcile_row :=
  ReconcileRow due (Some now) 0 None None r.(rc_claimed_at).
Definition rec_deferred (base now : Z) (r : reconcile_row) : reconcile_row :=
  ReconcileRow (now + milliseconds (backoff_ms base r.(rc_consecutive_failures))) r.(rc_last_reconciled_at)
    (r.(rc_consecutive_failures) + 1) None None r.(rc_claimed_at).

(** Events to seed: active, not yet scheduled, earliest sale first. *)
Definition seedable (window now : Z) (d : db) : list uuid :=
  map fst (order_by (fun ke => ke.2.(ev_sale_starts))
    (filter (fun ke => active_window window now ke.2 && negb (has d.(event_reconciliation) ke.1) = true)
       (map_to_list d.(events)))).

(** Rows outside the active window whose lease is free, by event. *)
Definition prunable (window now : Z) (d : db) : list uuid :=
  order_by Zpos (omap (fun kr : uuid * reconcile_row =>
    match d.(events) !! kr.1 with
    | Some e => if negb (active_window window now e) && lease_free now kr.2.(rc_lease_until) then Some kr.1 else None
    | None => None
    end) (map_to_list d.(event_reconciliation))).

(** Due rows of active events whose lease is free, oldest due first, ties by event. *)
Definition due_events (window now : Z) (d : db) : list (uuid * reconcile_row) :=
  order_by (fun kr => kr.2.(rc_next_due_at)) (order_by (fun kr => Zpos kr.1)
    (filter (fun kr => (kr.2.(rc_next_due_at) <=? now) && lease_free now kr.2.(rc_lease_until) &&
        match d.(events) !! kr.1 with Some e => active_window window now e | None => false end = true)
       (map_to_list d.(event_reconciliation)))).

Section reconcile.
Context `{E : Env} (settings : Settings) (encode_layout : layout_doc -> string).

Definition snapshot_event (event_id : uuid) : W unit := snapshot settings.(seatmap_ttl_seconds) encode_layout event_id.

(** The gauges [maintain_schedule] samples: capped counts, and the overdue time. *)
Definition sample_schedule (d : db) (now : Z) : W unit :=
  let rows := (map_to_list d.(event_reconciliation)).*2 in
  let due := Z.of_nat (length (filter (fun r => r.(rc_next_due_at) <= now) rows)) in
  _ ← modify (add_obs (Obs "RECONCILE_BACKLOG" [] (Z.min due BACKLOG_COUNT_CAP)));
  _ ← modify (add_obs (Obs "RECONCILE_TRACKED" [] (Z.min (Z.of_nat (length rows)) TRACKED_COUNT_CAP)));
  let overdue := foldr (fun r n => Z.max (now - r.(rc_next_due_at)) n) 0 rows in
  modify (add_obs (Obs "RECONCILE_OVERDUE" [] (Z.max 0 overdue))).

Definition maintain_schedule : W (Z * Z) :=
  measured_work "reconcile_schedule" (
    r ← transaction (
      now ← clock_timestamp;
      fresh ← sql (seedable settings.(reconcile_window_seconds) now);
      let seeded := take (Z.to_nat settings.(reconcile_seed_batch)) fresh in
      _ ← for_each seeded (fun ev =>
            due ← clock_timestamp;
            update_db (set_event_reconciliation <[ev := ReconcileRow due None 0 None None None]>));
      now2 ← clock_timestamp;
      stale ← sql (prunable settings.(reconcile_window_seconds) now2);
      free ← skip_locked LockReconcile stale;
      let pruned := take (Z.to_nat settings.(reconcile_seed_batch)) free in
      _ ← for_each pruned (fun ev => update_db (set_event_reconciliation (delete ev)));
      now3 ← clock_timestamp;
      d ← the_db;
      mret (Z.of_nat (length seeded), Z.of_nat (length pruned), d, now3));
    let '(seeded, pruned, d, now) := r in
    _ ← sample_schedule d now;
    mret (seeded, pruned)).

Definition claim_due_events : W (uuid * list uuid) :=
  token ← uuid4;
  rows ← transaction (
    now ← clock_timestamp;
    due ← sql (due_events settings.(reconcile_window_seconds) now);
    free ← skip_locked (fun kr => LockReconcile kr.1) due;
    let rows := take (Z.to_nat settings.(reconcile_batch_size)) free in
    match rows with
    | [] => mret []
    | _ =>
        at_ ← clock_timestamp;
        _ ← update_db (set_event_reconciliation (update_where (fun k _ => bool_decide (k ∈ rows.*1))
              (rec_lease (Some (at_ + seconds settings.(reconcile_lease_seconds))) (Some token) (Some at_))));
        mret rows
    end);
  let recovered := Z.of_nat (length (filter (fun kr : uuid * reconcile_row => is_Some kr.2.(rc_lease_until)) rows)) in
  _ ← (if 0 <? recovered then modify (add_obs (Obs "RECONCILE_RECOVERED" [] recovered)) else mret tt);
  mret (token, rows.*1).

(** The row of the event, if this token holds its lease. *)
Definition leased (event_id token : uuid) (k : uuid) (r : reconcile_row) : bool :=
  bool_decide (k = event_id) && bool_decide (r.(rc_lease_token) = Some token).

Definition complete_reconciliation (event_id token : uuid) : W bool :=
  transaction (
    now ← clock_timestamp;
    hit ← sql (fun d => match d.(event_reconciliation) !! event_id with
                        | Some r => bool_decide (r.(rc_lease_token) = Some token)
                        | None => false
                        end);
    _ ← update_db (set_event_reconciliation (update_where (leased event_id token)
          (rec_completed now (now + seconds settings.(reconcile_interval_seconds)))));
    mret hit).

Definition defer_reconciliation (event_id token : uuid) : W unit :=
  transaction (
    now ← clock_timestamp;
    update_db (set_event_reconciliation (update_where (leased event_id token)
      (rec_deferred settings.(reconcile_backoff_ms) now)))).

(** Give back the leases of the events not started. *)
Definition give_back (token : uuid) (rest : list uuid) : W unit :=
  transaction (update_db (set_event_reconciliation (update_where
    (fun k r => bool_decide (k ∈ rest) && bool_decide (r.(rc_lease_token) = Some token))
    (fun r => rec_lease None None r.(rc_claimed_at) r)))).

(** One event of the batch: its failures are recorded and swallowed. *)
Definition reconcile_event (token event_id : uuid) : W unit :=
  failed ← try_except (_ ← snapshot_event event_id; mret false) (fun _ =>
    _ ← observe "RECONCILE_SECONDS" ["error"];
    _ ← inc "RECONCILE_EVENTS" ["error"];
    _ ← inc "RECONCILE_FAILURES" ["snapshot"];
    _ ← try_except (defer_reconciliation event_id token) (fun _ => inc "RECONCILE_FAILURES" ["defer"]);
    mret true);
  if failed : bool then mret tt
  else
    ack ← try_except (b ← complete_reconciliation event_id token; mret (Some b)) (fun _ =>
      _ ← inc "RECONCILE_FAILURES" ["acknowledge"];
      _ ← inc "RECONCILE_EVENTS" ["ack_error"];
      mret None);
    match ack with
    | None => mret tt
    | Some false => inc "RECONCILE_EVENTS" ["stale"]
    | Some true => _ ← observe "RECONCILE_SECONDS" ["ok"]; inc "RECONCILE_EVENTS" ["ok"]
    end.

(** The loop of [reconcile_batch]: the number of events started. *)
Fixpoint reconcile_loop (token : uuid) (deadline : option Z) (events : list uuid) : W Z :=
  match events with
  | [] => mret 0
  | ev :: rest =>
      late ← match deadline with
             | Some t => now ← monotonic; mret (t <=? now)
             | None => mret false
             end;
      if late : bool then _ ← give_back token events; mret 0
      else _ ← reconcile_event token ev; n ← reconcile_loop token deadline rest; mret (n + 1)
  end.

Definition reconcile_batch (deadline : option Z) : W Z :=
  measured_work "reconcile_batch" (
    claim ← claim_due_events;
    reconcile_loop claim.1 deadline claim.2).

(** [while time.monotonic() < deadline]; [None] when the fuel ran out first. *)
Fixpoint reconcile_pass (fuel : nat) (deadline : Z) : W (option Z) :=
  match fuel with
  | O => mret None
  | S fuel' =>
      now ← monotonic;
      if now <? deadline then
        claimed ← reconcile_batch (Some deadline);
        if claimed =? 0 then mret (Some 0)
        else rest ← reconcile_pass fuel' deadline; mret ((fun n => claimed + n) <$> rest)
      else mret (Some 0)
  end.
End reconcile.
