(* ===== verification/InvWorkers.v ===== *)
(** * The workers keep the invariant

    Publisher, refresher, reconciler, simulator and Redis-first writer: whatever fails, the commerce
    tables stay consistent. *)

From S2P Require Import Prelude Domain Schema World Observability Postgres Sql Reservations Config.
From S2P Require Import Cache Intake Fulfilment Workers Reconcile.
From S2P Require Import Invariant InvReserve InvPayment InvCallback InvFulfil Service.

(** ** Changes outside the commerce tables *)

Lemma inv_outside d d' :
  commerce_eq d d' -> d'.(idempotency_records) = d.(idempotency_records) -> inv d -> inv d'.
Proof. intros Hce Hid [Hc Hi]. split; [by apply (inv_commerce_eq d)|]. unfold inv_idem. by rewrite Hid. Qed.

(** Leases and delivery counts of payments are not read by the invariant. *)
Lemma inv_payment_fields P f d :
  (forall r, (f r).(p_order_id) = r.(p_order_id) /\ (f r).(p_status) = r.(p_status)) ->
  inv d -> inv (set_payment_attempts (update_where P f) d).
Proof.
  intros Hf [[Hc [H1 H2 H3 H4 H5 H6] Ht Htk] Hi].
  assert (forall k r', update_where P f d.(payment_attempts) !! k = Some r' ->
    exists r, d.(payment_attempts) !! k = Some r /\ r'.(p_order_id) = r.(p_order_id) /\ r'.(p_status) = r.(p_status)) as Hbwd.
  { intros k r' (r & Hr & ->)%update_where_Some. exists r. split; [done|]. destruct (P k r); [apply Hf|done]. }
  assert (forall k r, d.(payment_attempts) !! k = Some r -> exists r', update_where P f d.(payment_attempts) !! k = Some r' /\
    r'.(p_order_id) = r.(p_order_id) /\ r'.(p_status) = r.(p_status)) as Hfwd.
  { intros k r Hr. eexists. split; [apply update_where_Some; eauto|]. destruct (P k r); [apply Hf|done]. }
  split; [|done]. split; [by apply (inv_core_eq d)| |done|by destruct Htk; split]. split; simpl.
  - intros p r' (r & Hr & -> & _)%Hbwd. eauto.
  - intros p1 p2 r1 r2 (q1 & Hq1 & -> & _)%Hbwd (q2 & Hq2 & -> & _)%Hbwd. eauto.
  - intros p r' o (r & Hr & -> & ->)%Hbwd. eauto.
  - intros o r Ho Hs. destruct (H4 _ _ Ho Hs) as (p & pr & Hp & Hpo & Hps).
    destruct (Hfwd _ _ Hp) as (pr' & ? & ? & ?). exists p, pr'. repeat split; congruence.
  - intros p rr Hrr. destruct (H5 _ _ Hrr) as (pr & o & Hp & Hpo & Hps & ?).
    destruct (Hfwd _ _ Hp) as (pr' & ? & ? & ?). exists pr', o. repeat split; try congruence; tauto.
  - intros o r Ho Hs. destruct (H6 _ _ Ho Hs) as (p & pr & rr & Hp & Hpo & ?).
    destruct (Hfwd _ _ Hp) as (pr' & ? & ? & ?). exists p, pr', rr. repeat split; try congruence; tauto.
Qed.

(** The statement wrote outside the commerce tables. *)
Ltac inv_elsewhere := match goal with H : inv ?d |- _ => apply (inv_outside d); done end.

(** A transaction whose statements write outside the commerce tables. *)
Ltac outside_tx := apply keeps_transaction; intros; wp_sql; try done; inv_elsewhere.

Section workers_inv.
Context `{E : Env} (ttl : Z) (encode_layout : layout_doc -> string).

Lemma keeps_modify_obs P o : keeps P (modify (add_obs o)).
Proof. apply keeps_obs. Qed.

Lemma put_keeps P ev seats sale : keeps P (put ttl encode_layout ev seats sale).
Proof. unfold put. apply keeps_bind; [apply keeps_uuid4|intros; apply keeps_redis_eval]. Qed.

Lemma patch_keeps P ev seats : keeps P (patch ev seats).
Proof. unfold patch. apply keeps_bind; [apply keeps_redis_eval|intros; apply keeps_ret]. Qed.

Lemma snapshot_keeps ev : keeps inv (snapshot ttl encode_layout ev).
Proof.
  apply keeps_measured, keeps_bind; [apply keeps_transaction; intros; by wp_sql|]. intros read.
  apply keeps_bind; [apply keeps_obs|intros]. apply keeps_bind; [apply keeps_or_raise|intros].
  apply keeps_bind; [apply put_keeps|intros; apply keeps_ret].
Qed.

Lemma changed_snapshot_keeps ev seats : keeps inv (changed_snapshot ttl encode_layout ev seats).
Proof.
  apply keeps_bind; [apply keeps_transaction; intros; by wp_sql|]. intros rows.
  apply keeps_bind; [apply keeps_obs|intros]. apply keeps_bind; [apply patch_keeps|].
  intros []; [apply keeps_ret|apply snapshot_keeps].
Qed.

Context (send : nat -> option exn) (ack : nat -> fault).

Lemma keeps_kafka P f : keeps P (modify (set_kafka f)).
Proof. by intros w. Qed.

Lemma send_rows_keeps P deadline rows : keeps P (send_rows send deadline rows).
Proof.
  induction rows as [|kr rows IH]; simpl; [apply keeps_ret|]. apply keeps_bind; [apply keeps_monotonic|intros].
  destruct (_ <=? _); [apply keeps_ret|]. apply keeps_draw. intros i. destruct (send i); [apply keeps_ret|].
  apply keeps_bind; [done|intros; apply keeps_ret].
Qed.

Lemma await_rows_keeps P rows : keeps P (await_rows ack rows).
Proof.
  induction rows as [|kr rows IH]; simpl; [apply keeps_ret|]. apply keeps_draw. intros i.
  destruct (ack i); repeat (apply keeps_bind; [first [apply keeps_kafka|exact IH]|intros]); apply keeps_ret.
Qed.

Lemma claim_outbox_inv token limit w :
  inv w.(w_db) -> wp (claim_outbox token limit) (fun _ w' => inv w'.(w_db)) w.
Proof.
  intros Hinv. unfold claim_outbox. apply wp_bind, wp_clock, wp_bind, wp_sql, wp_bind, wp_skip_locked.
  intros l _ _. destruct (take limit l); [by apply wp_ret|]. wp_sql. inv_elsewhere.
Qed.

Lemma publish_batch_keeps limit : keeps inv (publish_batch send ack limit).
Proof.
  apply keeps_measured, keeps_bind; [apply keeps_uuid4|intros token].
  apply keeps_bind; [apply keeps_transaction; intros; by apply claim_outbox_inv|]. intros [|row rows]; [apply keeps_ret|].
  apply keeps_bind; [apply keeps_monotonic|intros]. apply keeps_bind; [apply send_rows_keeps|intros].
  apply keeps_bind; [apply await_rows_keeps|intros]. apply keeps_bind.
  - destruct (_ : list uuid); [apply keeps_ret|]. outside_tx.
  - intros _. destruct (_ ++ _); [apply keeps_ret|apply keeps_raise].
Qed.

(** ** The refresh queue *)

Lemma claim_refreshes_inv token limit w :
  inv w.(w_db) -> wp (claim_refreshes token limit) (fun _ w' => inv w'.(w_db)) w.
Proof.
  intros Hinv. unfold claim_refreshes. apply wp_bind, wp_clock, wp_bind, wp_sql, wp_bind, wp_skip_locked.
  intros l _ _. destruct (take limit l); [by apply wp_ret|]. wp_sql. inv_elsewhere.
Qed.

Lemma refresh_rows_keeps rows : keeps inv (refresh_rows ttl encode_layout rows).
Proof.
  induction rows as [|kr rows IH]; simpl; [apply keeps_ret|]. apply keeps_bind.
  - apply keeps_try; [|intros; apply keeps_ret]. apply keeps_bind; [|intros; apply keeps_ret].
    unfold refresh_row_cache. destruct (rq_seat_ids kr.2); [apply changed_snapshot_keeps|apply snapshot_keeps].
  - intros r. apply keeps_bind; [done|]. intros acc. destruct r; apply keeps_ret.
Qed.

Lemma refresh_batch_keeps limit cooldown : keeps inv (refresh_batch ttl encode_layout limit cooldown).
Proof.
  apply keeps_measured, keeps_bind; [apply keeps_uuid4|intros token].
  apply keeps_bind; [apply keeps_transaction; intros; by apply claim_refreshes_inv|]. intros [[|row rows] at_]; [apply keeps_ret|].
  apply keeps_bind; [apply refresh_rows_keeps|]. intros [completed errors]. apply keeps_bind.
  - destruct completed as [|c cs]; [apply keeps_ret|]. apply keeps_transaction. intros w Hw. cbn [fst].
    apply (wp_for_each (fun w' => inv w'.(w_db)) (c :: cs)); [|done].
    intros x w' _ Hw'. unfold complete_refresh. wp_sql. inv_elsewhere.
  - intros _. destruct errors; [apply keeps_ret|apply keeps_raise].
Qed.

Lemma expire_batch_keeps limit : keeps inv (expire_batch limit).
Proof. apply (law_expire_batch (LawfulStore := postgres_lawful 0)). Qed.

Lemma worker_expire_batch_keeps limit : keeps inv (worker_expire_batch limit).
Proof. apply keeps_measured, expire_batch_keeps. Qed.

(** ** The Redis-first writer *)

Context (scan_pages : nat -> list (list uuid)).

Lemma messages_keeps P consumer count idle : keeps P (messages scan_pages consumer count idle).
Proof.
  unfold messages. apply keeps_bind.
  { apply keeps_bind; [apply keeps_redis_eval|intros]. apply keeps_draw. intros; apply keeps_ret. }
  intros events. apply keeps_bind; [apply keeps_for_each; intros; apply keeps_redis_eval|intros _].
  apply keeps_bind.
  - induction events as [|ev events IH]; simpl; [apply keeps_ret|].
    apply keeps_bind; [apply keeps_redis_eval|]. intros []; [done|apply keeps_ret].
  - intros []; [|apply keeps_ret]. destruct events; [apply keeps_ret|apply keeps_redis_eval].
Qed.

Lemma acknowledge_keeps P ev id : keeps P (acknowledge ev id).
Proof. unfold acknowledge. apply keeps_bind; [apply keeps_redis_eval|intros; apply keeps_redis_eval]. Qed.

Lemma persist_message_keeps m : keeps inv (persist_message ttl encode_layout m).
Proof.
  destruct m as [[stream id] msg]. unfold persist_message. apply keeps_bind; [apply keeps_obs|intros _].
  apply keeps_bind.
  { apply keeps_try; [|intros []; first [apply keeps_ret|apply keeps_raise]].
    apply keeps_bind; [|intros; apply keeps_ret]. apply keeps_bind; [apply keeps_raise_if|intros _].
    apply keeps_transaction. intros. by apply persist_tx_inv. }
  intros [code|].
  - apply keeps_bind; [apply keeps_redis_eval|intros]. do 2 (apply keeps_bind; [apply keeps_obs|intros]).
    apply keeps_bind; [apply snapshot_keeps|intros; apply acknowledge_keeps].
  - apply keeps_bind; [apply keeps_redis_eval|intros]. apply keeps_bind; [apply keeps_raise_if|intros].
    apply keeps_bind; [apply acknowledge_keeps|intros; apply keeps_obs].
Qed.

Lemma persist_reservation_batch_keeps consumer limit :
  keeps inv (persist_reservation_batch ttl encode_layout scan_pages consumer limit).
Proof.
  apply keeps_measured, keeps_bind; [apply messages_keeps|intros batch].
  apply keeps_bind; [apply keeps_for_each; intros; apply persist_message_keeps|intros; apply keeps_ret].
Qed.

(** ** The simulator *)

Context (post : callback_payload -> W unit) (Hpost : forall p, keeps inv (post p)).

Lemma claim_payment_inv token w : inv w.(w_db) -> wp (claim_payment token) (fun _ w' => inv w'.(w_db)) w.
Proof.
  intros Hw. unfold claim_payment. apply wp_bind, wp_clock, wp_bind, wp_sql, wp_bind, wp_skip_locked. intros l _ _.
  destruct l; [by apply wp_ret|]. wp_sql. by apply inv_payment_fields.
Qed.

Lemma simulate_one_keeps : keeps inv (simulate_one post).
Proof.
  apply keeps_measured, keeps_bind; [apply keeps_uuid4|intros token]. apply keeps_bind.
  - apply keeps_transaction. intros. by apply claim_payment_inv.
  - intros [x|]; [|apply keeps_ret]. apply keeps_bind; [apply Hpost|intros _].
    apply keeps_bind; [|intros; apply keeps_ret]. apply keeps_transaction. intros w Hw. wp_sql.
    by apply inv_payment_fields.
Qed.

Lemma simulate_batch_keeps n : keeps inv (simulate_batch post n).
Proof.
  induction n as [|n IH]; simpl; [apply keeps_ret|]. apply keeps_bind.
  - apply keeps_try; [apply simulate_one_keeps|intros]. apply keeps_bind; [apply keeps_obs|intros; apply keeps_ret].
  - intros r. apply keeps_bind; [done|intros; apply keeps_ret].
Qed.

End workers_inv.

(** ** The reconciler *)

Section reconcile_inv.
Context `{E : Env} (settings : Settings) (encode_layout : layout_doc -> string).

Lemma maintain_schedule_keeps : keeps inv (maintain_schedule settings).
Proof.
  apply keeps_measured, keeps_bind.
  - apply keeps_transaction. intros w Hw. apply wp_bind, wp_clock, wp_bind, wp_sql, wp_bind.
    eapply wp_mono; [apply (wp_for_each (fun w' => inv w'.(w_db)))|].
    { intros x w' _ Hw'. wp_sql. inv_elsewhere. }
    { done. }
    intros [] w1 Hw1. apply wp_bind, wp_clock, wp_bind, wp_sql, wp_bind, wp_skip_locked. intros l _ _.
    apply wp_bind. eapply wp_mono; [apply (wp_for_each (fun w' => inv w'.(w_db)))|].
    { intros x w' _ Hw'. wp_sql. inv_elsewhere. }
    { done. }
    intros [] w2 Hw2. by wp_sql.
  - intros [[[seeded pruned] d] now]. apply keeps_bind; [|intros; apply keeps_ret].
    do 2 (apply keeps_bind; [apply keeps_obs|intros]). apply keeps_obs.
Qed.

Lemma claim_due_events_keeps : keeps inv (claim_due_events settings).
Proof.
  apply keeps_bind; [apply keeps_uuid4|intros token]. apply keeps_bind.
  - apply keeps_transaction. intros w Hw. apply wp_bind, wp_clock, wp_bind, wp_sql, wp_bind, wp_skip_locked.
    intros l _ _. cbv zeta. destruct (take _ l); [by apply wp_ret|]. wp_sql; first [done|inv_elsewhere].
  - intros rows. apply keeps_bind; [destruct (_ <? _); [apply keeps_obs|apply keeps_ret]|intros; apply keeps_ret].
Qed.

Lemma reconcile_event_keeps token ev : keeps inv (reconcile_event settings encode_layout token ev).
Proof.
  unfold reconcile_event. apply keeps_bind.
  - apply keeps_try; [apply keeps_bind; [apply snapshot_keeps|intros; apply keeps_ret]|intros].
    do 3 (apply keeps_bind; [apply keeps_obs|intros]). apply keeps_bind; [|intros; apply keeps_ret].
    apply keeps_try; [outside_tx|intros; apply keeps_obs].
  - intros []; [apply keeps_ret|]. apply keeps_bind.
    + apply keeps_try; [apply keeps_bind; [outside_tx|intros; apply keeps_ret]|intros].
      do 2 (apply keeps_bind; [apply keeps_obs|intros]). apply keeps_ret.
    + intros [[]|]; [apply keeps_bind; [apply keeps_obs|intros; apply keeps_obs]|apply keeps_obs|apply keeps_ret].
Qed.

Lemma reconcile_loop_keeps token deadline events : keeps inv (reconcile_loop settings encode_layout token deadline events).
Proof.
  induction events as [|ev events IH]; cbn [reconcile_loop]; [apply keeps_ret|]. apply keeps_bind.
  { destruct deadline; [|apply keeps_ret]. apply keeps_bind; [apply keeps_monotonic|intros; apply keeps_ret]. }
  intros []; [apply keeps_bind; [outside_tx|intros; apply keeps_ret]|].
  apply keeps_bind; [apply reconcile_event_keeps|intros]. apply keeps_bind; [done|intros; apply keeps_ret].
Qed.

Lemma reconcile_batch_keeps deadline : keeps inv (reconcile_batch settings encode_layout deadline).
Proof. apply keeps_measured, keeps_bind; [apply claim_due_events_keeps|intros; apply reconcile_loop_keeps]. Qed.

Lemma reconcile_pass_keeps fuel deadline : keeps inv (reconcile_pass settings encode_layout fuel deadline).
Proof.
  induction fuel as [|fuel IH]; cbn [reconcile_pass]; [apply keeps_ret|]. apply keeps_bind; [apply keeps_monotonic|intros].
  destruct (_ <? _); [|apply keeps_ret]. apply keeps_bind; [apply reconcile_batch_keeps|intros].
  destruct (_ =? _); [apply keeps_ret|]. apply keeps_bind; [done|intros; apply keeps_ret].
Qed.
End reconcile_inv.
