(* ===== verification/Http.v ===== *)
(** * HTTP instrumentation: admission and the connection table

    [src/ticketing/http.py].  One event loop runs every request; between two awaits a request's code
    is atomic, so a process is a sequence of the atomic pieces below: a request arrives (its
    connection entry is refreshed and it is admitted or rejected), its response headers are emitted,
    and it finishes.  What a request keeps between them, metrics and log records are in [Instrumentation]. *)

From S2P Require Import Prelude.

(** ** The connection table *)

Definition CONNECTION_STATE_MAX : nat := Pos.to_nat 16384.
Definition CONNECTION_STATE_IDLE : Z := seconds 120.

Record connection_entry : Type := ConnectionEntry { ce_first_seen : Z; ce_last_seen : Z }.

(** [OrderedDict], oldest first. *)
Definition connections : Type := list (string * connection_entry).

Definition find_connection (key : string) (t : connections) : option connection_entry :=
  snd <$> head (filter (fun ke => ke.1 = key) t).
Definition pop_connection (key : string) (t : connections) : connections := filter (fun ke => ke.1 <> key) t.

(** The eviction loop from the oldest entry. *)
Fixpoint evict_connections (max : nat) (cutoff : Z) (t : connections) : connections :=
  match t with
  | [] => []
  | (k, e) :: rest =>
      if (length t <=? max)%nat && (cutoff <=? e.(ce_last_seen)) then t else evict_connections max cutoff rest
  end.

(** The arrival's critical section: the entry moves to the end; whether it was created, and when the
    connection was first seen. *)
Definition see_connection (max : nat) (now : Z) (key : string) (t : connections) : connections * (bool * Z) :=
  let rest := pop_connection key t in
  let '(entry, recreated) := match find_connection key t with
                             | None => (ConnectionEntry now now, true)
                             | Some e => (ConnectionEntry e.(ce_first_seen) now, false)
                             end in
  (evict_connections max (now - CONNECTION_STATE_IDLE) (rest ++ [(key, entry)]), (recreated, entry.(ce_first_seen))).

Inductive close_reason : Type := client_disconnect | server_send_error.

(** The end of a request: a closed connection is forgotten, another one keeps its place. *)
Definition leave_connection (now : Z) (key : string) (closed : option close_reason) (t : connections) : connections :=
  match closed with
  | Some _ => pop_connection key t
  | None => map (fun ke => if bool_decide (ke.1 = key) then (ke.1, ConnectionEntry ke.2.(ce_first_seen) now) else ke) t
  end.

(** ** Admission *)

Record request_info : Type := RequestInfo {
  ri_id : positive;
  ri_method : string;
  ri_path : string;
  ri_connection : string;
}.

Definition reservation (r : request_info) : bool :=
  bool_decide (r.(ri_method) = "POST") && bool_decide (r.(ri_path) = "/v1/holds").

Inductive verdict : Type := Forwarded | RejectedFull.

(** [app.state.reserve_inflight], the requests whose [admitted] flag is set, and the table. *)
Record http_state : Type := HttpState {
  hs_inflight : Z;
  hs_admitted : gset positive;
  hs_connections : connections;
}.

Definition http_start : http_state := HttpState 0 ∅ [].

Definition arrive (max : nat) (limit now : Z) (r : request_info) (s : http_state) : http_state * verdict :=
  let '(t, _) := see_connection max now r.(ri_connection) s.(hs_connections) in
  if reservation r && (limit <=? s.(hs_inflight)) then
    (HttpState s.(hs_inflight) s.(hs_admitted) t, RejectedFull)
  else if reservation r then
    (HttpState (s.(hs_inflight) + 1) ({[r.(ri_id)]} ∪ s.(hs_admitted)) t, Forwarded)
  else (HttpState s.(hs_inflight) s.(hs_admitted) t, Forwarded).

(** [release()]: idempotent, once per admission. *)
Definition release (id : positive) (s : http_state) : http_state :=
  if bool_decide (id ∈ s.(hs_admitted)) then
    HttpState (s.(hs_inflight) - 1) (s.(hs_admitted) ∖ {[id]}) s.(hs_connections)
  else s.

(** The [http.response.start] message of [observed_send]. *)
Definition response_start (r : request_info) (s : http_state) : http_state := release r.(ri_id) s.

(** The [finally] block. *)
Definition finish (now : Z) (r : request_info) (closed : option close_reason) (s : http_state) : http_state :=
  let s1 := release r.(ri_id) s in
  HttpState s1.(hs_inflight) s1.(hs_admitted) (leave_connection now r.(ri_connection) closed s1.(hs_connections)).

(** ** The process as a step relation *)

Inductive http_step (max : nat) (limit : Z) : http_state -> http_state -> Prop :=
| step_arrive now r s : r.(ri_id) ∉ s.(hs_admitted) -> http_step max limit s (arrive max limit now r s).1
| step_headers r s : http_step max limit s (response_start r s)
| step_finish now r closed s : http_step max limit s (finish now r closed s).

Definition http_reachable (max : nat) (limit : Z) : http_state -> Prop := rtc (http_step max limit) http_start.

(** ** Invariant *)

Record http_inv (max : nat) (limit : Z) (s : http_state) : Prop := HttpInv {
  hi_count : s.(hs_inflight) = Z.of_nat (size s.(hs_admitted));
  hi_limit : s.(hs_inflight) <= Z.max 0 limit;
  hi_table : (length s.(hs_connections) <= max)%nat;
  hi_keys : NoDup s.(hs_connections).*1;
}.

Lemma length_filter_le {A} (P : A -> Prop) `{!forall x, Decision (P x)} (l : list A) :
  (length (filter P l) <= length l)%nat.
Proof. induction l as [|x l IH]; [done|]. rewrite filter_cons. case_decide; simpl; lia. Qed.

Lemma NoDup_fst_filter {A B} (P : A * B -> Prop) `{!forall x, Decision (P x)} (l : list (A * B)) :
  NoDup l.*1 -> NoDup (filter P l).*1.
Proof.
  induction l as [|x l IH]; [done|]. simpl. intros [Hx Hnd]%NoDup_cons. rewrite filter_cons.
  case_decide; [|auto]. simpl. constructor; [|auto].
  intros (y & Hy & Hin)%list_elem_of_fmap. apply Hx. apply list_elem_of_fmap. exists y.
  split; [done|]. by apply list_elem_of_filter in Hin as [_ ?].
Qed.

Lemma evict_suffix max cutoff t : exists pre, t = pre ++ evict_connections max cutoff t.
Proof.
  induction t as [|[k e] t IH]; [by exists []|]. cbn [evict_connections]. destruct (_ && _); [by exists []|].
  destruct IH as [pre Hpre]. exists ((k, e) :: pre). simpl. by rewrite <-Hpre.
Qed.

Lemma evict_length max cutoff t : (length (evict_connections max cutoff t) <= max)%nat.
Proof.
  induction t as [|[k e] t IH]; cbn [evict_connections]; [simpl; lia|]. destruct (_ && _) eqn:Hc; [|done].
  apply andb_true_iff in Hc as [Hc _]. by apply Nat.leb_le in Hc.
Qed.

(** The entry just seen survives the eviction. *)
Lemma evict_keeps_last max cutoff t k e :
  (1 <= max)%nat -> cutoff <= e.(ce_last_seen) -> (k, e) ∈ evict_connections max cutoff (t ++ [(k, e)]).
Proof.
  intros Hm He. induction t as [|[k' e'] t IH]; cbn [evict_connections app].
  - rewrite (proj2 (Nat.leb_le _ _)) by (simpl; lia). rewrite (proj2 (Z.leb_le _ _)) by done. simpl.
    apply list_elem_of_here.
  - destruct (_ && _); [|done]. apply elem_of_cons. right. apply elem_of_app. right. apply list_elem_of_here.
Qed.

Lemma see_connection_facts max now key t :
  NoDup t.*1 ->
  (length (see_connection max now key t).1 <= max)%nat /\ NoDup (see_connection max now key t).1.*1.
Proof.
  intros Hnd. unfold see_connection.
  set (er := match find_connection key t with None => (ConnectionEntry now now, true)
             | Some e => (ConnectionEntry (ce_first_seen e) now, false) end).
  destruct er as [entry recreated]. simpl. split; [apply evict_length|].
  destruct (evict_suffix max (now - CONNECTION_STATE_IDLE) (pop_connection key t ++ [(key, entry)])) as [pre Hpre].
  assert (NoDup (pop_connection key t ++ [(key, entry)]).*1) as Hall.
  { rewrite fmap_app. apply NoDup_app. split; [by apply NoDup_fst_filter|]. split; [|apply NoDup_singleton].
    intros x Hx ->%list_elem_of_singleton. apply list_elem_of_fmap in Hx as ([k e] & Hk & Hin).
    apply list_elem_of_filter in Hin as [Hne _]. by simpl in *. }
  rewrite Hpre, fmap_app in Hall. by apply NoDup_app in Hall as (_ & _ & ?).
Qed.

Lemma release_inv max limit id s : http_inv max limit s -> http_inv max limit (release id s).
Proof.
  intros [Hc Hl Ht Hk]. unfold release. case_bool_decide as Hin; [|done].
  assert (size s.(hs_admitted) = S (size (s.(hs_admitted) ∖ {[id]}))) as Hsz.
  { rewrite (union_difference_singleton_L id s.(hs_admitted)) at 1 by done.
    rewrite size_union by set_solver. by rewrite size_singleton. }
  split; simpl; [lia|lia|done|done].
Qed.

Lemma leave_connection_facts max now key closed t :
  (length t <= max)%nat -> NoDup t.*1 ->
  (length (leave_connection now key closed t) <= max)%nat /\ NoDup (leave_connection now key closed t).*1.
Proof.
  intros Hl Hnd. destruct closed; simpl.
  - split; [etrans; [apply length_filter_le|done]|by apply NoDup_fst_filter].
  - rewrite length_map. split; [done|]. clear Hl. rewrite <-list_fmap_compose.
    erewrite list_fmap_ext; [exact Hnd|]. intros _ [k e] _. simpl. by case_bool_decide.
Qed.

Lemma http_step_inv max limit s s' : http_step max limit s s' -> http_inv max limit s -> http_inv max limit s'.
Proof.
  intros [now r s0 Hfresh|r s0|now r closed s0] Hinv.
  - destruct Hinv as [Hc Hl Ht Hk]. unfold arrive.
    destruct (see_connection_facts max now r.(ri_connection) s0.(hs_connections) Hk) as [H1 H2].
    destruct (see_connection _ _ _ _) as [t x]. simpl in *.
    destruct (reservation r); simpl; [destruct (_ <=? _) eqn:Hlim; bool_hyps|]; split; simpl; try done; try lia.
    rewrite size_union by set_solver. rewrite size_singleton. lia.
  - by apply release_inv.
  - apply (release_inv _ _ r.(ri_id)) in Hinv as [Hc Hl Ht Hk]. unfold finish.
    destruct (leave_connection_facts max now r.(ri_connection) closed _ Ht Hk). by split.
Qed.

Lemma http_reachable_inv max limit s : http_reachable max limit s -> http_inv max limit s.
Proof.
  intros Hr. assert (http_inv max limit http_start) as H0.
  { split; simpl; [done|lia|lia|constructor]. }
  revert H0. induction Hr as [|s1 s2 s3 Hstep _ IH]; [done|]. intros H1. apply IH. by eapply http_step_inv.
Qed.
