(* ===== verification/Instrumentation.v ===== *)
(** * HTTP instrumentation: the life of a request

    [RequestInstrumentation] of [src/ticketing/http.py] on top of the admission and the connection table of [Http]: what a
    request keeps between its awaits, the metrics, the response headers and the log record.  An operation is the
    code between two awaits; a run is a sequence of operations of any requests of the process, as the
    event loop interleaves them.  Times are microseconds and are not rounded. *)

From stdpp Require Import pretty.
From S2P Require Import Prelude Http.

#[local] Open Scope Z_scope.

(** ** Data *)

(** [labels(..).inc()], [.observe(v)] or [.set(v)] on the metric of that name. *)
Record metric : Type := Metric { mt_name : string; mt_labels : list string; mt_value : Z }.

Definition close_label (r : close_reason) : string :=
  match r with client_disconnect => "client_disconnect" | server_send_error => "server_send_error" end.

(** The ['fields'] of the ['request'] record. *)
Record log_record : Type := LogRecord {
  lr_request_id : positive;
  lr_route : string;
  lr_status : option Z;
  lr_duration : Z;
  lr_error_code : option string;
  lr_db_failure_type : option string;
  lr_connection_key : string;
  lr_connection_recreated : bool;
  lr_connection_age : Z;
  lr_close_source : option close_reason;
  lr_hold : option (Z * Z * gmap string Z);
}.

(** The locals of [__call__] and [request.state]. *)
Record context : Type := Context {
  cx_request : request_info;
  cx_started : Z;
  cx_arrival : Z;
  cx_recreated : bool;
  cx_age : Z;
  cx_rejected : bool;
  cx_emitted : bool;
  cx_reason : option close_reason;
  cx_error_code : option string;
  cx_db_failure : option string;
  cx_trace : option (gmap string Z);
}.

Abbreviation headers := (list (string * string)) (only parsing).

(** The process: admission, the requests in progress, and what left it, newest first. *)
Record process : Type := Process {
  pr_http : http_state;
  pr_requests : gmap positive context;
  pr_log : list log_record;
  pr_metrics : list metric;
  pr_sent : list (positive * (Z * headers));
}.

Definition process_start : process := Process http_start ∅ [] [] [].

(** [MutableHeaders.__setitem__] on lower-case names: the first value is replaced and the others are dropped. *)
Fixpoint set_header (name value : string) (l : headers) : headers :=
  match l with
  | [] => [(name, value)]
  | h :: rest => if bool_decide (h.1 = name) then (name, value) :: filter (fun x => x.1 <> name) rest else h :: set_header name value rest
  end.

Section process.
Context (max : nat) (limit : Z).
(** [str(uuid4())], and the formatted duration. *)
Context (show_id : positive -> string) (show_ms : Z -> string).

Definition mark_close (reason : close_reason) (c : context) : context :=
  Context c.(cx_request) c.(cx_started) c.(cx_arrival) c.(cx_recreated) c.(cx_age) c.(cx_rejected) c.(cx_emitted)
    (match c.(cx_reason) with None => Some reason | r => r end) c.(cx_error_code) c.(cx_db_failure) c.(cx_trace).

Definition set_emitted (c : context) : context :=
  Context c.(cx_request) c.(cx_started) c.(cx_arrival) c.(cx_recreated) c.(cx_age) c.(cx_rejected) true
    c.(cx_reason) c.(cx_error_code) c.(cx_db_failure) c.(cx_trace).

(** ** The code between the awaits *)

(** From the entry of [__call__] to the await of the application or of the rejection. *)
Definition begin (r : request_info) (started now : Z) (p : process) : process :=
  let h := p.(pr_http) in
  let '(_, (recreated, first_seen)) := see_connection max now r.(ri_connection) h.(hs_connections) in
  let '(h', v) := arrive max limit now r h in
  let seen := if reservation r then [Metric "HOLD_LIMIT" [] limit; Metric "HOLD_OCCUPANCY" [] h.(hs_inflight)] else [] in
  let decided :=
    match v with
    | RejectedFull => [Metric "OUTCOMES" ["request"; "ADMISSION_FULL"] 1; Metric "HOLD_ADMISSION" ["rejected"] 1]
    | Forwarded => if reservation r then [Metric "HOLD_ADMISSION" ["admitted"] 1; Metric "HOLD_INFLIGHT" [] h'.(hs_inflight)] else []
    end in
  let rejected := match v with RejectedFull => true | Forwarded => false end in
  let c := Context r started h.(hs_inflight) recreated (now - first_seen) rejected false None
             (if rejected then Some "ADMISSION_FULL" else None) None (if reservation r then Some ∅ else None) in
  Process h' (<[r.(ri_id) := c]> p.(pr_requests)) p.(pr_log) (decided ++ seen ++ p.(pr_metrics)) p.(pr_sent).

(** The metric update of [release()]. *)
Definition release_metrics (id : positive) (h : http_state) : list metric :=
  if bool_decide (id ∈ h.(hs_admitted)) then [Metric "HOLD_INFLIGHT" [] (release id h).(hs_inflight)] else [].

Definition close_metrics (c : context) : list metric :=
  match c.(cx_reason) with Some r => [Metric "HTTP_CONNECTION_CLOSE_TOTAL" [close_label r] 1] | None => [] end
  ++ [Metric "HTTP_CONNECTION_AGE_SECONDS" [] c.(cx_age)].

Definition record_of (c : context) (route : string) (status : option Z) (duration : Z) : log_record :=
  LogRecord c.(cx_request).(ri_id) route status duration c.(cx_error_code) c.(cx_db_failure) c.(cx_request).(ri_connection)
    c.(cx_recreated) c.(cx_age) c.(cx_reason)
    (if reservation c.(cx_request) then Some (c.(cx_arrival), limit, default ∅ c.(cx_trace)) else None).

(** [observed_send] of [http.response.start], up to the await of [send]; [route] is the path of the matched route. *)
Definition send_start (id : positive) (c : context) (now : Z) (route : option string) (status : Z) (hs : headers) (p : process) : process :=
  let elapsed := now - c.(cx_started) in
  let path := default (if reservation c.(cx_request) then "/v1/holds" else "unmatched") route in
  let hs' := set_header "server-timing" ("app;dur=" +:+ show_ms elapsed) (set_header "x-request-id" (show_id id) hs) in
  Process (response_start c.(cx_request) p.(pr_http)) (<[id := set_emitted c]> p.(pr_requests))
    (record_of c path (Some status) elapsed :: p.(pr_log))
    (close_metrics c ++ [Metric "LATENCY" [path] elapsed; Metric "REQUESTS" [path; c.(cx_request).(ri_method); pretty status] 1]
      ++ release_metrics id p.(pr_http) ++ p.(pr_metrics))
    ((id, (status, hs')) :: p.(pr_sent)).

(** The [finally] block. *)
Definition end_request (id : positive) (c : context) (now left_at : Z) (route : option string) (p : process) : process :=
  let released := release_metrics id p.(pr_http) ++ p.(pr_metrics) in
  let '(log, metrics) :=
    if c.(cx_emitted) then (p.(pr_log), released)
    else (record_of c (default c.(cx_request).(ri_path) route) None (now - c.(cx_started)) :: p.(pr_log), close_metrics c ++ released) in
  Process (finish left_at c.(cx_request) c.(cx_reason) p.(pr_http)) (delete id p.(pr_requests)) log metrics p.(pr_sent).

(** What the handler leaves for the record: its error, the type of a database failure, the time of a phase. *)
Inductive note : Type :=
| NoteError (code : string)
| NoteDbFailure (type : string)
| NotePhase (phase outcome : string) (us : Z).

(** [observe_hold_phase] adds to the trace of the request, when it has one. *)
Definition noted (n : note) (c : context) : context :=
  let '(code, failure, trace) :=
    match n with
    | NoteError code => (Some code, c.(cx_db_failure), c.(cx_trace))
    | NoteDbFailure type => (c.(cx_error_code), Some type, c.(cx_trace))
    | NotePhase phase _ us => (c.(cx_error_code), c.(cx_db_failure), (fun t => <[phase := default 0 (t !! phase) + us]> t) <$> c.(cx_trace))
    end in
  Context c.(cx_request) c.(cx_started) c.(cx_arrival) c.(cx_recreated) c.(cx_age) c.(cx_rejected) c.(cx_emitted) c.(cx_reason) code failure trace.

Definition note_metrics (n : note) : list metric :=
  match n with NotePhase phase outcome us => [Metric "HOLD_PHASE" [phase; outcome] us] | _ => [] end.

Definition update (id : positive) (f : context -> context) (ms : list metric) (p : process) : process :=
  Process p.(pr_http) (alter f id p.(pr_requests)) p.(pr_log) (ms ++ p.(pr_metrics)) p.(pr_sent).

(** ** Runs *)

Inductive operation : Type :=
| Begin (r : request_info) (started now : Z)
| Receive (id : positive) (disconnect : bool)
| Note (id : positive) (n : note)
| SendStart (id : positive) (now : Z) (route : option string) (status : Z) (hs : headers)
| SendFailed (id : positive)
| End (id : positive) (now left_at : Z) (route : option string).

(** What a server and an application that follow ASGI do, [None] otherwise: [uuid4] draws a new identifier; one
    response is started, before anything else is sent; a rejection is a response 503 with [Retry-After]. *)
Definition exec (o : operation) (p : process) : option process :=
  match o with
  | Begin r started now =>
      guard (p.(pr_requests) !! r.(ri_id) = None /\ r.(ri_id) ∉ lr_request_id <$> p.(pr_log));; Some (begin r started now p)
  | Receive id disconnect =>
      _ ← p.(pr_requests) !! id; Some (if disconnect : bool then update id (mark_close client_disconnect) [] p else p)
  | Note id n => _ ← p.(pr_requests) !! id; Some (update id (noted n) (note_metrics n) p)
  | SendStart id now route status hs =>
      c ← p.(pr_requests) !! id;
      guard (c.(cx_emitted) = false);;
      guard (c.(cx_rejected) = true -> status = 503 /\ ("retry-after", "1") ∈ hs);;
      Some (send_start id c now route status hs p)
  | SendFailed id =>
      c ← p.(pr_requests) !! id; guard (c.(cx_emitted) = true);; Some (update id (mark_close server_send_error) [] p)
  | End id now left_at route =>
      c ← p.(pr_requests) !! id;
      guard (c.(cx_rejected) = true -> c.(cx_emitted) = true);; Some (end_request id c now left_at route p)
  end.

Fixpoint run (ops : list operation) (p : process) : option process :=
  match ops with [] => Some p | o :: rest => p' ← exec o p; run rest p' end.
End process.
