(* ===== verification/InstrumentationFacts.v ===== *)
(** * What the instrumentation reports

    In every run of an API process, admission is exact and the in-flight gauge shows it; every reservation is counted
    once as admitted or rejected; every request is logged once, and answered with its own identifier; and the
    close counter never counts a failed send. *)

From stdpp Require Import pretty.
From S2P Require Import Prelude Http Instrumentation.

#[local] Open Scope Z_scope.

(** ** Reading a run *)

Definition begun (o : operation) : option request_info := match o with Begin r _ _ => Some r | _ => None end.
Definition named (name : string) (ms : list metric) : list metric := List.filter (fun m => String.eqb m.(mt_name) name) ms.
(** What a gauge shows. *)
Definition gauge (name : string) (ms : list metric) : Z := default 0 (mt_value <$> head (named name ms)).
Definition reservations (rs : list request_info) : list request_info := filter (fun r => reservation r = true) rs.
Definition logged (id : positive) (p : process) : Prop := id ∈ lr_request_id <$> p.(pr_log).

Lemma named_app name l l' : named name (l ++ l') = named name l ++ named name l'.
Proof. apply List.filter_app. Qed.

Lemma gauge_quiet name l l' : named name l = [] -> gauge name (l ++ l') = gauge name l'.
Proof. intros H. unfold gauge. by rewrite named_app, H. Qed.

Lemma set_header_values name value l : filter (fun h => h.1 = name) (set_header name value l) = [(name, value)].
Proof.
  assert (forall l', filter (fun h : string * string => h.1 = name) (filter (fun x => x.1 <> name) l') = []) as Hnone.
  { intros l'. apply elem_of_nil_inv. intros [k v] [Hk [Hn _]%list_elem_of_filter]%list_elem_of_filter. done. }
  induction l as [|h l IH]; cbn [set_header].
  - by rewrite filter_cons_True.
  - case_bool_decide as Hh; [by rewrite filter_cons_True, Hnone|]. by rewrite filter_cons_False, IH.
Qed.

Lemma set_header_other name value other l : other <> name -> filter (fun h => h.1 = other) (set_header name value l) = filter (fun h => h.1 = other) l.
Proof.
  intros Hne. assert (forall l' : list (string * string), filter (fun h : string * string => h.1 = other) (filter (fun x => x.1 <> name) l') = filter (fun h => h.1 = other) l') as Hsame.
  { intros l'. induction l' as [|h l' IH]; [done|]. rewrite (filter_cons _ h l'), (filter_cons _ h l'). repeat case_decide; simplify_eq/=.
    - rewrite filter_cons_True by done. by rewrite IH.
    - by rewrite filter_cons_False.
    - done. }
  induction l as [|h l IH]; cbn [set_header]; [by rewrite filter_cons_False by (simpl; congruence)|].
  case_bool_decide as Hh; rewrite !filter_cons; simpl.
  - rewrite decide_False by congruence. rewrite decide_False by congruence. by rewrite Hsame.
  - by rewrite IH.
Qed.

Lemma close_quiet name c : name <> "HTTP_CONNECTION_CLOSE_TOTAL" -> name <> "HTTP_CONNECTION_AGE_SECONDS" -> named name (close_metrics c) = [].
Proof.
  intros H1 H2. apply not_eq_sym in H1, H2. apply String.eqb_neq in H1, H2. unfold close_metrics, named.
  destruct (cx_reason c); cbn -[String.eqb]; rewrite ?H1, ?H2; done.
Qed.

Lemma release_gauge id h ms : gauge "HOLD_INFLIGHT" ms = h.(hs_inflight) -> gauge "HOLD_INFLIGHT" (release_metrics id h ++ ms) = (release id h).(hs_inflight).
Proof. intros Hg. unfold release_metrics, release. by case_bool_decide. Qed.

Lemma release_quiet name id h : name <> "HOLD_INFLIGHT" -> named name (release_metrics id h) = [].
Proof. intros H1. apply not_eq_sym, String.eqb_neq in H1. unfold release_metrics, named. case_bool_decide; cbn -[String.eqb]; by rewrite ?H1. Qed.

Lemma release_admitted id h i : i ∈ (release id h).(hs_admitted) <-> i ∈ h.(hs_admitted) /\ i <> id.
Proof. unfold release. case_bool_decide as Hin; simpl; [set_solver|]. split; [|tauto]. intros Hi. split; [done|]. by intros ->. Qed.

(** ** The invariant of a run *)

Section facts.
Context (max : nat) (limit : Z) (show_id : positive -> string) (show_ms : Z -> string).

Abbreviation exec := (exec max limit show_id show_ms).
Abbreviation run := (run max limit show_id show_ms).

(** The requests of a process that has begun the requests [rs]. *)
Record lives (rs : list request_info) (p : process) : Prop := Lives {
  lv_key : forall id c, p.(pr_requests) !! id = Some c -> c.(cx_request).(ri_id) = id;
  lv_admitted : forall id, id ∈ p.(pr_http).(hs_admitted) -> exists c, p.(pr_requests) !! id = Some c;
  lv_logged : forall id c, p.(pr_requests) !! id = Some c -> (logged id p <-> c.(cx_emitted) = true);
  lv_once : NoDup (lr_request_id <$> p.(pr_log));
  lv_begun : forall id, id ∈ ri_id <$> rs <-> logged id p \/ is_Some (p.(pr_requests) !! id);
  lv_reason : forall id c, p.(pr_requests) !! id = Some c -> c.(cx_emitted) = false -> c.(cx_reason) <> Some server_send_error;
}.

(** What it reported. *)
Record reports (rs : list request_info) (p : process) : Prop := Reports {
  rp_gauge : gauge "HOLD_INFLIGHT" p.(pr_metrics) = p.(pr_http).(hs_inflight);
  rp_decided : length (named "HOLD_ADMISSION" p.(pr_metrics)) = length (reservations rs);
  rp_age : length (named "HTTP_CONNECTION_AGE_SECONDS" p.(pr_metrics)) = length p.(pr_log);
  rp_close_log : forall l, l ∈ p.(pr_log) -> l.(lr_close_source) <> Some server_send_error;
  rp_close : forall m, m ∈ named "HTTP_CONNECTION_CLOSE_TOTAL" p.(pr_metrics) -> m.(mt_labels) = ["client_disconnect"];
  rp_sent : forall id st hs, (id, (st, hs)) ∈ p.(pr_sent) -> filter (fun h => h.1 = "x-request-id") hs = [("x-request-id", show_id id)];
}.

Lemma lives_begin rs r started now p :
  p.(pr_requests) !! r.(ri_id) = None -> ~ logged r.(ri_id) p -> lives rs p -> lives (rs ++ [r]) (begin max limit r started now p).
Proof.
  intros Hnew Hlog [Hk Ha Hl Ho Hb Hr]. unfold begin.
  destruct (see_connection _ _ _ _) as [t0 [recreated first_seen]].
  destruct (arrive max limit now r (pr_http p)) as [h' v] eqn:Harr.
  assert (forall i, i ∈ h'.(hs_admitted) -> i = r.(ri_id) \/ i ∈ p.(pr_http).(hs_admitted)) as Hadm.
  { unfold arrive in Harr. destruct (see_connection _ _ _ _) in Harr. intros i Hi.
    destruct (reservation r), (limit <=? _); simplify_eq/=; set_solver. }
  split; unfold logged in *; cbn [pr_requests pr_http pr_log] in *.
  - intros id c. rewrite lookup_insert_Some. intros [[<- <-]|[_ ?]]; [done|auto].
  - intros id [->|Hin]%Hadm; [rewrite lookup_insert_eq; eauto|]. destruct (decide (id = ri_id r)) as [->|]; [rewrite lookup_insert_eq; eauto|].
    rewrite lookup_insert_ne by done. auto.
  - intros id c. rewrite lookup_insert_Some. intros [[<- <-]|[_ ?]]; [done|auto].
  - done.
  - intros id. rewrite fmap_app, elem_of_app, Hb, lookup_insert_is_Some. simpl. rewrite list_elem_of_singleton.
    destruct (decide (ri_id r = id)); intuition.
  - intros id c. rewrite lookup_insert_Some. intros [[<- <-]|[_ ?]]; [done|eauto].
Qed.

Lemma lives_update rs id f ms p :
  (forall c, p.(pr_requests) !! id = Some c -> (f c).(cx_request) = c.(cx_request) /\ (f c).(cx_emitted) = c.(cx_emitted)
    /\ (c.(cx_emitted) = false -> c.(cx_reason) <> Some server_send_error -> (f c).(cx_reason) <> Some server_send_error)) ->
  lives rs p -> lives rs (update id f ms p).
Proof.
  intros Hf [Hk Ha Hl Ho Hb Hr]. split; unfold logged in *; cbn [update pr_requests pr_http pr_log] in *; try done.
  - intros i c. rewrite lookup_alter_Some. intros [(-> & c0 & Hc & ->)|[_ ?]]; [|auto]. destruct (Hf c0 Hc) as (-> & _). auto.
  - intros i Hi. destruct (Ha i Hi) as [c Hc]. destruct (decide (i = id)) as [->|].
    + rewrite lookup_alter_eq, Hc. simpl. eauto.
    + rewrite lookup_alter_ne by done. eauto.
  - intros i c. rewrite lookup_alter_Some. intros [(-> & c0 & Hc & ->)|[_ ?]]; [|auto]. destruct (Hf c0 Hc) as (_ & -> & _). auto.
  - intros i. rewrite Hb. destruct (decide (i = id)) as [->|]; [|by rewrite lookup_alter_ne]. by rewrite lookup_alter_eq, fmap_is_Some.
  - intros i c. rewrite lookup_alter_Some. intros [(-> & c0 & Hc & ->)|[_ ?]]; [|eauto]. destruct (Hf c0 Hc) as (_ & -> & Hre). eauto.
Qed.

Lemma lives_start rs id c now route status hs p :
  p.(pr_requests) !! id = Some c -> c.(cx_emitted) = false -> lives rs p -> lives rs (send_start limit show_id show_ms id c now route status hs p).
Proof.
  intros Hc He [Hk Ha Hl Ho Hb Hr]. specialize (Hk id c Hc) as Hid.
  split; unfold logged in *; cbn [send_start pr_requests pr_http pr_log record_of lr_request_id fmap list_fmap] in *; rewrite ?Hid.
  - intros i c'. rewrite lookup_insert_Some. intros [[<- <-]|[_ ?]]; [done|auto].
  - intros i [Hi _]%release_admitted. destruct (Ha i Hi) as [c' Hc']. destruct (decide (i = id)) as [->|]; [rewrite lookup_insert_eq; eauto|].
    rewrite lookup_insert_ne by done. eauto.
  - intros i c'. rewrite lookup_insert_Some, elem_of_cons. intros [[<- <-]|[Hne Hi]]; [by split; [|left]|]. rewrite (Hl i c' Hi).
    split; [intros [->|]; done|by right].
  - constructor; [|done]. intros Hin. apply (Hl id c Hc) in Hin. congruence.
  - intros i. rewrite Hb, elem_of_cons, lookup_insert_is_Some. destruct (decide (id = i)) as [<-|]; [|intuition congruence].
    split; [auto|]. intros _. right. eauto.
  - intros i c'. rewrite lookup_insert_Some. intros [[<- <-]|[_ ?]]; [done|eauto].
Qed.

Lemma lives_end rs id c now left_at route p :
  p.(pr_requests) !! id = Some c -> lives rs p -> lives rs (end_request limit id c now left_at route p).
Proof.
  intros Hc [Hk Ha Hl Ho Hb Hr]. specialize (Hk id c Hc) as Hid. specialize (Hl id c Hc) as Hlog.
  assert (NoDup (lr_request_id <$> (end_request limit id c now left_at route p).(pr_log))
    /\ forall i, logged i (end_request limit id c now left_at route p) <-> i = id \/ logged i p) as [Hnd Hin].
  { unfold logged, end_request. destruct (cx_emitted c) eqn:He; cbn [pr_log].
    - split; [done|]. intros i. split; [by right|]. intros [->|]; [by apply Hlog|done].
    - csimpl. rewrite Hid. split; [|intros i; by rewrite elem_of_cons]. constructor; [|done]. intros H. by apply Hlog in H. }
  assert (pr_requests (end_request limit id c now left_at route p) = delete id (pr_requests p)
    /\ pr_http (end_request limit id c now left_at route p) = finish left_at (cx_request c) (cx_reason c) (pr_http p)) as [Hreq Hhttp]
    by (unfold end_request; by destruct (cx_emitted c)).
  split; rewrite ?Hreq, ?Hhttp; try done.
  - intros i c'. rewrite lookup_delete_Some. intros [_ ?]; auto.
  - intros i. cbn [finish hs_admitted]. rewrite Hid. intros [Hi Hne]%release_admitted. rewrite lookup_delete_ne by done. auto.
  - intros i c'. rewrite lookup_delete_Some, Hin. intros [Hne Hi]. rewrite (Hl i c' Hi). split; [intros [->|]; done|by right].
  - intros i. rewrite Hb, Hin. destruct (decide (i = id)) as [->|]; [|rewrite lookup_delete_ne by done; intuition]. split; [by left; left|]. right. eauto.
  - intros i c'. rewrite lookup_delete_Some. intros [_ ?]; eauto.
Qed.

Lemma reports_begin rs r started now p : reports rs p -> reports (rs ++ [r]) (begin max limit r started now p).
Proof.
  intros [Hg Hd Ha Hl Hc Hs]. unfold begin, arrive. destruct (see_connection _ _ _ _) as [t0 [recreated first_seen]].
  assert (length (reservations (rs ++ [r])) = length (reservations rs) + if reservation r then 1 else 0)%nat as Hlen.
  { unfold reservations. rewrite filter_app, length_app. f_equal. rewrite filter_cons, filter_nil. by destruct (reservation r). }
  destruct (reservation r) eqn:Hres; [destruct (limit <=? _) eqn:Hlim|]; split; simpl; rewrite ?Hlen; try done.
  all: try (unfold gauge in *; simpl; done). all: rewrite <-Hd; lia.
Qed.

Lemma reports_update rs id f ms p :
  named "HOLD_INFLIGHT" ms = [] -> named "HOLD_ADMISSION" ms = [] -> named "HTTP_CONNECTION_AGE_SECONDS" ms = [] ->
  named "HTTP_CONNECTION_CLOSE_TOTAL" ms = [] -> reports rs p -> reports rs (update id f ms p).
Proof.
  intros H1 H2 H3 H4 [Hg Hd Ha Hl Hc Hs]. split; cbn [update pr_metrics pr_http pr_log pr_sent]; try done.
  - by rewrite gauge_quiet.
  - by rewrite named_app, H2.
  - by rewrite named_app, H3.
  - by rewrite named_app, H4.
Qed.

(** The metrics and the record of an ending, before the headers or without them. *)
Lemma reports_record rs id c extra route status duration p h requests sent :
  c.(cx_request).(ri_id) = id -> c.(cx_reason) <> Some server_send_error ->
  named "HOLD_INFLIGHT" extra = [] -> named "HOLD_ADMISSION" extra = [] -> named "HTTP_CONNECTION_AGE_SECONDS" extra = [] ->
  named "HTTP_CONNECTION_CLOSE_TOTAL" extra = [] -> h.(hs_inflight) = (release id p.(pr_http)).(hs_inflight) ->
  (forall i st hs, (i, (st, hs)) ∈ sent -> filter (fun x => x.1 = "x-request-id") hs = [("x-request-id", show_id i)]) ->
  reports rs p ->
  reports rs (Process h requests (record_of limit c route status duration :: p.(pr_log))
    (close_metrics c ++ extra ++ release_metrics id p.(pr_http) ++ p.(pr_metrics)) sent).
Proof.
  intros Hid Hre H1 H2 H3 H4 Hh Hsent [Hg Hd Ha Hl Hc Hs]. split; cbn [pr_metrics pr_http pr_log pr_sent]; try done.
  - rewrite !gauge_quiet by (done || by apply close_quiet). rewrite Hh. by apply release_gauge.
  - by rewrite !named_app, H2, close_quiet, release_quiet by done.
  - rewrite !named_app, H3, release_quiet, !length_app by done. simpl. rewrite Ha. f_equal.
    unfold close_metrics. by destruct (cx_reason c).
  - intros l [->|Hin]%elem_of_cons; [done|auto].
  - intros m. rewrite !named_app, H4, release_quiet by done. simpl. rewrite elem_of_app. intros [Hin|]; [|auto]. revert Hin.
    unfold close_metrics. destruct (cx_reason c) as [[]|]; [|done|]; simpl; rewrite ?list_elem_of_singleton; [by intros ->|by intros ?%not_elem_of_nil].
Qed.

Lemma reports_start rs id c now route status hs p :
  c.(cx_request).(ri_id) = id -> c.(cx_reason) <> Some server_send_error ->
  reports rs p -> reports rs (send_start limit show_id show_ms id c now route status hs p).
Proof.
  intros Hid Hre Hrep. apply (reports_record _ _ _ [_; _]); try done; [by unfold response_start; rewrite Hid|].
  intros i st hs' [[= -> -> ->]|Hin]%elem_of_cons; [|by eapply rp_sent]. by rewrite set_header_other, set_header_values.
Qed.

Lemma reports_end rs id c now left_at route p :
  c.(cx_request).(ri_id) = id -> (c.(cx_emitted) = false -> c.(cx_reason) <> Some server_send_error) ->
  reports rs p -> reports rs (end_request limit id c now left_at route p).
Proof.
  intros Hid Hre Hrep. unfold end_request. destruct (cx_emitted c) eqn:He.
  - destruct Hrep as [Hg Hd Ha Hl Hc Hs]. split; cbn [pr_metrics pr_http pr_log pr_sent]; try done.
    + cbn [finish hs_inflight]. rewrite Hid. by apply release_gauge.
    + by rewrite named_app, release_quiet.
    + by rewrite named_app, release_quiet.
    + by rewrite named_app, release_quiet.
  - apply (reports_record _ _ _ []); try done; [by auto|by cbn [finish hs_inflight]; rewrite Hid|]. by destruct Hrep.
Qed.

(** ** Steps and runs *)

(** An operation is at most one step of the admission's relation. *)
Lemma exec_simulated rs o p p' :
  lives rs p -> exec o p = Some p' -> p'.(pr_http) = p.(pr_http) \/ http_step max limit p.(pr_http) p'.(pr_http).
Proof.
  intros Hl. destruct o as [r started now|id d|id n|id now route st hs|id|id now left_at route]; simpl.
  - intros ([Hnew _] & _ & [= <-])%bind_Some. right.
    assert (pr_http (begin max limit r started now p) = (arrive max limit now r (pr_http p)).1) as ->.
    { unfold begin. destruct (see_connection _ _ _ _) as [? [? ?]]. by destruct (arrive _ _ _ _ _). }
    apply step_arrive. intros Hin. destruct (lv_admitted _ _ Hl _ Hin) as [c Hc]. congruence.
  - intros (c & _ & [= <-])%bind_Some. left. by destruct d.
  - intros (c & _ & [= <-])%bind_Some. by left.
  - intros (c & _ & (_ & _ & (_ & _ & [= <-])%bind_Some)%bind_Some)%bind_Some. right. apply step_headers.
  - intros (c & _ & (_ & _ & [= <-])%bind_Some)%bind_Some. by left.
  - intros (c & _ & (_ & _ & [= <-])%bind_Some)%bind_Some. right. unfold end_request. destruct (cx_emitted c); apply step_finish.
Qed.

Lemma exec_keeps rs o p p' :
  lives rs p -> reports rs p -> exec o p = Some p' -> lives (rs ++ omap begun [o]) p' /\ reports (rs ++ omap begun [o]) p'.
Proof.
  intros Hl Hr. destruct o as [r started now|id d|id n|id now route st hs|id|id now left_at route]; simpl; rewrite ?app_nil_r.
  - intros ([Hnew Hlog] & _ & [= <-])%bind_Some. split; [by apply lives_begin|by apply reports_begin].
  - intros (c & Hc & [= <-])%bind_Some. destruct d; [|done]. split; [apply lives_update; [|done]|by apply reports_update].
    intros c' _. split_and!; try done. intros _. simpl. by destruct (cx_reason c').
  - intros (c & Hc & [= <-])%bind_Some. split; [apply lives_update; [|done]; by intros c' _; destruct n|].
    by apply reports_update; [destruct n..|].
  - intros (c & Hc & (He & _ & (_ & _ & [= <-])%bind_Some)%bind_Some)%bind_Some. split; [by apply lives_start|].
    apply reports_start; [by eapply lv_key|by eapply lv_reason|done].
  - intros (c & Hc & (He & _ & [= <-])%bind_Some)%bind_Some. split; [apply lives_update; [|done]|by apply reports_update].
    intros c' Hc'. assert (c' = c) as -> by congruence. split_and!; try done. congruence.
  - intros (c & Hc & (_ & _ & [= <-])%bind_Some)%bind_Some. split; [by apply lives_end|].
    apply reports_end; [by eapply lv_key|by eapply lv_reason|done].
Qed.

Lemma run_facts ops p :
  run ops process_start = Some p -> lives (omap begun ops) p /\ reports (omap begun ops) p /\ http_reachable max limit p.(pr_http).
Proof.
  assert (forall ops rs p p', lives rs p -> reports rs p -> http_reachable max limit p.(pr_http) -> run ops p = Some p' ->
    lives (rs ++ omap begun ops) p' /\ reports (rs ++ omap begun ops) p' /\ http_reachable max limit p'.(pr_http)) as H.
  { clear. intros ops. induction ops as [|o ops IH]; intros rs p p' Hl Hr Hh; simpl; [intros [= <-]; by rewrite app_nil_r|].
    intros (p1 & He & Hrun)%bind_Some. destruct (exec_keeps _ _ _ _ Hl Hr He) as [Hl1 Hr1].
    assert (http_reachable max limit p1.(pr_http)) as Hh1.
    { destruct (exec_simulated _ _ _ _ Hl He) as [->|Hstep]; [done|]. by eapply rtc_r. }
    specialize (IH _ _ _ Hl1 Hr1 Hh1 Hrun). rewrite <-app_assoc in IH. simpl in IH. by destruct (begun o). }
  intros Hrun. apply (H ops [] process_start); [| |by constructor|done].
  - split; simpl; try done; [constructor|]. intros id. split; [by intros ?%not_elem_of_nil|]. by intros [?%not_elem_of_nil|[c Hc]].
  - split; simpl; try done; [by intros l ?%not_elem_of_nil|by intros m ?%not_elem_of_nil|by intros id st hs ?%not_elem_of_nil].
Qed.

(** A request has no response yet. *)
Definition unanswered (id : positive) (p : process) : Prop := exists c, p.(pr_requests) !! id = Some c /\ c.(cx_emitted) = false.

Lemma lives_pending rs p id : lives rs p -> id ∈ ri_id <$> rs -> ~ logged id p -> unanswered id p.
Proof.
  intros Hl Hb Hn. apply (lv_begun _ _ Hl) in Hb as [?|[c Hc]]; [done|]. exists c. split; [done|].
  destruct (cx_emitted c) eqn:He; [|done]. by destruct Hn; apply (lv_logged _ _ Hl _ _ Hc).
Qed.

(** C33: whatever requests an API process interleaves, its admission and its records are exact.  The in-flight counter is the
    number of admitted reservations and what the gauge shows, and never exceeds the limit; every
    reservation was counted once as admitted or rejected; the connection table holds at most its maximum
    of distinct connections; every request that was answered or has ended has exactly one log record, and one
    that has no response yet has none; every response carries the identifier of its request and no other. *)
Theorem request_accounting ops p :
  run ops process_start = Some p ->
  p.(pr_http).(hs_inflight) = Z.of_nat (size p.(pr_http).(hs_admitted)) /\ p.(pr_http).(hs_inflight) <= Z.max 0 limit
  /\ gauge "HOLD_INFLIGHT" p.(pr_metrics) = p.(pr_http).(hs_inflight)
  /\ length (named "HOLD_ADMISSION" p.(pr_metrics)) = length (reservations (omap begun ops))
  /\ (length p.(pr_http).(hs_connections) <= max)%nat /\ NoDup p.(pr_http).(hs_connections).*1
  /\ NoDup (lr_request_id <$> p.(pr_log))
  /\ (forall r, r ∈ omap begun ops -> logged r.(ri_id) p <-> ~ unanswered r.(ri_id) p)
  /\ (forall id st hs, (id, (st, hs)) ∈ p.(pr_sent) -> filter (fun h => h.1 = "x-request-id") hs = [("x-request-id", show_id id)]).
Proof.
  intros (Hl & Hr & [Hi1 Hi2 Hi3 Hi4]%http_reachable_inv)%run_facts. destruct Hr as [Hg Hd _ _ _ Hs]. split_and!; try done; [by destruct Hl|].
  intros r Hin. split.
  - intros Hlog (c & Hc & He). apply (lv_logged _ _ Hl _ _ Hc) in Hlog. congruence.
  - intros Hno. destruct (decide (r.(ri_id) ∈ lr_request_id <$> p.(pr_log))) as [|Hn]; [done|]. destruct Hno.
    eapply lives_pending; [done|by apply list_elem_of_fmap_2|done].
Qed.

(** When no request is in progress, the log has the requests that began, each once. *)
Lemma quiet_log ops p :
  run ops process_start = Some p -> p.(pr_requests) = ∅ -> NoDup (ri_id <$> omap begun ops) ->
  lr_request_id <$> p.(pr_log) ≡ₚ ri_id <$> omap begun ops.
Proof.
  intros (Hl & _ & _)%run_facts Hq Hnd. apply NoDup_Permutation; [by destruct Hl|done|]. intros id. rewrite (lv_begun _ _ Hl), Hq. split; [by left|].
  by intros [?|[c Hc]].
Qed.

(** The close counter and the [close_source] of the log never report a failed send: the reason is read before
    the headers are sent, and nothing reads it once they were. *)
Theorem send_error_never_counted ops p :
  run ops process_start = Some p ->
  (forall m, m ∈ p.(pr_metrics) -> m.(mt_name) = "HTTP_CONNECTION_CLOSE_TOTAL" -> m.(mt_labels) = ["client_disconnect"])
  /\ (forall l, l ∈ p.(pr_log) -> l.(lr_close_source) <> Some server_send_error).
Proof.
  intros (_ & Hr & _)%run_facts. split; [|by destruct Hr]. intros m Hm Hname. apply (rp_close _ _ Hr). apply list_elem_of_In, List.filter_In.
  split; [by apply list_elem_of_In|by rewrite Hname].
Qed.
End facts.

(** ** A run *)

(** Two holds under a limit of one, a read that fails while it is sent and one whose client leaves. *)
Definition demo_hold (id : positive) (port : string) : request_info := RequestInfo id "POST" "/v1/holds" port.
Definition demo_read (id : positive) (port : string) : request_info := RequestInfo id "GET" "/v1/events" port.
Definition demo_ops : list operation :=
  [Begin (demo_hold 1 "a") 0 1; Note 1 (NotePhase "dispatch" "ok" 5); Begin (demo_hold 2 "b") 2 2; SendStart 2 3 None 503 [("retry-after", "1")]; End 2 4 4 None;
   Begin (demo_read 3 "c") 5 5; SendStart 3 6 (Some "/v1/events") 200 [("x-request-id", "forged")]; SendFailed 3; End 3 7 7 (Some "/v1/events");
   Begin (demo_read 4 "d") 8 8; Receive 4 true; End 4 9 9 None; SendStart 1 10 (Some "/v1/holds") 201 []].
Definition demo_show (id : positive) : string := pretty (Zpos id).
Definition demo_process : process := default process_start (run 4 1 demo_show pretty demo_ops process_start).

Lemma request_accounting_witness :
  demo_process.(pr_http).(hs_inflight) = 0 /\ gauge "HOLD_INFLIGHT" demo_process.(pr_metrics) = 0
  /\ lr_request_id <$> demo_process.(pr_log) = [1; 4; 3; 2]%positive /\ logged 4 demo_process
  /\ filter (fun h => h.1 = "x-request-id") [("x-request-id", "3"); ("server-timing", "app;dur=1")] = [("x-request-id", "3")].
Proof.
  destruct (request_accounting 4 1 demo_show pretty demo_ops demo_process) as (_ & _ & Hg & _ & _ & _ & _ & Hlog & Hsent); [by vm_compute|].
  split_and!; [by vm_compute|rewrite Hg; by vm_compute|by vm_compute| |].
  - apply (Hlog (demo_read 4 "d")); [vm_compute; by do 3 right; left|]. intros (c & Hc & _). by vm_compute in Hc.
  - apply (Hsent 3%positive 200). vm_compute. right. left.
Defined.
