(* ===== verification/Api.v ===== *)
(** * The HTTP API

    [src/ticketing/api.py]: the handlers over the use cases, the mapping of exceptions to responses,
    token authentication and the signed payment webhook.  [jwt.decode], HMAC-SHA256, the JSON codec of
    a callback and psycopg's classification of SQLSTATEs are parameters. *)

From S2P Require Import Prelude Domain Schema World Observability Postgres Sql Reservations Config.
From S2P Require Import Cache Browse Intake Service.

(** ** Responses *)

(** What a handler returns before serialisation. *)
Inductive body : Type :=
| BodyResponse (r : response)
| BodyOrder (o : order_row) (tickets : list (uuid * string))
| BodyHold (h : hold_row)
| BodyStatus (s : string)
| BodyEvents (l : list (uuid * event_row))
| BodySeatmap (d : seatmap_doc)
| BodyEncoded (s : string)
| BodyEmpty.

Inductive http_response : Type :=
| Success (status : Z) (b : body) (headers : list (string * string))
| ErrorResponse (status : Z) (code : string) (retry_after : bool).

(** [business_error] *)
Definition business_error (code : string) (status : Z) : http_response :=
  ErrorResponse status code (bool_decide (status = 429 \/ status = 503)).

(** Seats changed since a version. *)
Definition changed_since (since : Z) (d : seatmap_doc) : seatmap_doc :=
  SeatmapDoc d.(sd_event_id) d.(sd_version) (filter (fun s => since < s.(cs_version)) d.(sd_seats)).

Section api.
Context `{E : Env} (settings : Settings).
(** [isinstance(exc, psycopg.OperationalError)] by SQLSTATE. *)
Context (operational : string -> bool).

(** [unavailable_error]: the fixed label of the failure. *)
Definition unavailable_cause (e : exn) : string :=
  match e with
  | PoolTimeout => "PoolTimeout"
  | TooManyRequests => "TooManyRequests"
  | DbError state => if bool_decide (state = "57014") then "QueryCanceled" else "OperationalError"
  | _ => "OperationalError"
  end.

(** The exception handlers, most specific class first; anything else is an internal error. *)
Definition handle_exception (e : exn) : http_response :=
  match e with
  | Failure code status => business_error code status
  | DbError state =>
      if bool_decide (state = "55P03") || bool_decide (state = "40P01") then business_error "RESOURCE_BUSY" 409
      else if bool_decide (state = "57014") || operational state then business_error "DATABASE_UNAVAILABLE" 503
      else ErrorResponse 500 "Internal Server Error" false
  | PoolTimeout | TooManyRequests | OperationalError => business_error "DATABASE_UNAVAILABLE" 503
  | RedisError | PyError _ _ => ErrorResponse 500 "Internal Server Error" false
  end.

(** The metrics the handlers update. *)
Definition record_exception (e : exn) : W unit :=
  match handle_exception e with
  | ErrorResponse 500 _ _ => mret tt
  | ErrorResponse _ code _ =>
      _ ← (if bool_decide (code = "DATABASE_UNAVAILABLE") then inc "DB_UNAVAILABLE" [unavailable_cause e] else mret tt);
      inc "OUTCOMES" ["request"; code]
  | Success _ _ _ => mret tt
  end.

(** A request: the handler's response, or that of the exception it raised. *)
Definition respond (handler : W http_response) : W http_response :=
  try_except handler (fun e => _ ← record_exception e; mret (handle_exception e)).

(** ** Authentication *)

(** What [jwt.decode] verified: the subject claim when it is a string, or why it failed. *)
Inductive token : Type := BadToken | NoStringSubject | Subject (s : string).
Context (jwt_decode : string -> string -> token).

Definition actor (credentials : string) : outcome string :=
  match jwt_decode settings.(jwt_secret) credentials with
  | Subject s => if (1 <=? Z.of_nat (String.length s)) && (Z.of_nat (String.length s) <=? 128) then Ok s
                 else Raise (Failure "UNAUTHENTICATED" 401)
  | _ => Raise (Failure "UNAUTHENTICATED" 401)
  end.

Definition authenticated {A} (credentials : string) (k : string -> W A) : W A :=
  match actor credentials with
  | Ok who => k who
  | Raise e => raise e
  end.

(** ** Input models *)

Definition INVALID_REQUEST : exn := Failure "INVALID_REQUEST" 422.

Definition valid_key (key : string) : bool :=
  (1 <=? Z.of_nat (String.length key)) && (Z.of_nat (String.length key) <=? 128).
Definition valid_hold_input (seat_ids : list string) : bool :=
  (1 <=? Z.of_nat (length seat_ids)) && (Z.of_nat (length seat_ids) <=? 8).
Definition valid_payment_input (delay_seconds duplicates : Z) : bool :=
  (0 <=? delay_seconds) && (delay_seconds <=? 600) && (1 <=? duplicates) && (duplicates <=? 10).
Definition valid_callback (p : callback_payload) : bool :=
  (0 <=? p.(cb_amount)) && (Z.of_nat (String.length p.(cb_currency)) =? 3).

(** ** Reservation handlers *)

Context `{S : ReservationStore}.

Definition persistence_of (r : response) : option persistence :=
  match r with RHold d => d.(hd_persistence) | _ => None end.

(** [POST /v1/holds] *)
Definition hold (credentials : string) (event_id : uuid) (seat_ids : list string) (key : string) : W http_response :=
  authenticated credentials (fun who =>
    _ ← raise_if (negb (valid_hold_input seat_ids && valid_key key)) INVALID_REQUEST;
    _ ← observe_hold_phase "dispatch" "ok";
    _ ← hold_phase "rate_limit" (rate_limit who);
    result ← app_reserve who event_id seat_ids key;
    mret (Success (if bool_decide (persistence_of result = Some PS_PENDING) then 202 else 201) (BodyResponse result) [])).

(** [GET /v1/reservation-commands/{event_id}/{command_id}] *)
Definition reservation_command (credentials : string) (event_id command_id : uuid) : W http_response :=
  authenticated credentials (fun who =>
    d ← status event_id command_id (Some who);
    mret (Success 200 (BodyResponse (RHold d)) [])).

Definition get_hold_handler (credentials : string) (hold_id : uuid) : W http_response :=
  authenticated credentials (fun who => h ← app_get_hold who hold_id; mret (Success 200 (BodyHold h) [])).

Definition release_handler (credentials : string) (hold_id : uuid) : W http_response :=
  authenticated credentials (fun who => s ← app_release who hold_id; mret (Success 200 (BodyStatus s) [])).

Definition checkout_handler (credentials : string) (hold_id : uuid) (key : string) : W http_response :=
  authenticated credentials (fun who =>
    _ ← raise_if (negb (valid_key key)) INVALID_REQUEST;
    r ← app_checkout who hold_id key; mret (Success 201 (BodyResponse r) [])).

Definition get_order_handler (credentials : string) (order_id : uuid) : W http_response :=
  authenticated credentials (fun who =>
    r ← app_get_order who order_id; mret (Success 200 (BodyOrder r.1 r.2) [])).

(** [POST /v1/orders/{order_id}/payments] *)
Definition payment (credentials : string) (order_id : uuid) (out : pay_outcome) (delay_seconds duplicates : Z)
    (key : string) : W http_response :=
  authenticated credentials (fun who =>
    _ ← raise_if (negb (valid_payment_input delay_seconds duplicates && valid_key key)) INVALID_REQUEST;
    _ ← raise_if (bool_decide (settings.(environment) <> "development")) (Failure "SIMULATOR_DISABLED" 403);
    r ← app_initiate_payment who order_id key out delay_seconds duplicates;
    mret (Success 202 (BodyResponse r) [])).

(** ** Browse and operations handlers *)

Definition live : W http_response := mret (Success 200 (BodyStatus "alive") []).

Definition ready : W http_response :=
  _ ← Postgres.transaction (mret tt);
  _ ← try_except (redis_eval (fun _ r => (r, tt))) (fun _ => raise (Failure "ADMISSION_UNAVAILABLE" 503));
  mret (Success 200 (BodyStatus "ready") []).

Definition events_handler : W http_response :=
  l ← Postgres.transaction (sql (fun d => take 100 (order_by (fun ke => ke.2.(ev_sale_starts)) (map_to_list d.(events)))));
  mret (Success 200 (BodyEvents l) []).

Definition seats_handler (event_id : uuid) : W http_response :=
  d ← read settings.(seatmap_ttl_seconds) event_id; mret (Success 200 (BodySeatmap d) []).

(** [GET /v1/events/{event_id}/seat-deltas] *)
Definition deltas (event_id : uuid) (since : Z) : W http_response :=
  snap ← read settings.(seatmap_ttl_seconds) event_id;
  _ ← raise_if ((since <? 0) || (snap.(sd_version) <? since)) (Failure "INVALID_VERSION" 422);
  mret (Success 200 (BodySeatmap (changed_since since snap)) []).

Context (entries limit : Z) (encode : browse_body -> string) (render_tag : etag -> string).

(** [browse_response] *)
Definition browse_response (event_id : uuid) (kind : browse_kind) (tags : list validator)
    : M (world * body_cache) http_response :=
  r ← browse_encoded settings.(seatmap_ttl_seconds) entries limit encode event_id kind tags;
  let '(code, tag, encoded) := r in
  let headers := [("ETag", "W/" +:+ render_tag tag);
                  ("Cache-Control", match kind with
                                    | LAYOUT => "public, max-age=3600, must-revalidate"
                                    | AVAILABILITY => "private, no-cache"
                                    end)] in
  mret (if (code : Z) =? 304 then Success 304 BodyEmpty headers
        else Success 200 (match encoded with Some s => BodyEncoded s | None => BodyEmpty end) headers).

(** ** The payment webhook *)

Context (hmac : string -> string -> string) (render_int : Z -> string).
Context (parse_callback : string -> option callback_payload).

(** The bytes that are signed: the timestamp, a dot and the raw body. *)
Definition signed_text (timestamp : Z) (raw : string) : string := render_int timestamp +:+ "." +:+ raw.

Definition signature_of (timestamp : Z) (raw : string) : string :=
  hmac settings.(webhook_secret) (signed_text timestamp raw).

(** Seconds between now and the signed timestamp, compared in microseconds. *)
Definition signature_fresh (now timestamp : Z) : bool := negb (seconds 300 <? Z.abs (now - seconds timestamp)).

Definition webhook (raw signature : string) (timestamp : Z) : W http_response :=
  payload ← or_raise (match parse_callback raw with
                      | Some p => if valid_callback p then Some p else None
                      | None => None
                      end) INVALID_REQUEST;
  _ ← raise_if (16384 <? Z.of_nat (String.length raw)) (Failure "PAYLOAD_TOO_LARGE" 413);
  now ← clock_timestamp;
  _ ← raise_if (negb (signature_fresh now timestamp) || bool_decide (signature <> signature_of timestamp raw))
        (Failure "INVALID_SIGNATURE" 401);
  s ← app_callback payload;
  mret (Success 200 (BodyStatus s) []).

(** The simulator's request: it signs the JSON text with the current second. *)
Context (dump_callback : callback_payload -> string).

Definition post_callback (payload : callback_payload) : W unit :=
  let raw := dump_callback payload in
  now ← clock_timestamp;
  let timestamp := now / us_per_second in
  answer ← respond (webhook raw (signature_of timestamp raw) timestamp);
  match answer with
  | Success _ _ _ => mret tt
  | ErrorResponse _ code _ => raise (PyError "HTTPError" code)
  end.
End api.
