(* ===== verification/Cli.v ===== *)
(** * The command line and the worker process

    [src/ticketing/cli.py] (token, migrate, seed, replay) and the role dispatch of [main] in
    [src/ticketing/workers.py].  Executing a migration's SQL text and signing a token are parameters;
    sleeping and signal handling are not modelled. *)

From S2P Require Import Prelude Domain Schema World Observability Postgres Sql Reservations Config.
From S2P Require Import Cache Intake Fulfilment Workers Reconcile Service.

Definition DEMO_EVENT : uuid := 1%positive.

(** Decimal digits of [i], zero-padded to three: [f"{i:03}"] for [i <= 999]. *)
Definition digit (n : Z) : Ascii.ascii := Ascii.ascii_of_N (48 + Z.to_N n)%N.
Definition pad3 (i : Z) : string :=
  String (digit (i / 100)) (String (digit (i / 10 mod 10)) (String (digit (i mod 10)) EmptyString)).
Definition demo_seat (i : Z) : string := "A" +:+ pad3 i.

Section cli.
Context `{E : Env} (settings : Settings) (encode_layout : layout_doc -> string).

(** ** token *)

Record claims : Type := Claims { cl_sub : string; cl_iss : string; cl_aud : string; cl_iat : Z; cl_exp : Z }.
Context (jwt_encode : claims -> string -> string).

Definition token_command (subject : string) : W string :=
  _ ← raise_if (bool_decide (settings.(environment) <> "development")) (RuntimeError "Local token issuer is development only");
  now ← clock_timestamp;
  mret (jwt_encode (Claims subject "ticketing" "ticketing" now (now + seconds 7200)) settings.(jwt_secret)).

(** ** migrate *)

(** Running the text of a migration. *)
Context (execute : string -> W unit).

Definition apply_migration (name text : string) : W unit :=
  let checksum := e_sha256 text in
  previous ← sql (fun d => d.(schema_migrations) !! name);
  match previous with
  | Some c => raise_if (bool_decide (c <> checksum)) (RuntimeError ("Migration changed: " +:+ name))
  | None =>
      _ ← execute text;
      update_db (set_schema_migrations <[name := checksum]>)
  end.

(** [with psycopg.connect(..) as conn]: one transaction on a connection of its own, committed when the
    block ends and rolled back when it raises; connecting and committing may fail. *)
Definition psycopg_connect {A} (block : W A) : W A :=
  _ ← Postgres.begin;
  d0 ← the_db;
  a ← try_except block (fun e => _ ← update_db (fun _ => d0); raise e);
  _ ← commit d0;
  mret a.

(** [paths] are the migration files sorted by name. *)
Definition migrate (paths : list (string * string)) : W unit :=
  psycopg_connect (
    _ ← raise_if (bool_decide (paths = [])) (RuntimeError "Run migrations from the repository root");
    for_each paths (fun nt => apply_migration nt.1 nt.2)).

(** ** seed *)

(** [INSERT .. ON CONFLICT DO NOTHING] of the demo event and its seats. *)
Definition seed_tx : W unit :=
  now ← clock_timestamp;
  now2 ← clock_timestamp;
  let show := EventRow "Bangkok Demo Concert" "THB" (now - seconds 86400) (now2 + seconds (365 * 86400)) in
  _ ← require (show.(ev_sale_starts) <? show.(ev_sale_ends)) CheckViolation;
  d ← the_db;
  _ ← (if has d.(events) DEMO_EVENT then mret tt else update_db (set_events <[DEMO_EVENT := show]>));
  for_each (seqZ 1 100) (fun i =>
    d ← the_db;
    if has d.(event_seats) (DEMO_EVENT, demo_seat i) then mret tt
    else update_db (set_event_seats <[(DEMO_EVENT, demo_seat i) := SeatRow 250000 None None None 0]>)).

Definition seed : W unit :=
  _ ← raise_if (bool_decide (settings.(environment) <> "development")) (RuntimeError "Demo seed is development only");
  _ ← transaction seed_tx;
  snapshot 30 encode_layout DEMO_EVENT.

(** ** replay *)

Context (decode : string -> outcome envelope).

Definition replay (id : uuid) : W unit :=
  row ← transaction (sql (fun d => d.(dead_letters) !! id));
  letter ← or_raise row (RuntimeError "Dead letter not found");
  env ← match decode letter.(dl_raw) with Ok env => mret env | Raise e => raise e end;
  _ ← consume_event env;
  transaction (update_db (set_dead_letters (delete id))).

(** ** The worker loop *)

Inductive role : Type :=
| Publisher | Consumer | ReservationWriter | Maintenance | Refresh | Expiry | Reconciler | Simulator.

#[global] Instance role_eq_dec : EqDecision role.
Proof. solve_decision. Defined.

Context (send : nat -> option exn) (ack : nat -> fault) (scan_pages : nat -> list (list uuid)).
Context (post : callback_payload -> W unit).

(** The reconciler's turn: the schedule is maintained at most once a second; [next_warm] is the
    instant from which it is due again. *)
Definition reconciler_turn (fuel : nat) (next_warm : Z) : W (Z * bool) :=
  now ← monotonic;
  warm ← (if next_warm <=? now then
            _ ← try_except (_ ← maintain_schedule settings; mret tt)
                  (fun _ => inc "RECONCILE_FAILURES" ["schedule"]);
            t ← monotonic; mret (t + seconds 1)
          else mret next_warm);
  start ← monotonic;
  n ← reconcile_pass settings encode_layout fuel (start + milliseconds settings.(reconcile_budget_ms));
  mret (warm, match n with Some k => 0 <? k | None => true end).

(** One turn of the roles other than the consumer and the reconciler. *)
Definition role_turn (r : role) (consumer : string) : W bool :=
  let ttl := settings.(seatmap_ttl_seconds) in
  match r with
  | Publisher => publish_batch send ack (Z.to_nat settings.(publisher_batch_size))
  | ReservationWriter =>
      persist_reservation_batch ttl encode_layout scan_pages consumer (Z.to_nat settings.(publisher_batch_size))
  | Simulator => simulate_batch post (Z.to_nat settings.(simulator_concurrency))
  | Maintenance =>
      n ← refresh_batch ttl encode_layout (Z.to_nat settings.(refresh_batch_size)) settings.(refresh_cooldown_ms);
      m ← worker_expire_batch settings.(expiry_batch_size);
      mret ((0 <? m) || (0 <? n))
  | Refresh =>
      n ← refresh_batch ttl encode_layout (Z.to_nat settings.(refresh_batch_size)) settings.(refresh_cooldown_ms);
      mret (0 <? n)
  | Expiry => m ← worker_expire_batch settings.(expiry_batch_size); mret (0 <? m)
  | Consumer | Reconciler => mret false
  end.

Definition role_name (r : role) : string :=
  match r with
  | Publisher => "publisher" | Consumer => "consumer" | ReservationWriter => "reservation-writer"
  | Maintenance => "maintenance" | Refresh => "refresh" | Expiry => "expiry" | Reconciler => "reconciler"
  | Simulator => "simulator"
  end.

(** The loop's [try]: an exception is counted and the loop goes on. *)
Definition guarded {A} (r : role) (default : A) (turn : W A) : W A :=
  try_except turn (fun _ => _ ← inc "WORKER_ERRORS" [role_name r]; mret default).

Definition worker_iteration (r : role) (consumer : string) : W bool := guarded r false (role_turn r consumer).

(** Whether the process starts at all. *)
Definition startup (r : role) : outcome unit :=
  match validate settings with
  | Raise e => Raise e
  | Ok _ => if bool_decide (r = Simulator) && bool_decide (settings.(environment) <> "development")
            then Raise (RuntimeError "Simulator is development only") else Ok tt
  end.
End cli.
