(* ===== verification/Fixtures.v ===== *)
(** * Capacity fixtures

    [scripts/prepare_capacity_fixture.py]: a development fixture of new events with free seats, copied into
    the database in one transaction and warmed in the cache.  The text of a UUID is the parameter
    [uuid_text] and the environment of the process [getenv]; writing the result file is its last step. *)

From stdpp Require Import pretty.
From S2P Require Import Prelude Domain Schema World Observability Postgres Sql Reservations Config.
From S2P Require Import Cache Workers Cli.

#[local] Open Scope Z_scope.

Record fixture_args : Type := FixtureArgs {
  fa_output_exists : bool;
  fa_shows : Z;
  fa_seats : Z;
  fa_sale_hours : Z;
}.

(** The result written to [--output], its [show_ids] before they are rendered. *)
Record fixture : Type := Fixture {
  fx_id : uuid;
  fx_created_at : Z;
  fx_sale_ends : Z;
  fx_shows : Z;
  fx_seats_per_show : Z;
  fx_show_ids : list uuid;
}.

(** [f"S{seat}"] *)
Definition seat_name (seat : Z) : string := "S" +:+ pretty seat.

(** [a or b] on environment variables: unset and empty are false. *)
Definition env_or (a b : option string) : option string :=
  match a with
  | Some s => if bool_decide (s = "") then b else Some s
  | None => b
  end.
Definition env_missing (a : option string) : bool :=
  match a with Some s => bool_decide (s = "") | None => true end.

Section fixtures.
Context `{E : Env} (settings : Settings) (encode_layout : layout_doc -> string).
Context (uuid_text : uuid -> string) (getenv : string -> option string).

Definition validate (a : fixture_args) : W unit :=
  _ ← raise_if (bool_decide (settings.(environment) <> "development")) (RuntimeError "Capacity fixtures are development-only");
  _ ← raise_if a.(fa_output_exists) (PyError "ValueError" "Use a fresh output path");
  _ ← raise_if (negb ((1 <=? a.(fa_shows)) && (a.(fa_shows) <=? 2000))) (PyError "ValueError" "Shows must be between 1 and 2000");
  _ ← raise_if (negb ((1 <=? a.(fa_seats)) && (a.(fa_seats) <=? 1000))) (PyError "ValueError" "Seats must be between 1 and 1000");
  raise_if (negb ((1 <=? a.(fa_sale_hours)) && (a.(fa_sale_hours) <=? 24))) (PyError "ValueError" "Sale hours must be between 1 and 24").

(** [[uuid4() for _ in range(n)]] *)
Fixpoint uuid4s (n : nat) : W (list uuid) :=
  match n with
  | O => mret []
  | S n' => u ← uuid4; l ← uuid4s n'; mret (u :: l)
  end.

(** One row of [COPY events(id,title,currency,sale_starts,sale_ends) FROM STDIN]. *)
Definition copy_event (kr : uuid * event_row) : W unit :=
  d ← the_db;
  _ ← require ((Z.of_nat (String.length kr.2.(ev_currency)) =? 3) && (kr.2.(ev_sale_starts) <? kr.2.(ev_sale_ends))) CheckViolation;
  _ ← require (negb (has d.(events) kr.1)) UniqueViolation;
  update_db (set_events <[kr.1 := kr.2]>).

(** One row of [COPY event_seats(event_id,seat_id,price) FROM STDIN]; the other columns take their defaults. *)
Definition copy_seat (kp : (uuid * string) * Z) : W unit :=
  d ← the_db;
  _ ← require (0 <=? kp.2) CheckViolation;
  _ ← require (negb (has d.(event_seats) kp.1)) UniqueViolation;
  _ ← require (has d.(events) kp.1.1) ForeignKeyViolation;
  update_db (set_event_seats <[kp.1 := SeatRow kp.2 None None None 0]>).

Definition event_rows (fixture_id : uuid) (starts ends : Z) (ids : list uuid) : list (uuid * event_row) :=
  imap (fun index ev =>
    (ev, EventRow ("Capacity fixture " +:+ uuid_text fixture_id +:+ " show " +:+ pretty (Z.of_nat index)) "THB" starts ends)) ids.

Definition seat_keys (seats : Z) (ids : list uuid) : list ((uuid * string) * Z) :=
  ids ≫= (fun ev => (fun seat => ((ev, seat_name seat), 100)) <$> seqZ 0 seats).

Definition copy_all (fixture_id : uuid) (starts ends seats : Z) (ids : list uuid) : W unit :=
  _ ← for_each (event_rows fixture_id starts ends ids) copy_event;
  for_each (seat_keys seats ids) copy_seat.

Definition prepare (a : fixture_args) : W fixture :=
  _ ← validate a;
  let database_url := env_or (getenv "TEST_DATABASE_URL") (getenv "STAGE_DATABASE_URL") in
  let redis_url := env_or (getenv "TEST_REDIS_URL") (getenv "REDIS_URL") in
  _ ← raise_if (env_missing database_url || env_missing redis_url)
        (RuntimeError "TEST_DATABASE_URL/STAGE_DATABASE_URL and TEST_REDIS_URL/REDIS_URL are required");
  fixture_id ← uuid4;
  event_ids ← uuid4s (Z.to_nat a.(fa_shows));
  now1 ← clock_timestamp;
  now2 ← clock_timestamp;
  let sale_starts := now1 - seconds 300 in
  let sale_ends := now2 + seconds (3600 * a.(fa_sale_hours)) in
  _ ← psycopg_connect (copy_all fixture_id sale_starts sale_ends a.(fa_seats) event_ids);
  _ ← for_each event_ids (snapshot 30 encode_layout);
  created_at ← clock_timestamp;
  mret (Fixture fixture_id created_at sale_ends a.(fa_shows) a.(fa_seats) event_ids).
End fixtures.
