(* ===== verification/System.v ===== *)
(** * The whole system

    Every process of the deployment as one step relation on the shared stores: API use cases over
    either store, the fulfilment consumer, the other workers, the reconciler and the command line.
    Each step runs under an environment of its own, so draws, clocks, lock conflicts and faults vary
    freely from step to step.  A step is a whole call or turn, or one transaction of a worker with
    arbitrary arguments, so the transactions of different workers interleave in any order.  Transactions
    are serialised: one that commits by its row locks, one that meets a lock raises. *)

From S2P Require Import Prelude Domain Schema World Observability Postgres Sql Reservations Config.
From S2P Require Import Cache Browse Intake Fulfilment Workers Reconcile Service Api Cli Fixtures.
From S2P Require Import Invariant InvReserve InvPayment InvCallback InvFulfil InvWorkers.

(** A catalogue: events and seats on sale, and no commerce yet. *)
Record initial (d : db) : Prop := Initial {
  init_seats : forall k r, d.(event_seats) !! k = Some r ->
    r.(s_hold_id) = None /\ r.(s_reserved_until) = None /\ r.(s_booked_order_id) = None;
  init_empty : d.(holds) = ∅ /\ d.(orders) = ∅ /\ d.(order_items) = ∅ /\ d.(bookings) = ∅ /\
    d.(idempotency_records) = ∅ /\ d.(payment_attempts) = ∅ /\ d.(refund_requests) = ∅ /\ d.(tickets) = ∅;
}.

Lemma initial_inv d : initial d -> inv d.
Proof.
  intros [Hs (H1 & H2 & H3 & H4 & H5 & H6 & H7 & H8)]. split; [split|].
  - split; rewrite ?H1, ?H2, ?H3, ?H4; try by setoid_rewrite lookup_empty.
    + intros k r Hk. destruct (Hs _ _ Hk) as (? & ? & ?). destruct r; simpl in *; subst. done.
    + intros k r h Hk Hh. destruct (Hs _ _ Hk) as (? & _). congruence.
    + intros k r o Hk Ho. destruct (Hs _ _ Hk) as (_ & _ & ?). congruence.
  - split; rewrite ?H2, ?H6, ?H7; by setoid_rewrite lookup_empty.
  - intros o r. rewrite H2. by rewrite lookup_empty.
  - split; rewrite ?H2, ?H4, ?H8; by setoid_rewrite lookup_empty.
  - intros k r. rewrite H5. by rewrite lookup_empty.
Qed.

Lemma record_exception_keeps operational P e : keeps P (record_exception operational e).
Proof.
  unfold record_exception. repeat case_match; try apply keeps_ret;
    (apply keeps_bind; [|intros; apply keeps_obs]); first [apply keeps_obs|apply keeps_ret].
Qed.

(** What a deployment fixes: configuration, codecs and the answers of outside services. *)
Record deployment : Type := Deployment {
  dp_settings : Settings;
  dp_intake : intake_config;
  dp_encode_layout : layout_doc -> string;
  dp_decode : string -> outcome envelope;
  dp_decode_replace : string -> string;
  dp_operational : string -> bool;
  dp_hmac : string -> string -> string;
  dp_render_int : Z -> string;
  dp_parse_callback : string -> option callback_payload;
  dp_dump_callback : callback_payload -> string;
  dp_wait_acks : nat -> Z;
  dp_scan_pages : nat -> list (list uuid);
  dp_send : nat -> option exn;
  dp_ack : nat -> fault;
}.

Section system.
Context (dp : deployment).

(** The store the API uses, by [reservation_mode]. *)
Definition api_store `{E : Env} : ReservationStore :=
  let durable := PostgresReservations dp.(dp_settings).(hold_seconds) in
  if bool_decide (dp.(dp_settings).(reservation_mode) = "redis-first")
  then RedisFirstReservations durable dp.(dp_intake) dp.(dp_wait_acks)
  else durable.

(** The simulator's request to the webhook of the API. *)
Definition post `{E : Env} : callback_payload -> W unit :=
  post_callback (S := api_store) dp.(dp_settings) dp.(dp_operational) dp.(dp_hmac) dp.(dp_render_int)
    dp.(dp_parse_callback) dp.(dp_dump_callback).

(** The transactions a worker's turn is made of, with whatever arguments: a worker may stop between two
    of them, and the transactions of other workers may come between. *)
Inductive worker_tx : Type :=
| TxClaimOutbox (token : uuid) (limit : nat)
| TxMarkPublished (token : uuid) (confirmed : list uuid)
| TxClaimRefreshes (token : uuid) (limit : nat)
| TxCompleteRefreshes (token : uuid) (claimed_at cooldown_ms : Z) (rows : list (uuid * refresh_row))
| TxClaimPayment (token : uuid)
| TxDelivered (token payment : uuid)
| TxPersist (payload : command_payload) (doc : hold_doc)
| TxMaintain
| TxClaimEvents
| TxComplete (event token : uuid)
| TxDefer (event token : uuid)
| TxGiveBack (token : uuid) (rest : list uuid)
| TxDeadLetter (raw : string).

Definition run_worker_tx `{E : Env} (t : worker_tx) : W unit :=
  match t with
  | TxClaimOutbox token limit => _ ← transaction (claim_outbox token limit); mret tt
  | TxMarkPublished token confirmed => mark_published token confirmed
  | TxClaimRefreshes token limit => _ ← transaction (claim_refreshes token limit); mret tt
  | TxCompleteRefreshes token at_ cooldown rows => transaction (for_each rows (complete_refresh token at_ cooldown))
  | TxClaimPayment token => _ ← transaction (claim_payment token); mret tt
  | TxDelivered token p =>
      transaction (update_db (set_payment_attempts (update_where
        (fun k r => bool_decide (k = p) && bool_decide (r.(p_lease_token) = Some token)) payment_delivered)))
  | TxPersist p doc => _ ← persist_reservation_command p doc; mret tt
  | TxMaintain => _ ← maintain_schedule dp.(dp_settings); mret tt
  | TxClaimEvents => _ ← claim_due_events dp.(dp_settings); mret tt
  | TxComplete ev token => _ ← complete_reconciliation dp.(dp_settings) ev token; mret tt
  | TxDefer ev token => defer_reconciliation dp.(dp_settings) ev token
  | TxGiveBack token rest => give_back token rest
  | TxDeadLetter raw => write_dead_letter raw
  end.

Inductive system_step (w : world) : world -> Prop :=
| sys_use `{E : Env} u : system_step w (run_use_case (S := api_store) u w).1
| sys_consume `{E : Env} raw offset pos :
    FreshFor w.(w_db) -> system_step w (attempts dp.(dp_decode) dp.(dp_decode_replace) 5 raw offset (w, pos)).1.1
| sys_event `{E : Env} env : FreshFor w.(w_db) -> system_step w (consume_event env w).1
| sys_tx `{E : Env} t : system_step w (run_worker_tx t w).1
| sys_worker `{E : Env} r consumer :
    system_step w (worker_iteration dp.(dp_settings) dp.(dp_encode_layout) dp.(dp_send) dp.(dp_ack)
                     dp.(dp_scan_pages) post r consumer w).1
| sys_reconcile `{E : Env} fuel warm :
    system_step w (reconciler_turn dp.(dp_settings) dp.(dp_encode_layout) fuel warm w).1
| sys_seed `{E : Env} : system_step w (seed dp.(dp_settings) dp.(dp_encode_layout) w).1
| sys_replay `{E : Env} id : FreshFor w.(w_db) -> system_step w (replay dp.(dp_decode) id w).1
| sys_fixture `{E : Env} uuid_text getenv a :
    system_step w (prepare dp.(dp_settings) dp.(dp_encode_layout) uuid_text getenv a w).1.

(** Worlds the deployment reaches from a catalogue. *)
Definition reachable (w : world) : Prop := exists w0, initial w0.(w_db) /\ rtc system_step w0 w.

(** ** Every step keeps the invariant *)

Section steps.
Context `{E : Env}.

Lemma api_store_lawful : LawfulStore api_store.
Proof. unfold api_store. case_bool_decide; [apply redis_first_lawful|]; apply postgres_lawful. Qed.

Lemma post_keeps p : keeps inv (post p).
Proof.
  pose proof api_store_lawful as HL. unfold post, post_callback.
  apply keeps_bind; [apply keeps_clock|intros now]. apply keeps_bind.
  - apply keeps_try; [|intros e; apply keeps_bind; [apply record_exception_keeps|intros; apply keeps_ret]].
    unfold webhook. apply keeps_bind; [apply keeps_or_raise|intros]. apply keeps_bind; [apply keeps_raise_if|intros].
    apply keeps_bind; [apply keeps_clock|intros]. apply keeps_bind; [apply keeps_raise_if|intros].
    apply keeps_bind; [apply law_callback|intros; apply keeps_ret].
  - intros []; [apply keeps_ret|apply keeps_raise].
Qed.

Lemma worker_iteration_keeps r consumer :
  keeps inv (worker_iteration dp.(dp_settings) dp.(dp_encode_layout) dp.(dp_send) dp.(dp_ack)
               dp.(dp_scan_pages) post r consumer).
Proof.
  apply keeps_try; [|intros; apply keeps_bind; [apply keeps_obs|intros; apply keeps_ret]]. destruct r; simpl.
  - apply publish_batch_keeps.
  - apply keeps_ret.
  - apply persist_reservation_batch_keeps.
  - apply keeps_bind; [apply refresh_batch_keeps|intros]. apply keeps_bind; [apply worker_expire_batch_keeps|intros; apply keeps_ret].
  - apply keeps_bind; [apply refresh_batch_keeps|intros; apply keeps_ret].
  - apply keeps_bind; [apply worker_expire_batch_keeps|intros; apply keeps_ret].
  - apply keeps_ret.
  - apply simulate_batch_keeps. apply post_keeps.
Qed.

Lemma reconciler_turn_keeps fuel warm : keeps inv (reconciler_turn dp.(dp_settings) dp.(dp_encode_layout) fuel warm).
Proof.
  unfold reconciler_turn. apply keeps_bind; [apply keeps_monotonic|intros]. apply keeps_bind.
  - destruct (_ <=? _); [|apply keeps_ret]. apply keeps_bind.
    + apply keeps_try; [|intros; apply keeps_obs].
      apply keeps_bind; [apply maintain_schedule_keeps|intros; apply keeps_ret].
    + intros. apply keeps_bind; [apply keeps_monotonic|intros; apply keeps_ret].
  - intros. apply keeps_bind; [apply keeps_monotonic|intros].
    apply keeps_bind; [apply reconcile_pass_keeps|intros; apply keeps_ret].
Qed.

(** One transaction of a worker keeps the invariant, whatever its arguments. *)
Lemma worker_tx_keeps t : keeps inv (run_worker_tx t).
Proof.
  destruct t; simpl; repeat (apply keeps_bind; [|intros; apply keeps_ret]).
  - apply keeps_transaction. intros. by apply claim_outbox_inv.
  - outside_tx.
  - apply keeps_transaction. intros. by apply claim_refreshes_inv.
  - apply keeps_transaction. intros w Hw. apply (wp_for_each (fun w' => inv w'.(w_db))); [|done].
    intros x w' _ Hw'. unfold complete_refresh. wp_sql. inv_elsewhere.
  - apply keeps_transaction. intros. by apply claim_payment_inv.
  - apply keeps_transaction. intros w Hw. wp_sql. by apply inv_payment_fields.
  - apply keeps_bind; [apply keeps_raise_if|intros _]. apply keeps_transaction. intros. by apply persist_tx_inv.
  - apply maintain_schedule_keeps.
  - apply claim_due_events_keeps.
  - outside_tx.
  - outside_tx.
  - outside_tx.
  - outside_tx.
Qed.

(** A new, free seat disturbs nothing. *)
Lemma inv_new_seat k r d :
  d.(event_seats) !! k = None -> r.(s_hold_id) = None -> r.(s_reserved_until) = None -> r.(s_booked_order_id) = None ->
  inv d -> inv (set_event_seats <[k := r]> d).
Proof.
  intros Hn Hh Hu Hb [[[H1 H2 H3 H4 H5 H6 H7 H8 H9] Hp Ht Htk] Hi].
  assert (forall k' r', d.(event_seats) !! k' = Some r' -> <[k := r]> d.(event_seats) !! k' = Some r') as Hold.
  { intros k' r' Hk. rewrite lookup_insert_ne; [done|]. intros ->. congruence. }
  split; [|done]. split; [|by destruct Hp; split|done|by destruct Htk; split]. split; simpl; [done|done| | | | | |done|].
  - intros k' r' [[<- <-]|[_ Hk]]%lookup_insert_Some; [|eauto]. destruct r; simpl in *; subst. done.
  - intros k' r' h [[<- <-]|[_ Hk]]%lookup_insert_Some; [congruence|eauto].
  - intros o s it Hi'. destruct (H5 _ _ _ Hi') as (orow & q & ? & ? & ? & ?). exists orow, q. auto.
  - intros k' r' o [[<- <-]|[_ Hk]]%lookup_insert_Some; [congruence|eauto].
  - intros b br Hbr. destruct (H7 _ _ Hbr) as (q & ? & ?). exists q. auto.
  - intros o orow s it Ho Hbk Hit. destruct (H9 _ _ _ _ Ho Hbk Hit) as (q & ? & ?). exists q. auto.
Qed.

Lemma seed_keeps : keeps inv (seed dp.(dp_settings) dp.(dp_encode_layout)).
Proof.
  unfold seed. apply keeps_bind; [apply keeps_raise_if|intros _]. apply keeps_bind; [|intros; apply snapshot_keeps].
  apply keeps_transaction. intros w Hw. unfold seed_tx.
  apply wp_bind, wp_clock, wp_bind, wp_clock. cbv zeta. apply wp_bind, wp_require. intros _. apply wp_bind, wp_the_db, wp_bind.
  eapply (wp_mono _ (fun _ w' => inv w'.(w_db))).
  { destruct (has _ _); wp_sql; [done|]. by apply (inv_outside w.(w_db)). }
  intros [] w1 Hw1. apply (wp_for_each (fun w' => inv w'.(w_db))); [|done].
  intros i w2 _ Hw2. apply wp_bind, wp_the_db. destruct (has _ (DEMO_EVENT, demo_seat i)) eqn:Hhas; [by apply wp_ret|].
  apply has_false in Hhas. wp_sql. by apply inv_new_seat.
Qed.

(** A block under [psycopg.connect] keeps what it keeps when it ends normally. *)
Lemma keeps_connect {A} P (block : W A) :
  (forall w, P w.(w_db) -> wp block (fun _ w' => P w'.(w_db)) w) -> keeps P (psycopg_connect block).
Proof.
  intros Hb w Hw. unfold psycopg_connect, Postgres.begin, commit, the_db, sql, try_except, draw, mbind, M_bind. simpl.
  destruct (e_begin w.(w_tick)); [done|]. simpl. set (w1 := next_tick w).
  pose proof (Hb w1 Hw) as Hblock. unfold wp, wpx in Hblock. destruct (block w1) as [w2 [a|e]]; [|done].
  simpl. by destruct (e_commit w2.(w_tick)).
Qed.

Lemma keeps_uuid4s P n : keeps P (uuid4s n).
Proof.
  induction n as [|n IH]; simpl; [apply keeps_ret|]. apply keeps_bind; [apply keeps_uuid4|intros]. apply keeps_bind; [done|intros; apply keeps_ret].
Qed.

(** A fixture is made of a copy and snapshots. *)
Lemma prepare_keeps_copy P uuid_text getenv a :
  (forall id starts ends seats ids, keeps P (psycopg_connect (copy_all uuid_text id starts ends seats ids))) ->
  (forall ev, keeps P (snapshot 30 dp.(dp_encode_layout) ev)) ->
  keeps P (prepare dp.(dp_settings) dp.(dp_encode_layout) uuid_text getenv a).
Proof.
  intros Hc Hs. unfold prepare, validate.
  repeat first [apply keeps_raise_if|apply keeps_uuid4|apply keeps_uuid4s|apply keeps_clock|apply Hc|apply keeps_for_each; apply Hs
               |apply keeps_ret|apply keeps_bind; [|intros ?]].
Qed.

Lemma prepare_keeps uuid_text getenv a : keeps inv (prepare dp.(dp_settings) dp.(dp_encode_layout) uuid_text getenv a).
Proof.
  apply prepare_keeps_copy; [|intros; apply snapshot_keeps]. intros. apply keeps_connect. intros w Hw. unfold copy_all.
  apply wp_bind. eapply wp_mono; [apply (wp_for_each (fun w' => inv w'.(w_db))); [|done]|].
  - intros kr w1 _ Hw1. unfold copy_event. wp_sql. by apply (inv_outside w1.(w_db)).
  - intros [] w2 Hw2. apply (wp_for_each (fun w' => inv w'.(w_db))); [|done].
    intros kp w3 _ Hw3. unfold copy_seat. apply wp_bind, wp_the_db. do 3 (apply wp_bind, wp_require; intros ?). wp_sql.
    bool_hyps. by apply inv_new_seat; [apply has_false| ..].
Qed.

Lemma replay_inv id w : FreshFor w.(w_db) -> inv w.(w_db) -> inv (replay dp.(dp_decode) id w).1.(w_db).
Proof.
  intros Hf Hinv. unfold replay, mbind, M_bind.
  assert ((transaction (sql (fun d => d.(dead_letters) !! id)) w).1.(w_db) = w.(w_db)) as Hread.
  { apply (transaction_preserves (fun d => d = w.(w_db))); [done|]. intros. by wp_sql. }
  destruct (transaction (sql _) w) as [w1 [row|e]]; simpl in Hread; [|simpl; by rewrite Hread].
  destruct row as [letter|]; simpl; [|by rewrite Hread].
  destruct (dp_decode dp (dl_raw letter)) as [env|e]; simpl; [|by rewrite Hread].
  assert (inv_or_seen env.(en_event_id) w1.(w_db)) as Hs by (rewrite Hread; split; auto).
  pose proof (consume_event_keeps env w1 Hs) as [Hi _].
  destruct (consume_event env w1) as [w2 [[]|e]]; simpl in *; [|done].
  apply (keeps_transaction inv); [|done]. intros w3 Hw3. wp_sql. by apply (inv_outside w3.(w_db)).
Qed.
End steps.

Lemma system_step_inv w w' : system_step w w' -> inv w.(w_db) -> inv w'.(w_db).
Proof.
  intros [E u|E raw offset pos Hf|E env Hf|E t|E r consumer|E fuel warm|E|E id Hf|E ut ge a] Hinv.
  - pose proof api_store_lawful. by apply use_case_keeps.
  - apply attempts_inv; [done|by left].
  - apply (consume_event_keeps env w). split; [done|by left].
  - by apply worker_tx_keeps.
  - by apply worker_iteration_keeps.
  - by apply reconciler_turn_keeps.
  - by apply seed_keeps.
  - by apply replay_inv.
  - by apply prepare_keeps.
Qed.

Lemma steps_inv w w' : rtc system_step w w' -> inv w.(w_db) -> inv w'.(w_db).
Proof. induction 1 as [|w1 w2 w3 Hstep _ IH]; [done|]. intros Hinv. by eapply IH, system_step_inv. Qed.

Lemma reachable_invariant w : reachable w -> inv w.(w_db).
Proof. intros (w0 & Hinit%initial_inv & Hsteps). by eapply steps_inv. Qed.
End system.
