(* ===== verification/Keeping.v ===== *)
(** * Properties kept by every statement

    Rules and a tactic for [keeps P m] when [P] survives each statement of [m] on its own, inside and
    outside transactions; a component adds the rules of the statements that touch its tables. *)

From S2P Require Import Prelude Domain Schema World Observability Postgres Sql Reservations Config.
From S2P Require Import Cache Intake Service Fulfilment Workers Api InvFulfil InvWorkers System.

Section keeping.
Context `{E : Env}.

Lemma keeps_update P (f : db -> db) : (forall d, P d -> P (f d)) -> keeps P (update_db f).
Proof. intros Hf w Hw. by apply Hf. Qed.

Lemma keeps_lock P rows : keeps P (lock_nowait rows).
Proof. apply keeps_draw. intros i. apply keeps_raise_if. Qed.

Lemma keeps_skip {A} P lock (rows : list A) : keeps P (skip_locked lock rows).
Proof. apply keeps_draw. intros i. apply keeps_ret. Qed.

Lemma keeps_gets {A} P (f : world -> A) : keeps P (gets f).
Proof. by intros w. Qed.

Lemma keeps_the_db {A} P (f : db -> W A) : (forall w, P w.(w_db) -> P (f w.(w_db) w).1.(w_db)) -> keeps P (the_db ≫= f).
Proof. intros Hf w Hw. by apply Hf. Qed.

Lemma keeps_wp {A} P (m : W A) w : keeps P m -> P w.(w_db) -> wp m (fun _ w' => P w'.(w_db)) w.
Proof. intros Hm Hw. specialize (Hm w Hw). unfold wp, wpx. by destruct (m w) as [w' []]. Qed.

(** A transaction keeps what its body keeps. *)
Lemma keeps_tx {A} P (body : W A) : keeps P body -> keeps P (transaction body).
Proof. intros Hb. apply keeps_transaction. intros. by apply keeps_wp. Qed.

(** Two properties at once. *)
Lemma keeps_and {A} P Q (m : W A) : keeps P m -> keeps Q m -> keeps (fun d => P d /\ Q d) m.
Proof. intros HP HQ w [? ?]. split; [by apply HP|by apply HQ]. Qed.

(** ** Stores *)

(** Every operation of a store keeps [P]. *)
Class StoreKeeps (P : db -> Prop) (S : ReservationStore) : Prop := {
  keep_reserve : forall a ev seats k, keeps P (store_reserve a ev seats k);
  keep_checkout : forall a h k, keeps P (store_checkout a h k);
  keep_get_order : forall a o, keeps P (store_get_order a o);
  keep_get_hold : forall a h, keeps P (store_get_hold a h);
  keep_release : forall a h, keeps P (store_release a h);
  keep_expire_batch : forall limit, keeps P (store_expire_batch limit);
  keep_expire_one : keeps P store_expire_one;
  keep_payment : forall a o k out delay dups, keeps P (store_initiate_payment a o k out delay dups);
  keep_callback : forall payload, keeps P (store_callback payload);
}.

(** The intake answers a reservation from Redis and leaves the rest to the durable store. *)
Lemma redis_first_keep P (durable : ReservationStore) cfg wait :
  StoreKeeps P durable -> StoreKeeps P (RedisFirstReservations durable cfg wait).
Proof.
  intros [H1 H2 H3 H4 H5 H6 H7 H8 H9]. split; simpl; try done.
  intros. apply keeps_bind; [apply enqueue_keeps|intros; apply keeps_ret].
Qed.

Lemma api_store_keep P dp : StoreKeeps P (PostgresReservations dp.(dp_settings).(hold_seconds)) -> StoreKeeps P (api_store dp).
Proof. intros HS. unfold api_store. case_bool_decide; [by apply redis_first_keep|done]. Qed.

Lemma use_case_keep P (S : ReservationStore) u : StoreKeeps P S -> keeps P (run_use_case u).
Proof.
  intros HS. destruct u; simpl; (apply keeps_bind; [|intros; apply keeps_ret]);
    unfold app_reserve, app_initiate_payment; repeat (apply keeps_bind; [apply keeps_raise_if|intros _]); apply HS.
Qed.

(** The simulator's request reaches the database through the store only. *)
Lemma post_keep P dp p : StoreKeeps P (PostgresReservations dp.(dp_settings).(hold_seconds)) -> keeps P (post dp p).
Proof.
  intros HS%api_store_keep. unfold post, post_callback, webhook.
  repeat first [apply record_exception_keeps|apply keeps_bind; [|intros ?]|apply keeps_ret|apply keeps_clock|apply keeps_or_raise
               |apply keeps_raise_if|apply keeps_raise|apply keeps_try; [|intros ?]|apply HS
               |match goal with |- keeps _ (match ?x with _ => _ end) => destruct x end].
Qed.

(** The consumer's attempts on a message keep what one attempt and the dead letter keep. *)
Lemma attempts_keep P decode replace n raw offset w pos :
  keeps P (attempt_message decode raw) -> keeps P (write_dead_letter (replace raw)) ->
  P w.(w_db) -> P (attempts decode replace n raw offset (w, pos)).1.1.(w_db).
Proof.
  intros Hm Hd. revert w pos. induction n as [|n IH]; intros w pos Hw; [done|]. cbn [attempts]. unfold try_except at 1, lift at 1. simpl.
  specialize (Hm w Hw). destruct (attempt_message decode raw w) as [w1 [[]|e]]; [done|]. simpl in *.
  destruct n as [|n]; [|by apply IH]. unfold mbind, M_bind, try_except, lift. simpl.
  specialize (Hd w1 Hm). by destruct (write_dead_letter _ w1) as [w2 [[]|e2]].
Qed.
End keeping.

(** One syntactic step on [keeps P m]; [leaf] knows the statements that matter to [P]. *)
Ltac keeping_step leaf :=
  first [leaf|lazymatch goal with
  | |- keeps _ (the_db ≫= _) => apply keeps_bind; [apply keeps_sql|intros ?]
  | |- keeps _ (draw ≫= _) => apply keeps_draw; intros ?
  | |- keeps _ (_ ≫= _) => apply keeps_bind; [|intros ?]
  | |- keeps _ (mret _) => apply keeps_ret
  | |- keeps _ (raise _) => apply keeps_raise
  | |- keeps _ (raise_if _ _) => apply keeps_raise_if
  | |- keeps _ (require _ _) => apply keeps_raise_if
  | |- keeps _ (or_raise _ _) => apply keeps_or_raise
  | |- keeps _ (sql _) => apply keeps_sql
  | |- keeps _ (gets _) => apply keeps_gets
  | |- keeps _ uuid4 => apply keeps_uuid4
  | |- keeps _ clock_timestamp => apply keeps_clock
  | |- keeps _ monotonic => apply keeps_monotonic
  | |- keeps _ (lock_nowait _) => apply keeps_lock
  | |- keeps _ (skip_locked _ _) => apply keeps_skip
  | |- keeps _ (inc _ _) => apply keeps_obs
  | |- keeps _ (observe _ _) => apply keeps_obs
  | |- keeps _ (modify (add_obs _)) => apply keeps_obs
  | |- keeps _ (modify (set_kafka _)) => apply keeps_kafka
  | |- keeps _ (redis_eval _) => apply keeps_redis_eval
  | |- keeps _ (redis_call _) => apply keeps_redis
  | |- keeps _ (try_except _ _) => apply keeps_try; [|intros ?]
  | |- keeps _ (for_each _ _) => apply keeps_for_each; intros ?
  | |- keeps _ (measured_work _ _) => apply keeps_measured
  | |- keeps _ (hold_phase _ _) => apply keeps_hold_phase
  | |- keeps _ (put _ _ _ _ _) => apply put_keeps
  | |- keeps _ (patch _ _) => apply patch_keeps
  | |- keeps _ (match ?x with _ => _ end) => destruct x
  | |- keeps _ (let _ := _ in _) => cbv zeta
  | |- keeps _ _ => assumption
  end].
