(* ===== verification/Calm.v ===== *)
(** * Operations that succeed

    Total correctness: an environment in which nothing is locked and no service fails, and the
    conditions under which [reserve] then returns. *)

From S2P Require Import Prelude Domain Schema World Observability Postgres Sql Reservations.
From S2P Require Import Invariant InvReserve InvPayment InvCallback Fulfilment InvFulfil Cache Intake Service.

(** No lock conflict, no pool timeout, no failed statement, commit or Redis call. *)
Class Calm (E : Env) : Prop := {
  calm_busy : forall i l, e_busy i l = false;
  calm_pool : forall i, e_pool i = None;
  calm_begin : forall i, e_begin i = None;
  calm_commit : forall i, e_commit i = NoFault;
  calm_rollback : forall i, e_rollback i = None;
  calm_putconn : forall i, e_putconn i = None;
  calm_redis : forall i, e_redis i = NoFault;
}.

(** [m] returns from [w], and [Q] holds then. *)
Definition returns {A} (m : W A) (Q : A -> world -> Prop) (w : world) : Prop := wpx m Q (fun _ _ => False) w.

Lemma returns_run {A} (m : W A) Q w : returns m Q w -> exists a w', m w = (w', Ok a) /\ Q a w'.
Proof. unfold returns, wpx. destruct (m w) as [w' [a|e]]; [eauto|done]. Qed.

Lemma returns_bind {A B} (m : W A) (f : A -> W B) Q w :
  returns m (fun a => returns (f a) Q) w -> returns (m ≫= f) Q w.
Proof. apply wpx_bind. Qed.

Lemma returns_mono {A} (m : W A) (Q Q' : A -> world -> Prop) w :
  returns m Q w -> (forall a w', Q a w' -> Q' a w') -> returns m Q' w.
Proof. intros H HQ. eapply wpx_mono; eauto. Qed.

Lemma returns_raise_if b e (Q : unit -> world -> Prop) w : b = false -> Q tt w -> returns (raise_if b e) Q w.
Proof. by intros ->. Qed.

Lemma returns_require b e (Q : unit -> world -> Prop) w : b = true -> Q tt w -> returns (require b e) Q w.
Proof. by intros ->. Qed.

Lemma returns_or_raise {A} (o : option A) a e (Q : A -> world -> Prop) w : o = Some a -> Q a w -> returns (or_raise o e) Q w.
Proof. by intros ->. Qed.

Lemma returns_clock `{E : Env} (Q : Z -> world -> Prop) w : Q (e_clock w.(w_tick)) (next_tick w) -> returns clock_timestamp Q w.
Proof. done. Qed.

Lemma returns_uuid4 `{E : Env} (Q : uuid -> world -> Prop) w : Q (e_rng w.(w_tick)) (next_tick w) -> returns uuid4 Q w.
Proof. done. Qed.

(** A loop, its invariant indexed by what is left to do. *)
Lemma returns_for_each {X} (P : list X -> world -> Prop) (l : list X) (f : X -> W unit) w :
  (forall x rest w0, P (x :: rest) w0 -> returns (f x) (fun _ => P rest) w0) ->
  P l w -> returns (for_each l f) (fun _ => P []) w.
Proof.
  intros Hf. revert w. induction l as [|x l IH]; intros w Hw; [done|].
  apply returns_bind. eapply returns_mono; [by apply Hf|]. intros [] w1. apply IH.
Qed.

(** ** Statements that meet no constraint *)

Section inserts.
Context `{E : Env}.
Implicit Types (Q : unit -> world -> Prop) (w : world).

Lemma returns_insert_hold id r Q w :
  w.(w_db).(holds) !! id = None -> is_Some (w.(w_db).(events) !! r.(h_event_id)) ->
  Q tt (set_db (set_holds <[id := r]>) w) -> returns (insert_hold id r) Q w.
Proof.
  intros Hn%has_false He%has_true HQ. unfold insert_hold. apply returns_bind. cbn.
  apply returns_bind, returns_require; [by rewrite Hn|]. by apply returns_bind, returns_require.
Qed.

Lemma returns_insert_order id r Q w :
  0 <= r.(o_total) -> w.(w_db).(orders) !! id = None ->
  (forall o row, w.(w_db).(orders) !! o = Some row -> row.(o_hold_id) <> r.(o_hold_id)) ->
  is_Some (w.(w_db).(holds) !! r.(o_hold_id)) -> is_Some (w.(w_db).(events) !! r.(o_event_id)) ->
  Q tt (set_db (set_orders <[id := r]>) w) -> returns (insert_order id r) Q w.
Proof.
  intros Ht Hn%has_false Hu Hh%has_true He%has_true HQ. unfold insert_order. apply returns_bind. cbn.
  apply returns_bind, returns_require; [by apply Z.leb_le|]. apply returns_bind, returns_require; [by rewrite Hn|].
  apply returns_bind, returns_require.
  { apply none_with_true. intros o row Ho. apply bool_decide_eq_false_2. by eapply Hu. }
  apply returns_bind, returns_require; [by rewrite Hh, He|done].
Qed.

Lemma returns_insert_item o s r Q w :
  w.(w_db).(order_items) !! (o, s) = None -> is_Some (w.(w_db).(orders) !! o) ->
  is_Some (w.(w_db).(event_seats) !! (r.(i_event_id), s)) ->
  Q tt (set_db (set_order_items <[(o, s) := r]>) w) -> returns (insert_order_item o s r) Q w.
Proof.
  intros Hn%has_false Ho%has_true Hs%has_true HQ. unfold insert_order_item. apply returns_bind. cbn.
  apply returns_bind, returns_require; [by rewrite Hn|]. apply returns_bind, returns_require; [by rewrite Ho, Hs|done].
Qed.

Lemma returns_update_seats P f Q w :
  (forall k r, w.(w_db).(event_seats) !! k = Some r -> P k r = true -> seat_row_ok (f r) = true) ->
  Q tt (set_db (set_event_seats (update_where P f)) w) -> returns (update_seats P f) Q w.
Proof.
  intros Hok HQ. unfold update_seats. apply returns_bind. cbn. apply returns_bind, returns_require; [|done].
  by apply bool_decide_eq_true_2.
Qed.

Lemma returns_event agg body Q w :
  w.(w_db).(outbox_events) !! e_rng w.(w_tick) = None ->
  (forall w', Q tt w') -> returns (event agg body) Q w.
Proof.
  intros Hn%has_false HQ. unfold event. do 4 (apply returns_bind; cbn).
  unfold insert_outbox. do 3 (apply returns_bind; cbn). apply returns_require; [by rewrite Hn|]. apply HQ.
Qed.
End inserts.

Section calm.
Context `{E : Env} `{!Calm E}.

Lemma returns_lock rows (Q : unit -> world -> Prop) w : Q tt (next_tick w) -> returns (lock_nowait rows) Q w.
Proof.
  intros HQ. unfold lock_nowait. apply returns_bind. apply returns_raise_if; [|done].
  induction rows as [|l rows IH]; simpl; [done|]. by rewrite calm_busy.
Qed.

(** A context manager entered, run and left without an exception. *)
Lemma within_run {R A} (r : resource R) (body : R -> W A) w w0 w1 w2 x a b :
  res_enter r w = (w0, Ok x) -> body x w0 = (w1, Ok a) -> res_exit r x None w1 = (w2, Ok b) ->
  within r body w = (w2, Ok a).
Proof.
  intros Hen Hb Hex. unfold within, with_resource. rewrite (bind_ok _ _ _ _ _ Hen), Hb. by rewrite (bind_ok _ _ _ _ _ Hex).
Qed.

Lemma hold_phase_ok {A} ph (m : W A) w w' a :
  m w = (w', Ok a) -> exists w2, hold_phase ph m w = (w2, Ok a) /\ w2.(w_db) = w'.(w_db).
Proof. intros Hm. unfold hold_phase. rewrite Hm. by eexists. Qed.

(** ** Transactions commit *)

Lemma acquire_calm w : exists w', acquire_connection w = (w', Ok tt).
Proof.
  unfold acquire_connection, try_except, getconn, draw, inc, modify, mbind, M_bind. cbn.
  rewrite calm_pool. cbn. by eexists.
Qed.

Lemma tx_enter_calm w : exists w', tx_enter w = (w', Ok w.(w_db)) /\ same_stores w w'.
Proof.
  destruct (tx_enter_run w) as (w' & Hs & [Hrun|[e Hrun]]); [by exists w'|].
  exfalso. revert Hrun. unfold tx_enter, try_except, begin, draw, mbind, M_bind.
  destruct (acquire_calm w) as [w1 ->]. by rewrite calm_begin.
Qed.

Lemma calm_unbroken e : ~ broken e.
Proof. intros (i & [He|He]); [by rewrite calm_rollback in He|by rewrite calm_putconn in He]. Qed.

Lemma return_connection_calm w : exists w', return_connection w = (w', Ok tt).
Proof.
  destruct (silent_return_connection w) as [_ Hq]. destruct (return_connection w) as [w1 [[]|e]]; [by exists w1|].
  by destruct (calm_unbroken e); apply Hq.
Qed.

Lemma measured_commit_calm d0 w : exists w', measured_commit d0 w = (w', Ok tt).
Proof.
  unfold measured_commit, commit, record_slow_db_phase, try_except, monotonic, draw, mbind, M_bind. simpl.
  rewrite calm_commit. simpl. destruct (_ <=? _); by eexists.
Qed.

Lemma tx_exit_calm d0 w : exists w', tx_exit d0 None w = (w', Ok false) /\ same_stores w w'.
Proof.
  destruct (tx_exit_ok d0 w) as (w' & Hr & Hk & Hi & [[Hrun Hd]|(e & Hrun & _)]); [by exists w'|].
  exfalso. revert Hrun. unfold tx_exit, try_except, observe, modify, mbind, M_bind.
  destruct (measured_commit_calm d0 (add_obs (Obs "DB_TRANSACTION_BODY_SECONDS" [] 1) w)) as [w1 ->].
  by destruct (return_connection_calm (add_obs (Obs "DB_SECONDS" [] 1) w1)) as [w2 ->].
Qed.

(** A timed transaction returns what its body returns. *)
Lemma returns_timed_tx {A} ph (body : W A) (Q : A -> world -> Prop) w :
  (forall w0, same_stores w w0 -> returns body (fun a w1 => forall w', same_stores w1 w' -> Q a w') w0) ->
  returns (within (TimedHoldResource ph tx_resource) (fun _ => body)) Q w.
Proof.
  intros Hb. unfold returns, wpx, within, with_resource, TimedHoldResource, mbind, M_bind. simpl. unfold hold_phase.
  destruct (tx_enter_calm w) as (w0 & -> & Hs0). simpl.
  match goal with |- context [body ?w1] => assert (same_stores w w1) as Hs by (destruct Hs0; by split) end.
  apply Hb in Hs. apply returns_run in Hs as (a & w2 & -> & HQ).
  destruct (tx_exit_calm w.(w_db) w2) as (w3 & Hx & Hs3). unfold tx_exit in Hx. rewrite Hx. simpl. apply HQ. destruct Hs3; by split.
Qed.

(** ** reserve returns *)

Context (hold_seconds : Z) (actor : string) (ev : uuid) (ids : list string) (key : string).

(** The seats are on sale and free, no other call is in flight for them, the key is new, and the
    identifiers drawn are new. *)
Record reservable (w : world) : Prop := Reservable {
  rs_inv : inv w.(w_db);
  rs_key : w.(w_db).(idempotency_records) !! (actor, "hold", key) = None;
  rs_count : NoDup ids /\ (1 <= length ids <= 8)%nat;
  rs_sale : exists sale, w.(w_db).(events) !! ev = Some sale /\
    forall i, sale.(ev_sale_starts) <= e_clock i < sale.(ev_sale_ends);
  rs_free : forall s, s ∈ ids -> exists q, w.(w_db).(event_seats) !! (ev, s) = Some q /\ 0 <= q.(s_price) /\
    forall i, free_at (e_clock i) q;
  rs_shield : forall s, s ∈ ids -> w.(w_redis).(r_shields) !! (ev, s) = None;
  rs_fresh : forall i, w.(w_db).(holds) !! e_rng i = None /\ w.(w_db).(orders) !! e_rng i = None /\
    w.(w_db).(outbox_events) !! e_rng i = None;
}.

Section run.
Context (w : world) (Hw : reservable w).
Let seats := sorted_seats (set_of ids).

Lemma seats_requested s : s ∈ seats <-> s ∈ ids.
Proof. unfold seats. rewrite elem_of_sorted_seats. apply elem_of_remove_dups. Qed.

Lemma seats_length : length seats = length ids.
Proof. unfold seats. rewrite sorted_seats_length, set_of_NoDup; [done|apply Hw]. Qed.

(** The rows selected are those of the requested seats, all free. *)
Lemma rows_complete d : d.(event_seats) = w.(w_db).(event_seats) -> length (select_seats ev seats d) = length seats.
Proof.
  intros Hd. unfold select_seats. rewrite (set_of_NoDup seats).
  2:{ apply sorted_seats_NoDup. rewrite set_of_NoDup; apply Hw. }
  replace (sorted_seats seats) with seats by (unfold seats; by rewrite sorted_seats_idem).
  assert (forall s, s ∈ seats -> is_Some (event_seats d !! (ev, s))) as Hall.
  { intros s Hs%seats_requested. destruct (rs_free _ Hw s Hs) as (q & Hq & _). rewrite Hd. eauto. }
  clear -Hall. revert Hall. generalize seats. intros l. induction l as [|s l IH]; intros Hall; [done|].
  csimpl. destruct (Hall s) as [q ->]; [apply list_elem_of_here|]. csimpl. f_equal. apply IH.
  intros s' Hs'. apply Hall. by apply list_elem_of_further.
Qed.

Lemma rows_free d sr i : d.(event_seats) = w.(w_db).(event_seats) -> sr ∈ select_seats ev seats d ->
  seat_taken (e_clock i) sr.2 = false /\ 0 <= sr.2.(s_price).
Proof.
  destruct sr as [s q]. intros Hd [Hs%seats_requested Hq]%elem_of_select_seats. rewrite Hd in Hq.
  destruct (rs_free _ Hw s Hs) as (q' & Hq' & Hpr & Hf). simplify_eq/=. rewrite seat_taken_false. auto.
Qed.

Lemma total_nonneg rows : (forall sr, sr ∈ rows -> 0 <= sr.2.(s_price)) -> 0 <= total_price rows.
Proof.
  induction rows as [|sr rows IH]; simpl; intros Hp; [done|].
  pose proof (Hp sr (list_elem_of_here _ _)). assert (0 <= total_price rows); [|lia].
  apply IH. intros x Hx. apply Hp. by apply list_elem_of_further.
Qed.

(** The items of a new order are new. *)
Lemma items_absent d order s : inv_core d -> d.(orders) !! order = None -> d.(order_items) !! (order, s) = None.
Proof.
  intros Hc Ho. apply eq_None_not_Some. intros [it Hit].
  destruct (ic_item _ Hc _ _ _ Hit) as (orow & _ & Ho' & _). congruence.
Qed.

(** What the loop over the rows relies on. *)
Definition items_left (order : uuid) (rest : list (string * seat_row)) (w1 : world) : Prop :=
  NoDup rest.*1 /\ (forall sr, sr ∈ rest -> w1.(w_db).(order_items) !! (order, sr.1) = None) /\
  is_Some (w1.(w_db).(orders) !! order) /\
  (forall sr, sr ∈ rest -> is_Some (w1.(w_db).(event_seats) !! (ev, sr.1))) /\
  w1.(w_db).(outbox_events) = w.(w_db).(outbox_events).

(** The inserts of a grant meet no constraint. *)
Lemma grant_returns hold order expires total currency rows w0 :
  w0.(w_db).(events) = w.(w_db).(events) -> w0.(w_db).(holds) = w.(w_db).(holds) ->
  w0.(w_db).(orders) = w.(w_db).(orders) -> w0.(w_db).(event_seats) = w.(w_db).(event_seats) ->
  w0.(w_db).(order_items) = w.(w_db).(order_items) -> w0.(w_db).(outbox_events) = w.(w_db).(outbox_events) ->
  w.(w_db).(holds) !! hold = None -> w.(w_db).(orders) !! order = None ->
  rows = select_seats ev seats w.(w_db) -> 0 <= total ->
  returns (grant actor ev hold order expires total currency seats rows) (fun _ _ => True) w0.
Proof.
  intros He Hh Ho Hs Hi Hob Hhold Horder Hrows Htot. destruct (rs_sale _ Hw) as (sale & Hsale & _).
  pose proof (inv_c _ (inv_com _ (rs_inv _ Hw))) as Hc.
  unfold grant. apply returns_bind, returns_insert_hold; simpl; [by rewrite Hh|by rewrite He, Hsale|].
  apply returns_bind, returns_insert_order; simpl; [done|by rewrite Ho| |by rewrite lookup_insert_eq|by rewrite He, Hsale|].
  { intros o row Hrow Heq. rewrite Ho in Hrow. destruct (ic_order_hold _ Hc _ _ Hrow) as (hr & Hhr & _). congruence. }
  apply returns_bind, returns_update_seats; simpl.
  { intros [ev' s] q Hq Hin. rewrite Hs in Hq. bool_hyps. simpl in Hin. destruct Hin as [-> Hin].
    destruct (rs_free _ Hw s) as (q' & Hq' & _ & Hfree); [by apply seats_requested|]. simplify_eq.
    destruct (Hfree 0%nat) as [Hb _]. unfold seat_row_ok, seat_hold. simpl. by rewrite Hb. }
  apply returns_bind. eapply (returns_mono _ (fun _ w' => w'.(w_db).(outbox_events) = w.(w_db).(outbox_events))).
  - eapply returns_mono; [apply (returns_for_each (items_left order))|].
    + intros [s q] rest w1 (Hnd & Hnew & Hord & Hseat & Hout). rewrite fmap_cons, NoDup_cons in Hnd. destruct Hnd as [Hs' Hnd].
      apply returns_insert_item; simpl; [apply (Hnew (s, q)), list_elem_of_here|done|apply (Hseat (s, q)), list_elem_of_here|].
      split; [done|]. split; [|by repeat split; try done; intros sr Hsr; apply Hseat, list_elem_of_further].
      intros [s2 q2] Hin. simpl. rewrite lookup_insert_ne; [by apply (Hnew (s2, q2)), list_elem_of_further|].
      intros [= <-]. apply Hs', (list_elem_of_fmap_2 fst _ (s, q2) Hin).
    + split; [rewrite Hrows; apply select_seats_NoDup|]. simpl. split; [|split; [by rewrite lookup_insert_eq|split; [|done]]].
      * intros sr _. rewrite Hi. by apply items_absent.
      * intros [s q] Hin. rewrite Hrows in Hin. apply elem_of_select_seats in Hin as [_ Hq].
        rewrite lookup_update_where, Hs. simpl. rewrite Hq. by eexists.
    + by intros [] w1 (_ & _ & _ & _ & Hout).
  - intros [] w1 Hw1. apply returns_event; [|done]. rewrite Hw1. apply (rs_fresh _ Hw).
Qed.
(** The body, from any world with the same stores. *)
Lemma reserve_tx_returns w0 :
  w0.(w_db) = w.(w_db) -> returns (reserve_tx hold_seconds actor ev seats key) (fun _ _ => True) w0.
Proof.
  intros Hdb. destruct (rs_sale _ Hw) as (sale & Hsale & Hopen).
  unfold reserve_tx, idem. apply returns_bind, returns_bind, returns_lock, returns_bind. cbn.
  rewrite Hdb, (rs_key _ Hw). apply returns_bind. cbn. apply returns_bind. cbn.
  rewrite Hdb. apply returns_bind. cbn. rewrite Hsale. apply returns_bind. cbn.
  match goal with |- context [select_seats ev seats ?d] => set (rows := select_seats ev seats d) end.
  assert (rows = select_seats ev seats w.(w_db)) as Hrows by (unfold rows; by rewrite Hdb).
  apply returns_bind. apply returns_lock. apply returns_bind, returns_clock. apply returns_bind, returns_raise_if;
    [apply negb_false_iff; unfold sale_open; apply andb_true_iff; rewrite Z.leb_le, Z.ltb_lt; apply Hopen|].
  apply returns_bind, returns_raise_if.
  { apply bool_decide_eq_false_2. rewrite Hrows, rows_complete by done. auto. }
  apply returns_bind, returns_raise_if.
  { apply not_true_iff_false. intros (sr & Hin & Ht)%existsb_exists. apply list_elem_of_In in Hin. rewrite Hrows in Hin.
    match type of Ht with seat_taken (e_clock ?i) _ = _ => destruct (rows_free w.(w_db) sr i eq_refl Hin) as [Hf _] end.
    congruence. }
  do 2 apply returns_bind, returns_uuid4. apply returns_bind.
  eapply returns_mono; [apply (grant_returns _ _ _ _ _ rows)|done]; simpl; try by rewrite Hdb.
  - apply (rs_fresh _ Hw).
  - apply (rs_fresh _ Hw).
  - done.
  - rewrite Hrows. apply total_nonneg. intros sr Hin. by apply (rows_free w.(w_db) sr 0).
Qed.

(** The shield of the seats is free. *)
Lemma shield_enter_calm : exists tok w', res_enter (shield ev seats) w = (w', Ok tok) /\ w'.(w_db) = w.(w_db).
Proof.
  unfold shield, try_except, redis_eval, redis_call, clock_timestamp, uuid4, draw, mbind, M_bind, gets. simpl.
  rewrite calm_redis. simpl. unfold ACQUIRE.
  destruct (existsb _ _) eqn:Hex; [|by eexists _, _].
  exfalso. apply existsb_exists in Hex as (k & Hin & Hlive). bool_hyps.
  apply list_elem_of_In, list_elem_of_fmap in Hin as (s & -> & Hs%seats_requested).
  destruct Hlive as [v Hv]. unfold live in Hv. apply map_lookup_filter_Some in Hv as [Hv _].
  by rewrite (rs_shield _ Hw) in Hv.
Qed.

Lemma shield_exit_calm tok w1 : exists w', res_exit (shield ev seats) tok None w1 = (w', Ok false) /\ w'.(w_db) = w1.(w_db).
Proof.
  unfold shield, try_except, redis_eval, redis_call, clock_timestamp, draw, mbind, M_bind, gets. simpl.
  rewrite calm_redis. by eexists.
Qed.

Lemma reserve_returns : exists w' r, reserve hold_seconds actor ev ids key w = (w', Ok r).
Proof.
  unfold reserve. fold seats. rewrite seats_length. destruct (rs_count _ Hw) as [_ Hn].
  rewrite Nat.eqb_refl, (proj2 (Z.leb_le 1 _)), (proj2 (Z.leb_le _ 8)) by lia.
  destruct shield_enter_calm as (tok & w0 & Hen & Hdb0). apply (hold_phase_ok "redis_enter") in Hen as (w2 & Hen & Hdb2).
  assert (returns (within (TimedHoldResource "db" tx_resource)
    (fun _ => hold_phase "database_body" (reserve_tx hold_seconds actor ev seats key))) (fun _ _ => True) w2) as Hret.
  { apply returns_timed_tx. intros w3 Hs3. assert (w3.(w_db) = w.(w_db)) as Hdb3 by (rewrite (ss_db _ _ Hs3); congruence).
    destruct (returns_run _ _ _ (reserve_tx_returns w3 Hdb3)) as (r & w4 & Hrun & _).
    unfold returns, wpx, hold_phase. by rewrite Hrun. }
  apply returns_run in Hret as (r & w3 & Hbody & _).
  destruct (shield_exit_calm tok w3) as (w4 & Hex & _). apply (hold_phase_ok "redis_exit") in Hex as (w5 & Hex & _).
  exists w5, r.
  exact (within_run (TimedHoldResource "redis" (shield ev seats)) (fun _ => _) w w2 w3 w5 tok r false Hen Hbody Hex).
Qed.
End run.
End calm.
