(* ===== verification/Example.v ===== *)
(** * A concrete deployment

    One event with three seats, a deterministic environment, and a full run: a hold for two seats, its
    checkout, a payment, the success callback and the consumption of the [OrderPaid] event.  The
    worlds of the run witness the properties of the development. *)

From S2P Require Import Prelude Domain Schema World Observability Postgres Sql Reservations Config.
From S2P Require Import Cache Browse Intake Fulfilment Workers Reconcile Service Api Cli.
From S2P Require Import Invariant InvFulfil System.

(** Draws count up, nothing is locked and nothing fails. *)
Definition demo_env : Env := {|
  e_rng := fun i => Pos.of_succ_nat i;
  e_clock := fun i => seconds 1000 + Z.of_nat i;
  e_mono := fun i => Z.of_nat i;
  e_busy := fun _ _ => false;
  e_pool := fun _ => None;
  e_begin := fun _ => None; e_rollback := fun _ => None; e_putconn := fun _ => None;
  e_commit := fun _ => NoFault;
  e_redis := fun _ => NoFault;
  e_digest := fun r => match r with
                       | ReqHold _ _ => "hold" | ReqOrder _ => "order"
                       | ReqPayment _ _ _ _ => "payment" | ReqCallback _ => "callback"
                       end;
  e_sha256 := fun s => s;
|}.

Definition ev1 : uuid := 1%positive.

Definition demo_seat_row : seat_row := SeatRow 250 None None None 0.

Definition catalogue : db :=
  set_event_seats (fun _ => {[ (ev1, "A001") := demo_seat_row; (ev1, "A002") := demo_seat_row; (ev1, "A003") := demo_seat_row ]})
    (set_events (fun _ => {[ ev1 := EventRow "Concert" "THB" 0 (seconds 5000) ]}) empty_db).

Definition world0 : world := World catalogue empty_redis [] 0 [] None.

Definition demo_intake : intake_config := IntakeConfig 120 0 100 86400.

(** [json.loads] of the one message on the topic. *)
Definition paid_event : uuid := 40%positive.
Definition demo_decode (raw : string) : outcome envelope :=
  if bool_decide (raw = "paid") then Ok (Envelope paid_event 10 (EvOrderPaid 10) 1 (seconds 1000))
  else Raise (PyError "JSONDecodeError" "").

Definition demo : deployment := {|
  dp_settings := default_settings;
  dp_intake := demo_intake;
  dp_encode_layout := fun _ => "layout";
  dp_decode := demo_decode;
  dp_decode_replace := fun s => s;
  dp_operational := fun _ => false;
  dp_hmac := fun k m => k +:+ m;
  dp_render_int := fun _ => "0";
  dp_parse_callback := fun _ => None;
  dp_dump_callback := fun _ => "";
  dp_wait_acks := fun _ => 0;
  dp_scan_pages := fun _ => [];
  dp_send := fun _ => None;
  dp_ack := fun _ => NoFault;
|}.

#[local] Existing Instance demo_env.

Definition use (u : use_case) (w : world) : world := (run_use_case (S := api_store demo) u w).1.

(** Alice holds two seats, pays, the provider calls back, and the consumer issues the tickets. *)
Definition hold_call : use_case := UReserve "alice" ev1 ["A001"; "A002"] "k1".
Definition payment_call : use_case := UPayment "alice" 10 "p1" SUCCEEDED 0 1.
Definition paid_payload : callback_payload := Callback 900 25 10 500 "THB" SUCCEEDED.

Definition held_world : world := Eval vm_compute in use hold_call world0.
Definition paying_world : world := Eval vm_compute in use payment_call held_world.
Definition booked_world : world := Eval vm_compute in use (UCallback paid_payload) paying_world.
Definition ticketed_world : world := Eval vm_compute in
  (attempts demo_decode (fun s => s) 5 "paid" 0 (booked_world, ConsumerPos 1 0)).1.1.

(** The hold of a buyer who never pays lapses; the success that arrives late is refunded. *)
Definition late_env : Env := {|
  e_rng := fun i => Pos.of_succ_nat (i + 1000);
  e_clock := fun i => seconds 2000 + Z.of_nat i;
  e_mono := fun i => Z.of_nat i;
  e_busy := fun _ _ => false;
  e_pool := fun _ => None;
  e_begin := fun _ => None; e_rollback := fun _ => None; e_putconn := fun _ => None;
  e_commit := fun _ => NoFault;
  e_redis := fun _ => NoFault;
  e_digest := e_digest (Env := demo_env);
  e_sha256 := fun s => s;
|}.

Definition refunded_world : world := Eval vm_compute in
  (run_use_case (S := api_store (E := late_env) demo) (UCallback paid_payload) paying_world).1.

(** The demonstration's environment with the clock stopped inside the sale. *)
Definition still_env : Env := {|
  e_rng := e_rng (Env := demo_env); e_clock := fun _ => seconds 1000; e_mono := e_mono (Env := demo_env);
  e_busy := fun _ _ => false; e_pool := fun _ => None; e_begin := fun _ => None; e_rollback := fun _ => None; e_putconn := fun _ => None; e_commit := fun _ => NoFault;
  e_redis := fun _ => NoFault; e_digest := e_digest (Env := demo_env); e_sha256 := fun s => s;
|}.

Lemma world0_initial : initial world0.(w_db).
Proof.
  split; [|by repeat split]. intros k r. cbn [world0 w_db catalogue event_seats set_event_seats set_events].
  intros [[_ <-]|[_ [[_ <-]|[_ [_ <-]%lookup_singleton_Some]]%lookup_insert_Some]]%lookup_insert_Some; done.
Qed.

(** One more step of a run, its result evaluated. *)
Lemma reachable_step dp w w1 w2 : reachable dp w -> system_step dp w w1 -> w1 = w2 -> reachable dp w2.
Proof. intros (w0 & Hi & Hr) Hs <-. exists w0. split; [done|]. by eapply rtc_r. Qed.

Lemma world0_reachable : reachable demo world0.
Proof. exists world0. split; [apply world0_initial|apply rtc_refl]. Qed.

Lemma held_reachable : reachable demo held_world.
Proof.
  eapply reachable_step; [apply world0_reachable|apply (sys_use demo _ (E := demo_env) hold_call)|by vm_compute].
Qed.

Lemma paying_reachable : reachable demo paying_world.
Proof.
  eapply reachable_step; [apply held_reachable|apply (sys_use demo _ (E := demo_env) payment_call)|by vm_compute].
Qed.

Lemma booked_reachable : reachable demo booked_world.
Proof.
  eapply reachable_step; [apply paying_reachable|apply (sys_use demo _ (E := demo_env) (UCallback paid_payload))|by vm_compute].
Qed.

Lemma refunded_reachable : reachable demo refunded_world.
Proof.
  eapply reachable_step; [apply paying_reachable|apply (sys_use demo _ (E := late_env) (UCallback paid_payload))|by vm_compute].
Qed.

Lemma demo_fresh d : d.(tickets) = ∅ -> FreshFor (E := demo_env) d.
Proof.
  intros Ht. split; [|intros i; rewrite Ht; apply lookup_empty].
  intros i j Heq. by apply SuccNat2Pos.inj.
Qed.

Lemma ticketed_reachable : reachable demo ticketed_world.
Proof.
  eapply reachable_step; [apply booked_reachable| |].
  - apply (sys_consume demo _ (E := demo_env) "paid" 0 (ConsumerPos 1 0)). by apply demo_fresh.
  - by vm_compute.
Qed.
