(* ===== verification/Correctness.v ===== *)
(** * What the system guarantees

    The properties of every reachable world of a deployment: consistency, no double booking,
    all-or-nothing booking, no collected payment without tickets or a refund, totals and tickets. *)

From S2P Require Import Prelude Domain Schema World Observability Postgres Sql Reservations Config.
From S2P Require Import Cache Browse Intake Fulfilment Workers Reconcile Service Api Cli.
From S2P Require Import Invariant InvReserve InvPayment InvCallback InvFulfil InvWorkers System Example.

(** C1: in every world the deployment reaches, whatever fails and however operations interleave, the
    seats, holds, orders, bookings, payments, refunds, tickets and idempotency records are consistent. *)
Theorem reachable_consistent dp w : reachable dp w -> inv w.(w_db).
Proof. apply reachable_invariant. Qed.

Lemma reachable_consistent_witness : inv ticketed_world.(w_db).
Proof. apply (reachable_consistent demo). apply ticketed_reachable. Defined.


(** C4: no seat is ever booked twice: two bookings of one seat of an event are the same row, and the
    seat carries that booking's order, which is paid or fulfilled. *)
Theorem no_double_booking dp w b1 b2 r1 r2 :
  reachable dp w ->
  w.(w_db).(bookings) !! b1 = Some r1 -> w.(w_db).(bookings) !! b2 = Some r2 ->
  r1.(b_event_id) = r2.(b_event_id) -> r1.(b_seat_id) = r2.(b_seat_id) ->
  b1 = b2 /\ exists s o, w.(w_db).(event_seats) !! (r1.(b_event_id), r1.(b_seat_id)) = Some s /\
    s.(s_booked_order_id) = Some r1.(b_order_id) /\ w.(w_db).(orders) !! r1.(b_order_id) = Some o /\
    is_booked o.(o_status) = true.
Proof.
  intros [[Hc _ _ _] _]%reachable_invariant H1 H2 He Hs. split; [by eapply (ic_booking_unique _ Hc)|].
  destruct (ic_booking _ Hc _ _ H1) as (s & Hseat & Hb).
  destruct (ic_seat_booked _ Hc _ _ _ Hseat Hb) as (o & _ & _ & Ho & Hst & _). eauto 10.
Qed.

Lemma no_double_booking_witness :
  39%positive = 39%positive /\ exists s o, ticketed_world.(w_db).(event_seats) !! (ev1, "A002") = Some s /\
    s.(s_booked_order_id) = Some 10%positive /\ ticketed_world.(w_db).(orders) !! 10%positive = Some o /\
    is_booked o.(o_status) = true.
Proof. by apply (no_double_booking demo _ 39 39 (BookingRow ev1 "A002" 10) (BookingRow ev1 "A002" 10) ticketed_reachable). Defined.



(** C6: a collected payment is never lost: once a payment has succeeded its order is paid or fulfilled,
    with every seat booked, or is being refunded under a refund request for that payment. *)
Theorem payment_never_lost dp w p pr o :
  reachable dp w -> w.(w_db).(payment_attempts) !! p = Some pr -> pr.(p_status) = P_SUCCEEDED ->
  w.(w_db).(orders) !! pr.(p_order_id) = Some o ->
  (is_booked o.(o_status) = true /\
   forall s it, w.(w_db).(order_items) !! (pr.(p_order_id), s) = Some it ->
     exists q, w.(w_db).(event_seats) !! (it.(i_event_id), s) = Some q /\ q.(s_booked_order_id) = Some pr.(p_order_id)) \/
  (refunding o.(o_status) = true /\ exists rr, w.(w_db).(refund_requests) !! p = Some rr /\ rr.(r_order_id) = pr.(p_order_id)).
Proof.
  intros [[Hc Hp _ _] _]%reachable_invariant Hpr Hs Ho.
  pose proof (ip_succeeded _ Hp _ _ _ Hpr Hs Ho) as Hset.
  destruct (refunding o.(o_status)) eqn:Href.
  - right. split; [done|]. destruct (ip_refunding _ Hp _ _ Ho Href) as (p' & pr' & rr & Hp' & Ho' & Hrr & Hro).
    assert (p' = p) as -> by (eapply (ip_unique _ Hp); eauto). eauto.
  - left. assert (is_booked o.(o_status) = true) as Hb by by destruct (o_status o).
    split; [done|]. intros s it Hi. by apply (ic_booked_items _ Hc _ _ _ _ Ho Hb Hi).
Qed.

Lemma payment_never_lost_witness :
  (is_booked O_REFUND_PENDING = true /\
   forall s it, refunded_world.(w_db).(order_items) !! (10%positive, s) = Some it ->
     exists q, refunded_world.(w_db).(event_seats) !! (it.(i_event_id), s) = Some q /\ q.(s_booked_order_id) = Some 10%positive) \/
  (refunding O_REFUND_PENDING = true /\
   exists rr, refunded_world.(w_db).(refund_requests) !! 25%positive = Some rr /\ rr.(r_order_id) = 10%positive).
Proof.
  by apply (payment_never_lost demo _ 25 (PaymentRow 10 P_SUCCEEDED SUCCEEDED 1000000023 0 1 None None)
              (OrderRow "alice" 9 ev1 500 "THB" O_REFUND_PENDING) refunded_reachable).
Defined.

(** An order's total is the sum of the prices of its items, and each item carries the price and
    the event of the seat it reserves. *)
Theorem order_total_is_sum dp w o r :
  reachable dp w -> w.(w_db).(orders) !! o = Some r ->
  r.(o_total) = items_total o w.(w_db).(order_items) /\
  forall s it, w.(w_db).(order_items) !! (o, s) = Some it ->
    it.(i_event_id) = r.(o_event_id) /\
    exists q, w.(w_db).(event_seats) !! (it.(i_event_id), s) = Some q /\ q.(s_price) = it.(i_price).
Proof.
  intros [[Hc _ Ht _] _]%reachable_invariant Ho. split; [by apply Ht|]. intros s it Hi.
  destruct (ic_item _ Hc _ _ _ Hi) as (orow & q & Ho' & He & Hq & Hp). split; [congruence|eauto].
Qed.

Lemma order_total_is_sum_witness :
  500 = items_total 10 ticketed_world.(w_db).(order_items) /\
  forall s it, ticketed_world.(w_db).(order_items) !! (10%positive, s) = Some it ->
    it.(i_event_id) = ev1 /\
    exists q, ticketed_world.(w_db).(event_seats) !! (it.(i_event_id), s) = Some q /\ q.(s_price) = it.(i_price).
Proof.
  by apply (order_total_is_sum demo _ 10 (OrderRow "alice" 9 ev1 500 "THB" O_FULFILLED) ticketed_reachable).
Defined.

(** C7: a fulfilled order has exactly one ticket for each of its bookings. *)
Theorem one_ticket_per_booking dp w o r b br :
  reachable dp w -> w.(w_db).(orders) !! o = Some r -> r.(o_status) = O_FULFILLED ->
  w.(w_db).(bookings) !! b = Some br -> br.(b_order_id) = o ->
  exists! t, exists tr, w.(w_db).(tickets) !! t = Some tr /\ tr.(t_booking_id) = b.
Proof.
  intros [[_ _ _ Htk] _]%reachable_invariant Ho Hs Hb Hbo.
  destruct (it_fulfilled _ Htk _ _ _ _ Ho Hs Hb Hbo) as (t & tr & Ht & Htb). exists t. split; [eauto|].
  intros t' (tr' & Ht' & Htb'). eapply (it_unique _ Htk); eauto. congruence.
Qed.

Lemma one_ticket_per_booking_witness :
  exists! t, exists tr, ticketed_world.(w_db).(tickets) !! t = Some tr /\ tr.(t_booking_id) = 38%positive.
Proof.
  by apply (one_ticket_per_booking demo _ 10 (OrderRow "alice" 9 ev1 500 "THB" O_FULFILLED) 38 (BookingRow ev1 "A001" 10)
              ticketed_reachable).
Defined.
