(* ===== verification/Contracts.v ===== *)
(** * Contracts of the reservation store

    What one call of [reserve] or [persist_reservation_command] does to the database, on every branch,
    what repeating the call does, and when it succeeds. *)

From S2P Require Import Prelude Domain Schema World Observability Postgres Sql Reservations.
From S2P Require Import Invariant InvReserve InvPayment InvCallback Fulfilment InvFulfil.
From S2P Require Import Cache Intake Service Config System Calm Example.

(** ** reserve *)

(** The database a fresh [reserve] leaves, outbox aside, with its response. *)
Record reserved_as `{E : Env} (hold_seconds : Z) (actor : string) (ev : uuid) (seats : list string) (key : string)
    (r : response) (d d' : db) : Prop := ReservedAs {
  ra_new : d.(idempotency_records) !! (actor, "hold", key) = None;
  ra_effect : exists f sale now rows hold order, let expires := now + seconds hold_seconds in
    reserve_facts ev seats sale now rows d /\ grantable ev hold order expires seats rows d /\
    r = RHold (HoldDoc hold order expires (total_price rows) sale.(ev_currency) seats None None None None) /\
    d' = set_outbox_events f (remembered (actor, "hold", key) (digest (ReqHold ev seats)) r
           (granted actor ev hold order expires (total_price rows) sale.(ev_currency) seats rows d));
}.

(** The record an earlier call with the same request left. *)
Definition replayed `{E : Env} (actor key : string) (req : request) (r : response) (d : db) : Prop :=
  exists row, d.(idempotency_records) !! (actor, "hold", key) = Some row /\
    row.(id_request_hash) = digest req /\ row.(id_response) = Some r.

Lemma reserve_cases `{E : Env} hold_seconds actor ev ids key w w' r :
  inv_idem w.(w_db) -> reserve hold_seconds actor ev ids key w = (w', Ok r) ->
  let seats := sorted_seats (set_of ids) in
  length seats = length ids /\ (1 <= length seats <= 8)%nat /\
  ((replayed actor key (ReqHold ev seats) r w.(w_db) /\ w'.(w_db) = w.(w_db)) \/
   reserved_as hold_seconds actor ev seats key r w.(w_db) w'.(w_db)).
Proof.
  intros Hi (Hlen & Hn & w0 & w1 & Hw0 & Hrun & Hw1)%reserve_ok. split; [done|]. split; [done|]. rewrite Hw1, <-Hw0 in *.
  refine (wp_run _ _ _ _ _ (wp_reserve_tx hold_seconds actor ev _ key (fun r w1 => _) w0 Hi _ _) Hrun).
  - intros w2 row r' Hrow Hh Hr Hdb. left. split; [|done]. by exists row.
  - intros w2 f sale now rows hold order expires doc Hnone Hf Hg Htot Hdb. right. split; [done|].
    by exists f, sale, now, rows, hold, order.
Qed.

(** C10: a [reserve] that returns either replays the stored response of the same request and changes
    nothing, or has found the sale open and every seat free, and has written exactly one hold, one
    pending order for the sum of the prices, one item per seat, the hold on exactly the requested
    seats, and the idempotency record with the response it returns. *)
Theorem reserve_effect `{E : Env} hold_seconds actor ev ids key w w' r :
  inv_idem w.(w_db) -> reserve hold_seconds actor ev ids key w = (w', Ok r) ->
  let seats := sorted_seats (set_of ids) in
  length seats = length ids /\ (1 <= length seats <= 8)%nat /\
  ((replayed actor key (ReqHold ev seats) r w.(w_db) /\ w'.(w_db) = w.(w_db)) \/
   reserved_as hold_seconds actor ev seats key r w.(w_db) w'.(w_db)).
Proof. apply reserve_cases. Qed.

Definition demo_hold : response := RHold (HoldDoc 9 10 1120000007 500 "THB" ["A001"; "A002"] None None None None).

Lemma demo_reserve : reserve (E := demo_env) 120 "alice" ev1 ["A002"; "A001"] "k1" world0 = (held_world, Ok demo_hold).
Proof. by vm_compute. Qed.

Lemma world0_idem : inv_idem world0.(w_db).
Proof. intros k r. unfold world0. simpl. by rewrite lookup_empty. Qed.

Lemma reserve_effect_witness :
  let seats := sorted_seats (set_of ["A002"; "A001"]) in
  length seats = 2%nat /\ (1 <= length seats <= 8)%nat /\
  ((replayed (E := demo_env) "alice" "k1" (ReqHold ev1 seats) demo_hold world0.(w_db) /\ held_world.(w_db) = world0.(w_db)) \/
   reserved_as (E := demo_env) 120 "alice" ev1 seats "k1" demo_hold world0.(w_db) held_world.(w_db)).
Proof. apply (reserve_effect (E := demo_env) 120 "alice" ev1 ["A002"; "A001"] "k1"); [apply world0_idem|apply demo_reserve]. Defined.

(** The record in place after a [reserve] that returned. *)
Lemma reserve_recorded `{E : Env} hold_seconds actor ev ids key w w' r :
  inv_idem w.(w_db) -> reserve hold_seconds actor ev ids key w = (w', Ok r) ->
  replayed actor key (ReqHold ev (sorted_seats (set_of ids))) r w'.(w_db).
Proof.
  intros Hi (_ & _ & w0 & w1 & Hw0 & Hrun & Hw1)%reserve_ok. rewrite <-Hw0, Hw1 in *.
  refine (wp_run _ _ _ _ _ (wp_reserve_tx hold_seconds actor ev _ key (fun r w1 => _) w0 Hi _ _) Hrun).
  - intros w2 row r' Hrow Hh Hr ->. by exists row.
  - intros w2 f sale now rows hold order expires doc Hnone Hf Hg Htot ->. eexists.
    split; [unfold remembered; simpl; apply lookup_insert_eq|done].
Qed.

(** While its record stands, a request is only ever answered from it. *)
Lemma reserve_answered `{E : Env} hold_seconds actor ev ids key w row :
  inv_idem w.(w_db) -> w.(w_db).(idempotency_records) !! (actor, "hold", key) = Some row ->
  (reserve hold_seconds actor ev ids key w).1.(w_db) = w.(w_db) /\
  forall r, (reserve hold_seconds actor ev ids key w).2 = Ok r ->
    row.(id_request_hash) = digest (ReqHold ev (sorted_seats (set_of ids))) /\ row.(id_response) = Some r.
Proof.
  intros Hi Hrow. split.
  - apply (reserve_keeps_body hold_seconds (fun d => d = w.(w_db))); [|done]. intros w0 Hw0. rewrite <-Hw0 in *.
    apply wp_reserve_tx; [done|by intros|]. intros. congruence.
  - intros r Hok. destruct (reserve _ _ _ _ _ w) as [w' o] eqn:Hrun. simpl in Hok. subst o.
    apply reserve_ok in Hrun as (_ & _ & w0 & w1 & Hw0 & Hrun & _). rewrite <-Hw0 in *.
    refine (wp_run _ _ _ _ _ (wp_reserve_tx hold_seconds actor ev _ key (fun r w1 => _) w0 Hi _ _) Hrun).
    + intros. split; congruence.
    + intros. congruence.
Qed.

(** [reserve] is idempotent: a retry with the same key and the same seats, in any order and under
    any later faults, clocks and draws, changes nothing, and when it returns it returns the response
    of the first call. *)
Theorem reserve_idempotent (E1 E2 : Env) hs1 hs2 actor ev ids ids' key w w1 r :
  e_digest (Env := E1) = e_digest (Env := E2) -> ids ≡ₚ ids' -> inv w.(w_db) ->
  reserve (E := E1) hs1 actor ev ids key w = (w1, Ok r) ->
  let retry := reserve (E := E2) hs2 actor ev ids' key w1 in
  retry.1.(w_db) = w1.(w_db) /\ forall r', retry.2 = Ok r' -> r' = r.
Proof.
  intros Hdig Hperm [Hcom Hi] Hrun.
  pose proof (reserve_recorded (E := E1) _ _ _ _ _ _ _ _ Hi Hrun) as (row & Hrow & Hh & Hr).
  assert (inv_idem w1.(w_db)) as Hi1.
  { pose proof (reserve_keeps (E := E1) hs1 actor ev ids key w (Inv _ Hcom Hi)) as Hk. rewrite Hrun in Hk. apply Hk. }
  destruct (reserve_answered (E := E2) hs2 actor ev ids' key w1 row Hi1 Hrow) as [Hdb Hret].
  split; [done|]. intros r' [_ Hr']%Hret. congruence.
Qed.

Lemma reserve_idempotent_witness :
  let retry := reserve (E := late_env) 120 "alice" ev1 ["A001"; "A002"] "k1" held_world in
  retry.2 = Ok demo_hold /\ retry.1.(w_db) = held_world.(w_db) /\ forall r', retry.2 = Ok r' -> r' = demo_hold.
Proof.
  split; [by vm_compute|].
  apply (reserve_idempotent demo_env late_env 120 120 "alice" ev1 ["A002"; "A001"] ["A001"; "A002"] "k1" world0);
    [done|by apply Permutation_swap|apply initial_inv, world0_initial|apply demo_reserve].
Defined.

(** An idempotency key is never reused for another request: while the record of the first request
    stands, a request with another digest changes nothing and never returns. *)
Theorem reserve_key_reuse `{E : Env} hold_seconds actor ev ids key w row :
  inv w.(w_db) -> w.(w_db).(idempotency_records) !! (actor, "hold", key) = Some row ->
  row.(id_request_hash) <> digest (ReqHold ev (sorted_seats (set_of ids))) ->
  exists w' e, reserve hold_seconds actor ev ids key w = (w', Raise e) /\ w'.(w_db) = w.(w_db).
Proof.
  intros [_ Hi] Hrow Hne. destruct (reserve_answered hold_seconds actor ev ids key w row Hi Hrow) as [Hdb Hret].
  destruct (reserve _ _ _ _ _ w) as [w' [r|e]]; simpl in *; [|by exists w', e]. by destruct (Hret r eq_refl).
Qed.

(** Every draw as before, but requests hashed by their seats. *)
Definition hashing_env : Env := {|
  e_rng := e_rng (Env := late_env); e_clock := e_clock (Env := late_env); e_mono := e_mono (Env := late_env);
  e_busy := fun _ _ => false; e_pool := fun _ => None; e_begin := fun _ => None; e_rollback := fun _ => None; e_putconn := fun _ => None; e_commit := fun _ => NoFault;
  e_redis := fun _ => NoFault;
  e_digest := fun r => match r with ReqHold _ seats => String.concat "," seats | _ => "" end;
  e_sha256 := fun s => s;
|}.

Lemma reserve_key_reuse_witness :
  exists w' e, reserve (E := hashing_env) 120 "alice" ev1 ["A003"] "k1" held_world = (w', Raise e) /\ w'.(w_db) = held_world.(w_db).
Proof.
  eapply (reserve_key_reuse (E := hashing_env) 120 "alice" ev1 ["A003"] "k1" held_world);
    [apply (reachable_invariant demo), held_reachable|by vm_compute|by vm_compute].
Defined.

(** Free seats can be bought: when nothing is locked or fails, the sale is open, the one to eight
    distinct seats are free with no request in flight for them, the key is new and the drawn
    identifiers are new, [reserve] returns and has granted the seats. *)
Theorem reserve_succeeds `{E : Env} `{!Calm E} hold_seconds actor ev ids key w :
  reservable actor ev ids key w ->
  exists w' r, reserve hold_seconds actor ev ids key w = (w', Ok r) /\
    reserved_as hold_seconds actor ev (sorted_seats (set_of ids)) key r w.(w_db) w'.(w_db).
Proof.
  intros Hw. destruct (reserve_returns hold_seconds actor ev ids key w Hw) as (w' & r & Hrun).
  exists w', r. split; [done|].
  destruct (reserve_cases _ _ _ _ _ _ _ _ (inv_i _ (rs_inv _ _ _ _ _ Hw)) Hrun) as (_ & _ & [[(row & Hrow & _) _]|Hra]); [|done].
  by rewrite (rs_key _ _ _ _ _ Hw) in Hrow.
Qed.

#[global] Instance still_calm : Calm still_env.
Proof. by split. Qed.

Lemma world0_reservable : reservable (E := still_env) "alice" ev1 ["A001"; "A003"] "k1" world0.
Proof.
  split.
  - apply initial_inv, world0_initial.
  - done.
  - split; [|simpl; lia]. apply (bool_decide_unpack (NoDup ["A001"; "A003"])). by vm_compute.
  - exists (EventRow "Concert" "THB" 0 (seconds 5000)). split; [by vm_compute|]. intros i. vm_compute. by split.
  - intros s Hs. exists demo_seat_row.
    apply list_elem_of_In in Hs as [<-|[<-|[]]]; (split; [by vm_compute|split; [by vm_compute|intros i; by split]]).
  - intros s _. apply lookup_empty.
  - intros i. by split; [apply lookup_empty|split; apply lookup_empty].
Qed.

Lemma reserve_succeeds_witness :
  exists w' r, reserve (E := still_env) 120 "alice" ev1 ["A001"; "A003"] "k1" world0 = (w', Ok r) /\
    reserved_as (E := still_env) 120 "alice" ev1 (sorted_seats (set_of ["A001"; "A003"])) "k1" r world0.(w_db) w'.(w_db).
Proof. apply (reserve_succeeds (E := still_env) 120 "alice" ev1 ["A001"; "A003"] "k1" world0). apply world0_reservable. Defined.

(** The seat is booked, or held past every instant that can be read. *)
Definition owned_throughout `{E : Env} (q : seat_row) : Prop :=
  is_Some q.(s_booked_order_id) \/ exists t, q.(s_reserved_until) = Some t /\ forall i, e_clock i < t.

Lemma owned_not_free `{E : Env} q i : owned_throughout q -> ~ free_at (e_clock i) q.
Proof. intros [[o Ho]|(t & Ht & Hc)] [Hb Hf]; [congruence|]. specialize (Hf t Ht). specialize (Hc i). lia. Qed.

(** C11: a seat someone else owns is never taken: while a seat is booked, or held past every instant
    the call can read, a [reserve] leaves its row as it is whatever happens, and a request that names
    it returns only by replaying an earlier response. *)
Theorem reserve_respects_owner `{E : Env} hold_seconds actor ev ids key w s q :
  inv w.(w_db) -> w.(w_db).(event_seats) !! (ev, s) = Some q -> owned_throughout q ->
  (reserve hold_seconds actor ev ids key w).1.(w_db).(event_seats) !! (ev, s) = Some q /\
  forall r, s ∈ ids -> (reserve hold_seconds actor ev ids key w).2 = Ok r ->
    replayed actor key (ReqHold ev (sorted_seats (set_of ids))) r w.(w_db).
Proof.
  intros [_ Hi] Hq Htaken.
  assert (forall seats sale now rows hold order expires d, d.(event_seats) !! (ev, s) = Some q ->
    reserve_facts ev seats sale now rows d -> grantable ev hold order expires seats rows d -> s ∉ seats) as Hfree.
  { intros seats sale now rows hold order expires d Hd [[i ->] _ _ _ _ Hf] [_ _ _ _ Hrows _ _] Hs.
    by apply (owned_not_free q i Htaken), (Hf s), Hrows. }
  split.
  - apply (reserve_keeps_body hold_seconds (fun d => d.(event_seats) !! (ev, s) = Some q /\ inv_idem d)); [|done].
    intros w0 [Hq0 Hi0]. apply wp_reserve_tx; [done|by intros ? ? ? ? ? ? ->|].
    intros w2 f sale now rows hold order expires doc Hnone Hf Hg Htot ->. simpl. split.
    + rewrite lookup_update_where, Hq0. simpl. unfold in_request. rewrite bool_decide_eq_false_2; [done|].
      intros [_ Hs]. by eapply Hfree.
    + by apply (inv_idem_remembered _ _ _ w0.(w_db)).
  - intros r Hs Hok. destruct (reserve _ _ _ _ _ w) as [w' o] eqn:Hrun. simpl in Hok. subst o.
    apply reserve_ok in Hrun as (_ & _ & w0 & w1 & Hw0 & Hrun & _). rewrite <-Hw0 in *.
    refine (wp_run _ _ _ _ _ (wp_reserve_tx hold_seconds actor ev _ key (fun r w1 => _) w0 Hi _ _) Hrun).
    + intros w2 row r' Hrow Hh Hr _. by exists row.
    + intros w2 f sale now rows hold order expires doc Hnone Hf Hg _ _. exfalso. eapply Hfree; [done..|].
      apply elem_of_sorted_seats, elem_of_remove_dups, Hs.
Qed.

Definition alice_seat : seat_row := SeatRow 250 None None (Some 10%positive) 2.

Lemma reserve_respects_owner_witness :
  let again := reserve (E := late_env) 120 "bob" ev1 ["A003"; "A001"] "k9" ticketed_world in
  again.2 = Raise (Failure "SEAT_UNAVAILABLE" 409) /\
  again.1.(w_db).(event_seats) !! (ev1, "A001") = Some alice_seat /\
  forall r, "A001" ∈ ["A003"; "A001"] -> again.2 = Ok r ->
    replayed (E := late_env) "bob" "k9" (ReqHold ev1 (sorted_seats (set_of ["A003"; "A001"]))) r ticketed_world.(w_db).
Proof.
  split; [by vm_compute|].
  apply (reserve_respects_owner (E := late_env) 120 "bob" ev1 ["A003"; "A001"] "k9" ticketed_world);
    [apply (reachable_invariant demo), ticketed_reachable|by vm_compute|left; by eexists].
Defined.

(** ** persist_reservation_command *)

(** The database a newly persisted command leaves, outbox aside, with its response. *)
Definition persisted_as `{E : Env} (p : command_payload) (resp : hold_doc) (r : response) (d d' : db) : Prop :=
  d.(reservation_commands) !! p.(cp_command_id) = None /\
  d.(idempotency_records) !! (p.(cp_actor), "hold", p.(cp_idempotency_key)) = None /\
  exists f sale now rows, let seats := sorted_seats p.(cp_seat_ids) in
    persist_facts p sale now rows d /\
    r = RHold (durable_doc resp (total_price rows) sale.(ev_currency) p.(cp_expires_at)) /\
    d' = set_reservation_commands <[p.(cp_command_id) := command_of p r]>
      (set_outbox_events f (remembered (p.(cp_actor), "hold", p.(cp_idempotency_key)) (digest (command_request p)) r
        (granted p.(cp_actor) p.(cp_event_id) p.(cp_hold_id) p.(cp_order_id) p.(cp_expires_at) (total_price rows)
           sale.(ev_currency) seats rows d))).

(** The command row, or the hold of the same ids recorded under its idempotency key. *)
Definition settled_command `{E : Env} (p : command_payload) (r : response) (d : db) : Prop :=
  (exists c, d.(reservation_commands) !! p.(cp_command_id) = Some c /\
     c.(rcmd_request_hash) = p.(cp_request_hash) /\ c.(rcmd_response) = r) \/
  (d.(reservation_commands) !! p.(cp_command_id) = None /\ exists row doc,
     d.(idempotency_records) !! (p.(cp_actor), "hold", p.(cp_idempotency_key)) = Some row /\
     row.(id_request_hash) = digest (command_request p) /\ row.(id_response) = Some (RHold doc) /\
     doc.(hd_hold_id) = p.(cp_hold_id) /\ doc.(hd_order_id) = p.(cp_order_id) /\ r = RHold doc).

Lemma persist_ok `{E : Env} p resp w w' r :
  persist_reservation_command p resp w = (w', Ok r) ->
  digest (command_request p) = p.(cp_request_hash) /\
  exists w0 w1, w0.(w_db) = w.(w_db) /\ persist_tx p resp w0 = (w1, Ok r) /\ w'.(w_db) = w1.(w_db).
Proof.
  unfold persist_reservation_command. intros ([] & w1 & Hcheck & Hrun)%bind_inv_ok.
  unfold raise_if, raise in Hcheck. case_bool_decide as Hd; [done|]. injection Hcheck as <-.
  split; [first [done|by apply dec_stable]|]. apply transaction_ok in Hrun as (w0 & w2 & Hs & Hrun & Hs').
  exists w0, w2. by rewrite (ss_db _ _ Hs), (ss_db _ _ Hs').
Qed.

Lemma persist_cases `{E : Env} p resp w w' r :
  inv_idem w.(w_db) -> persist_reservation_command p resp w = (w', Ok r) ->
  digest (command_request p) = p.(cp_request_hash) /\
  ((settled_command p r w.(w_db) /\ w'.(w_db) = w.(w_db)) \/ persisted_as p resp r w.(w_db) w'.(w_db)).
Proof.
  intros Hi (Hd & w0 & w1 & Hw0 & Hrun & Hw1)%persist_ok. split; [done|]. rewrite Hw1, <-Hw0 in *.
  refine (wp_run _ _ _ _ _ (wp_persist_tx p resp (fun r w1 => _) w0 Hi _ _ _) Hrun).
  - intros w2 c Hc Hh Hdb. left. split; [|done]. left. by exists c.
  - intros w2 row doc Hn Hrow Hh Hr Hhold Hord Hdb. left. split; [|done]. right. split; [done|]. by exists row, doc.
  - intros w2 f sale now rows durable Hc Hn Hf Hg _ Hdb. right. split; [done|]. split; [done|]. by exists f, sale, now, rows.
Qed.

(** C14: the writer implements the same reservation as [reserve]: a command it persists for the first
    time has found the sale open, the hold unexpired and every seat free of other holds, and leaves
    the hold, order, items, seats and idempotency record that [reserve] would have written for the
    identifiers the intake promised, with the command row; otherwise it returns the stored result
    and changes nothing. *)
Theorem persist_refines_reserve `{E : Env} p resp w w' r :
  inv_idem w.(w_db) -> persist_reservation_command p resp w = (w', Ok r) ->
  digest (command_request p) = p.(cp_request_hash) /\
  ((settled_command p r w.(w_db) /\ w'.(w_db) = w.(w_db)) \/ persisted_as p resp r w.(w_db) w'.(w_db)).
Proof. apply persist_cases. Qed.

(** A command of the intake for the demonstration's seats. *)
Definition demo_command : command_payload :=
  Command 700 "carol" "c1" "hold" ev1 ["A002"; "A003"] 701 702 (seconds 1120).
Definition demo_response : hold_doc :=
  HoldDoc 701 702 (seconds 1120) 500 "THB" ["A002"; "A003"] (Some 700%positive) (Some (seconds 1120)) (Some PS_PENDING) None.
Definition persisted_world : world := Eval vm_compute in
  (persist_reservation_command (E := demo_env) demo_command demo_response world0).1.
Definition persisted_response : response :=
  RHold (HoldDoc 701 702 (seconds 1120) 500 "THB" ["A002"; "A003"] (Some 700%positive) (Some (seconds 1120)) (Some PS_DURABLE) None).

Lemma demo_persist :
  persist_reservation_command (E := demo_env) demo_command demo_response world0 = (persisted_world, Ok persisted_response).
Proof. by vm_compute. Qed.

Lemma persist_refines_reserve_witness :
  "hold" = demo_command.(cp_request_hash) /\
  ((settled_command (E := demo_env) demo_command persisted_response world0.(w_db) /\ persisted_world.(w_db) = world0.(w_db)) \/
   persisted_as (E := demo_env) demo_command demo_response persisted_response world0.(w_db) persisted_world.(w_db)).
Proof. apply (persist_refines_reserve (E := demo_env)); [apply world0_idem|apply demo_persist]. Defined.

(** While a command is settled, persisting it again only answers from the record. *)
Lemma persist_answered `{E : Env} p resp w r :
  inv_idem w.(w_db) -> settled_command p r w.(w_db) ->
  (persist_reservation_command p resp w).1.(w_db) = w.(w_db) /\
  forall r', (persist_reservation_command p resp w).2 = Ok r' -> r' = r.
Proof.
  intros Hi Hset.
  assert (forall w0, w0.(w_db) = w.(w_db) -> wp (persist_tx p resp) (fun r' w1 => r' = r /\ w1.(w_db) = w.(w_db)) w0) as Htx.
  { intros w0 Hw0. rewrite <-Hw0 in *. apply wp_persist_tx; [done| | |].
    - intros w1 c Hc Hh Hdb. destruct Hset as [(c' & Hc' & _ & <-)|(Hn & _)]; simplify_eq; auto.
    - intros w1 row doc Hn Hrow Hh Hr _ _ Hdb.
      destruct Hset as [(c' & Hc' & _)|(_ & row' & doc' & Hrow' & _ & Hr' & _ & _ & ->)]; simplify_eq; auto.
    - intros w1 f sale now rows durable Hc Hn _ _ _ Hdb.
      destruct Hset as [(c' & Hc' & _)|(_ & row' & doc' & Hrow' & _)]; congruence. }
  split.
  - apply (keeps_bind (fun d => d = w.(w_db))); [apply keeps_raise_if|intros _|done]. apply keeps_transaction.
    intros w0 Hw0. eapply wp_mono; [by apply Htx|]. by intros ? ? [_ ?].
  - intros r' Hok. destruct (persist_reservation_command _ _ w) as [w' o] eqn:Hrun. simpl in Hok. subst o.
    apply persist_ok in Hrun as (_ & w0 & w1 & Hw0 & Hrun & _). by destruct (wp_run _ _ _ _ _ (Htx w0 Hw0) Hrun).
Qed.

(** C15: a command takes effect exactly once: after it has been persisted, every redelivery, under any
    later faults, clocks and draws, changes nothing and returns nothing but the first result. *)
Theorem persist_exactly_once (E1 E2 : Env) p resp resp' w w1 r :
  e_digest (Env := E1) = e_digest (Env := E2) -> inv w.(w_db) ->
  persist_reservation_command (E := E1) p resp w = (w1, Ok r) ->
  let again := persist_reservation_command (E := E2) p resp' w1 in
  again.1.(w_db) = w1.(w_db) /\ forall r', again.2 = Ok r' -> r' = r.
Proof.
  intros Hdig Hinv Hrun. destruct (persist_cases (E := E1) p resp w w1 r (inv_i _ Hinv) Hrun) as (Hd & Hcase).
  assert (settled_command (E := E2) p r w1.(w_db)) as Hset.
  { unfold settled_command, digest. rewrite <-Hdig. destruct Hcase as [[Hs ->]|(Hc & Hn & f & sale & now & rows & Hf & -> & ->)]; [done|].
    left. eexists. split; [simpl; apply lookup_insert_eq|done]. }
  apply persist_answered; [|done].
  assert (inv w1.(w_db)) as [_ Hi]; [|done].
  apply (keeps_run inv (persist_reservation_command (E := E1) p resp) w w1 (Ok r)); [|done..].
  apply keeps_bind; [apply keeps_raise_if|intros _]. apply keeps_transaction. intros. by apply persist_tx_inv.
Qed.

Lemma persist_exactly_once_witness :
  let again := persist_reservation_command (E := late_env) demo_command demo_response persisted_world in
  again.2 = Ok persisted_response /\
  again.1.(w_db) = persisted_world.(w_db) /\ forall r', again.2 = Ok r' -> r' = persisted_response.
Proof.
  split; [by vm_compute|].
  apply (persist_exactly_once demo_env late_env demo_command demo_response demo_response world0);
    [done|apply initial_inv, world0_initial|apply demo_persist].
Defined.
