(* ===== verification/Outage.v ===== *)
(** * Outages

    What [scripts/cloud_failure_drill.py] tries on a running system in the postgres mode: while Redis or PostgreSQL is down a hold is
    answered 503 and leaves no trace in the database, so that the same request succeeds once the service is back. *)

From S2P Require Import Prelude Domain Schema World Observability Postgres Sql Reservations Config.
From S2P Require Import Cache CacheFacts Browse Intake Service Api.
From S2P Require Import Invariant InvReserve InvFulfil System Calm Example Contracts.

#[local] Open Scope Z_scope.

(** Redis refuses every call. *)
Definition redis_down (E : Env) : Prop := forall i, exists e, e_redis (Env := E) i = FaultBefore e.

Definition pool_error (e : exn) : bool := match e with PoolTimeout | TooManyRequests | OperationalError => true | _ => false end.

(** No connection to PostgreSQL can be had, and Redis answers. *)
Definition database_down (E : Env) : Prop :=
  (forall i, exists e, e_pool (Env := E) i = Some e /\ pool_error e = true) /\ forall i, e_redis (Env := E) i = NoFault.

(** At most [n] requests of the customer are counted in the rate window. *)
Definition rate_room (who : string) (n : Z) (w : world) : Prop := forall k t, w.(w_redis).(r_rates) !! who = Some (k, t) -> k <= n.

(** The seats have no request in flight. *)
Definition unshielded (ev : uuid) (seats : list string) (w : world) : Prop := forall s, s ∈ seats -> w.(w_redis).(r_shields) !! (ev, s) = None.

(** ** Runs of the combinators *)

Lemma hold_phase_run {A} ph (m : W A) w w' o : m w = (w', o) -> exists w2, hold_phase ph m w = (w2, o) /\ same_stores w' w2.
Proof. intros Hm. unfold hold_phase. rewrite Hm. destruct o; by eexists. Qed.

Lemma within_raises {R A} (r : resource R) (body : R -> W A) w w0 w1 w2 x e :
  res_enter r w = (w0, Ok x) -> body x w0 = (w1, Raise e) -> res_exit r x (Some e) w1 = (w2, Ok false) -> within r body w = (w2, Raise e).
Proof. intros Hen Hb Hex. unfold within, with_resource. rewrite (bind_ok _ _ _ _ _ Hen), Hb. by rewrite (bind_ok _ _ _ _ _ Hex). Qed.

Lemma within_refused {R A} (r : resource R) (body : R -> W A) w w0 e : res_enter r w = (w0, Raise e) -> within r body w = (w0, Raise e).
Proof. intros Hen. unfold within, with_resource. by rewrite (bind_raise _ _ _ _ _ Hen). Qed.

Lemma record_exception_quiet operational e : quiet (record_exception operational e).
Proof. unfold record_exception. intros w. repeat case_match; split; done. Qed.

(** ** Redis *)

Lemma released_mine (keys : list (uuid * string)) (token : uuid) (k : uuid * string) (m : gmap (uuid * string) (uuid * Z)) :
  (forall v, m !! k = Some v -> v.1 = token /\ k ∈ keys) ->
  foldl (fun m k => match m !! k with Some (t, _) => if bool_decide (t = token) then delete k m else m | None => m end) m keys !! k = None.
Proof.
  revert m. induction keys as [|x keys IH]; intros m Hm; simpl.
  - destruct (m !! k) as [v|] eqn:Hv; [|done]. by destruct (Hm v eq_refl) as [_ ?%not_elem_of_nil].
  - apply IH. intros v Hv. destruct (decide (x = k)) as [->|Hne].
    + exfalso. destruct (m !! k) as [[t until]|] eqn:Hk; [|congruence]. destruct (Hm _ eq_refl) as [Ht _]. simpl in Ht. subst t.
      rewrite bool_decide_eq_true_2, lookup_delete_eq in Hv by done. done.
    + assert (m !! k = Some v) as Hv'.
      { destruct (m !! x) as [[t until]|]; [|done]. case_bool_decide; [by rewrite lookup_delete_ne in Hv|done]. }
      destruct (Hm v Hv') as [? Hin]. split; [done|]. apply elem_of_cons in Hin as [->|]; done.
Qed.

Lemma purge_shields now r k : r.(r_shields) !! k = None -> (purge now r).(r_shields) !! k = None.
Proof. intros Hk. simpl. unfold Cache.live. rewrite map_lookup_filter, Hk. done. Qed.

Lemma rate_script who n now r :
  0 <= n -> (forall k t, r.(r_rates) !! who = Some (k, t) -> k <= n) ->
  exists k t, k <= n + 1 /\ RATE who now (purge now r) = (set_rates <[who := (k, t)]> (purge now r), k).
Proof.
  intros Hn Hr. unfold RATE. destruct ((purge now r).(r_rates) !! who) as [[k t]|] eqn:Hk; [|exists 1, (now + seconds 1); split; [lia|reflexivity]].
  exists (k + 1), t. split; [|reflexivity]. apply map_lookup_filter_Some in Hk as [Hk _]. specialize (Hr _ _ Hk). lia.
Qed.

Section redis.
Context `{E : Env}.

Lemma rate_down who w :
  redis_down E -> exists w', rate_limit who w = (w', Raise (Failure "ADMISSION_UNAVAILABLE" 503)) /\ same_stores w w'.
Proof.
  intros Hd. unfold rate_limit, try_except, redis_eval, redis_call, clock_timestamp, draw, mbind, M_bind. simpl.
  destruct (Hd (S (w_tick w))) as [e ->]. by eexists.
Qed.

Context (Hup : forall i, e_redis i = NoFault).

(** A call to a Redis that answers. *)
Lemma redis_eval_up {A} (script : Z -> redis -> redis * A) w :
  exists now w', redis_eval script w = (w', Ok (script now (purge now w.(w_redis))).2) /\ w'.(w_db) = w.(w_db)
    /\ w'.(w_redis) = (script now (purge now w.(w_redis))).1.
Proof. unfold redis_eval, redis_call, clock_timestamp, draw, mbind, M_bind. simpl. rewrite Hup. by eexists _, _. Qed.

Lemma rate_counted who n ev seats w :
  0 <= n < 20 -> rate_room who n w -> unshielded ev seats w ->
  exists w', rate_limit who w = (w', Ok tt) /\ w'.(w_db) = w.(w_db) /\ unshielded ev seats w' /\ rate_room who (n + 1) w'.
Proof.
  intros Hn Hroom Hsh. destruct (redis_eval_up (RATE who) w) as (now & w1 & Hrun & Hdb & Hr).
  destruct (rate_script who n now w.(w_redis)) as (k & t & Hk & Hs); [lia|done|]. rewrite Hs in Hrun, Hr. simpl in Hrun, Hr.
  exists w1. split_and!; [|done| |].
  - unfold rate_limit, try_except. unfold mbind, M_bind. rewrite Hrun. rewrite (proj2 (Z.ltb_ge 20 k)) by lia. done.
  - intros s Hin. rewrite Hr. by apply purge_shields, Hsh.
  - intros k' t'. rewrite Hr. simpl. rewrite lookup_insert_eq. intros [= <- _]. done.
Qed.

Lemma shield_entered ev seats w :
  unshielded ev seats w ->
  exists tok w', res_enter (shield ev seats) w = (w', Ok tok) /\ w'.(w_db) = w.(w_db) /\ w'.(w_redis).(r_rates) ⊆ w.(w_redis).(r_rates)
    /\ forall s, s ∈ seats -> exists t, w'.(w_redis).(r_shields) !! (ev, s) = Some (tok, t).
Proof.
  intros Hsh. unfold shield, res_enter. destruct (redis_eval_up (ACQUIRE (shield_keys ev seats) (e_rng w.(w_tick)) 2000) (next_tick w))
    as (now & w1 & Hrun & Hdb & Hr).
  unfold ACQUIRE in Hrun, Hr. destruct (existsb _ _) eqn:Hex.
  { exfalso. apply existsb_exists in Hex as (k & Hin & Hlive). bool_hyps. apply list_elem_of_In, list_elem_of_fmap in Hin as (s & -> & Hs).
    rewrite purge_shields in Hlive by (by apply Hsh). by destruct Hlive. }
  simpl in Hrun, Hr. exists (e_rng w.(w_tick)), w1. split_and!; [|done| |].
  - rewrite (bind_ok uuid4 _ w (next_tick w) (e_rng w.(w_tick)) eq_refl). unfold try_except, mbind, M_bind.
    unfold ACQUIRE. rewrite Hrun. done.
  - rewrite Hr. simpl. apply map_filter_subseteq.
  - intros s Hin. rewrite Hr. simpl. eexists. apply acquired_keys. by apply list_elem_of_fmap_2.
Qed.

Lemma shield_left ev seats tok exc w :
  (forall s, s ∈ seats -> exists t, w.(w_redis).(r_shields) !! (ev, s) = Some (tok, t)) ->
  exists w', res_exit (shield ev seats) tok exc w = (w', Ok false) /\ w'.(w_db) = w.(w_db) /\ w'.(w_redis).(r_rates) ⊆ w.(w_redis).(r_rates)
    /\ unshielded ev seats w'.
Proof.
  intros Hsh. destruct (redis_eval_up (RELEASE (shield_keys ev seats) tok) w) as (now & w1 & Hrun & Hdb & Hr).
  exists w1. split_and!; [|done| |].
  - unfold shield, res_exit, try_except, mbind, M_bind. by rewrite Hrun.
  - rewrite Hr. simpl. apply map_filter_subseteq.
  - intros s Hin. rewrite Hr. apply released_mine. intros v Hv. simpl in Hv. apply map_lookup_filter_Some in Hv as [Hv _].
    destruct (Hsh s Hin) as [t Ht]. rewrite Ht in Hv. injection Hv as <-. split; [done|by apply list_elem_of_fmap_2].
Qed.
End redis.

(** ** PostgreSQL *)

Lemma tx_refused `{E : Env} w :
  database_down E -> exists w' e, tx_enter w = (w', Raise e) /\ pool_error e = true /\ same_stores w w'.
Proof.
  intros [Hd _]. unfold tx_enter, acquire_connection, try_except, getconn, draw, mbind, M_bind. simpl.
  destruct (Hd (w_tick w)) as (e & He & Hp). rewrite He. simpl. destruct e; try done; by eexists _, _.
Qed.

Section reserve.
Context `{E : Env} (Hdown : database_down E) (hold_seconds : Z) (who : string) (ev : uuid) (ids : list string) (key : string).
Let seats := sorted_seats (set_of ids).

Lemma reserve_refused w :
  length seats = length ids -> (1 <= length ids <= 8)%nat -> unshielded ev seats w ->
  exists w' e, reserve hold_seconds who ev ids key w = (w', Raise e) /\ pool_error e = true /\ w'.(w_db) = w.(w_db)
    /\ unshielded ev seats w' /\ w'.(w_redis).(r_rates) ⊆ w.(w_redis).(r_rates).
Proof.
  intros Hlen Hn Hsh. destruct Hdown as [_ Hup].
  destruct (shield_entered Hup ev seats w Hsh) as (tok & w1 & Hen & Hdb1 & Hr1 & Hmine). apply (hold_phase_run "redis_enter") in Hen as (w2 & Hen & Hs2).
  destruct (tx_refused w2 Hdown) as (w3 & e & Htx & He & Hs3). apply (hold_phase_run "db_enter") in Htx as (w4 & Htx & Hs4).
  assert (same_stores w1 w4) as Hs by (etrans; [exact Hs2|]; by etrans).
  destruct (shield_left Hup ev seats tok (Some e) w4) as (w5 & Hex & Hdb5 & Hr5 & Hfree); [by rewrite (ss_redis _ _ Hs)|].
  apply (hold_phase_run "redis_exit") in Hex as (w6 & Hex & Hs6). exists w6, e. split_and!; [|done| | |].
  - unfold reserve. fold seats. rewrite Hlen, Nat.eqb_refl, (proj2 (Z.leb_le 1 _)), (proj2 (Z.leb_le _ 8)) by lia.
    eapply (within_raises (TimedHoldResource "redis" (shield ev seats))); [exact Hen| |exact Hex].
    by apply (within_refused (TimedHoldResource "db" tx_resource)).
  - rewrite (ss_db _ _ Hs6), Hdb5, (ss_db _ _ Hs). done.
  - intros s Hin. rewrite (ss_redis _ _ Hs6). by apply Hfree.
  - rewrite (ss_redis _ _ Hs6). etrans; [exact Hr5|]. by rewrite (ss_redis _ _ Hs).
Qed.
End reserve.

(** ** Requests *)

Section request.
Context (dp : deployment) (jwt_decode : string -> string -> token).
Context (credentials who key : string) (ev : uuid) (ids : list string).
Abbreviation settings := dp.(dp_settings).
Abbreviation operational := dp.(dp_operational).
Abbreviation hs := settings.(hold_seconds).

(** [POST /v1/holds] in an environment, on the store the deployment selects. *)
Definition ask_hold (E : Env) : W http_response :=
  respond operational (hold (E := E) settings jwt_decode (S := api_store dp (E := E)) credentials ev ids key).

(** A request that authenticates and is well formed. *)
Record well_formed : Prop := WellFormed {
  wf_actor : actor settings jwt_decode credentials = Ok who;
  wf_input : valid_hold_input ids && valid_key key = true;
  wf_count : bad_count ids = false;
  wf_names : existsb bad_name ids = false;
}.
Context (Hwf : well_formed) (Hmode : settings.(reservation_mode) <> "redis-first").

(** In the [postgres] mode the store is PostgreSQL's. *)
Lemma api_store_postgres (E : Env) : api_store dp (E := E) = PostgresReservations (E := E) hs.
Proof using Hmode. unfold api_store. by rewrite bool_decide_eq_false_2. Qed.

(** The handler of such a request. *)
Lemma hold_steps (E : Env) w :
  hold (E := E) settings jwt_decode (S := api_store dp (E := E)) credentials ev ids key w =
  (_ ← hold_phase "rate_limit" (rate_limit (E := E) who);
   result ← reserve (E := E) hs who ev (sorted_seats ids) key;
   mret (Success (if bool_decide (persistence_of result = Some PS_PENDING) then 202 else 201) (BodyResponse result) []))
  (add_obs (Obs "HOLD_PHASE" ["dispatch"; "ok"] 1) w).
Proof.
  rewrite api_store_postgres. destruct Hwf as [Ha Hi Hc Hn]. unfold hold, authenticated, app_reserve. rewrite Ha, Hi, Hc, Hn. reflexivity.
Qed.

(** A handler that raises is answered with the response of the exception. *)
Lemma ask_raises (E : Env) w w1 e :
  hold (E := E) settings jwt_decode (S := api_store dp (E := E)) credentials ev ids key w = (w1, Raise e) ->
  exists w2, ask_hold E w = (w2, Ok (handle_exception operational e)) /\ same_stores w1 w2.
Proof.
  intros Hrun. unfold ask_hold, respond, try_except. rewrite Hrun. destruct (record_exception_quiet operational e w1) as [Ho Hs].
  destruct (record_exception operational e w1) as [w2 r] eqn:Hre. simpl in *. subst r. exists w2. by rewrite (bind_ok _ _ _ _ _ Hre).
Qed.

Abbreviation wanted := (sorted_seats ids).

(** The outage an environment suffers, and the code it is answered with. *)
Definition outage_code (E : Env) (code : string) : Prop :=
  redis_down E /\ code = "ADMISSION_UNAVAILABLE" \/ database_down E /\ code = "DATABASE_UNAVAILABLE".

(** A hold during an outage: refused with 503, without a trace in the database or a shield left behind. *)
Lemma outage_refused (E : Env) code n w :
  outage_code E code -> 0 <= n < 20 -> rate_room who n w -> unshielded ev wanted w ->
  NoDup wanted -> (1 <= length wanted <= 8)%nat ->
  exists w1, ask_hold E w = (w1, Ok (business_error code 503))
    /\ w1.(w_db) = w.(w_db) /\ unshielded ev wanted w1 /\ rate_room who (n + 1) w1.
Proof.
  intros Hout Hn Hroom Hsh Hnd Hlen. set (w0 := add_obs (Obs "HOLD_PHASE" ["dispatch"; "ok"] 1) w).
  destruct Hout as [[Hd ->]|[Hd ->]].
  - destruct (rate_down who w0 Hd) as (w1 & Hrun & Hs). apply (hold_phase_run "rate_limit") in Hrun as (w2 & Hrun & Hs2).
    destruct (ask_raises E w w2 (Failure "ADMISSION_UNAVAILABLE" 503)) as (w3 & Hask & Hs3).
    { rewrite hold_steps. by rewrite (bind_raise _ _ _ _ _ Hrun). }
    assert (same_stores w0 w3) as Hall by (etrans; [exact Hs|]; by etrans).
    exists w3. split_and!; [done|by rewrite (ss_db _ _ Hall)| |].
    + intros s Hin. rewrite (ss_redis _ _ Hall). by apply Hsh.
    + intros k t. rewrite (ss_redis _ _ Hall). intros Hk. apply Hroom in Hk. lia.
  - destruct (rate_counted (proj2 Hd) who n ev wanted w0 Hn Hroom Hsh) as (w1 & Hrun & Hdb1 & Hsh1 & Hroom1).
    apply (hold_phase_run "rate_limit") in Hrun as (w2 & Hrun & Hs2).
    assert (sorted_seats (set_of wanted) = wanted) as Hperm by (by rewrite set_of_NoDup, sorted_seats_idem).
    destruct (reserve_refused Hd hs who ev wanted key w2) as (w3 & e & Hres & He & Hdb3 & Hsh3 & Hr3); [by rewrite Hperm|done| |].
    { intros s. rewrite Hperm, (ss_redis _ _ Hs2). apply Hsh1. }
    destruct (ask_raises E w w3 e) as (w4 & Hask & Hs4).
    { rewrite hold_steps, (bind_ok _ _ _ _ _ Hrun). by rewrite (bind_raise _ _ _ _ _ Hres). }
    exists w4. split_and!.
    + rewrite Hask. by destruct e.
    + rewrite (ss_db _ _ Hs4), Hdb3, (ss_db _ _ Hs2), Hdb1. done.
    + intros s Hin. rewrite (ss_redis _ _ Hs4). apply Hsh3. by rewrite Hperm.
    + intros k t. rewrite (ss_redis _ _ Hs4). intros Hk. eapply lookup_weaken in Hk; [|exact Hr3]. rewrite (ss_redis _ _ Hs2) in Hk. by eapply Hroom1.
Qed.

(** The same conditions after steps that kept the database and left no shield. *)
Lemma reservable_again (E : Env) w w' :
  reservable (E := E) who ev wanted key w -> w'.(w_db) = w.(w_db) -> unshielded ev wanted w' -> reservable (E := E) who ev wanted key w'.
Proof. intros [] Hdb Hsh. split; rewrite ?Hdb; done. Qed.

(** A hold of free seats in a calm environment is answered 201. *)
Lemma calm_granted (E : Env) `{!Calm E} n w :
  reservable (E := E) who ev wanted key w -> 0 <= n < 20 -> rate_room who n w ->
  exists w1 r, ask_hold E w = (w1, Ok (Success 201 (BodyResponse r) [])) /\ reserved_as (E := E) hs who ev wanted key r w.(w_db) w1.(w_db).
Proof.
  intros Hw Hn Hroom. set (w0 := add_obs (Obs "HOLD_PHASE" ["dispatch"; "ok"] 1) w).
  destruct (rate_counted calm_redis who n ev wanted w0 Hn Hroom (rs_shield _ _ _ _ _ Hw)) as (w1 & Hrun & Hdb1 & Hsh1 & _).
  apply (hold_phase_run "rate_limit") in Hrun as (w2 & Hrun & Hs2).
  assert (w2.(w_db) = w.(w_db)) as Hdb2 by (by rewrite (ss_db _ _ Hs2), Hdb1).
  assert (reservable (E := E) who ev wanted key w2) as Hw2.
  { apply (reservable_again E w); [done|done|]. intros s Hin. rewrite (ss_redis _ _ Hs2). by apply Hsh1. }
  destruct (reserve_returns hs who ev wanted key w2 Hw2) as (w3 & r & Hres).
  destruct (reserve_cases _ _ _ _ _ _ _ _ (inv_i _ (rs_inv _ _ _ _ _ Hw2)) Hres) as (_ & _ & [[(row & Hrow & _) _]|Hra]).
  { by rewrite (rs_key _ _ _ _ _ Hw2) in Hrow. }
  rewrite set_of_NoDup, sorted_seats_idem, Hdb2 in Hra by apply (rs_count _ _ _ _ _ Hw).
  exists w3, r. split; [|done]. unfold ask_hold, respond, try_except. rewrite hold_steps, (bind_ok _ _ _ _ _ Hrun), (bind_ok _ _ _ _ _ Hres).
  destruct Hra as [_ (f & sale & now & rows & hold & order & _ & _ & -> & _)]. done.
Qed.

(** C13: in the default [postgres] reservation mode an outage leaves no trace: while Redis refuses every call a
    well-formed hold is answered 503 [ADMISSION_UNAVAILABLE], and while no connection to PostgreSQL can be had
    (Redis up) 503 [DATABASE_UNAVAILABLE], and no row changes; and once nothing fails any more, the same
    request, with the same idempotency key, is answered 201 and grants the seats, if they are still
    free and the customer has room in the rate window.  (In [redis-first] mode a hold is accepted without
    PostgreSQL, so the theorem does not speak of that mode.) *)
Theorem outage_recovery (E E' : Env) `{!Calm E'} code w :
  redis_down E /\ code = "ADMISSION_UNAVAILABLE" \/ database_down E /\ code = "DATABASE_UNAVAILABLE" ->
  reservable (E := E') who ev wanted key w -> rate_room who 18 w ->
  exists w1 w2 r, ask_hold E w = (w1, Ok (business_error code 503))
    /\ w1.(w_db) = w.(w_db) /\ ask_hold E' w1 = (w2, Ok (Success 201 (BodyResponse r) []))
    /\ reserved_as (E := E') hs who ev wanted key r w.(w_db) w2.(w_db).
Proof using Hwf Hmode.
  intros Hout Hw Hroom. destruct (rs_count _ _ _ _ _ Hw) as [Hnd Hlen].
  destruct (outage_refused E code 18 w Hout) as (w1 & Hask & Hdb & Hsh & Hroom1); [lia|done|exact (rs_shield _ _ _ _ _ Hw)|done|done|].
  destruct (calm_granted E' 19 w1) as (w2 & r & Hask' & Hra); [by apply (reservable_again E' w)|lia|done|].
  exists w1, w2, r. by rewrite <-Hdb.
Qed.
End request.

(** ** A concrete outage *)

(** No connection can be had. *)
Definition down_env : Env := {|
  e_rng := fun i => Pos.of_succ_nat i; e_clock := fun _ => seconds 1000; e_mono := fun i => Z.of_nat i;
  e_busy := fun _ _ => false; e_pool := fun _ => Some PoolTimeout; e_begin := fun _ => None; e_rollback := fun _ => None; e_putconn := fun _ => None; e_commit := fun _ => NoFault;
  e_redis := fun _ => NoFault; e_digest := fun _ => "digest"; e_sha256 := fun s => s |}.

Lemma outage_recovery_witness :
  database_down down_env /\ exists w1 w2 r,
    ask_hold demo (fun _ t => Subject t) "alice" "k1" ev1 ["A003"; "A001"] down_env world0
      = (w1, Ok (business_error "DATABASE_UNAVAILABLE" 503))
    /\ ask_hold demo (fun _ t => Subject t) "alice" "k1" ev1 ["A003"; "A001"] still_env w1
      = (w2, Ok (Success 201 (BodyResponse r) [])).
Proof.
  assert (database_down down_env) as Hd by (split; [by exists PoolTimeout|done]). split; [done|].
  destruct (outage_recovery demo (fun _ t => Subject t) "alice" "alice" "k1" ev1 ["A003"; "A001"]
    ltac:(by split; vm_compute) ltac:(done) down_env still_env "DATABASE_UNAVAILABLE" world0) as (w1 & w2 & r & Hask & _ & Hask' & _).
  - by right.
  - apply world0_reservable.
  - intros k t Hk. vm_compute in Hk. done.
  - by exists w1, w2, r.
Defined.
