(* ===== verification/Settlement.v ===== *)
(** * Contracts of settlement

    What one call of [callback], [release] or [expire_batch] does to the database, on every branch, and
    what repeating the call does. *)

From S2P Require Import Prelude Domain Schema World Observability Postgres Sql Reservations.
From S2P Require Import Invariant InvReserve InvPayment InvCallback Fulfilment InvFulfil.
From S2P Require Import Cache Intake Service Config System Example.

(** ** callback *)

(** The receipt of a callback, as its row stands after the first delivery. *)
Definition receipt `{E : Env} (payload : callback_payload) : callback_row :=
  CallbackRow payload.(cb_payment_id) (digest (ReqCallback payload)).

Lemma callback_cases `{E : Env} payload w w' s :
  inv_core w.(w_db) -> callback payload w = (w', Ok s) ->
  (s = "duplicate" /\ w'.(w_db) = w.(w_db) /\ exists c,
     w.(w_db).(payment_callbacks) !! payload.(cb_callback_id) = Some c /\ c.(c_payload_hash) = digest (ReqCallback payload)) \/
  (s = "duplicate" /\
     w'.(w_db) = set_payment_callbacks <[payload.(cb_callback_id) := receipt payload]> w.(w_db) /\
     exists pr, w.(w_db).(payment_attempts) !! payload.(cb_payment_id) = Some pr /\ pr.(p_status) = P_SUCCEEDED) \/
  (exists o orow pr now valid dec m', s = decision_lower dec /\
     callback_facts payload w.(w_db) o orow pr now valid dec /\ decided payload w.(w_db) o orow dec m' w'.(w_db)).
Proof.
  intros Hc (w0 & w1 & Hs & Hrun & Hs')%transaction_ok. rewrite (ss_db _ _ Hs').
  rewrite <-(ss_db _ _ Hs) in *.
  refine (wp_run _ _ _ _ _ (wp_callback_tx payload (fun s w1 => _) w0 Hc _ _ _) Hrun).
  - intros w2 c Hcb Hh Hdb _. left. eauto.
  - intros w2 pr Hpr Hst _ Hdb _. right; left. eauto.
  - intros w2 o orow pr now valid dec m' Hf Hd _. right; right. by exists o, orow, pr, now, valid, dec, m'.
Qed.

(** C16: a callback that returns is a redelivery (same id and payload) and changes nothing; or arrives
    for a payment that has already succeeded and only leaves its receipt; or it has matched the
    order's id, amount and currency, and its effect is the one [payment_decision] names: [BOOK] books
    every seat of the order, consumes the hold and marks the order paid, [REFUND] and [FAIL] release
    the hold and settle the order, [UNCHANGED] records the payment status alone. *)
Theorem callback_effect `{E : Env} payload w w' s :
  inv w.(w_db) -> callback payload w = (w', Ok s) ->
  (s = "duplicate" /\ w'.(w_db) = w.(w_db) /\ exists c,
     w.(w_db).(payment_callbacks) !! payload.(cb_callback_id) = Some c /\ c.(c_payload_hash) = digest (ReqCallback payload)) \/
  (s = "duplicate" /\
     w'.(w_db) = set_payment_callbacks <[payload.(cb_callback_id) := receipt payload]> w.(w_db) /\
     exists pr, w.(w_db).(payment_attempts) !! payload.(cb_payment_id) = Some pr /\ pr.(p_status) = P_SUCCEEDED) \/
  (exists o orow pr now valid dec m', s = decision_lower dec /\
     callback_facts payload w.(w_db) o orow pr now valid dec /\ decided payload w.(w_db) o orow dec m' w'.(w_db)).
Proof. intros [[Hc _ _ _] _]. by apply callback_cases. Qed.

Lemma demo_callback : callback (E := demo_env) paid_payload paying_world = (booked_world, Ok "book").
Proof. by vm_compute. Qed.

Lemma demo_late_callback : callback (E := late_env) paid_payload paying_world = (refunded_world, Ok "refund").
Proof. by vm_compute. Qed.

Lemma callback_effect_witness :
  ("book" = "duplicate" /\ booked_world.(w_db) = paying_world.(w_db) /\ exists c,
     paying_world.(w_db).(payment_callbacks) !! 900%positive = Some c /\ c.(c_payload_hash) = "callback") \/
  ("book" = "duplicate" /\
     booked_world.(w_db) = set_payment_callbacks <[900%positive := CallbackRow 25 "callback"]> paying_world.(w_db) /\
     exists pr, paying_world.(w_db).(payment_attempts) !! 25%positive = Some pr /\ pr.(p_status) = P_SUCCEEDED) \/
  (exists o orow pr now valid dec m', "book" = decision_lower dec /\
     callback_facts (E := demo_env) paid_payload paying_world.(w_db) o orow pr now valid dec /\
     decided (E := demo_env) paid_payload paying_world.(w_db) o orow dec m' booked_world.(w_db)).
Proof.
  apply (callback_effect (E := demo_env) paid_payload);
    [apply (reachable_invariant demo), paying_reachable|apply demo_callback].
Defined.

(** The receipt is in place after a callback that returned. *)
Lemma callback_receipt `{E : Env} payload w w' s :
  inv_core w.(w_db) -> callback payload w = (w', Ok s) ->
  exists c, w'.(w_db).(payment_callbacks) !! payload.(cb_callback_id) = Some c /\
    c.(c_payload_hash) = digest (ReqCallback payload).
Proof.
  intros Hc [(_ & -> & Hr)|[(_ & -> & _)|(o & orow & pr & now & valid & dec & m' & _ & Hf & _ & f & ->)]]%callback_cases; [done| | |done].
  - eexists. split; [simpl; apply lookup_insert_eq|done].
  - exists (receipt payload). split; [|done]. unfold settle, booked, refunded. simpl.
    destruct dec; simpl; try apply lookup_insert_eq. destruct (negb _); apply lookup_insert_eq.
Qed.

(** C17: a callback takes effect once: after it has returned, any redelivery of the same payload leaves
    the database as it is and, if it returns, returns "duplicate". *)
Theorem callback_exactly_once (E1 E2 : Env) payload w w1 s :
  e_digest (Env := E1) = e_digest (Env := E2) -> inv w.(w_db) ->
  callback (E := E1) payload w = (w1, Ok s) ->
  let again := callback (E := E2) payload w1 in
  again.1.(w_db) = w1.(w_db) /\ forall s', again.2 = Ok s' -> s' = "duplicate".
Proof.
  intros Hdig Hinv Hrun.
  destruct (callback_receipt (E := E1) payload w w1 s (inv_c _ (inv_com _ Hinv)) Hrun) as (c & Hc & Hh).
  assert (inv w1.(w_db)) as [[Hcore _ _ _] _].
  { apply (keeps_run inv (callback (E := E1) payload) w w1 (Ok s)); [|done..].
    apply keeps_transaction. intros. by apply callback_tx_inv. }
  assert (forall w0, w0.(w_db) = w1.(w_db) ->
    wp (callback_tx (E := E2) payload) (fun s' w2 => s' = "duplicate" /\ w2.(w_db) = w1.(w_db)) w0) as Htx.
  { intros w0 Hw0. rewrite <-Hw0 in *. apply wp_callback_tx; [done|by intros| |].
    - intros w2 pr _ _ Hnone. congruence.
    - intros w2 o orow pr now valid dec m' Hf _ _. pose proof (cf_new _ _ _ _ _ _ _ _ Hf). congruence. }
  split.
  - apply (keeps_transaction (E := E2) (fun d => d = w1.(w_db))); [|done]. intros w0 Hw0.
    eapply wp_mono; [by apply Htx|]. by intros ? ? [_ ?].
  - intros s' Hok. destruct (callback (E := E2) payload w1) as [w2 o] eqn:Hrun2. simpl in Hok. subst o.
    apply transaction_ok in Hrun2 as (w3 & w4 & Hs & Hrun2 & _).
    by destruct (wp_run _ _ _ _ _ (Htx w3 (ss_db _ _ Hs)) Hrun2).
Qed.

Lemma callback_exactly_once_witness :
  let again := callback (E := late_env) paid_payload booked_world in
  again.2 = Ok "duplicate" /\ again.1.(w_db) = booked_world.(w_db) /\ forall s', again.2 = Ok s' -> s' = "duplicate".
Proof.
  split; [by vm_compute|].
  apply (callback_exactly_once demo_env late_env paid_payload paying_world booked_world "book");
    [done|apply (reachable_invariant demo), paying_reachable|apply demo_callback].
Defined.

(** A success that arrives after the hold has expired is refunded, never booked: the callback, if it
    returns, answers "refund", the order is waiting for its refund under a refund request for that
    payment, and no seat is booked to it. *)
Theorem late_success_refunds `{E : Env} payload w w' s pr orow hr :
  inv w.(w_db) -> callback payload w = (w', Ok s) -> payload.(cb_outcome) = SUCCEEDED ->
  w.(w_db).(payment_callbacks) !! payload.(cb_callback_id) = None ->
  w.(w_db).(payment_attempts) !! payload.(cb_payment_id) = Some pr -> pr.(p_status) <> P_SUCCEEDED ->
  w.(w_db).(orders) !! payload.(cb_order_id) = Some orow -> w.(w_db).(holds) !! orow.(o_hold_id) = Some hr ->
  is_booked orow.(o_status) = false -> (forall i, hr.(h_expires_at) <= e_clock i) ->
  s = "refund" /\
  (exists r', w'.(w_db).(orders) !! payload.(cb_order_id) = Some r' /\ r'.(o_status) = O_REFUND_PENDING) /\
  is_Some (w'.(w_db).(refund_requests) !! payload.(cb_payment_id)) /\
  forall k q, w'.(w_db).(event_seats) !! k = Some q -> q.(s_booked_order_id) <> Some payload.(cb_order_id).
Proof.
  intros Hinv Hrun Hout Hnew Hpr Hst Ho Hhr Hnb Hexp.
  assert (inv w'.(w_db)) as [[Hcore Hpay _ _] _].
  { apply (keeps_run inv (callback payload) w w' (Ok s)); [|done..].
    apply keeps_transaction. intros. by apply callback_tx_inv. }
  apply callback_cases in Hrun as [(_ & _ & c & Hc & _)|[(_ & _ & pr' & Hpr' & Hst')|
    (o & orow' & pr' & now & valid & dec & m' & -> & Hf & Hdec)]]; [congruence|congruence| |apply Hinv].
  pose proof Hf as [[i Hi] _ [_ Hoid] Ho' _ _ _ Hval Hd]. subst o. simplify_eq.
  assert (payment_decision (o_status orow) (callback_valid (o_hold_id orow) (holds (w_db w) !! o_hold_id orow)
    (e_clock i) (seats_of_order (cb_order_id payload) (w_db w))) (cb_outcome payload) = REFUND) as Hrefund.
  { rewrite Hhr, Hout. unfold payment_decision, callback_valid, hold_valid. rewrite Hnb.
    destruct (seats_of_order _ _); [by rewrite andb_false_r|].
    rewrite (proj2 (Z.ltb_ge _ _) (Hexp i)), andb_false_r. simpl. by rewrite andb_false_r. }
  rewrite Hrefund in *. destruct Hdec as [_ [f Hdb]].
  destruct (refunded_order payload w.(w_db) _ orow pr' _ _ REFUND Hf) as (r' & Hr' & _ & Hs').
  rewrite Hdb in *. simpl in *.
  assert (refunding (o_status r') = true) as Href by by rewrite Hs'.
  split; [done|]. split; [eauto|]. split.
  - unfold refunded. simpl. destruct (has _ _) eqn:Hh; simpl; [by apply has_true in Hh|by rewrite lookup_insert_eq].
  - intros k q Hq Hb. destruct (ic_seat_booked _ Hcore _ _ _ Hq Hb) as (o2 & _ & _ & Ho2 & Hb2 & _).
    simpl in Ho2. rewrite Hr' in Ho2. simplify_eq. by rewrite Hs' in Hb2.
Qed.

Lemma late_success_refunds_witness :
  "refund" = "refund" /\
  (exists r', refunded_world.(w_db).(orders) !! 10%positive = Some r' /\ r'.(o_status) = O_REFUND_PENDING) /\
  is_Some (refunded_world.(w_db).(refund_requests) !! 25%positive) /\
  forall k q, refunded_world.(w_db).(event_seats) !! k = Some q -> q.(s_booked_order_id) <> Some 10%positive.
Proof.
  apply (late_success_refunds (E := late_env) paid_payload paying_world refunded_world "refund"
    (PaymentRow 10 P_PENDING SUCCEEDED 1000000023 0 1 None None) (OrderRow "alice" 9 ev1 500 "THB" O_PENDING)
    (HoldRow "alice" ev1 1120000007 H_ACTIVE));
    [apply (reachable_invariant demo), paying_reachable|apply demo_late_callback|done..|].
  intros i. unfold late_env, e_clock, seconds, us_per_second, h_expires_at. lia.
Defined.

(** ** release and expire_batch *)

(** A hold its owner releases frees exactly its own seats: the order was the caller's and not
    booked, every unbooked seat of the hold becomes free, every other seat keeps its row, the hold is no
    longer active and the order no longer pending. *)
Theorem release_effect `{E : Env} actor hold_id w w' s :
  inv w.(w_db) -> release actor hold_id w = (w', Ok s) ->
  exists o r, w.(w_db).(orders) !! o = Some r /\ r.(o_hold_id) = hold_id /\ r.(o_actor) = actor /\
    is_booked r.(o_status) = false /\
    (forall k, w'.(w_db).(event_seats) !! k =
       (fun q => if held_by hold_id k q then seat_free q else q) <$> w.(w_db).(event_seats) !! k) /\
    (forall k q, w'.(w_db).(event_seats) !! k = Some q -> q.(s_hold_id) <> Some hold_id) /\
    (exists h, w'.(w_db).(holds) !! hold_id = Some h /\ h.(h_status) <> H_ACTIVE) /\
    (exists r', w'.(w_db).(orders) !! o = Some r' /\ r'.(o_status) <> O_PENDING).
Proof.
  intros Hinv ([] & w1 & Hrun & [= <- <-])%bind_inv_ok.
  apply transaction_ok in Hrun as (w0 & w2 & Hs & Hrun & Hs'). rewrite (ss_db _ _ Hs'), <-(ss_db _ _ Hs) in *.
  pose proof (wp_run _ _ _ _ _ (release_tx_inv actor hold_id w0 Hinv) Hrun) as [[Hc2 _ _ _] _].
  revert Hc2. refine (wp_run _ _ _ _ _ (_ : wp _ (fun _ w2 => _) w0) Hrun). unfold release_tx. wp_sql.
  apply wp_release. intros w3 f Hdb _ Hc2. destruct a as [o r]. rewrite Hdb in *. simpl in *.
  match goal with Hf : order_of_hold _ _ _ = Some _ |- _ => apply order_of_hold_Some in Hf as (Ho & Hh & Ha) end. subst hold_id.
  destruct (ic_order_hold _ (inv_c _ (inv_com _ Hinv)) _ _ Ho) as (h & Hhold & _).
  exists o, r. do 4 (split; [done|]). split; [intros k; by rewrite lookup_update_where|]. split; [|split].
  - intros k q (q0 & Hq0 & ->)%update_where_Some Hheld.
    unfold held_by in Hheld. case_bool_decide as Hb; [done|]. apply Hb. split; [done|].
    pose proof (ic_seat_row _ (inv_c _ (inv_com _ Hinv)) _ _ Hq0) as [_ [?|?]%orb_true_iff]%andb_true_iff; bool_hyps; congruence.
  - eexists. split; [apply update_where_Some; eauto|]. unfold active_hold. rewrite bool_decide_eq_true_2 by done. simpl.
    case_bool_decide; done.
  - eexists. split; [apply update_where_Some; eauto|]. unfold pending_order. rewrite bool_decide_eq_true_2 by done. simpl.
    case_bool_decide; done.
Qed.

Definition released_world : world := Eval vm_compute in (release (E := demo_env) "alice" 9 held_world).1.

Lemma release_effect_witness :
  exists o r, held_world.(w_db).(orders) !! o = Some r /\ r.(o_hold_id) = 9%positive /\ r.(o_actor) = "alice" /\
    is_booked r.(o_status) = false /\
    (forall k, released_world.(w_db).(event_seats) !! k =
       (fun q => if held_by 9 k q then seat_free q else q) <$> held_world.(w_db).(event_seats) !! k) /\
    (forall k q, released_world.(w_db).(event_seats) !! k = Some q -> q.(s_hold_id) <> Some 9%positive) /\
    (exists h, released_world.(w_db).(holds) !! 9%positive = Some h /\ h.(h_status) <> H_ACTIVE) /\
    (exists r', released_world.(w_db).(orders) !! o = Some r' /\ r'.(o_status) <> O_PENDING).
Proof.
  apply (release_effect (E := demo_env) "alice" 9 held_world released_world "RELEASED");
    [apply (reachable_invariant demo), held_reachable|by vm_compute].
Defined.

(** The releases of a batch, one after the other. *)
Definition released_all (batch : list (uuid * order_row)) (d : db) : db :=
  foldl (fun d ko => released ko.2.(o_hold_id) ko.1 H_EXPIRED d) d batch.

(** *** The order of a batch *)

Lemma StronglySorted_weaken {A} (R R' : relation A) l :
  (forall x y, x ∈ l -> y ∈ l -> R x y -> R' x y) -> StronglySorted R l -> StronglySorted R' l.
Proof.
  intros HR Hs. revert HR. induction Hs as [|x l _ IH Hx]; intros HR; constructor.
  - apply IH. intros y z Hy Hz. apply HR; by right.
  - rewrite Forall_forall in *. intros y Hy. apply HR; [by left|by right|auto].
Qed.

Lemma StronglySorted_sublist {A} (R : relation A) k l : sublist k l -> StronglySorted R l -> StronglySorted R k.
Proof.
  intros Hsub. induction Hsub as [|x k l Hsub IH|x k l Hsub IH]; [done| |]; intros [Hs Hx]%StronglySorted_inv; [|auto].
  constructor; [auto|]. rewrite Forall_forall in *. intros y Hy. apply Hx. by eapply sublist_subseteq.
Qed.

(** An order whose hold is active and has expired by [now]. *)
Definition lapsed (now : Z) (d : db) (o : uuid) (r : order_row) : Prop :=
  d.(orders) !! o = Some r /\
  exists h, d.(holds) !! r.(o_hold_id) = Some h /\ h.(h_status) = H_ACTIVE /\ h.(h_expires_at) <= now.

(** The hold of [x] expires no later than that of [y]. *)
Definition expires_before (d : db) (x y : uuid * order_row) : Prop :=
  forall hx hy, d.(holds) !! x.2.(o_hold_id) = Some hx -> d.(holds) !! y.2.(o_hold_id) = Some hy ->
    hx.(h_expires_at) <= hy.(h_expires_at).

Lemma expired_orders_sorted now d : StronglySorted (expires_before d) (expired_orders now d).
Proof.
  unfold expired_orders. change (map fst) with (@fmap list _ (uuid * order_row * Z) _ fst).
  set (l := omap _ _). apply (StronglySorted_fmap fst (fun x y => expires_before d x.1 y.1)); [done|].
  eapply StronglySorted_weaken; [|apply (StronglySorted_merge_sort (key_le snd)); apply _].
  assert (forall x, x ∈ order_by snd l -> exists h, d.(holds) !! x.1.2.(o_hold_id) = Some h /\ x.2 = h.(h_expires_at)) as Hx.
  { intros x. rewrite order_by_perm. intros ([o r] & _ & Hr)%list_elem_of_omap. simpl in Hr.
    destruct (holds d !! o_hold_id r) as [h|] eqn:Hh; [|done]. destruct (_ && _); simplify_eq/=. eauto. }
  intros x y (h1 & H1 & E1)%Hx (h2 & H2 & E2)%Hx Hle hx hy Hhx Hhy. unfold key_le in Hle. simplify_eq. lia.
Qed.

Lemma expired_orders_NoDup now d : NoDup (expired_orders now d).
Proof.
  unfold expired_orders. change (map fst) with (@fmap list _ (uuid * order_row * Z) _ fst). rewrite order_by_perm.
  eapply sublist_NoDup; [apply (NoDup_map_to_list d.(orders))|]. induction (map_to_list d.(orders)) as [|ko l IH]; simpl; [constructor|].
  destruct (holds d !! _) as [h|]; [|by constructor]. destruct (_ && _); csimpl; by constructor.
Qed.

(** What the rows of a batch are, whatever is locked, and which ones it leaves when nothing is. *)
Lemma batch_lapsed now d batch o r : sublist batch (expired_orders now d) -> (o, r) ∈ batch -> lapsed now d o r.
Proof. intros Hs Hin. apply elem_of_expired_orders. by eapply sublist_subseteq. Qed.

Lemma left_behind now d k o r :
  lapsed now d o r -> (o, r) ∈ take k (expired_orders now d) \/
  length (take k (expired_orders now d)) = k /\ forall x, x ∈ take k (expired_orders now d) -> expires_before d x (o, r).
Proof.
  intros Hl%elem_of_expired_orders. pose proof (expired_orders_sorted now d) as Hs. set (l := expired_orders now d) in *.
  rewrite <-(take_drop k l), elem_of_app in Hl. destruct Hl as [Hl|Hd]; [by left|right]. split.
  - rewrite length_take. destruct (drop k l) as [|y rest] eqn:He; [by apply not_elem_of_nil in Hd|].
    apply (f_equal length) in He. rewrite length_drop in He. simpl in He. lia.
  - intros x Hx. rewrite <-(take_drop k l) in Hs. by eapply StronglySorted_app_1_elem_of.
Qed.

(** C18: [expire_batch] releases at most [limit] orders, no order twice, each of a hold that is active and
    has expired by the instant it read, in the order in which the holds expired, and answers how many;
    when nothing is locked, an order of an expired active hold is left behind only by a full batch, all of whose
    holds expired no later than its own. *)
Theorem expire_batch_effect `{E : Env} limit w w' n :
  expire_batch limit w = (w', Ok n) ->
  1 <= limit <= 100 /\ exists now batch f, (exists i, now = e_clock i) /\
    NoDup batch /\ (forall o r, (o, r) ∈ batch -> lapsed now w.(w_db) o r) /\
    StronglySorted (expires_before w.(w_db)) batch /\
    n = Z.of_nat (length batch) /\ n <= limit /\
    ((forall i l, e_busy i l = false) -> forall o r, lapsed now w.(w_db) o r ->
       (o, r) ∈ batch \/ n = limit /\ forall x, x ∈ batch -> expires_before w.(w_db) x (o, r)) /\
    w'.(w_db) = set_outbox_events f (released_all batch w.(w_db)).
Proof.
  unfold expire_batch. intros ([] & w1 & Hcheck & Hrun)%bind_inv_ok.
  unfold raise_if, raise in Hcheck. destruct (negb _) eqn:Hb; [done|]. injection Hcheck as <-. bool_hyps. split; [lia|].
  apply transaction_ok in Hrun as (w0 & w2 & Hs & Hrun & Hs'). rewrite (ss_db _ _ Hs'), <-(ss_db _ _ Hs) in *.
  refine (wp_run _ _ _ _ _ (_ : wp _ (fun n w2 => _) w0) Hrun). unfold expire_tx.
  apply wp_bind, wp_clock, wp_bind, wp_sql. cbn [w_tick next_tick w_db]. set (now := e_clock _).
  unfold skip_locked. apply wp_bind, wp_bind, wp_draw, wp_ret. cbn [w_tick next_tick].
  set (free := filter _ _). set (batch := take _ free). apply wp_bind.
  eapply wp_mono; [apply (wp_for_each_prefix (fun pre w' =>
    exists f, w'.(w_db) = set_outbox_events f (released_all pre w0.(w_db))))|].
  - intros pre [o r] rest w3 _ [f Hdb]. apply wp_release. intros w4 g Hdb4 _. exists (fun m => g (f m)).
    rewrite Hdb4, Hdb. unfold released_all. by rewrite foldl_app.
  - exists (fun m => m). simpl. by destruct (w_db w0).
  - intros [] w3 [f Hdb]. apply wp_ret. exists now, batch, f. split; [by eexists|].
    assert (sublist batch (expired_orders now w0.(w_db))) as Hsub by (etrans; [apply sublist_take|apply sublist_filter]).
    split_and!; [eapply sublist_NoDup; [apply expired_orders_NoDup|done]|by intros; eapply batch_lapsed
      |by eapply StronglySorted_sublist, expired_orders_sorted|done|unfold batch; rewrite length_take; lia| |done].
    intros Hfree o r Hl. assert (batch = take (Z.to_nat limit) (expired_orders now w0.(w_db))) as ->.
    { unfold batch, free. f_equal. apply filter_all. intros x. by rewrite Hfree. }
    destruct (left_behind _ _ (Z.to_nat limit) _ _ Hl) as [Hin|[-> Hall]]; [by left|right]. split; [lia|done].
Qed.

(** The two worlds around one expiry run, after the hold of Alice has lapsed. *)
Definition expired_world : world := Eval vm_compute in (expire_batch (E := late_env) 8 held_world).1.

Lemma expire_batch_effect_witness :
  1 <= 8 <= 100 /\ exists now batch f, (exists i, now = e_clock (Env := late_env) i) /\
    NoDup batch /\ (forall o r, (o, r) ∈ batch -> lapsed now held_world.(w_db) o r) /\
    StronglySorted (expires_before held_world.(w_db)) batch /\
    1 = Z.of_nat (length batch) /\ 1 <= 8 /\
    ((forall i l, e_busy (Env := late_env) i l = false) -> forall o r, lapsed now held_world.(w_db) o r ->
       (o, r) ∈ batch \/ 1 = 8 /\ forall x, x ∈ batch -> expires_before held_world.(w_db) x (o, r)) /\
    expired_world.(w_db) = set_outbox_events f (released_all batch held_world.(w_db)).
Proof. apply (expire_batch_effect (E := late_env) 8 held_world expired_world 1). by vm_compute. Defined.
