(* ===== verification/Availability.v ===== *)
(** * What the Redis side guarantees

    The admission shield excludes, PUT never goes back to an older seat document, the browse cache
    stays within its bounds and never answers with a body it cannot vouch for, and a Redis-first
    command takes all of its seats or none and keeps them until they expire, as long as the key of the
    seat map lives. *)

From S2P Require Import Prelude Domain Schema World Observability Sql Cache CacheFacts Browse Intake IntakeFacts.
From S2P Require Import Config System Example.

(** ** Admission *)

(** C22: the shield excludes: after an acquisition that succeeds, and until its two seconds have passed
    or its own token releases it, no acquisition that names one of its keys succeeds, whatever
    acquisitions and releases of others run in between. *)
Theorem shield_excludes keys token now r r' ops :
  shield_step (Acquire keys token now) r = (r', true) ->
  (forall o, o ∈ ops -> op_time o < now + milliseconds 2000) ->
  (forall keys' t, Release keys' token t ∉ ops) ->
  forall i k keys' t now', ops !! i = Some (Acquire keys' t now') -> k ∈ keys -> k ∈ keys' ->
    (shield_run ops r').2 !! i = Some false.
Proof.
  intros Hacq Ht Hrel i k keys' t now' Hi Hk Hk'.
  destruct (shield_run_keeps ops r' k token _ (acquire_holds keys token now r r' k Hacq Hk) Ht Hrel) as [_ Hrun].
  by eapply Hrun.
Qed.

Definition shielded : redis := (shield_step (Acquire [(ev1, "A001"); (ev1, "A002")] 5 0) empty_redis).1.

Lemma shield_excludes_witness :
  (shield_run [Release [(ev1, "A001")] 6 10; Acquire [(ev1, "A002"); (ev1, "A003")] 7 20] shielded).2 !! 1%nat = Some false.
Proof.
  apply (shield_excludes [(ev1, "A001"); (ev1, "A002")] 5 0 empty_redis shielded) with
    (k := (ev1, "A002")) (keys' := [(ev1, "A002"); (ev1, "A003")]) (t := 7%positive) (now' := 20).
  - by vm_compute.
  - intros o [-> | [-> | []%not_elem_of_nil]%elem_of_cons]%elem_of_cons; by vm_compute.
  - intros keys' t Hin. apply elem_of_cons in Hin as [|Hin]; [done|].
    apply elem_of_cons in Hin as [|Hin]; [done|]. by apply not_elem_of_nil in Hin.
  - done.
  - apply list_elem_of_further, list_elem_of_here.
  - apply list_elem_of_here.
Defined.

(** ** The seat map *)

Lemma same_row rows x y : NoDup (map cs_seat_id rows) -> x ∈ rows -> y ∈ rows -> x.(cs_seat_id) = y.(cs_seat_id) -> x = y.
Proof.
  induction rows as [|z rows IH]; simpl; intros Hnd Hx Hy Heq; [by apply not_elem_of_nil in Hx|].
  apply NoDup_cons in Hnd as [Hz Hnd].
  assert (forall u, u ∈ rows -> u.(cs_seat_id) <> z.(cs_seat_id)) as Hne.
  { intros u Hu He. apply Hz. rewrite <-He. by apply (list_elem_of_fmap_2 cs_seat_id). }
  apply elem_of_cons in Hx as [->|Hx]; apply elem_of_cons in Hy as [->|Hy]; [done| | |by apply IH].
  - by destruct (Hne y Hy).
  - by destruct (Hne x Hx).
Qed.

(** C23: a write never takes a seat back to an older state: after a full rebuild or a patch, a row that is
    newer than the cached document by source version, or whose seat was not cached, is the seat's
    document; a row that is no newer leaves the cached document in place, up to the map version it is
    stamped with; a seat without a row keeps its document as it is; and no seat's source version has
    gone back. *)
Theorem put_never_regresses mode rows meta now h h' v s :
  keyed (seats_of h) -> NoDup (map cs_seat_id rows) -> put_refused mode h = false ->
  put_hash mode rows meta now h = (Some h', v) ->
  (forall row, row ∈ rows -> row.(cs_seat_id) = s ->
     (forall o, seats_of h !! s = Some o -> o.(cs_source_version) < row.(cs_source_version)) ->
     h'.(sh_seats) !! s = Some (with_version v row)) /\
  (forall row o, row ∈ rows -> row.(cs_seat_id) = s -> seats_of h !! s = Some o ->
     row.(cs_source_version) <= o.(cs_source_version) ->
     exists v', h'.(sh_seats) !! s = Some (with_version v' o)) /\
  ((forall row, row ∈ rows -> row.(cs_seat_id) <> s) -> h'.(sh_seats) !! s = seats_of h !! s) /\
  (forall o, seats_of h !! s = Some o ->
     exists c, h'.(sh_seats) !! s = Some c /\ o.(cs_source_version) <= c.(cs_source_version)).
Proof.
  intros Hk Hnd Hr Hp. destruct (put_document mode rows meta now h h' v s Hk Hnd Hr Hp) as [(row & Hin & Hid & Hs)|[Hs Hold]].
  - assert (forall row', row' ∈ rows -> row'.(cs_seat_id) = s -> row' = row) as Huniq.
    { intros row' Hin' Hid'. apply (same_row rows); congruence. }
    rewrite Hs. unfold kept, put_selected, put_newer. rewrite Hid. split_and!.
    + intros row' Hin' Hid' Hnew. rewrite (Huniq row' Hin' Hid') in *. destruct (seats_of h !! s) as [o|]; [|done].
      by rewrite (proj2 (Z.ltb_lt _ _) (Hnew o eq_refl)).
    + intros row' o Hin' Hid' Ho Hle. rewrite (Huniq row' Hin' Hid') in *. rewrite Ho, (proj2 (Z.ltb_ge _ _)) by done. eauto.
    + intros Hno. by destruct (Hno row Hin).
    + intros o Ho. rewrite Ho. destruct (_ <? _) eqn:Hlt; bool_hyps; (eexists; split; [done|]; simpl; lia).
  - rewrite Hs. split_and!.
    + intros row Hin Hid Hnew. destruct (Hold row Hin Hid) as (o & Ho & Hle). specialize (Hnew o Ho). lia.
    + intros row o _ _ Ho _. exists o.(cs_version). rewrite Ho. by destruct o.
    + done.
    + intros o Ho. exists o. split; [done|lia].
Qed.

Definition demo_doc (s : string) (st : seat_status) (v sv : Z) : cseat := CSeat s 250 st None None v sv None.
Definition demo_hash : seat_hash :=
  SeatHash (Some 3) false (Some 77%positive) (Some (LayoutDoc ev1 [])) (Some "layout:0") (Some 0) (Some (seconds 5000)) (Some "THB")
    {[ "A001" := demo_doc "A001" AVAILABLE 3 1; "A002" := demo_doc "A002" SOLD 3 2 ]} None.

Lemma demo_keyed : keyed (seats_of (Some demo_hash)).
Proof.
  intros k s. cbn. intros [[<- <-]|[_ [<- <-]%lookup_singleton_Some]]%lookup_insert_Some; done.
Qed.

Definition stale_rows : list cseat := [demo_doc "A001" HELD 0 4; demo_doc "A002" AVAILABLE 0 1].

Lemma put_never_regresses_witness :
  let seats := (default empty_hash (put_hash PATCH stale_rows None 0 (Some demo_hash)).1).(sh_seats) in
  (exists v', seats !! "A002" = Some (with_version v' (demo_doc "A002" SOLD 3 2))) /\
  seats !! "A001" = Some (with_version 6 (demo_doc "A001" HELD 0 4)).
Proof.
  intros seats. assert (NoDup (map cs_seat_id stale_rows)) as Hnd by (apply (bool_decide_unpack (NoDup _)); by vm_compute).
  assert (put_hash PATCH stale_rows None 0 (Some demo_hash) = (Some (default empty_hash (put_hash PATCH stale_rows None 0 (Some demo_hash)).1), 6))
    as Hput by (by vm_compute). split.
  - destruct (put_never_regresses PATCH stale_rows None 0 (Some demo_hash) _ 6 "A002" demo_keyed Hnd eq_refl Hput) as (_ & Hold & _).
    apply (Hold (demo_doc "A002" AVAILABLE 0 1)); [right; left|done|by vm_compute|done].
  - destruct (put_never_regresses PATCH stale_rows None 0 (Some demo_hash) _ 6 "A001" demo_keyed Hnd eq_refl Hput) as (Hnew & _).
    apply Hnew; [left|done|]. intros o Ho. by vm_compute in Ho; injection Ho as <-.
Defined.

(** The map version is the sum of the source versions: a full rebuild whose rows cover the cached
    seats sets it so, and a patch keeps it so. *)
Theorem put_version_is_sum mode rows meta now h h' v :
  keyed (seats_of h) -> NoDup (map cs_seat_id rows) -> put_refused mode h = false ->
  put_hash mode rows meta now h = (Some h', v) ->
  match mode with
  | FULL => forall k, is_Some (seats_of h !! k) -> k ∈ map cs_seat_id rows
  | PATCH => (default empty_hash h).(sh_version) = Some (source_sum (seats_of h))
  end ->
  h'.(sh_version) = Some v /\ v = source_sum h'.(sh_seats).
Proof. apply put_version. Qed.

Lemma put_version_is_sum_witness :
  let h' := default empty_hash (put_hash PATCH stale_rows None 0 (Some demo_hash)).1 in
  h'.(sh_version) = Some 6 /\ 6 = source_sum h'.(sh_seats).
Proof.
  apply (put_version_is_sum PATCH stale_rows None 0 (Some demo_hash) _ 6).
  - apply demo_keyed.
  - apply (bool_decide_unpack (NoDup _)). by vm_compute.
  - done.
  - by vm_compute.
  - by vm_compute.
Defined.

(** A seat map whose validator does not separate two states: the seat is free, a command holds it, a
    full rebuild from unchanged rows brings the version back, and the first tag matches again. *)
Theorem availability_tag_repeats :
  let r0 := set_seatmaps (fun _ => {[ ev1 := demo_hash ]}) empty_redis in
  let args := EnqueueArgs ev1 "alice" "h" 100 120 (seconds 120) 86400 (Command 700 "alice" "k" "h" ev1 ["A001"] 701 702 (seconds 120)) in
  let r1 := (ENQUEUE args 0 r0).1 in
  let meta := PutMeta (LayoutDoc ev1 []) "layout:0" 78 30 None in
  let r2 := (PUT ev1 FULL [demo_doc "A001" AVAILABLE 0 1; demo_doc "A002" SOLD 0 2] (Some meta) 1 r1).1 in
  let tag := AvailabilityTag ev1 77 3 in
  (BROWSE ev1 AVAILABILITY [] 30 0 r0).2 =
    BrowseSeats tag 3 [demo_doc "A001" AVAILABLE 3 1; demo_doc "A002" SOLD 3 2] /\
  (exists c, cached_seat r2 ev1 "A001" = Some c /\ c.(cs_status) = HELD) /\
  (BROWSE ev1 AVAILABILITY [ExactTag tag] 30 2 r2).2 = BrowseNotModified tag.
Proof. split; [by vm_compute|]. split; [by eexists; vm_compute|by vm_compute]. Qed.

(** ** Encoded bodies *)

(** C24: the in-process cache of encoded bodies stays within its entry and byte limits, its byte count is
    exact and its keys distinct, whatever a request meets; and a request never fails its internal
    assertion, answers 304 only to a client validator that matches, and answers 200 with a body. *)
Theorem browse_encoded_sound `{E : Env} ttl entries limit encode event kind tags s :
  0 <= entries -> bounded entries limit s.2 ->
  let res := browse_encoded ttl entries limit encode event kind tags s in
  bounded entries limit res.1.2 /\ res.2 <> Raise AssertionError /\
  forall status tag body, res.2 = Ok (status, tag, body) ->
    (status = 304 /\ body = None /\ matches tag tags = true) \/ (status = 200 /\ is_Some body).
Proof.
  intros Hpos Hb. cbv zeta. split; [|split].
  - unfold browse_encoded. pose proof (lookup_body_bounded entries limit (event, kind) s.2 Hb) as Hc1.
    destruct (lookup_body (event, kind) s.2) as [c1 cached]. simpl in Hc1.
    destruct (browse _ _ _ _ _) as [w' [[[status tag] body]|e]]; [|done].
    destruct (status =? 304); [|destruct body; [by apply store_body_bounded|done]].
    destruct (matches _ _); [done|]. destruct cached as [[t b]|]; [|done]. by case_bool_decide.
  - intros Hr. destruct (browse_encoded _ _ _ _ _ _ _ s) as [s' o] eqn:Hrun. simpl in Hr. subst o.
    by eapply browse_encoded_asserts.
  - unfold browse_encoded. destruct (lookup_body (event, kind) s.2) as [c1 cached].
    destruct (browse _ _ _ _ _) as [w' [[[status tag] body]|e]]; [|done]. intros st tg bd.
    destruct (status =? 304).
    + destruct (matches tag tags) eqn:Hm; [intros [= <- <- <-]; auto|].
      destruct cached as [[t b]|]; [|done]. case_bool_decide; [intros [= <- <- <-]; right; eauto|done].
    + destruct body; [intros [= <- <- <-]; right; eauto|done].
Qed.

Definition browsed_world : world := World catalogue (set_seatmaps (fun _ => {[ ev1 := demo_hash ]}) empty_redis) [] 0 [] None.

Lemma browse_encoded_sound_witness :
  let res := browse_encoded (E := demo_env) 30 2 100 (fun _ => "body") ev1 AVAILABILITY [] (browsed_world, empty_bodies) in
  res.2 = Ok (200, AvailabilityTag ev1 77 3, Some "body") /\
  bounded 2 100 res.1.2 /\ res.2 <> Raise AssertionError /\
  forall status tag body, res.2 = Ok (status, tag, body) ->
    (status = 304 /\ body = None /\ matches tag [] = true) \/ (status = 200 /\ is_Some body).
Proof.
  split; [by vm_compute|].
  apply (browse_encoded_sound (E := demo_env) 30 2 100 (fun _ => "body") ev1 AVAILABILITY [] (browsed_world, empty_bodies)); [done|].
  split; simpl; [constructor|done|done|done].
Defined.

(** ** Redis-first commands *)



Definition demo_args (command hold order : uuid) (seats : list string) (key : string) : enqueue_args :=
  EnqueueArgs ev1 key key 100 120 (seconds 120) 86400 (Command command "alice" key key ev1 seats hold order (seconds 120)).
Definition demo_redis : redis := set_seatmaps (fun _ => {[ ev1 := demo_hash ]}) empty_redis.
Definition enqueued : redis := (ENQUEUE (demo_args 700 701 702 ["A001"] "k1") 0 demo_redis).1.

(** The map as a full rebuild writes it, with the default life of 30 seconds, and Alice's hold on it. *)
Definition demo_rows : list cseat := [demo_doc "A001" AVAILABLE 0 1; demo_doc "A002" SOLD 0 2].
Definition rebuild : script := SPut ev1 FULL demo_rows (Some (PutMeta (LayoutDoc ev1 []) "layout:0" 78 30 (Some (0, seconds 5000, "THB")))).
Definition warm_redis : redis := (run_scripts [(rebuild, 0); (SEnqueue (demo_args 700 701 702 ["A001"] "k1"), 0)] empty_redis).1.

Definition keyed_check (h : seat_hash) : bool := forallb (fun kc => bool_decide (kc.2.(cs_seat_id) = kc.1)) (map_to_list h.(sh_seats)).

Lemma keyed_checked h : keyed_check h = true -> keyed h.(sh_seats).
Proof.
  intros Hc k c Hk. unfold keyed_check in Hc. rewrite forallb_forall in Hc. apply elem_of_map_to_list, list_elem_of_In, Hc in Hk. simpl in Hk. by bool_hyps.
Qed.

Lemma warm_held : held_until warm_redis ev1 "A001" 701 (seconds 120) 1.
Proof.
  eexists (default empty_hash (warm_redis.(r_seatmaps) !! ev1)), _.
  split; [by vm_compute|]. split; [by apply keyed_checked; vm_compute|]. split; [by vm_compute|]. by split_and!; vm_compute.
Qed.




(** Without the renewal the hold is forgotten before its deadline: the key expires after 30 of the hold's 120
    seconds, a rebuild from the unchanged rows shows the seat free, and another command takes it. *)
Theorem provisional_hold_outlives_map :
  held_until warm_redis ev1 "A001" 701 (seconds 120) 1 /\
  (run_scripts [(rebuild, seconds 31); (SEnqueue (demo_args 800 801 802 ["A001"] "k2"), seconds 32)] warm_redis).2 = [false; true].
Proof. split; [apply warm_held|by vm_compute]. Qed.

(** C21: the life of a command: under any script, a command's status only appears as PENDING, moves from
    PENDING to DURABLE or to FAILED, or expires with its key; a new command's identifier is unused. *)
Theorem command_lifecycle x now r ev c :
  (forall a, x = SEnqueue a -> a.(ea_event) = ev -> a.(ea_payload).(cp_command_id) = c -> persisted_status r ev c = None) ->
  status_step (persisted_status r ev c) (persisted_status (run_script x now r).1 ev c).
Proof. apply run_script_status. Qed.

Lemma command_lifecycle_witness :
  status_step (persisted_status enqueued ev1 700) (persisted_status (run_script (SDurable ev1 700) 5 enqueued).1 ev1 700) /\
  persisted_status (run_script (SDurable ev1 700) 5 enqueued).1 ev1 700 = Some PS_DURABLE.
Proof. split; [|by vm_compute]. apply (command_lifecycle (SDurable ev1 700) 5 enqueued ev1 700). done. Defined.

(** The documents after the loop of MARK_FAILED. *)
Lemma free_all_lookup hold seats h k d :
  h.(sh_seats) !! k = Some d ->
  exists d', (foldl (free_cached hold) h seats).(sh_seats) !! k = Some d' /\
    if bool_decide (k ∈ seats /\ d.(cs_hold_id) = Some hold)
    then d'.(cs_status) = AVAILABLE /\ d'.(cs_hold_id) = None /\ d'.(cs_source_version) = d.(cs_source_version)
    else d' = d.
Proof.
  revert h d. induction seats as [|s seats IH]; intros h d Hd; cbn [foldl].
  { exists d. split; [done|]. rewrite bool_decide_eq_false_2; [done|]. intros [?%not_elem_of_nil _]. done. }
  destruct (decide (s = k /\ d.(cs_hold_id) = Some hold)) as [[-> Hh]|Hne].
  - assert (exists v, sh_seats (free_cached hold h k) !! k = Some (freed v d)) as [v Hv].
    { unfold free_cached. rewrite Hd, bool_decide_eq_true_2 by done. eexists. apply lookup_insert_eq. }
    destruct (IH _ _ Hv) as (d' & Hd' & Hc). exists d'. split; [done|].
    rewrite bool_decide_eq_false_2 in Hc by (by intros [_ ?]). subst d'.
    rewrite bool_decide_eq_true_2; [done|]. split; [apply list_elem_of_here|done].
  - assert (sh_seats (free_cached hold h s) !! k = Some d) as Hk.
    { unfold free_cached. destruct (sh_seats h !! s) as [c|] eqn:Hs; [|done]. case_bool_decide as Hc; [|done]. simpl.
      rewrite lookup_insert_ne; [done|]. intros ->. apply Hne. split; congruence. }
    destruct (IH _ _ Hk) as (d' & Hd' & Hc). exists d'. split; [done|].
    erewrite bool_decide_ext; [exact Hc|]. rewrite elem_of_cons. naive_solver.
Qed.

(** Failing a command frees its own seats and no others: a listed seat that still carries the
    command's hold becomes available, any other seat keeps its document, and a durable command is
    not failed at all. *)
Theorem mark_failed_frees_own ev c seats err now r e h k d :
  r.(r_commands) !! (ev, c) = Some e -> r.(r_seatmaps) !! ev = Some h -> h.(sh_seats) !! k = Some d ->
  let r' := (MARK_FAILED ev c seats err now r).1 in
  (e.(ce_status) = PS_DURABLE -> r' = r) /\
  (e.(ce_status) <> PS_DURABLE ->
     persisted_status r' ev c = Some PS_FAILED /\
     exists d', cached_seat r' ev k = Some d' /\
       if bool_decide (k ∈ seats /\ d.(cs_hold_id) = Some e.(ce_response).(hd_hold_id))
       then d'.(cs_status) = AVAILABLE /\ d'.(cs_hold_id) = None /\ d'.(cs_source_version) = d.(cs_source_version)
       else d' = d).
Proof.
  intros He Hh Hd. cbv zeta. unfold MARK_FAILED. rewrite He, Hh. split; [by intros ->|]. intros Hst.
  destruct (free_all_lookup e.(ce_response).(hd_hold_id) seats h k d Hd) as (d' & Hd' & Hc).
  set (h' := foldl _ h seats) in *.
  assert (forall r2, r2.(r_seatmaps) = <[ev := h']> r.(r_seatmaps) ->
    let r' := set_commands <[(ev, c) := command_with_status PS_FAILED (Some err) e]> r2 in
    persisted_status r' ev c = Some PS_FAILED /\ cached_seat r' ev k = Some d') as Hfin.
  { intros r2 Hr2. unfold persisted_status, cached_seat. simpl. rewrite Hr2, !lookup_insert_eq. done. }
  destruct (ce_status e); try done; destruct (hd_command_id _) as [id|]; simpl;
    (edestruct Hfin as [H1 H2]; [|split; [exact H1|exists d'; split; [exact H2|exact Hc]]]; done).
Qed.

Definition enqueued_entry : command_entry :=
  CommandEntry PS_PENDING
    (HoldDoc 701 702 (seconds 120) 250 "THB" ["A001"] (Some 700%positive) (Some (seconds 120)) (Some PS_PENDING) None)
    (demo_args 700 701 702 ["A001"] "k1").(ea_payload) None 0 (seconds 86400).
Definition enqueued_hash : seat_hash := default empty_hash (enqueued.(r_seatmaps) !! ev1).

Lemma mark_failed_frees_own_witness :
  let r' := (MARK_FAILED ev1 700 ["A001"; "A002"] "SEAT_UNAVAILABLE" 5 enqueued).1 in
  let d := provisional 701 (seconds 120) (seconds 120) 4 (demo_doc "A001" AVAILABLE 3 1) in
  (enqueued_entry.(ce_status) = PS_DURABLE -> r' = enqueued) /\
  (enqueued_entry.(ce_status) <> PS_DURABLE ->
     persisted_status r' ev1 700 = Some PS_FAILED /\
     exists d', cached_seat r' ev1 "A001" = Some d' /\
       if bool_decide ("A001" ∈ ["A001"; "A002"] /\ d.(cs_hold_id) = Some enqueued_entry.(ce_response).(hd_hold_id))
       then d'.(cs_status) = AVAILABLE /\ d'.(cs_hold_id) = None /\ d'.(cs_source_version) = d.(cs_source_version)
       else d' = d).
Proof.
  apply (mark_failed_frees_own ev1 700 ["A001"; "A002"] "SEAT_UNAVAILABLE" 5 enqueued enqueued_entry enqueued_hash "A001");
    by vm_compute.
Defined.
