(* ===== verification/Delivery.v ===== *)
(** * Delivery guarantees

    Transactions are atomic and give their connection back; a consumed event takes effect once; and the
    consumer never commits an offset past a message it has neither processed nor dead-lettered. *)

From S2P Require Import Prelude Domain Schema World Observability Postgres Sql Reservations.
From S2P Require Import Invariant InvReserve InvPayment InvCallback Fulfilment InvFulfil.
From S2P Require Import Cache Intake Config Workers Reconcile System Keeping Calm Example.

(** ** Transactions *)

Section pool.
Context `{E : Env}.

Definition in_use (w : world) : Z := gauge "DB_POOL_IN_USE" w.(w_obs).
(** The connections the pool has handed out and not got back. *)
Definition checked_out (w : world) : Z := gauge "pool:checked_out" w.(w_obs).

(** [w'] has [n] more connections out than [w], and its gauge says so. *)
Definition out_by (n : Z) (w w' : world) : Prop :=
  checked_out w' = checked_out w + n /\ in_use w' = in_use w + n.

Lemma out_by_trans n1 n2 w1 w2 w3 : out_by n1 w1 w2 -> out_by n2 w2 w3 -> out_by (n1 + n2) w1 w3.
Proof. intros [] []. split; lia. Qed.

Lemma out_by_same w w' : w'.(w_obs) = w.(w_obs) -> out_by 0 w w'.
Proof. intros Heq. unfold out_by, checked_out, in_use. rewrite Heq. lia. Qed.

(** [m] takes and returns no connection. *)
Definition balanced {A} (m : W A) : Prop := forall w, out_by 0 w (m w).1.

(** [m] returns one connection, or raises what [putconn] raised. *)
Definition gives_back {A} (m : W A) : Prop := forall w,
  out_by (-1) w (m w).1 \/ exists i e, e_putconn i = Some e /\ (m w).2 = Raise e /\ out_by 0 w (m w).1.

Lemma balanced_obs o :
  o.(obs_metric) <> "DB_POOL_IN_USE" -> o.(obs_metric) <> "pool:checked_out" -> balanced (modify (add_obs o)).
Proof.
  intros H1 H2 w. unfold out_by, in_use, checked_out. simpl. rewrite !gauge_app. simpl. rewrite !bool_decide_eq_false_2 by done. lia.
Qed.
Lemma balanced_ret {A} (a : A) : balanced (mret a).
Proof. intros w. by apply out_by_same. Qed.
Lemma balanced_raise {A} e : balanced (raise (A := A) e).
Proof. intros w. by apply out_by_same. Qed.
Lemma balanced_bind {A B} (m : W A) (f : A -> W B) : balanced m -> (forall a, balanced (f a)) -> balanced (m ≫= f).
Proof.
  intros Hm Hf w. specialize (Hm w). unfold mbind, M_bind. destruct (m w) as [w1 [a|e]]; [|done].
  exact (out_by_trans 0 0 _ _ _ Hm (Hf a w1)).
Qed.
Lemma balanced_draw : balanced draw.
Proof. intros w. by apply out_by_same. Qed.
Lemma balanced_monotonic : balanced monotonic.
Proof. intros w. by apply out_by_same. Qed.
Lemma balanced_update f : balanced (update_db f).
Proof. intros w. by apply out_by_same. Qed.
Lemma balanced_for_each {X} (l : list X) f : (forall x, balanced (f x)) -> balanced (for_each l f).
Proof. intros Hf. induction l as [|x l IH]; [apply balanced_ret|]. apply balanced_bind; [done|]. by intros _. Qed.
Lemma balanced_try {A} (m : W A) h : balanced m -> (forall e, balanced (h e)) -> balanced (try_except m h).
Proof.
  intros Hm Hh w. specialize (Hm w). unfold try_except. destruct (m w) as [w1 [a|e]]; [done|].
  exact (out_by_trans 0 0 _ _ _ Hm (Hh e w1)).
Qed.
Lemma balanced_finally {A} (m : W A) f : balanced m -> balanced f -> balanced (finally m f).
Proof.
  intros Hm Hf w. specialize (Hm w). unfold finally. destruct (m w) as [w1 r]. pose proof (out_by_trans 0 0 _ _ _ Hm (Hf w1)) as Ht.
  by destruct (f w1) as [w2 [[]|e]].
Qed.

Ltac balance :=
  repeat first
    [ apply balanced_ret | apply balanced_raise | apply balanced_draw | apply balanced_monotonic | apply balanced_update
    | apply balanced_obs; done | apply balanced_for_each; intros ? | apply balanced_bind; [|intros ?]
    | apply balanced_try; [|intros ?] | apply balanced_finally
    | match goal with |- balanced (match ?x with _ => _ end) => destruct x end ].

Lemma balanced_slow ph d o : balanced (record_slow_db_phase ph d o).
Proof. unfold record_slow_db_phase, inc. balance. Qed.
Lemma balanced_sample : balanced sample_pool.
Proof.
  intros w. unfold sample_pool, out_by, in_use, checked_out. simpl. rewrite !gauge_app. simpl. lia.
Qed.
Lemma balanced_error e : balanced (record_error e).
Proof. unfold record_error, inc. balance. Qed.
Lemma balanced_rollback undo : balanced undo -> balanced (rollback undo).
Proof. intros Hu. unfold rollback. apply balanced_bind; [done|intros _]. balance. Qed.
Lemma balanced_commit d0 : balanced (measured_commit d0).
Proof. unfold measured_commit, commit, observe. balance; apply balanced_slow. Qed.

Lemma gives_finally {A} (m : W A) f : balanced m -> gives_back f -> gives_back (finally m f).
Proof.
  intros Hm Hf w. specialize (Hm w). unfold finally. destruct (m w) as [w1 r].
  destruct (Hf w1) as [Ho|(i & e & He & Hr & Ho)].
  - left. pose proof (out_by_trans 0 (-1) _ _ _ Hm Ho). by destruct (f w1) as [w2 [[]|e]].
  - right. pose proof (out_by_trans 0 0 _ _ _ Hm Ho). destruct (f w1) as [w2 r2]. simpl in *. subst r2. by exists i, e.
Qed.
Lemma gives_bind {A B} (m : W A) (f : A -> W B) : gives_back m -> (forall a, balanced (f a)) -> gives_back (m ≫= f).
Proof.
  intros Hm Hf w. unfold mbind, M_bind. destruct (Hm w) as [Ho|(i & e & He & Hr & Ho)]; destruct (m w) as [w1 [a|e1]]; simpl in *.
  - left. exact (out_by_trans (-1) 0 _ _ _ Ho (Hf a w1)).
  - by left.
  - done.
  - right. injection Hr as ->. by exists i, e.
Qed.
Lemma gives_handled {A} (m : W A) h : gives_back m -> (forall e, balanced (h e)) ->
  (forall w e, exists w', h e w = (w', Raise e)) -> gives_back (try_except m h).
Proof.
  intros Hm Hh Hre w. unfold try_except. destruct (Hm w) as [Ho|(i & e & He & Hr & Ho)]; destruct (m w) as [w1 [a|e1]]; simpl in *.
  - by left.
  - left. exact (out_by_trans (-1) 0 _ _ _ Ho (Hh e1 w1)).
  - done.
  - right. injection Hr as ->. exists i, e. split; [done|]. split; [|exact (out_by_trans 0 0 _ _ _ Ho (Hh e w1))].
    by destruct (Hre w1 e) as [w2 ->].
Qed.

(** Giving the connection back takes one off both counts, unless [putconn] raises. *)
Lemma gives_return : gives_back return_connection.
Proof.
  intros w. unfold return_connection, putconn, monotonic, draw, try_except, gets, mbind, M_bind. simpl.
  destruct (e_putconn _) as [e|] eqn:He; simpl; unfold record_slow_db_phase; destruct (_ <=? _); simpl.
  1,2: right; eexists _, e; split; [exact He|]; split; [done|].
  3,4: left.
  all: unfold out_by, in_use, checked_out; simpl; rewrite !gauge_app; simpl; lia.
Qed.

Lemma gives_failed undo e : balanced undo -> gives_back (transaction_failed undo e).
Proof.
  intros Hu. unfold transaction_failed. apply gives_finally; [|apply gives_return]. apply balanced_finally; [|by apply balanced_obs].
  apply balanced_bind; [by apply balanced_obs|intros _]. apply balanced_bind; [|intros _; apply balanced_error].
  apply balanced_finally; [done|by apply balanced_obs].
Qed.

(** A step that takes no connection, before one that returns it on its normal and its exceptional way out. *)
Lemma gives_after {A} (m : W unit) (f : unit -> W A) : quiet m -> balanced m -> (forall u, gives_back (f u)) -> gives_back (m ≫= f).
Proof.
  intros Hq Hm Hf w. destruct (Hq w) as [Hr _]. specialize (Hm w). unfold mbind, M_bind. destruct (m w) as [w1 r]. simpl in *. subst r.
  destruct (Hf tt w1) as [Ho|(i & e & He & Hr & Ho)]; [left; exact (out_by_trans 0 (-1) _ _ _ Hm Ho)|].
  right. exists i, e. split_and!; [done..|exact (out_by_trans 0 0 _ _ _ Hm Ho)].
Qed.
Lemma gives_either {A} (m : W unit) (h : exn -> W unit) (k : unit -> W A) :
  balanced m -> (forall e, gives_back (h e)) -> (forall e w, (h e w).2 <> Ok tt) -> (forall u, gives_back (k u)) ->
  gives_back (try_except m h ≫= k).
Proof.
  intros Hm Hh Hre Hk w. specialize (Hm w). unfold try_except, mbind, M_bind. destruct (m w) as [w1 [[]|e]]; simpl in Hm.
  - destruct (Hk tt w1) as [Ho|(i & e & He & Hr & Ho)]; [left; exact (out_by_trans 0 (-1) _ _ _ Hm Ho)|].
    right. exists i, e. split_and!; [done..|exact (out_by_trans 0 0 _ _ _ Hm Ho)].
  - specialize (Hre e w1). destruct (Hh e w1) as [Ho|(i & e1 & He & Hr & Ho)]; destruct (h e w1) as [w2 [[]|e2]]; try done; simpl in *.
    + left. exact (out_by_trans 0 (-1) _ _ _ Hm Ho).
    + right. injection Hr as ->. exists i, e1. split_and!; [done..|exact (out_by_trans 0 0 _ _ _ Hm Ho)].
Qed.

Lemma gives_exit d0 exc : gives_back (tx_exit d0 exc).
Proof.
  destruct exc as [e|]; unfold tx_exit.
  - apply gives_bind; [|intros; apply balanced_ret]. apply gives_failed, balanced_rollback, balanced_update.
  - apply gives_after; [apply quiet_obs|by apply balanced_obs|intros _]. apply gives_either.
    + apply balanced_commit.
    + intros e. apply gives_bind; [|intros; apply balanced_raise]. apply gives_failed, balanced_rollback, balanced_ret.
    + intros e w. unfold mbind, M_bind. by destruct (transaction_failed _ _ _) as [? [[]|]].
    + intros _. apply gives_after; [apply quiet_obs|by apply balanced_obs|intros _].
      apply gives_bind; [|intros; apply balanced_ret]. apply gives_handled; [apply gives_return| |].
      * intros e. apply balanced_bind; [apply balanced_error|intros; apply balanced_raise].
      * intros w e. destruct (run_quiet (record_error e) (fun _ => raise (A := unit) e) w (quiet_record_error e)) as (w1 & _ & _ & ->). by exists w1.
Qed.

(** Entering takes a connection; when it raises it has taken none, or failed to give it back. *)
Lemma takes_enter w :
  match (tx_enter w).2 with
  | Ok _ => out_by 1 w (tx_enter w).1
  | Raise e => out_by 0 w (tx_enter w).1 \/ out_by 1 w (tx_enter w).1 /\ exists i, e_putconn i = Some e
  end.
Proof.
  assert (match (acquire_connection w).2 with Ok _ => out_by 1 w (acquire_connection w).1 | Raise _ => out_by 0 w (acquire_connection w).1 end) as Ha.
  { unfold acquire_connection, try_except, getconn, draw, mbind, M_bind. simpl.
    destruct (e_pool (w_tick w)); simpl; unfold out_by, in_use, checked_out; simpl; rewrite !gauge_app; simpl; lia. }
  unfold tx_enter, try_except, begin, draw, mbind, M_bind. destruct (acquire_connection w) as [w1 [[]|e]]; simpl in Ha.
  - simpl. pose proof (out_by_trans 1 0 _ _ _ Ha (out_by_same w1 (next_tick w1) eq_refl)) as H1.
    destruct (e_begin (w_tick w1)) as [e|]; [|exact H1]. cbn.
    destruct (gives_failed (mret tt) e (balanced_ret tt) (next_tick w1)) as [Ho|(i & e1 & He & Hr & Ho)];
      destruct (transaction_failed _ e _) as [w2 [[]|e2]]; simpl in *; try done.
    + left. exact (out_by_trans 1 (-1) _ _ _ H1 Ho).
    + left. exact (out_by_trans 1 (-1) _ _ _ H1 Ho).
    + right. split; [exact (out_by_trans 1 0 _ _ _ H1 Ho)|]. injection Hr as ->. by exists i.
  - destruct (run_quiet (record_error e) (fun _ => raise (A := unit) e) w1 (quiet_record_error e)) as (w2 & _ & Hq & _).
    rewrite Hq. simpl. left. pose proof (balanced_error e w1) as Hb. rewrite Hq in Hb. exact (out_by_trans 0 0 _ _ _ Ha Hb).
Qed.

Lemma transaction_out {A} (body : W A) w :
  balanced body ->
  out_by 0 w (transaction body w).1 \/
  exists i e, e_putconn i = Some e /\ (transaction body w).2 = Raise e /\ out_by 1 w (transaction body w).1.
Proof.
  intros Hb. unfold transaction, within, with_resource, mbind, M_bind. cbn [tx_resource res_enter res_exit].
  pose proof (takes_enter w) as He. destruct (tx_enter w) as [w0 [d|e]]; simpl in He.
  2:{ destruct He as [He|[He [i Hi]]]; [by left|right]. by exists i, e. }
  specialize (Hb w0). destruct (body w0) as [w1 r]. simpl in Hb. pose proof (out_by_trans 1 0 _ _ _ He Hb) as H1.
  assert (forall exc, out_by 0 w (tx_exit d exc w1).1 \/
    exists i e, e_putconn i = Some e /\ (tx_exit d exc w1).2 = Raise e /\ out_by 1 w (tx_exit d exc w1).1) as Hx.
  { intros exc. destruct (gives_exit d exc w1) as [Ho|(i & e & Hi & Hr & Ho)]; [left; exact (out_by_trans 1 (-1) _ _ _ H1 Ho)|].
    right. exists i, e. split_and!; [done..|exact (out_by_trans 1 0 _ _ _ H1 Ho)]. }
  destruct r as [a|e].
  - destruct (Hx None) as [Ho|(i & e & Hi & Hr & Ho)]; destruct (tx_exit d None w1) as [w2 [b|e2]]; simpl in *; try done; [by left..|right].
    injection Hr as ->. by exists i, e.
  - destruct (Hx (Some e)) as [Ho|(i & e1 & Hi & Hr & Ho)]; destruct (tx_exit d (Some e) w1) as [w2 [[]|e2]]; simpl in *; try done.
    all: try by left. right. injection Hr as ->. by exists i, e1.
Qed.
End pool.

(** C25: a transaction whose body takes and returns no connection of its own is atomic and gives its connection
    back: if it returns, its body has run to the
    end and the database is the body's; if it raises, the database is unchanged, except when the
    body had returned and the commit took effect (its acknowledgement was lost, or the connection could
    not be returned).  As many connections are checked out of the pool afterwards as before, and the
    in-use gauge agrees, whatever fails ([BEGIN], the body, the commit, the rollback), except when
    [putconn] itself raises: that exception then comes out, and the connection stays counted as out. *)
Theorem transaction_atomic `{E : Env} {A} (body : W A) w :
  (forall w0, checked_out (body w0).1 = checked_out w0 /\ in_use (body w0).1 = in_use w0) ->
  let res := transaction body w in
  (checked_out res.1 = checked_out w /\ in_use res.1 = in_use w \/
   exists i e, e_putconn i = Some e /\ res.2 = Raise e /\
     checked_out res.1 = checked_out w + 1 /\ in_use res.1 = in_use w + 1) /\
  match res.2 with
  | Ok a => exists w0 w1, same_stores w w0 /\ body w0 = (w1, Ok a) /\ same_stores w1 res.1
  | Raise _ => res.1.(w_db) = w.(w_db) \/
      exists w0 w1 a, same_stores w w0 /\ body w0 = (w1, Ok a) /\ res.1.(w_db) = w1.(w_db)
  end.
Proof.
  intros Hb. cbv zeta. split.
  { assert (balanced body) as Hbal by (intros w0; destruct (Hb w0); split; lia).
    destruct (transaction_out body w Hbal) as [[Hc Hu]|(i & e & He & Hr & Hc & Hu)]; [left; lia|right]. exists i, e. auto. }
  destruct (transaction body w) as [w' [a|e]] eqn:Hrun; simpl.
  - by apply transaction_ok in Hrun.
  - by apply transaction_raise in Hrun.
Qed.

(** An environment in which no rollback succeeds. *)
Definition cut_env : Env := {|
  e_rng := e_rng (Env := demo_env); e_clock := e_clock (Env := demo_env); e_mono := e_mono (Env := demo_env);
  e_busy := fun _ _ => false; e_pool := fun _ => None; e_begin := fun _ => None; e_commit := fun _ => NoFault;
  e_rollback := fun _ => Some (DbError "08006"); e_putconn := fun _ => None;
  e_redis := fun _ => NoFault; e_digest := e_digest (Env := demo_env); e_sha256 := fun s => s;
|}.

Lemma transaction_atomic_witness :
  let body := raise_if (S := world) true PoolTimeout in
  let res := transaction (E := cut_env) body world0 in
  res.2 = Raise (DbError "08006") /\
  (checked_out res.1 = checked_out world0 /\ in_use res.1 = in_use world0 \/
   exists i e, e_putconn (Env := cut_env) i = Some e /\ res.2 = Raise e /\
     checked_out res.1 = checked_out world0 + 1 /\ in_use res.1 = in_use world0 + 1) /\
  match res.2 with
  | Ok a => exists w0 w1, same_stores world0 w0 /\ body w0 = (w1, Ok a) /\ same_stores w1 res.1
  | Raise _ => res.1.(w_db) = world0.(w_db) \/
      exists w0 w1 a, same_stores world0 w0 /\ body w0 = (w1, Ok a) /\ res.1.(w_db) = w1.(w_db)
  end.
Proof.
  split; [by vm_compute|]. apply (transaction_atomic (E := cut_env) (raise_if true PoolTimeout) world0).
  intros w0. by split.
Defined.

(** ** The fulfilment consumer *)

Section consumer.
Context `{E : Env}.

(** A transaction of the consumer that returns has its event in the inbox. *)
Lemma consume_tx_seen ev body w : wp (consume_tx ev body) (fun _ w' => ev ∈ w'.(w_db).(consumer_inbox)) w.
Proof.
  unfold consume_tx. apply wp_bind, wp_sql. case_bool_decide as Hs; [by apply wp_ret|]. apply wp_bind, wp_update_db.
  assert (ev ∈ (set_db (set_consumer_inbox (fun s => {[ev]} ∪ s)) w).(w_db).(consumer_inbox)) as Hin by (simpl; set_solver).
  destruct body as [e l|o|p o|o|k].
  - unfold request_refresh. by wp_sql.
  - eapply wp_mono; [apply fulfil_order_inbox|]. cbv beta. by intros ? ? ->.
  - unfold settle_refund. by wp_sql.
  - by wp_sql.
  - by wp_sql.
Qed.

(** One that finds its event there changes nothing. *)
Lemma consume_tx_again ev body w :
  ev ∈ w.(w_db).(consumer_inbox) -> consume_tx ev body w = (w, Ok tt).
Proof. intros Hin. unfold consume_tx, mbind, M_bind, sql, gets. by rewrite bool_decide_eq_true_2. Qed.

Lemma measured_ok {A} op (m : W A) w w' a : measured_work op m w = (w', Ok a) ->
  exists w0 w1, w0.(w_db) = w.(w_db) /\ w0.(w_kafka) = w.(w_kafka) /\ m w0 = (w1, Ok a) /\
    w'.(w_db) = w1.(w_db) /\ w'.(w_kafka) = w1.(w_kafka).
Proof.
  unfold measured_work, inc, mbind, M_bind, modify. simpl. destruct (m _) as [w1 [a'|e]] eqn:Hm; [|done].
  simpl. intros [= <- <-]. eexists _, w1. by rewrite Hm.
Qed.

Lemma consume_event_ok env w w' :
  consume_event env w = (w', Ok tt) -> env.(en_event_id) ∈ w'.(w_db).(consumer_inbox).
Proof.
  intros (w0 & w1 & _ & _ & Hrun & Hdb & _)%measured_ok.
  apply bind_inv_ok in Hrun as ([] & w2 & _ & Hrun).
  apply transaction_ok in Hrun as (w3 & w4 & _ & Hrun & Hs). rewrite Hdb, (ss_db _ _ Hs).
  exact (wp_run _ _ _ _ _ (consume_tx_seen _ _ w3) Hrun).
Qed.

Lemma consume_event_again env w :
  env.(en_event_id) ∈ w.(w_db).(consumer_inbox) -> (consume_event env w).1.(w_db) = w.(w_db).
Proof.
  intros Hin. apply (keeps_measured (fun d => d = w.(w_db))); [|done]. apply keeps_bind; [apply keeps_raise_if|intros _].
  apply keeps_transaction. intros w0 Hw0. unfold wp, wpx. rewrite consume_tx_again by (by rewrite Hw0). done.
Qed.

Context (decode : string -> outcome envelope) (decode_replace : string -> string).

(** The outcome of the attempts on one message. *)
Definition handled_as (raw : string) (d : db) : Prop :=
  (exists env, decode raw = Ok env /\ env.(en_event_id) ∈ d.(consumer_inbox)) \/
  exists id, d.(dead_letters) !! id = Some (DeadLetterRow (decode_replace raw) dead_letter_error).

Lemma write_dead_letter_ok text w w' :
  write_dead_letter text w = (w', Ok tt) -> exists id, w'.(w_db).(dead_letters) !! id = Some (DeadLetterRow text dead_letter_error).
Proof.
  intros (w0 & w1 & _ & Hrun & Hs)%transaction_ok. rewrite (ss_db _ _ Hs).
  refine (wp_run _ _ _ _ _ (_ : wp _ (fun _ w1 => _) w0) Hrun). wp_sql. eexists. simpl. apply lookup_insert_eq.
Qed.

Lemma attempt_ok raw w w' :
  attempt_message decode raw w = (w', Ok tt) -> handled_as raw w'.(w_db).
Proof.
  unfold attempt_message. destruct (decode raw) as [env|e] eqn:Hd; [|done].
  intros Hin%consume_event_ok. left. by exists env.
Qed.

Lemma attempts_handled n raw offset s :
  match attempts decode decode_replace (S n) raw offset s with
  | (s', Ok _) => s'.2 = s.2 /\ handled_as raw s'.1.(w_db)
  | (s', Raise _) => s'.2 = ConsumerPos offset s.2.(kc_committed)
  end.
Proof.
  revert s. induction n as [|n IH]; intros [w pos].
  - cbn [attempts]. unfold try_except, lift. cbn [fst snd].
    destruct (attempt_message decode raw w) as [w1 [[]|e]] eqn:Hrun; [split; [done|by eapply attempt_ok]|].
    unfold mbind, M_bind. cbn [fst snd]. destruct (write_dead_letter _ w1) as [w2 [[]|e2]] eqn:Hdl; [|done].
    simpl. split; [done|]. right. exact (write_dead_letter_ok _ _ _ Hdl).
  - remember (S n) as m eqn:Hm. cbn [attempts]. unfold try_except, lift. cbn [fst snd].
    destruct (attempt_message decode raw w) as [w1 [[]|e]] eqn:Hrun; [split; [done|by eapply attempt_ok]|].
    subst m. apply (IH (w1, pos)).
Qed.

(** *** What was handled stays handled *)

Lemma handled_grows raw d d' :
  d.(consumer_inbox) ⊆ d'.(consumer_inbox) -> d.(dead_letters) ⊆ d'.(dead_letters) -> handled_as raw d -> handled_as raw d'.
Proof.
  intros Hi Hl [(env & Hd & Hin)|[id Hid]]; [left; exists env; set_solver|right]. exists id. by eapply lookup_weaken.
Qed.

Ltac handled_leaf :=
  idtac; lazymatch goal with
  | |- keeps _ (transaction _) => apply keeps_tx
  | |- keeps _ (update_order_status _ _ _) => unfold update_order_status
  | |- keeps _ (update_db _) =>
      apply keeps_update; let d := fresh "d" in intros d; apply handled_grows; simpl; solve [done|set_solver]
  end.

Lemma consume_event_handled raw env : keeps (handled_as raw) (consume_event env).
Proof.
  unfold consume_event, consume_tx, request_refresh, fulfil_order, settle_refund, insert_ticket, event, insert_outbox.
  repeat (keeping_step handled_leaf).
Qed.

Lemma write_dead_letter_handled raw text : keeps (handled_as raw) (write_dead_letter text).
Proof.
  unfold write_dead_letter. apply keeps_tx, keeps_bind; [apply keeps_uuid4|intros id]. apply keeps_bind; [apply keeps_raise_if|intros _].
  apply keeps_the_db. intros w Hw. unfold require, raise_if, mbind, M_bind.
  destruct (has w.(w_db).(dead_letters) id) eqn:Hn; [done|]. apply has_false in Hn. simpl.
  eapply handled_grows; [| |exact Hw]; simpl; [done|by apply insert_subseteq].
Qed.

Lemma attempts_keep_handled n raw raw' offset w pos :
  handled_as raw w.(w_db) -> handled_as raw (attempts decode decode_replace n raw' offset (w, pos)).1.1.(w_db).
Proof.
  apply attempts_keep; [|apply write_dead_letter_handled].
  unfold attempt_message. repeat (keeping_step handled_leaf). apply consume_event_handled.
Qed.

(** Every message before the position has been handled, and the committed offset is not past it. *)
Definition caught_up (topic : list string) (s : world * consumer_pos) : Prop :=
  (s.2.(kc_committed) <= s.2.(kc_position))%nat /\
  forall i raw, (i < s.2.(kc_position))%nat -> topic !! i = Some raw -> handled_as raw s.1.(w_db).

(** A consumer that restarts, or is assigned the partition again, begins at the committed offset. *)
Definition restarted (s : world * consumer_pos) : world * consumer_pos := (s.1, ConsumerPos s.2.(kc_committed) s.2.(kc_committed)).

Lemma caught_up_restarted topic s : caught_up topic s -> caught_up topic (restarted s).
Proof. intros [Hle Hall]. split; [done|]. intros i raw Hi. apply Hall. simpl in Hi. lia. Qed.

(** It stays so when the position does, and when the position moves past one more handled message. *)
Lemma caught_up_same topic w w' pos :
  (forall raw, handled_as raw w.(w_db) -> handled_as raw w'.(w_db)) -> caught_up topic (w, pos) -> caught_up topic (w', pos).
Proof. intros Hk [Hle Hall]. split; [done|]. intros i raw Hi Hr. apply Hk, (Hall i raw Hi Hr). Qed.

Lemma caught_up_next topic w w' pos p' raw :
  (forall raw, handled_as raw w.(w_db) -> handled_as raw w'.(w_db)) -> caught_up topic (w, pos) ->
  p'.(kc_position) = S pos.(kc_position) -> (p'.(kc_committed) <= S pos.(kc_position))%nat ->
  topic !! pos.(kc_position) = Some raw -> handled_as raw w'.(w_db) -> caught_up topic (w', p').
Proof.
  intros Hk [Hle Hall] Hp Hcm Hraw Hh. split; [simpl; lia|]. simpl. rewrite Hp. intros i raw' Hi Hr.
  destruct (decide (i = pos.(kc_position))) as [->|Hne]; [by simplify_eq|]. apply Hk, (Hall i raw'); [simpl; lia|done].
Qed.

Context (poll_fails : nat -> option exn) (commit_fails : nat -> fault).

#[local] Opaque attempts.

(** How one iteration ends: the message at the position is handled and the commit answered or not, or
    nothing has moved. *)
Lemma iteration_cases topic w pos :
  match consumer_iteration poll_fails commit_fails decode decode_replace topic (w, pos) with
  | (s', Ok true) => exists raw, topic !! pos.(kc_position) = Some raw /\
      s'.2 = ConsumerPos (S pos.(kc_position)) (S pos.(kc_position)) /\ handled_as raw s'.1.(w_db)
  | (s', Ok false) => topic !! pos.(kc_position) = None /\ s'.2 = pos
  | (s', Raise _) => s'.2 = pos \/
      exists raw, topic !! pos.(kc_position) = Some raw /\ handled_as raw s'.1.(w_db) /\
        s'.2.(kc_position) = S pos.(kc_position) /\
        (s'.2.(kc_committed) = pos.(kc_committed) \/ s'.2.(kc_committed) = S pos.(kc_position))
  end /\
  forall raw, handled_as raw w.(w_db) ->
    handled_as raw (consumer_iteration poll_fails commit_fails decode decode_replace topic (w, pos)).1.1.(w_db).
Proof.
  unfold consumer_iteration, poll, handle_message, commit_offset, lift at 1, mbind, M_bind. simpl.
  destruct (poll_fails _) as [e|]; [by split; [left|]|]. simpl.
  destruct (topic !! kc_position pos) as [raw|] eqn:Hraw; [|done]. simpl.
  set (s0 := (next_tick w, ConsumerPos (S pos.(kc_position)) pos.(kc_committed))).
  pose proof (attempts_handled 4 raw pos.(kc_position) s0) as H.
  assert (forall raw', handled_as raw' w.(w_db) -> handled_as raw' (attempts decode decode_replace 5 raw (kc_position pos) s0).1.1.(w_db)) as Hk.
  { intros raw' Hw. by apply attempts_keep_handled. }
  destruct (attempts decode decode_replace 5 raw _ _) as [[w1 p1] [[]|e]]; simpl in *.
  - destruct H as [-> Hh]. unfold lift, draw. simpl. destruct (commit_fails _) as [|e|e]; simpl; (split; [|exact Hk]).
    + by exists raw.
    + right. exists raw. auto.
    + right. exists raw. auto.
  - split; [left|exact Hk]. rewrite H. by destruct pos.
Qed.

#[local] Transparent attempts.
End consumer.

(** C26: an event takes effect once: after a delivery has been consumed, every redelivery of the same event
    identifier, whatever its body and whatever fails, leaves the database as it is. *)
Theorem consume_exactly_once (E1 E2 : Env) env env' w w1 :
  consume_event (E := E1) env w = (w1, Ok tt) -> env'.(en_event_id) = env.(en_event_id) ->
  env.(en_event_id) ∈ w1.(w_db).(consumer_inbox) /\ (consume_event (E := E2) env' w1).1.(w_db) = w1.(w_db).
Proof.
  intros Hin%consume_event_ok Heq. split; [done|]. apply consume_event_again. by rewrite Heq.
Qed.

Definition paid_envelope : envelope := Envelope paid_event 10 (EvOrderPaid 10) 1 (seconds 1000).

Lemma consume_exactly_once_witness :
  let w1 := (consume_event (E := demo_env) paid_envelope booked_world).1 in
  paid_event ∈ w1.(w_db).(consumer_inbox) /\ (consume_event (E := late_env) paid_envelope w1).1.(w_db) = w1.(w_db).
Proof. apply (consume_exactly_once demo_env late_env paid_envelope paid_envelope booked_world); [by vm_compute|done]. Defined.

(** C27: the consumer never skips a message: as long as every message before its position has been handled
    (its event is in the inbox, or it is stored as a dead letter) and the committed offset is not past the
    position, both stay so after any iteration, whatever fails, and after a restart at the committed offset.
    An iteration that returns has handled the message at the position and committed past it, or found none;
    one that raises has moved neither offset, or has handled the message and failed only in the commit,
    which may or may not have been stored. *)
Theorem consumer_never_skips `{E : Env} poll_fails commit_fails decode decode_replace topic w pos :
  caught_up decode decode_replace topic (w, pos) ->
  let res := consumer_iteration poll_fails commit_fails decode decode_replace topic (w, pos) in
  caught_up decode decode_replace topic res.1 /\ caught_up decode decode_replace topic (restarted res.1) /\
  match res.2 with
  | Ok true => exists raw, topic !! pos.(kc_position) = Some raw /\ handled_as decode decode_replace raw res.1.1.(w_db) /\
      res.1.2 = ConsumerPos (S pos.(kc_position)) (S pos.(kc_position))
  | Ok false => topic !! pos.(kc_position) = None /\ res.1.2 = pos
  | Raise _ => res.1.2 = pos \/
      exists raw, topic !! pos.(kc_position) = Some raw /\ handled_as decode decode_replace raw res.1.1.(w_db) /\
        res.1.2.(kc_position) = S pos.(kc_position) /\
        (res.1.2.(kc_committed) = pos.(kc_committed) \/ res.1.2.(kc_committed) = S pos.(kc_position))
  end.
Proof.
  intros Hup res. destruct (iteration_cases decode decode_replace poll_fails commit_fails topic w pos) as [Hc Hk].
  fold res in Hc, Hk. destruct res as [[w' p'] [[|]|e]]; simpl in *.
  - destruct Hc as (raw & Hraw & -> & Hh).
    pose proof (caught_up_next _ _ topic w w' pos (ConsumerPos (S (kc_position pos)) (S (kc_position pos))) raw Hk Hup eq_refl (le_n _) Hraw Hh).
    split_and!; auto using caught_up_restarted. by exists raw.
  - destruct Hc as [Hn ->]. pose proof (caught_up_same _ _ topic w w' pos Hk Hup). auto using caught_up_restarted.
  - destruct Hc as [->|(raw & Hraw & Hh & Hp & Hcm)].
    + pose proof (caught_up_same _ _ topic w w' pos Hk Hup). auto using caught_up_restarted.
    + assert (kc_committed p' <= S (kc_position pos))%nat as Hle by (destruct Hup as [Hup _]; simpl in Hup; destruct Hcm as [->| ->]; lia).
      pose proof (caught_up_next _ _ topic w w' pos p' raw Hk Hup Hp Hle Hraw Hh).
      split_and!; auto using caught_up_restarted. right. by exists raw.
Qed.

(** The consumer reads a message it cannot decode while no commit is acknowledged. *)
Lemma consumer_never_skips_witness :
  let res := consumer_iteration (E := demo_env) (fun _ => None) (fun _ => FaultBefore (PyError "CommitFailedError" ""))
               demo_decode (fun s => s) ["garbled"] (booked_world, ConsumerPos 0 0) in
  res.1.2 = ConsumerPos 1 0 /\ caught_up demo_decode (fun s => s) ["garbled"] res.1 /\
  caught_up demo_decode (fun s => s) ["garbled"] (restarted res.1).
Proof.
  intros res. split; [by vm_compute|].
  destruct (consumer_never_skips (E := demo_env) (fun _ => None) (fun _ => FaultBefore (PyError "CommitFailedError" ""))
              demo_decode (fun s => s) ["garbled"] booked_world (ConsumerPos 0 0)) as (H1 & H2 & _); [|by split].
  split; [done|]. simpl. intros i raw Hi. lia.
Defined.
