(* ===== verification/Queues.v ===== *)
(** * The outbox and the refresh queue

    Whatever fails between the steps, an event marked published is on the topic, and a refresh requested
    during a refresh is still due. *)

From S2P Require Import Prelude Domain Schema World Observability Postgres Sql Reservations.
From S2P Require Import Invariant InvReserve InvPayment InvCallback Fulfilment InvFulfil.
From S2P Require Import Cache Intake Config Workers Reconcile System Calm Example.

(** ** The outbox publisher *)

(** Every event marked published is on the topic. *)
Definition delivered (d : db) (topic : list envelope) : Prop :=
  forall id r, d.(outbox_events) !! id = Some r -> is_Some r.(ob_published_at) -> envelope_of id r ∈ topic.

Section publisher.
Context `{E : Env}.

Lemma measured_stores {A} op (m : W A) w :
  exists w0, w0.(w_db) = w.(w_db) /\ w0.(w_kafka) = w.(w_kafka) /\ (measured_work op m w).2 = (m w0).2 /\
    (measured_work op m w).1.(w_db) = (m w0).1.(w_db) /\ (measured_work op m w).1.(w_kafka) = (m w0).1.(w_kafka).
Proof.
  exists (add_obs (Obs "WORK_ACTIVE" [op] 1) w). do 2 (split; [done|]).
  unfold measured_work, inc, mbind, M_bind, modify. by destruct (m (add_obs _ w)) as [w1 [a|e]].
Qed.

Lemma delivered_mono d k k' : k ⊆ k' -> delivered d k -> delivered d k'.
Proof. intros Hk Hd id r Hr Hp. apply Hk. by eapply Hd. Qed.

(** A change of leases alone keeps it. *)
Lemma delivered_lease P until token d k :
  delivered d k -> delivered (set_outbox_events (update_where P (outbox_lease until token)) d) k.
Proof.
  intros Hd id r' (r & Hr & ->)%update_where_Some Hp. specialize (Hd id r Hr). by destruct (P id r); apply Hd.
Qed.

Lemma claim_outbox_rows token limit w :
  wp (claim_outbox token limit) (fun rows w' =>
    (forall id r, (id, r) ∈ rows -> exists r', w'.(w_db).(outbox_events) !! id = Some r' /\ envelope_of id r' = envelope_of id r) /\
    w'.(w_kafka) = w.(w_kafka) /\ forall k, delivered w.(w_db) k -> delivered w'.(w_db) k) w.
Proof.
  unfold claim_outbox. apply wp_bind, wp_clock, wp_bind, wp_sql, wp_bind, wp_skip_locked. intros free Hfree _.
  set (rows := take limit free). assert (forall id r, (id, r) ∈ rows -> w.(w_db).(outbox_events) !! id = Some r) as Hrows.
  { intros id r Hin. assert ((id, r) ∈ free) as Hf by (eapply subseteq_take; eauto). apply Hfree in Hf.
    unfold unpublished in Hf. rewrite order_by_perm in Hf. apply list_elem_of_filter in Hf as [_ Hf].
    by apply elem_of_map_to_list in Hf. }
  destruct rows as [|x rows]; [apply wp_ret; split; [by intros ? ? ?%not_elem_of_nil|done]|].
  apply wp_bind, wp_clock, wp_bind, wp_update_db, wp_ret. split; [|split; [done|]].
  - intros id r Hin%Hrows. eexists. split; [apply update_where_Some; by exists r|]. by case_match.
  - intros k Hd. by apply delivered_lease.
Qed.

Context (send : nat -> option exn) (ack : nat -> fault).

Lemma send_rows_run deadline rows w :
  exists w' res, send_rows send deadline rows w = (w', Ok res) /\ w'.(w_db) = w.(w_db) /\ w'.(w_kafka) = w.(w_kafka) /\
    res.1 ⊆ rows.
Proof.
  revert w. induction rows as [|kr rows IH]; intros w; [by eexists _, _|].
  cbn [send_rows]. unfold monotonic, draw, mbind, M_bind. cbn.
  destruct (_ <=? _); [eexists _, _; repeat split; set_solver|].
  destruct (send _) as [e|]; [eexists _, _; repeat split; set_solver|].
  destruct (IH (next_tick (next_tick w))) as (w' & res & Hrun & Hd & Hk & Hsub). rewrite Hrun.
  eexists _, _. split; [done|]. split; [done|]. split; [done|]. cbn. set_solver.
Qed.

Lemma await_rows_run rows w :
  exists w' res, await_rows ack rows w = (w', Ok res) /\ w'.(w_db) = w.(w_db) /\ w.(w_kafka) ⊆ w'.(w_kafka) /\
    forall id, id ∈ res.1 -> exists r, (id, r) ∈ rows /\ envelope_of id r ∈ w'.(w_kafka).
Proof.
  revert w. induction rows as [|[id r] rows IH]; intros w.
  { eexists _, _. split; [done|]. split; [done|]. split; [done|]. by intros ? ?%not_elem_of_nil. }
  cbn [await_rows]. unfold draw, mbind, M_bind. cbn.
  set (w1 := set_kafka (fun l => l ++ [envelope_of id r]) (next_tick w)).
  assert (w1.(w_kafka) = w.(w_kafka) ++ [envelope_of id r]) as Hk1 by done.
  destruct (ack _) as [|e|e]; cbn.
  - destruct (IH w1) as (w' & res & Hrun & Hd & Hk & Hc). fold w1. rewrite Hrun. eexists _, _. split; [done|]. cbn.
    split; [done|]. split; [set_solver|]. intros i [->|Hi]%elem_of_cons.
    + exists r. split; [apply list_elem_of_here|]. apply Hk. rewrite Hk1. set_solver.
    + destruct (Hc i Hi) as (r' & Hr' & He). exists r'. split; [by apply list_elem_of_further|done].
  - destruct (IH (next_tick w)) as (w' & res & Hrun & Hd & Hk & Hc). rewrite Hrun. eexists _, _. split; [done|]. cbn.
    split; [done|]. split; [done|]. intros i Hi. destruct (Hc i Hi) as (r' & Hr' & He). exists r'.
    split; [by apply list_elem_of_further|done].
  - destruct (IH w1) as (w' & res & Hrun & Hd & Hk & Hc). fold w1. rewrite Hrun. eexists _, _. split; [done|]. cbn.
    split; [done|]. split; [set_solver|]. intros i Hi. destruct (Hc i Hi) as (r' & Hr' & He). exists r'.
    split; [by apply list_elem_of_further|done].
Qed.

(** Marking ids whose events are on the topic keeps the property. *)
Lemma mark_published_delivered token confirmed w :
  delivered w.(w_db) w.(w_kafka) ->
  (forall id r, id ∈ confirmed -> w.(w_db).(outbox_events) !! id = Some r -> envelope_of id r ∈ w.(w_kafka)) ->
  delivered (mark_published token confirmed w).1.(w_db) w.(w_kafka) /\
  (mark_published token confirmed w).1.(w_kafka) = w.(w_kafka).
Proof.
  intros Hd Hc. split.
  - apply (transaction_preserves (fun d => delivered d w.(w_kafka))); [done|]. intros w0 Hdb _.
    wp_sql. intros id r' (r & Hr & ->)%update_where_Some Hp. simpl in Hr. rewrite Hdb in Hr.
    destruct (_ && _) eqn:Hb; [|by apply Hd]. bool_hyps. specialize (Hc id r). auto.
  - apply transaction_frame. intros w0. by vm_compute.
Qed.

Lemma claim_outbox_frame token limit w :
  wpx (claim_outbox token limit) (fun _ w1 => w1.(w_redis) = w.(w_redis) /\ w1.(w_kafka) = w.(w_kafka))
    (fun _ w1 => w1.(w_redis) = w.(w_redis) /\ w1.(w_kafka) = w.(w_kafka)) w.
Proof.
  unfold claim_outbox, clock_timestamp, skip_locked, draw, sql, gets, update_db, modify, wpx, mbind, M_bind. cbn.
  destruct (take limit _); done.
Qed.

(** The publisher's body after the token is drawn. *)
Lemma publish_body_delivered limit w :
  delivered w.(w_db) w.(w_kafka) ->
  let w' := (publish_batch_body send ack limit w).1 in
  delivered w'.(w_db) w'.(w_kafka) /\ w.(w_kafka) ⊆ w'.(w_kafka).
Proof.
  intros Hd. cbv zeta. unfold publish_batch_body.
  rewrite (bind_ok uuid4 _ w (next_tick w) (e_rng (w_tick w)) eq_refl).
  set (token := e_rng (w_tick w)). set (w1 := next_tick w).
  assert (delivered w1.(w_db) w.(w_kafka) /\ w1.(w_kafka) = w.(w_kafka)) as [Hd1 Hk1] by done. clearbody w1 token.
  assert ((transaction (claim_outbox token limit) w1).1.(w_kafka) = w.(w_kafka)) as Hk2.
  { rewrite <-Hk1. apply transaction_frame. intros w2. apply claim_outbox_frame. }
  assert (delivered (transaction (claim_outbox token limit) w1).1.(w_db) w.(w_kafka)) as Hd2.
  { apply (transaction_preserves (fun d => delivered d w.(w_kafka))); [done|]. intros w2 Hdb2 _.
    eapply wp_mono; [apply claim_outbox_rows|]. intros rows w3 (_ & _ & Hk). apply Hk. by rewrite Hdb2. }
  destruct (transaction (claim_outbox token limit) w1) as [w2 [rows|e]] eqn:Hclaim; simpl in Hd2, Hk2;
    [rewrite (bind_ok _ _ _ _ _ Hclaim)|rewrite (bind_raise _ _ _ _ _ Hclaim); simpl; by rewrite Hk2].
  apply transaction_ok in Hclaim as (w3 & w4 & _ & Hrun & Hs).
  destruct (wp_run _ _ _ _ _ (claim_outbox_rows token limit w3) Hrun) as (Hrows & _). rewrite <-(ss_db _ _ Hs) in Hrows.
  clear Hrun Hs. destruct rows as [|x rows]; [simpl; by rewrite Hk2|].
  rewrite (bind_ok monotonic _ w2 (next_tick w2) (e_mono (w_tick w2)) eq_refl).
  destruct (send_rows_run (e_mono (w_tick w2) + seconds 10) (x :: rows) (next_tick w2)) as (w5 & sent & Hsend & Hd5 & Hk5 & Hsub).
  rewrite (bind_ok _ _ _ _ _ Hsend). destruct (await_rows_run sent.1 w5) as (w6 & acked & Hacked & Hd6 & Hk6 & Hc).
  rewrite (bind_ok _ _ _ _ _ Hacked). simpl in Hd5, Hk5.
  assert (w.(w_kafka) ⊆ w6.(w_kafka)) as Hincl by (rewrite <-Hk2, <-Hk5; done).
  assert (delivered w6.(w_db) w6.(w_kafka)) as Hfin by (rewrite Hd6, Hd5; by eapply delivered_mono).
  assert (forall id r, id ∈ acked.1 -> w6.(w_db).(outbox_events) !! id = Some r -> envelope_of id r ∈ w6.(w_kafka)) as Hconf.
  { intros id r (r0 & Hin & He)%Hc Hr. rewrite Hd6, Hd5 in Hr. destruct (Hrows id r0 (Hsub _ Hin)) as (r' & Hr' & Heq).
    rewrite Hr in Hr'. injection Hr' as <-. by rewrite Heq. }
  clear -Hfin Hconf Hincl. destruct (mark_published_delivered token acked.1 w6 Hfin Hconf) as [Hm Hmk]. cbv zeta.
  destruct acked.1 as [|c confirmed].
  - rewrite (bind_ok (mret tt) _ w6 w6 tt eq_refl). by destruct (sent.2 ++ acked.2).
  - destruct (mark_published token (c :: confirmed) w6) as [w7 [[]|e]] eqn:Hrun; simpl in Hm, Hmk; rewrite <-Hmk in Hm, Hincl;
      [rewrite (bind_ok _ _ _ _ _ Hrun); by destruct (sent.2 ++ acked.2)|by rewrite (bind_raise _ _ _ _ _ Hrun)].
Qed.
End publisher.

(** C28: an event marked published has been delivered: [publish_batch] keeps every published event on the
    topic, whatever send, acknowledgement, commit or marking fails and wherever it stops. *)
Theorem published_means_delivered `{E : Env} send ack limit w :
  delivered w.(w_db) w.(w_kafka) ->
  let w' := (publish_batch send ack limit w).1 in
  delivered w'.(w_db) w'.(w_kafka) /\ w.(w_kafka) ⊆ w'.(w_kafka).
Proof.
  intros Hd. cbv zeta. unfold publish_batch.
  destruct (measured_stores "publish_batch" (publish_batch_body send ack limit) w) as (w0 & Hdb0 & Hk0 & _ & -> & ->).
  rewrite <-Hdb0, <-Hk0 in *. by apply publish_body_delivered.
Qed.

Lemma published_means_delivered_witness :
  let w' := (publish_batch (E := demo_env) (fun _ => None) (fun i => if Nat.even i then NoFault else FaultAfter PoolTimeout) 8 booked_world).1 in
  delivered w'.(w_db) w'.(w_kafka) /\ booked_world.(w_kafka) ⊆ w'.(w_kafka).
Proof.
  apply (published_means_delivered (E := demo_env)). intros id r Hr Hp. exfalso.
  assert (map_Forall (fun _ r => r.(ob_published_at) = None) booked_world.(w_db).(outbox_events)) as Hn.
  { apply (bool_decide_unpack (map_Forall (fun _ r => r.(ob_published_at) = None) booked_world.(w_db).(outbox_events))). by vm_compute. }
  specialize (Hn id r Hr). rewrite Hn in Hp. by destruct Hp.
Defined.

(** ** The refresh queue *)

(** The seats a queued refresh will write include those asked for; [None] stands for the whole event. *)
Definition covers (queued asked : option (list string)) : Prop :=
  match queued, asked with
  | None, _ => True
  | Some l, Some a => a ⊆ l
  | Some _, None => False
  end.

(** The row after the requests that arrive while a worker refreshes it. *)
Definition requested (reqs : list (Z * option (list string))) (r : refresh_row) : refresh_row :=
  foldl (fun r q => bump_refresh q.1 q.2 r) r reqs.

Lemma covers_refl a : covers a a.
Proof. destruct a as [l|]; [|done]. by intros x Hx. Qed.

Lemma covers_trans a b c : covers a b -> covers b c -> covers a c.
Proof. destruct a, b, c; simpl; try done. intros. by etrans. Qed.

Lemma requested_spec reqs r :
  r.(rq_completed_generation) < r.(rq_generation) ->
  (requested reqs r).(rq_generation) = r.(rq_generation) + Z.of_nat (length reqs) /\
  (requested reqs r).(rq_completed_generation) = r.(rq_completed_generation) /\
  (requested reqs r).(rq_lease_token) = r.(rq_lease_token) /\
  covers (requested reqs r).(rq_seat_ids) r.(rq_seat_ids) /\
  forall q, q ∈ reqs -> covers (requested reqs r).(rq_seat_ids) q.2.
Proof.
  revert r. induction reqs as [|[t s] reqs IH]; intros r Hlt; simpl.
  { split; [lia|]. do 2 (split; [done|]). split; [apply covers_refl|by intros ? ?%not_elem_of_nil]. }
  destruct (IH (bump_refresh t s r)) as (Hg & Hc & Ht & Hcov & Hall); [simpl; lia|].
  assert (covers (bump_refresh t s r).(rq_seat_ids) r.(rq_seat_ids) /\ covers (bump_refresh t s r).(rq_seat_ids) s) as [H1 H2].
  { unfold bump_refresh. cbn [rq_seat_ids]. rewrite (proj2 (Z.eqb_neq _ _)) by lia.
    destruct (rq_seat_ids r), s; simpl; try done.
    split; intros x Hx; apply elem_of_remove_dups; set_solver. }
  split; [rewrite Hg; simpl; lia|]. split; [by rewrite Hc|]. split; [by rewrite Ht|].
  split; [by eapply covers_trans|]. intros q [->|Hq]%elem_of_cons; [by eapply covers_trans|auto].
Qed.

(** C29: a refresh request is never lost: when a worker completes the generation it claimed, a row with no
    request since is done, and a row with requests since is still due and will write every seat
    those requests named. *)
Theorem refresh_never_lost `{E : Env} token claimed_at cooldown ev r0 reqs w :
  0 <= r0.(rq_completed_generation) < r0.(rq_generation) -> r0.(rq_lease_token) = Some token ->
  w.(w_db).(seat_refresh_requests) !! ev = Some (requested reqs r0) ->
  exists w' r', complete_refresh token claimed_at cooldown (ev, r0) w = (w', Ok tt) /\
    w'.(w_db).(seat_refresh_requests) !! ev = Some r' /\ r'.(rq_lease_token) = None /\
    r'.(rq_completed_generation) = r0.(rq_generation) /\ r'.(rq_generation) = r0.(rq_generation) + Z.of_nat (length reqs) /\
    forall q, q ∈ reqs -> r'.(rq_completed_generation) < r'.(rq_generation) /\ covers r'.(rq_seat_ids) q.2.
Proof.
  intros Hlt Htok Hrow. destruct (requested_spec reqs r0 (proj2 Hlt)) as (Hg & Hc & Ht & _ & Hall).
  eexists _, _. split.
  { unfold complete_refresh, the_db, sql, gets, clock_timestamp, draw, require, raise_if, mbind, M_bind. simpl.
    rewrite bool_decide_eq_true_2; [done|]. intros k r Hr [->%bool_decide_eq_true _]%andb_true_iff. rewrite Hrow in Hr.
    injection Hr as <-. unfold generations_ok. simpl. rewrite Hg. apply andb_true_iff; split; apply Z.leb_le; lia. }
  simpl. rewrite lookup_update_where, Hrow. simpl.
  rewrite (bool_decide_eq_true_2 (ev = ev)), Ht, Htok, bool_decide_eq_true_2 by done. simpl.
  split; [done|]. simpl. split; [done|]. split; [done|]. split; [done|].
  intros q Hq. assert (0 < Z.of_nat (length reqs)) by (destruct reqs; [by apply not_elem_of_nil in Hq|simpl; lia]).
  split; [lia|]. rewrite (proj2 (Z.eqb_neq _ _)) by lia. auto.
Qed.

Definition claimed_row : refresh_row := RefreshRow 4 3 0 0 (Some (seconds 30)) (Some 5%positive) (Some ["A001"]).

Lemma refresh_never_lost_witness :
  let reqs := [(10, Some ["A002"]); (11, None)] in
  let w := set_db (set_seat_refresh_requests (fun _ => {[ ev1 := requested reqs claimed_row ]})) world0 in
  exists w' r', complete_refresh (E := demo_env) 5 7 250 (ev1, claimed_row) w = (w', Ok tt) /\
    w'.(w_db).(seat_refresh_requests) !! ev1 = Some r' /\ r'.(rq_lease_token) = None /\
    r'.(rq_completed_generation) = 4 /\ r'.(rq_generation) = 4 + Z.of_nat (length reqs) /\
    forall q, q ∈ reqs -> r'.(rq_completed_generation) < r'.(rq_generation) /\ covers r'.(rq_seat_ids) q.2.
Proof. apply (refresh_never_lost (E := demo_env) 5 7 250 ev1 claimed_row); [done|done|by vm_compute]. Defined.
