(* ===== verification/Schedule.v ===== *)
(** * The reconciliation schedule

    A worker whose lease token is gone changes nothing, a failed event is retried with bounded backoff, a
    failing event does not stop its batch, and a pass ends when its time budget is spent. *)

From S2P Require Import Prelude Domain Schema World Observability Postgres Sql Config.
From S2P Require Import Invariant InvReserve Fulfilment InvFulfil Cache Workers Reconcile System Example.

(** ** Leases *)

Lemma update_none {K A} `{Countable K} (P : K -> A -> bool) f (m : gmap K A) :
  (forall k a, m !! k = Some a -> P k a = false) -> update_where P f m = m.
Proof.
  intros HP. apply map_eq. intros k. rewrite lookup_update_where. destruct (m !! k) as [a|] eqn:Hk; [|done]. simpl.
  by rewrite (HP k a Hk).
Qed.

(** The token no longer holds the event's lease. *)
Definition lost (ev token : uuid) (d : db) : Prop :=
  forall r, d.(event_reconciliation) !! ev = Some r -> r.(rc_lease_token) <> Some token.

Lemma lost_update ev token f d :
  lost ev token d -> set_event_reconciliation (update_where (leased ev token) f) d = d.
Proof.
  intros Hl. unfold set_event_reconciliation. rewrite update_none; [by destruct d|].
  intros k r Hk. unfold leased. case_bool_decide as He; [|done]. subst k. simpl. apply bool_decide_eq_false_2. by apply Hl.
Qed.

(** C30: a lease that has passed to another worker is fenced: completing or deferring an event under a
    token the row no longer carries leaves the schedule as it is, and completing says so. *)
Theorem stale_lease_fenced `{E : Env} settings ev token w :
  lost ev token w.(w_db) ->
  (defer_reconciliation settings ev token w).1.(w_db) = w.(w_db) /\
  (complete_reconciliation settings ev token w).1.(w_db) = w.(w_db) /\
  forall b, (complete_reconciliation settings ev token w).2 = Ok b -> b = false.
Proof.
  intros Hl. split; [|split].
  - apply (transaction_preserves (fun d => d = w.(w_db))); [done|]. intros w0 Hdb _. wp_sql. simpl. rewrite Hdb.
    by apply lost_update.
  - apply (transaction_preserves (fun d => d = w.(w_db))); [done|]. intros w0 Hdb _. wp_sql. simpl. rewrite Hdb.
    by apply lost_update.
  - intros b Hok. destruct (complete_reconciliation settings ev token w) as [w' o] eqn:Hrun. simpl in Hok. subst o.
    apply transaction_ok in Hrun as (w0 & w1 & Hs & Hrun & _). rewrite <-(ss_db _ _ Hs) in Hl.
    refine (wp_run _ _ _ _ _ (_ : wp _ (fun b w1 => b = false) w0) Hrun). wp_sql. simpl.
    destruct (event_reconciliation (w_db w0) !! ev) as [r|] eqn:Hr; [|done]. apply bool_decide_eq_false_2. by apply Hl.
Qed.

Definition scheduled (r : reconcile_row) : world := set_db (set_event_reconciliation (fun _ => {[ ev1 := r ]})) world0.
Definition leased_row : reconcile_row := ReconcileRow 0 None 7 (Some (seconds 1030)) (Some 5%positive) (Some 0).

Lemma stale_lease_fenced_witness :
  (defer_reconciliation (E := demo_env) default_settings ev1 4 (scheduled leased_row)).1.(w_db) = (scheduled leased_row).(w_db) /\
  (complete_reconciliation (E := demo_env) default_settings ev1 4 (scheduled leased_row)).1.(w_db) = (scheduled leased_row).(w_db) /\
  forall b, (complete_reconciliation (E := demo_env) default_settings ev1 4 (scheduled leased_row)).2 = Ok b -> b = false.
Proof.
  apply (stale_lease_fenced (E := demo_env) default_settings ev1 4 (scheduled leased_row)).
  intros r Hr. unfold scheduled in Hr. simpl in Hr. rewrite lookup_singleton_eq in Hr. by injection Hr as <-.
Defined.

Lemma backoff_bounds base n : 0 < base -> 0 <= n -> base <= backoff_ms base n <= 32 * base.
Proof.
  intros Hb Hn. unfold backoff_ms, BACKOFF_SHIFT_CAP.
  assert (2 ^ 0 <= 2 ^ Z.min n 5 <= 2 ^ 5) by (split; apply Z.pow_le_mono_r; lia). change (2 ^ 5) with 32 in *.
  change (2 ^ 0) with 1 in *. nia.
Qed.

Lemma backoff_mono base n m : 0 < base -> 0 <= n <= m -> backoff_ms base n <= backoff_ms base m.
Proof.
  intros Hb Hn. unfold backoff_ms, BACKOFF_SHIFT_CAP.
  assert (2 ^ Z.min n 5 <= 2 ^ Z.min m 5) by (apply Z.pow_le_mono_r; lia). nia.
Qed.

(** A failed reconciliation is retried with bounded exponential backoff: deferring under the lease in
    force counts the failure, gives the lease back, keeps the last success, and puts the next attempt
    between one and thirty-two base delays after the instant it reads, never sooner than after
    fewer failures. *)
Theorem defer_backs_off `{E : Env} settings ev token w w' r :
  0 < settings.(reconcile_backoff_ms) -> 0 <= r.(rc_consecutive_failures) ->
  w.(w_db).(event_reconciliation) !! ev = Some r -> r.(rc_lease_token) = Some token ->
  defer_reconciliation settings ev token w = (w', Ok tt) ->
  exists r' i, w'.(w_db).(event_reconciliation) !! ev = Some r' /\
    r'.(rc_consecutive_failures) = r.(rc_consecutive_failures) + 1 /\ r'.(rc_lease_token) = None /\
    r'.(rc_last_reconciled_at) = r.(rc_last_reconciled_at) /\
    let delay := r'.(rc_next_due_at) - e_clock i in
    milliseconds settings.(reconcile_backoff_ms) <= delay <= milliseconds (32 * settings.(reconcile_backoff_ms)) /\
    forall n, 0 <= n <= r.(rc_consecutive_failures) -> milliseconds (backoff_ms settings.(reconcile_backoff_ms) n) <= delay.
Proof.
  intros Hb Hn Hr Ht (w0 & w1 & Hs & Hrun & Hs')%transaction_ok. rewrite (ss_db _ _ Hs').
  rewrite <-(ss_db _ _ Hs) in Hr.
  refine (wp_run _ _ _ _ _ (_ : wp _ (fun _ w1 => _) w0) Hrun). apply wp_bind, wp_clock, wp_update_db. simpl.
  rewrite lookup_update_where, Hr. simpl. unfold leased. rewrite bool_decide_eq_true_2, Ht, bool_decide_eq_true_2 by done.
  eexists _, (w_tick w0). split; [done|]. simpl. do 3 (split; [done|]).
  pose proof (backoff_bounds _ _ Hb Hn). unfold milliseconds, us_per_ms. split; [lia|]. intros m Hm.
  pose proof (backoff_mono _ _ _ Hb Hm). lia.
Qed.

Lemma defer_backs_off_witness :
  let w' := (defer_reconciliation (E := demo_env) default_settings ev1 5 (scheduled leased_row)).1 in
  exists r' i, w'.(w_db).(event_reconciliation) !! ev1 = Some r' /\
    r'.(rc_consecutive_failures) = 7 + 1 /\ r'.(rc_lease_token) = None /\ r'.(rc_last_reconciled_at) = None /\
    let delay := r'.(rc_next_due_at) - e_clock (Env := demo_env) i in
    milliseconds 1000 <= delay <= milliseconds (32 * 1000) /\
    forall n, 0 <= n <= 7 -> milliseconds (backoff_ms 1000 n) <= delay.
Proof.
  apply (defer_backs_off (E := demo_env) default_settings ev1 5 (scheduled leased_row) _ leased_row); [done..|].
  by vm_compute.
Defined.

(** ** The batch and the pass *)

Create HintDb adv discriminated.

Section pass.
Context `{E : Env} (settings : Settings) (encode_layout : layout_doc -> string).

(** [m] returns whatever happens. *)
Definition always {A} (m : W A) : Prop := forall w, exists w' a, m w = (w', Ok a).

Lemma always_ret {A} (a : A) : always (mret a).
Proof. intros w. by eexists _, _. Qed.
Lemma always_obs o : always (modify (add_obs o)).
Proof. intros w. by eexists _, _. Qed.
Lemma always_bind {A B} (m : W A) (f : A -> W B) : always m -> (forall a, always (f a)) -> always (m ≫= f).
Proof. intros Hm Hf w. destruct (Hm w) as (w1 & a & Hr). rewrite (bind_ok _ _ _ _ _ Hr). apply Hf. Qed.
Lemma always_try {A} (m : W A) h : (forall e, always (h e)) -> always (try_except m h).
Proof. intros Hh w. unfold try_except. destruct (m w) as [w1 [a|e]]; [by eexists _, _|apply Hh]. Qed.

(** The failures of one event stay with it. *)
Lemma reconcile_event_always token ev : always (reconcile_event settings encode_layout token ev).
Proof.
  unfold reconcile_event. apply always_bind.
  - apply always_try. intros _. do 3 (apply always_bind; [apply always_obs|intros _]).
    apply always_bind; [|intros; apply always_ret]. apply always_try. intros; apply always_obs.
  - intros [|]; [apply always_ret|]. apply always_bind.
    + apply always_try. intros _. do 2 (apply always_bind; [apply always_obs|intros _]). apply always_ret.
    + intros [[|]|]; [|apply always_obs|apply always_ret]. apply always_bind; intros; apply always_obs.
Qed.

(** ** Draws only go forward *)

Definition advances {A} (m : W A) : Prop := forall w, (w.(w_tick) <= (m w).1.(w_tick))%nat.

Lemma adv_ret {A} (a : A) : advances (mret a).
Proof. intros w. simpl. lia. Qed.
Lemma adv_raise {A} e : advances (raise (A := A) e).
Proof. intros w. simpl. lia. Qed.
Lemma adv_obs o : advances (modify (add_obs o)).
Proof. intros w. simpl. lia. Qed.
Lemma adv_gets {A} (f : world -> A) : advances (gets f).
Proof. intros w. simpl. lia. Qed.
Lemma adv_update f : advances (update_db f).
Proof. intros w. simpl. lia. Qed.
Lemma adv_bind {A B} (m : W A) (f : A -> W B) : advances m -> (forall a, advances (f a)) -> advances (m ≫= f).
Proof.
  intros Hm Hf w. specialize (Hm w). unfold mbind, M_bind. destruct (m w) as [w1 [a|e]]; simpl in *; [|done].
  specialize (Hf a w1). lia.
Qed.
Lemma adv_try {A} (m : W A) h : advances m -> (forall e, advances (h e)) -> advances (try_except m h).
Proof.
  intros Hm Hh w. specialize (Hm w). unfold try_except. destruct (m w) as [w1 [a|e]]; simpl in *; [done|].
  specialize (Hh e w1). lia.
Qed.
Lemma adv_finally {A} (m : W A) f : advances m -> advances f -> advances (finally m f).
Proof.
  intros Hm Hf w. specialize (Hm w). unfold finally. destruct (m w) as [w1 r]. specialize (Hf w1). simpl in *.
  destruct (f w1) as [w2 [[]|e]]; simpl in *; lia.
Qed.
Lemma adv_draw {A} (f : nat -> W A) : (forall i, advances (f i)) -> advances (draw ≫= f).
Proof. intros Hf w. specialize (Hf w.(w_tick) (next_tick w)). simpl in Hf. unfold mbind, M_bind. simpl. lia. Qed.
Lemma adv_raise_if b e : advances (raise_if b e).
Proof. destruct b; intros w; simpl; lia. Qed.
Lemma adv_or_raise {A} (o : option A) e : advances (or_raise o e).
Proof. destruct o; intros w; simpl; lia. Qed.
Lemma adv_for_each {X} (l : list X) f : (forall x, advances (f x)) -> advances (for_each l f).
Proof. intros Hf. induction l as [|x l IH]; [apply adv_ret|]. apply adv_bind; [done|]. by intros _. Qed.
Lemma adv_redis {A} (f : redis -> redis * A) : advances (redis_call f).
Proof. unfold redis_call. apply adv_draw. intros i. destruct (e_redis i); intros w; simpl; lia. Qed.

#[local] Hint Resolve adv_ret adv_raise adv_obs adv_gets adv_update adv_raise_if adv_or_raise adv_redis : adv.

(** Step through the combinators of a computation that draws. *)
Ltac adv_step :=
  match goal with
  | |- advances (draw ≫= _) => apply adv_draw; intros ?
  | |- advances (_ ≫= _) => apply adv_bind; [|intros ?]
  | |- advances (try_except _ _) => apply adv_try; [|intros ?]
  | |- advances (finally _ _) => apply adv_finally
  | |- advances (for_each _ _) => apply adv_for_each; intros ?
  | |- advances (match ?x with _ => _ end) => destruct x
  | |- advances (let _ := _ in _) => cbv zeta
  | |- _ => progress unfold inc, dec, observe, sql, the_db, clock_timestamp, monotonic, uuid4, redis_eval, skip_locked, lock_nowait
  | |- _ => solve [eauto with adv]
  end.
Ltac adv := repeat adv_step.

Lemma adv_transaction {A} (body : W A) : advances body -> advances (transaction body).
Proof.
  intros Hb. assert (advances return_connection) as Hret.
  { unfold return_connection, putconn, record_slow_db_phase, sample_pool. adv. }
  assert (forall e, advances (record_error e)) as Herr by (intros e; unfold record_error; adv).
  assert (forall u e, advances u -> advances (transaction_failed u e)) as Hfail.
  { intros u e Hu. unfold transaction_failed. adv. }
  unfold transaction, within, with_resource. apply adv_bind.
  - simpl. unfold tx_enter, acquire_connection, getconn, begin, sample_pool. adv; by apply Hfail; adv.
  - intros d w. specialize (Hb w). destruct (body w) as [w1 [a|e]]; simpl in Hb; etrans; try exact Hb.
    + apply (adv_bind (tx_exit d None) (fun _ => mret a)); [|intros; adv].
      unfold tx_exit, rollback, measured_commit, commit, record_slow_db_phase. adv; by apply Hfail; adv.
    + apply (adv_bind (tx_exit d (Some e)) (fun b : bool => if b then _ else raise e)); [|intros; adv].
      unfold tx_exit, rollback. apply adv_bind; [apply Hfail; adv|intros; adv].
Qed.

Lemma adv_measured {A} op (m : W A) : advances m -> advances (measured_work op m).
Proof.
  intros Hm w. unfold measured_work. specialize (Hm (add_obs (Obs "WORK_ACTIVE" [op] 1) w)).
  unfold inc, mbind, M_bind, modify. destruct (m _) as [w1 [a|e]]; simpl in *; done.
Qed.

Ltac adv_all :=
  repeat match goal with
  | |- advances (transaction _) => apply adv_transaction
  | |- advances (measured_work _ _) => apply adv_measured
  | |- _ => adv_step
  end.

Lemma adv_snapshot ev : advances (snapshot_event settings encode_layout ev).
Proof. unfold snapshot_event, snapshot, put. adv_all. Qed.

Lemma adv_reconcile_event token ev : advances (reconcile_event settings encode_layout token ev).
Proof.
  pose proof (adv_snapshot ev). unfold reconcile_event, defer_reconciliation, complete_reconciliation. adv_all.
Qed.

Lemma adv_reconcile_batch deadline : advances (reconcile_batch settings encode_layout deadline).
Proof.
  apply adv_measured, adv_bind.
  - unfold claim_due_events. adv_all.
  - intros [token evs]. simpl. induction evs as [|ev evs IH]; [apply adv_ret|]. cbn [reconcile_loop].
    apply adv_bind; [destruct deadline; adv|intros [|]].
    + apply adv_bind; [apply adv_transaction; adv|intros; apply adv_ret].
    + apply adv_bind; [apply adv_reconcile_event|intros _]. apply adv_bind; [done|intros; apply adv_ret].
Qed.
End pass.

(** C31: a failing event does not stop its batch: without a deadline every claimed event is started whatever
    its snapshot, deferral or acknowledgement does, and the batch answers how many it started. *)
Theorem reconcile_isolates_failures `{E : Env} settings encode_layout token events w :
  exists w', reconcile_loop settings encode_layout token None events w = (w', Ok (Z.of_nat (length events))).
Proof.
  revert w. induction events as [|ev events IH]; intros w; [by exists w|]. cbn [reconcile_loop].
  rewrite (bind_ok (mret false) _ w w false eq_refl).
  destruct (reconcile_event_always settings encode_layout token ev w) as (w1 & [] & H1). rewrite (bind_ok _ _ _ _ _ H1).
  destruct (IH w1) as (w2 & H2). rewrite (bind_ok _ _ _ _ _ H2). exists w2.
  replace (Z.of_nat (length (ev :: events))) with (Z.of_nat (length events) + 1) by (simpl; lia). done.
Qed.

(** C32: a reconciliation pass ends: when the monotonic clock moves by at least a microsecond between
    readings, a pass given more rounds than microseconds are left to its deadline, and at least one,
    never runs out of rounds, whatever the batches do. *)
Theorem reconcile_pass_ends `{E : Env} settings encode_layout deadline fuel w :
  (forall i j, (i < j)%nat -> e_mono i < e_mono j) ->
  Z.max 0 (deadline - e_mono w.(w_tick)) < Z.of_nat fuel ->
  (reconcile_pass settings encode_layout fuel deadline w).2 <> Ok None.
Proof.
  intros Hmono. revert w. induction fuel as [|fuel IH]; intros w Hfuel; [lia|]. cbn [reconcile_pass].
  rewrite (bind_ok monotonic _ w (next_tick w) (e_mono (w_tick w)) eq_refl).
  destruct (e_mono (w_tick w) <? deadline) eqn:Hlt; [|done]. bool_hyps.
  pose proof (adv_reconcile_batch settings encode_layout (Some deadline) (next_tick w)) as Hadv.
  destruct (reconcile_batch settings encode_layout (Some deadline) (next_tick w)) as [w1 [n|e]] eqn:Hb; simpl in Hadv;
    [rewrite (bind_ok _ _ _ _ _ Hb)|by rewrite (bind_raise _ _ _ _ _ Hb)].
  destruct (n =? 0); [done|]. assert (e_mono (w_tick w) < e_mono (w_tick w1)) by (apply Hmono; lia).
  assert ((reconcile_pass settings encode_layout fuel deadline w1).2 <> Ok None) as Hrest.
  { apply IH. lia. }
  destruct (reconcile_pass settings encode_layout fuel deadline w1) as [w2 [[m|]|e]] eqn:Hr; simpl in Hrest;
    [by rewrite (bind_ok _ _ _ _ _ Hr)|done|by rewrite (bind_raise _ _ _ _ _ Hr)].
Qed.

Lemma reconcile_pass_ends_witness :
  (reconcile_pass (E := demo_env) default_settings (fun _ => "layout") 8 5 (scheduled leased_row)).2 <> Ok None.
Proof.
  apply (reconcile_pass_ends (E := demo_env) default_settings (fun _ => "layout") 5 8 (scheduled leased_row)).
  - intros i j Hij. simpl. lia.
  - simpl. lia.
Defined.
