(* ===== verification/Edge.v ===== *)
(** * The HTTP edge

    The payment webhook acts on nothing it cannot authenticate and acts on what the simulator sends, and a
    configuration that starts is sane. *)

From S2P Require Import Prelude Domain Schema World Observability Postgres Sql Reservations Config.
From S2P Require Import Cache Browse Intake Service Api Fulfilment InvFulfil System Example.

(** ** The webhook *)

Section webhook.
Context `{E : Env} (settings : Settings) `{S : ReservationStore}.
Context (hmac : string -> string -> string) (render_int : Z -> string) (parse : string -> option callback_payload).

(** Reaching the use case. *)
Lemma webhook_accepts raw signature timestamp p w :
  parse raw = Some p -> valid_callback p = true -> Z.of_nat (String.length raw) <= 16384 ->
  signature_fresh (e_clock w.(w_tick)) timestamp = true -> signature = signature_of settings hmac render_int timestamp raw ->
  webhook settings hmac render_int parse raw signature timestamp w =
  (s ← app_callback p; mret (Success 200 (BodyStatus s) [])) (next_tick w).
Proof.
  intros Hp Hv Hl Hf Hs. unfold webhook. rewrite Hp, Hv. rewrite (bind_ok (or_raise (Some p) _) _ w w p eq_refl).
  rewrite (proj2 (Z.ltb_ge _ _)) by lia. rewrite (bind_ok (raise_if false _) _ w w tt eq_refl).
  rewrite (bind_ok clock_timestamp _ w (next_tick w) (e_clock (w_tick w)) eq_refl).
  rewrite Hf, bool_decide_eq_false_2 by (intros Hne; by apply Hne). done.
Qed.

(** An exception of the handler becomes an error response; no store changes. *)
Lemma respond_error operational handler w w2 e :
  handler w = (w2, Raise e) ->
  exists w3 r, respond operational handler w = (w3, Ok r) /\ same_stores w2 w3 /\
    match r with Success _ _ _ => False | ErrorResponse _ _ _ => True end.
Proof.
  intros Hrun. unfold respond, try_except. rewrite Hrun. exists (record_exception operational e w2).1, (handle_exception operational e).
  assert ((record_exception operational e w2).2 = Ok tt /\ same_stores w2 (record_exception operational e w2).1) as [Hr Hs].
  { unfold record_exception. repeat case_match; done. }
  unfold mbind, M_bind. destruct (record_exception operational e w2) as [w3 r]. simpl in *. subst r. split; [done|]. split; [done|].
  destruct e; simpl; try done. by repeat case_match.
Qed.
End webhook.

(** C34: a request that is not signed with the webhook secret over its own timestamp and body, or whose
    timestamp is more than five minutes away from every instant the process can read, is refused
    and changes no store, whichever store the API runs on. *)
Theorem webhook_rejects `{E : Env} settings `{S : ReservationStore} hmac render_int parse raw signature timestamp w :
  signature <> signature_of settings hmac render_int timestamp raw \/ (forall i, signature_fresh (e_clock i) timestamp = false) ->
  exists w' e, webhook settings hmac render_int parse raw signature timestamp w = (w', Raise e) /\ same_stores w w'.
Proof.
  intros Hbad. unfold webhook.
  destruct (match parse raw with Some p => _ | None => None end) as [p|]; [|by eexists _, _].
  rewrite (bind_ok (or_raise (Some p) _) _ w w p eq_refl).
  destruct (16384 <? _); [by eexists _, _|]. rewrite (bind_ok (raise_if false _) _ w w tt eq_refl).
  rewrite (bind_ok clock_timestamp _ w (next_tick w) (e_clock (w_tick w)) eq_refl).
  assert (negb (signature_fresh (e_clock (w_tick w)) timestamp) ||
    bool_decide (signature <> signature_of settings hmac render_int timestamp raw) = true) as ->; [|by eexists _, _].
  apply orb_true_iff. destruct Hbad as [Hs|Hf]; [right; by apply bool_decide_eq_true_2|left; by rewrite Hf].
Qed.

Definition demo_store : ReservationStore := PostgresReservations (E := demo_env) 120.

Lemma webhook_rejects_witness :
  exists w' e, webhook (E := demo_env) default_settings (S := demo_store) (fun k m => k +:+ m) (fun _ => "0")
    (fun _ => Some paid_payload) "body" "forged" 1000 paying_world = (w', Raise e) /\ same_stores paying_world w'.
Proof. apply (webhook_rejects (E := demo_env) default_settings (S := demo_store)). left. by vm_compute. Defined.

(** C35: what the simulator posts is what the API processes: if the JSON codec round-trips the payload, the
    payload is valid and small, and the clocks read within four minutes of each other, the request is
    authenticated and the callback runs on the payload that was sent; the post succeeds exactly when
    the callback does, with the same effect on every store. *)
Theorem simulator_webhook_roundtrip `{E : Env} settings operational `{S : ReservationStore} hmac render_int parse dump p w :
  parse (dump p) = Some p -> valid_callback p = true -> Z.of_nat (String.length (dump p)) <= 16384 ->
  (forall i j, Z.abs (e_clock i - e_clock j) <= seconds 240) ->
  exists w1, same_stores w w1 /\
    same_stores (app_callback p w1).1 (post_callback settings operational hmac render_int parse dump p w).1 /\
    ((exists s, (app_callback p w1).2 = Ok s) <-> (post_callback settings operational hmac render_int parse dump p w).2 = Ok tt).
Proof.
  intros Hp Hv Hl Hclk. unfold post_callback.
  rewrite (bind_ok clock_timestamp _ w (next_tick w) (e_clock (w_tick w)) eq_refl).
  set (now := e_clock (w_tick w)). set (ts := now / us_per_second).
  assert (signature_fresh (e_clock (w_tick (next_tick w))) ts = true) as Hfresh.
  { unfold signature_fresh. apply negb_true_iff, Z.ltb_ge. specialize (Hclk (w_tick (next_tick w)) (w_tick w)). fold now in Hclk.
    pose proof (Z.mul_div_le now us_per_second eq_refl). pose proof (Z.mul_succ_div_gt now us_per_second eq_refl).
    fold ts in H, H0. unfold seconds, us_per_second in *. lia. }
  exists (next_tick (next_tick w)). split; [done|].
  set (handler := webhook _ _ _ _ _ _ _). set (w1 := next_tick w).
  assert (handler w1 = (s ← app_callback p; mret (Success 200 (BodyStatus s) [])) (next_tick w1)) as Hrun.
  { apply (webhook_accepts settings hmac render_int parse (dump p) _ ts p w1 Hp Hv Hl Hfresh eq_refl). }
  destruct (app_callback p (next_tick w1)) as [w2 [s|e]] eqn:Hcb.
  - rewrite (bind_ok _ _ _ _ _ Hcb) in Hrun.
    assert (respond operational handler w1 = (w2, Ok (Success 200 (BodyStatus s) []))) as Hresp.
    { unfold respond, try_except. by rewrite Hrun. }
    rewrite (bind_ok _ _ _ _ _ Hresp). split; [done|]. split; [done|]. by exists s.
  - rewrite (bind_raise _ _ _ _ _ Hcb) in Hrun. destruct (respond_error operational handler w1 w2 e Hrun) as (w3 & r & Hresp & Hs & Hr).
    rewrite (bind_ok _ _ _ _ _ Hresp). destruct r; [done|]. split; [done|]. by split; [intros [? ?]|].
Qed.

(** The demonstration's payload in a codec of one message, and its valid form. *)
Lemma simulator_webhook_roundtrip_witness :
  let parse := fun raw => if bool_decide (raw = "paid") then Some paid_payload else None in
  let posted := post_callback (E := still_env) default_settings (fun _ => false) (S := PostgresReservations (E := still_env) 120)
    (fun k m => k +:+ m) (fun _ => "0") parse (fun _ => "paid") paid_payload paying_world in
  posted.2 = Ok tt /\ exists w1, same_stores paying_world w1 /\
    same_stores (app_callback (S := PostgresReservations (E := still_env) 120) paid_payload w1).1 posted.1 /\
    ((exists s, (app_callback (S := PostgresReservations (E := still_env) 120) paid_payload w1).2 = Ok s) <-> posted.2 = Ok tt).
Proof.
  split; [by vm_compute|].
  apply (simulator_webhook_roundtrip (E := still_env) default_settings (fun _ => false)
    (S := PostgresReservations (E := still_env) 120)); [done|done|done|]. intros i j. by vm_compute.
Defined.

(** A configuration that passes validation is sane: concurrency fits the pool, batches and budgets are
    bounded, the cache is reconciled before it expires, and outside development no local secret and,
    in the Redis-first mode, no unreplicated acceptance is possible. *)
Theorem validated_settings_sane s : validate s = Ok tt -> sane s.
Proof. apply validate_sane. Qed.

Lemma validated_settings_sane_witness : sane default_settings.
Proof. apply validated_settings_sane. by vm_compute. Defined.
