(* ===== verification/LoadGenerator.v ===== *)
(** * The HTTP load generator

    [scripts/http_load_generator.py]: error diagnostics, the open-loop arrival plan, seat allocation,
    the bootstrap retries, one request with its bounded retries, the dispatch loop with its drops, and
    the gates computed from the counters.  Network answers, random draws, scheduling lag and durations
    are parameters.  Measured times are integers (nanoseconds); a [fraction] is the dyadic value of its
    binary64 literal and the product with a length is rounded as binary64 rounds; the due times of the
    arrival plan are exact rationals.  The effects of concurrent requests are applied in the order in
    which the requests complete. *)

From Stdlib Require Import QArith.QArith_base.
From stdpp Require Import pretty.
From S2P Require Import Prelude.

#[local] Open Scope Z_scope.

(** ** Responses and diagnostics *)

(** [response.json()]: not JSON, an object with its [code] member if that is a string, or another value. *)
Inductive json_body : Type := NotJson | JsonObject (code : option string) | JsonOther.

Record http_answer : Type := HttpAnswer {
  ha_status : Z;
  ha_body : json_body;
  ha_length : Z;
  ha_etag : option string;
  ha_request_id : option string;
}.

(** What a request comes back with: a response, or an [httpx.HTTPError] of the named type. *)
Inductive reply : Type := Got (r : http_answer) | HTTPError (type : string).

Definition ERROR_CODES : list string :=
  ["ADMISSION_FULL"; "ADMISSION_UNAVAILABLE"; "DATABASE_UNAVAILABLE"; "RESOURCE_BUSY";
   "SEAT_BUSY"; "SEAT_UNAVAILABLE"; "SEATMAP_WARMING"; "SEATMAP_UNAVAILABLE";
   "RATE_LIMITED"; "UNAUTHENTICATED"; "IDEMPOTENCY_MISMATCH"; "SALE_CLOSED";
   "EVENT_NOT_FOUND"; "SEAT_NOT_FOUND"; "INVALID_REQUEST"; "INVALID_SEATS"].

(** [canonical] is [str(UUID(text))], absent when the text is no UUID. *)
Definition error_diagnostic (canonical : string -> option string) (r : http_answer) : string * option string :=
  let code := match r.(ha_body) with
              | JsonObject (Some c) => if bool_decide (c ∈ ERROR_CODES) then c else "OTHER"
              | _ => "OTHER"
              end in
  let request_id := match r.(ha_request_id) with
                    | Some text => if bool_decide (text = "") then None else canonical text
                    | None => None
                    end in
  (code, request_id).

Definition RETRYABLE_CODES : list string :=
  ["ADMISSION_FULL"; "ADMISSION_UNAVAILABLE"; "DATABASE_UNAVAILABLE"; "RATE_LIMITED";
   "RESOURCE_BUSY"; "SEATMAP_WARMING"; "SEATMAP_UNAVAILABLE"].

Definition retryable_response (write : bool) (status : Z) (code : string) : bool :=
  if bool_decide (status ∈ [429; 503]) && bool_decide (code ∈ RETRYABLE_CODES) then true
  else write && (status =? 409) && bool_decide (code = "RESOURCE_BUSY").

(** ** Percentiles *)

(** A binary64 constant [mantissa / 2^shift]. *)
Record dyadic : Type := Dyadic { dy_mantissa : Z; dy_shift : Z }.
Definition p50 : dyadic := Dyadic 1 1.
Definition p95 : dyadic := Dyadic 4278419646001971 52.
Definition p99 : dyadic := Dyadic 4458563631096791 52.
Definition p999 : dyadic := Dyadic 8998192055486251 53.

(** Rounding of a positive integer to 53 significant bits, ties to even. *)
Definition round53 (n : Z) : Z :=
  let d := Z.max 0 (Z.log2 n - 52) in
  let q := Z.shiftr n d in
  let r := n - Z.shiftl q d in
  let up := if d =? 0 then false else (2 ^ (d - 1) <? r) || ((r =? 2 ^ (d - 1)) && Z.odd q) in
  Z.shiftl (if up then q + 1 else q) d.

(** [math.ceil(n * fraction)] *)
Definition ceil_times (n : Z) (fraction : dyadic) : Z :=
  - ((- round53 (n * fraction.(dy_mantissa))) / 2 ^ fraction.(dy_shift)).

Definition sort_values (l : list Z) : list Z := merge_sort Z.le l.

(** [sorted(values)[math.ceil(len(values) * fraction) - 1]] *)
Definition percentile (values : list Z) (fraction : dyadic) : option Z :=
  match values with
  | [] => None
  | _ => sort_values values !! Z.to_nat (ceil_times (Z.of_nat (length values)) fraction - 1)
  end.

(** ** Arrivals *)

(** One phase: [range(rate * duration)] requests, [index / rate] seconds after the phase begins. *)
Definition phase_arrivals (phase : nat) (elapsed rate duration : Z) : list (Q * nat) :=
  map (fun i => (Qplus (inject_Z elapsed) (Qmake (Z.of_nat i) (Z.to_pos rate)), phase)) (seq 0 (Z.to_nat (rate * duration))).

Fixpoint phase_plan (phase : nat) (elapsed : Z) (phases : list (Z * Z)) : list (Q * nat) :=
  match phases with
  | [] => []
  | (rate, duration) :: rest => phase_arrivals phase elapsed rate duration ++ phase_plan (S phase) (elapsed + duration) rest
  end.

Definition arrival_plan (rate seconds : Z) (burst : bool) : list (Q * nat) :=
  phase_plan 0 0 (if burst then [(rate, 60); (rate * 4, 120); (rate, 60)] else [(rate, seconds)]).

(** ** Bootstrap validators *)

(** [response.raise_for_status()]: anything but a 2xx status raises. *)
Definition is_success (status : Z) : bool := (200 <=? status) && (status <=? 299).

(** The attempts for one show: the statuses counted, and the tag with the attempt that got it. *)
Fixpoint fetch (canonical : string -> option string) (answers : nat -> reply) (max_attempts attempt : nat) (left : nat)
    : list string * outcome (string * nat) :=
  match left with
  | O => ([], Raise (PyError "AssertionError" "Bootstrap attempt bound should return or raise"))
  | S left' =>
      match answers attempt with
      | HTTPError type => ([], Raise (PyError type ""))
      | Got r =>
          let code := (error_diagnostic canonical r).1 in
          let seen := pretty r.(ha_status) +:+ ":" +:+ code in
          let again := let '(l, o) := fetch canonical answers max_attempts (S attempt) left' in (seen :: l, o) in
          if r.(ha_status) =? 200 then
            ([seen], match r.(ha_etag) with Some t => Ok (t, attempt) | None => Raise (PyError "KeyError" "etag") end)
          else if (r.(ha_status) =? 503) && bool_decide (code = "SEATMAP_WARMING") && (S attempt <? max_attempts)%nat then again
          else if is_success r.(ha_status) then again
          else ([seen], Raise (PyError "HTTPStatusError" ""))
      end
  end.

(** All shows, by position: the tags by show (a later row wins), the statuses of all attempts, and the
    number of retries.  When several fetches raise, the first show's exception stands for them. *)
Fixpoint fetch_all (canonical : string -> option string) (answers : nat -> nat -> reply) (max_attempts position : nat)
    (shows : list string) : outcome (gmap string string * list string * nat) :=
  match shows with
  | [] => Ok (∅, [], 0%nat)
  | show :: rest =>
      match fetch canonical (answers position) max_attempts 0 max_attempts with
      | (_, Raise e) => Raise e
      | (seen, Ok (tag, n)) =>
          match fetch_all canonical answers max_attempts (S position) rest with
          | Raise e => Raise e
          | Ok (tags, statuses, retries) =>
              Ok (match tags !! show with Some _ => tags | None => <[show := tag]> tags end, seen ++ statuses, (n + retries)%nat)
          end
      end
  end.

Definition fetch_initial_validators (canonical : string -> option string) (answers : nat -> nat -> reply)
    (shows : list string) (concurrency max_attempts : Z) : outcome (gmap string string * list string * nat) :=
  if (concurrency <? 1) || (max_attempts <? 1) then Raise (PyError "ValueError" "Positive bootstrap bounds required")
  else fetch_all canonical answers (Z.to_nat max_attempts) 0 shows.

(** ** Transport diagnostics *)

Record transport_trace : Type := TransportTrace {
  tt_started : Z;
  tt_events : list (string * Z);
  tt_connect_attempted : bool;
}.

Definition trace_call (name : string) (now : Z) (t : transport_trace) : transport_trace :=
  TransportTrace t.(tt_started)
    (if (length t.(tt_events) <? 32)%nat then t.(tt_events) ++ [(name, now - t.(tt_started))] else t.(tt_events))
    (if bool_decide (name = "connection.connect_tcp.started") then true else t.(tt_connect_attempted)).

(** An exception object: its type, its [errno] and what [__cause__ or __context__] refers to. *)
Record exc_object : Type := ExcObject { xo_type : string; xo_errno : option Z; xo_next : option nat }.

(** The loop of [failure]: at most five distinct objects. *)
Fixpoint exception_chain (heap : nat -> exc_object) (room : nat) (seen : list nat) (exc : option nat) : list (string * option Z) :=
  match room, exc with
  | S room', Some id =>
      if bool_decide (id ∈ seen) then []
      else ((heap id).(xo_type), (heap id).(xo_errno)) :: exception_chain heap room' (id :: seen) (heap id).(xo_next)
  | _, _ => []
  end.

Definition failure (heap : nat -> exc_object) (exc : nat) (t : transport_trace)
    : bool * list (string * Z) * list (string * option Z) :=
  (t.(tt_connect_attempted), t.(tt_events), exception_chain heap 5 [] (Some exc)).

(** ** Arguments *)

Inductive float : Type := Finite (microunits : Z) | NotFinite.

(** [type=expiry_seconds], in microseconds. *)
Definition expiry_seconds (number : float) : outcome Z :=
  match number with
  | Finite n => if (0 <? n) && (n <=? seconds 60) then Ok n
                else Raise (PyError "ArgumentTypeError" "Keep-alive expiry must be finite and in (0, 60] seconds")
  | NotFinite => Raise (PyError "ArgumentTypeError" "Keep-alive expiry must be finite and in (0, 60] seconds")
  end.

(** [type=nonnegative_milliseconds], in microseconds. *)
Definition nonnegative_milliseconds (number : float) : outcome Z :=
  match number with
  | Finite n => if (0 <=? n) && (n <=? milliseconds 5000) then Ok n
                else Raise (PyError "ArgumentTypeError" "Milliseconds must be finite and in [0, 5000]")
  | NotFinite => Raise (PyError "ArgumentTypeError" "Milliseconds must be finite and in [0, 5000]")
  end.

Record arguments : Type := Arguments_ {
  a_origin : string;
  a_rate : Z;
  a_seconds : Z;
  a_inflight : nat;
  a_burst : bool;
  a_transport_diagnostics : bool;
  a_mixed_hot_holds : bool;
  a_redis_first : bool;
  a_max_attempts : nat;
  a_late_delivery_window : Z;
  a_start_at : option Z;
  a_output_is_manifest : bool;
}.

Definition write_success_code (a : arguments) : Z := if a.(a_redis_first) then 202 else 201.

(** The main program: a burst lasts 240 seconds, and the limits it accepts. *)
Definition effective_seconds (a : arguments) : Z := if a.(a_burst) then 240 else a.(a_seconds).
Definition limits_ok (a : arguments) : bool :=
  negb (Z.min a.(a_rate) (Z.min (effective_seconds a) (Z.of_nat a.(a_inflight))) <? 1)
  && negb (2000000 <? a.(a_rate) * (if a.(a_burst) then 600 else effective_seconds a)).

(** ** The workload *)

Record manifest : Type := Manifest {
  mf_schema_version : Z;
  mf_environment : string;
  mf_expires_at : Z;
  mf_origin : string;
  mf_show_ids : list string;
  mf_viewer_tokens : list string;
  mf_hot_show_id : option string;
  mf_seat_offset : Z;
  mf_seats_per_show : Z;
  mf_hot_hold_show_id : option string;
  mf_hot_hold_seat : option Z;
}.

Record item : Type := Item {
  i_index : nat;
  i_viewer : nat;
  i_show : string;
  i_write : bool;
  i_seat : Z;
  i_due : Q;
  i_phase : nat;
  i_hot : bool;
}.

Definition hot_seat (mf : manifest) : Z := default 299 mf.(mf_hot_hold_seat).

Definition count_of (counts : gmap string Z) (show : string) : Z := default 0 (counts !! show).

(** One entry of the workload.  [draw] is what [randrange(len(tokens))] returned, reduced to its range,
    and [focus] whether [random() < 0.9]. *)
Definition allocate (mf : manifest) (mixed : bool) (draw : nat) (focus : bool) (index : nat) (due : Q) (phase : nat)
    (counts : gmap string Z) : outcome (item * gmap string Z) :=
  match mf.(mf_viewer_tokens) with
  | [] => Raise (PyError "ValueError" "empty range for randrange()")
  | _ =>
  let viewer := Nat.modulo draw (length mf.(mf_viewer_tokens)) in
  match mf.(mf_show_ids) !! Nat.modulo viewer (length mf.(mf_show_ids)) with
  | None => Raise (PyError "ZeroDivisionError" "integer modulo by zero")
  | Some show =>
  let write := (index mod 20 =? 0)%nat in
  let hot := mixed && (index mod 100 =? 0)%nat in
  let seat := mf.(mf_seat_offset) + count_of counts show in
  if hot then
    match mf.(mf_hot_hold_show_id) with
    | None => Raise (PyError "KeyError" "hot_hold_show_id")
    | Some hot_show =>
        if negb ((0 <=? hot_seat mf) && (hot_seat mf <? mf.(mf_seats_per_show)))
        then Raise (PyError "ValueError" "Invalid hot seat")
        else Ok (Item index viewer hot_show write (hot_seat mf) due phase true, counts)
    end
  else if write then
    match mixed, mf.(mf_hot_hold_show_id) with
    | true, None => Raise (PyError "KeyError" "hot_hold_show_id")
    | _, hot_show =>
        if mixed && bool_decide (Some show = hot_show) && (seat =? hot_seat mf)
        then Raise (PyError "ValueError" "Ordinary allocation overlaps the shared hot seat")
        else if mf.(mf_seats_per_show) <=? seat
        then Raise (PyError "ValueError" "Allocated fixture seats exhausted")
        else Ok (Item index viewer show true seat due phase false, <[show := count_of counts show + 1]> counts)
    end
  else
    let show' := match mf.(mf_hot_show_id) with
                 | Some h => if negb (bool_decide (h = "")) && focus then h else show
                 | None => show
                 end in
    Ok (Item index viewer show' false seat due phase false, counts)
  end
  end.

Fixpoint allocate_all (mf : manifest) (mixed : bool) (draws : nat -> nat) (focus : nat -> bool) (index : nat)
    (plan : list (Q * nat)) (counts : gmap string Z) : outcome (list item) :=
  match plan with
  | [] => Ok []
  | (due, phase) :: rest =>
      match allocate mf mixed (draws index) (focus index) index due phase counts with
      | Raise e => Raise e
      | Ok (it, counts') =>
          match allocate_all mf mixed draws focus (S index) rest counts' with
          | Raise e => Raise e
          | Ok l => Ok (it :: l)
          end
      end
  end.

(** ** Counters *)

(** [collections.Counter] *)
Abbreviation counter K := (gmap K nat) (only parsing).
Definition incr {K} `{Countable K} (k : K) (c : gmap K nat) : gmap K nat := <[k := S (default 0%nat (c !! k))]> c.
Definition append {K} `{Countable K} (k : K) (v : Z) (c : gmap K (list Z)) : gmap K (list Z) :=
  <[k := default [] (c !! k) ++ [v]]> c.
Definition counter_total {K} `{Countable K} (c : gmap K nat) : nat := map_fold (fun _ n acc => (n + acc)%nat) 0%nat c.

(** [examples.append(x)] under [if len(examples) < 20]. *)
Definition example {A} (x : A) (l : list A) : list A := if (length l <? 20)%nat then l ++ [x] else l.

(** [statuses], [latency], [phase_statuses] and [phase_latency], by operation, status and phase. *)
Record tally : Type := Tally {
  ta_statuses : gmap (string * string) nat;
  ta_latency : gmap (string * string) (list Z);
  ta_phase_statuses : gmap (nat * string * string) nat;
  ta_phase_latency : gmap (nat * string) (list Z);
}.

Record retries : Type := Retries {
  re_physical_http_attempts : nat;
  re_first_attempt_failures : gmap string nat;
  re_retry_attempts : gmap string nat;
  re_retry_successes : gmap string nat;
  re_retry_exhausted : gmap string nat;
}.

Record transport : Type := Transport {
  tr_transport_errors : gmap string nat;
  tr_attempt_transport_errors : gmap string nat;
  tr_examples : list (nat * nat * string * (bool * list (string * Z) * list (string * option Z)));
  tr_connection_counts : gmap (string * string) nat;
  tr_transport_phases : gmap (string * string) nat;
}.

Record errors : Type := Errors {
  er_error_codes : gmap string nat;
  er_error_examples : list (string * string * string * option string);
  er_expected_hot_conflicts : nat;
}.

(** What a request puts on the wire. *)
Inductive message : Type :=
| PostHold (show : string) (seat : Z) (token : string) (idempotency_key : string)
| GetAvailability (show : string) (if_none_match : string).

(** The variables the requests share.  [g_sent] lists the messages sent, with the index of their request. *)
Record generator : Type := Generator {
  g_tally : tally;
  g_retries : retries;
  g_transport : transport;
  g_errors : errors;
  g_bytes_received : Z;
  g_validators : gmap (nat * string) string;
  g_task_errors : gmap string nat;
  g_sent : list (nat * message);
}.

Definition empty_generator : generator :=
  Generator (Tally ∅ ∅ ∅ ∅) (Retries 0 ∅ ∅ ∅ ∅) (Transport ∅ ∅ [] ∅ ∅) (Errors ∅ [] 0) 0 ∅ ∅ [].

Definition with_tally (f : tally -> tally) (g : generator) : generator :=
  Generator (f g.(g_tally)) g.(g_retries) g.(g_transport) g.(g_errors) g.(g_bytes_received) g.(g_validators) g.(g_task_errors) g.(g_sent).
Definition with_retries (f : retries -> retries) (g : generator) : generator :=
  Generator g.(g_tally) (f g.(g_retries)) g.(g_transport) g.(g_errors) g.(g_bytes_received) g.(g_validators) g.(g_task_errors) g.(g_sent).
Definition with_transport (f : transport -> transport) (g : generator) : generator :=
  Generator g.(g_tally) g.(g_retries) (f g.(g_transport)) g.(g_errors) g.(g_bytes_received) g.(g_validators) g.(g_task_errors) g.(g_sent).
Definition with_errors (f : errors -> errors) (g : generator) : generator :=
  Generator g.(g_tally) g.(g_retries) g.(g_transport) (f g.(g_errors)) g.(g_bytes_received) g.(g_validators) g.(g_task_errors) g.(g_sent).
Definition with_bytes (n : Z) (g : generator) : generator :=
  Generator g.(g_tally) g.(g_retries) g.(g_transport) g.(g_errors) (g.(g_bytes_received) + n) g.(g_validators) g.(g_task_errors) g.(g_sent).
Definition with_validator (k : nat * string) (tag : string) (g : generator) : generator :=
  Generator g.(g_tally) g.(g_retries) g.(g_transport) g.(g_errors) g.(g_bytes_received) (<[k := tag]> g.(g_validators)) g.(g_task_errors) g.(g_sent).
Definition with_task_error (type : string) (g : generator) : generator :=
  Generator g.(g_tally) g.(g_retries) g.(g_transport) g.(g_errors) g.(g_bytes_received) g.(g_validators) (incr type g.(g_task_errors)) g.(g_sent).
Definition with_sent (index : nat) (m : message) (g : generator) : generator :=
  Generator g.(g_tally) g.(g_retries) g.(g_transport) g.(g_errors) g.(g_bytes_received) g.(g_validators) g.(g_task_errors) (g.(g_sent) ++ [(index, m)]).

(** ** One request *)

Definition operation_of (it : item) : string :=
  if it.(i_hot) then "hot_hold" else if it.(i_write) then "hold" else "read".

(** What the network did with one attempt: the reply, the trace callbacks with their times, and the
    exception objects reachable from an [HTTPError]. *)
Record exchange : Type := Exchange {
  ex_reply : reply;
  ex_started : Z;
  ex_trace : list (string * Z);
  ex_heap : nat -> exc_object;
  ex_exception : nat;
}.

Definition trace_of (x : exchange) : transport_trace :=
  foldl (fun t '(name, now) => trace_call name now t) (TransportTrace x.(ex_started) [] false) x.(ex_trace).

(** [name.rsplit(".", 1)[-1]] *)
Fixpoint last_component_from (acc s : string) : string :=
  match s with
  | EmptyString => acc
  | String.String c s' => if bool_decide (String.String c "" = ".") then last_component_from "" s'
                          else last_component_from (acc +:+ String.String c "") s'
  end.
Definition last_component (s : string) : string := last_component_from "" s.

(** The [finally] of an attempt. *)
Definition count_trace (operation : string) (t : transport_trace) (tr : transport) : transport :=
  Transport tr.(tr_transport_errors) tr.(tr_attempt_transport_errors) tr.(tr_examples)
    (foldl (fun c '(phase, _) => if String.prefix "connection.connect_tcp." phase then incr (operation, last_component phase) c else c)
       tr.(tr_connection_counts) t.(tt_events))
    (foldl (fun c '(phase, _) => incr (operation, phase) c) tr.(tr_transport_phases) t.(tt_events)).

Definition count_physical (r : retries) : retries :=
  Retries (S r.(re_physical_http_attempts)) r.(re_first_attempt_failures) r.(re_retry_attempts) r.(re_retry_successes) r.(re_retry_exhausted).
Definition count_retry (reason : string) (first : bool) (r : retries) : retries :=
  Retries r.(re_physical_http_attempts)
    (if first then incr reason r.(re_first_attempt_failures) else r.(re_first_attempt_failures))
    (incr reason r.(re_retry_attempts)) r.(re_retry_successes) r.(re_retry_exhausted).
Definition count_retried (operation : string) (success : bool) (r : retries) : retries :=
  if success
  then Retries r.(re_physical_http_attempts) r.(re_first_attempt_failures) r.(re_retry_attempts) (incr operation r.(re_retry_successes)) r.(re_retry_exhausted)
  else Retries r.(re_physical_http_attempts) r.(re_first_attempt_failures) r.(re_retry_attempts) r.(re_retry_successes) (incr operation r.(re_retry_exhausted)).

Definition count_attempt_error (type : string) (ex : option (nat * nat * string * (bool * list (string * Z) * list (string * option Z))))
    (tr : transport) : transport :=
  Transport tr.(tr_transport_errors) (incr type tr.(tr_attempt_transport_errors))
    (match ex with Some e => example e tr.(tr_examples) | None => tr.(tr_examples) end)
    tr.(tr_connection_counts) tr.(tr_transport_phases).
Definition count_transport_error (type : string) (tr : transport) : transport :=
  Transport (incr type tr.(tr_transport_errors)) tr.(tr_attempt_transport_errors) tr.(tr_examples)
    tr.(tr_connection_counts) tr.(tr_transport_phases).

(** The variables [status], [response], [final_code] and [attempts_used] after the attempts. *)
Record settled : Type := Settled {
  se_status : string;
  se_response : option http_answer;
  se_final_code : option string;
  se_attempts_used : nat;
}.

Section requests.
Context (canonical : string -> option string) (a : arguments) (mf : manifest) (run_id : string)
  (initial : gmap string string) (network : nat -> nat -> exchange) (duration : nat -> Z).

Definition idempotency_key (it : item) : string := run_id +:+ "-" +:+ pretty it.(i_index).

(** The arguments of [client.post] or [client.get]. *)
Definition message_of (it : item) : M generator message :=
  if it.(i_write) then
    token ← or_raise (mf.(mf_viewer_tokens) !! it.(i_viewer)) (PyError "IndexError" "list index out of range");
    mret (PostHold it.(i_show) it.(i_seat) token (idempotency_key it))
  else
    tag ← or_raise (initial !! it.(i_show)) (PyError "KeyError" it.(i_show));
    validators ← gets g_validators;
    mret (GetAvailability it.(i_show) (default tag (validators !! (it.(i_viewer), it.(i_show))))).

(** The body of the [try] after the exchange and its [except]: [None] is [continue]. *)
Definition settle (it : item) (attempt : nat) (x : exchange) : M generator (option settled) :=
  let operation := operation_of it in
  let again (reason : string) : M generator (option settled) :=
    _ ← modify (with_retries (count_retry reason (attempt =? 1)%nat)); mret None in
  match x.(ex_reply) with
  | Got r =>
      _ ← modify (with_bytes r.(ha_length));
      let status := pretty r.(ha_status) in
      let code := (error_diagnostic canonical r).1 in
      _ ← (if negb it.(i_write) && (r.(ha_status) =? 200) then
             tag ← or_raise r.(ha_etag) (PyError "KeyError" "etag");
             modify (with_validator (it.(i_viewer), it.(i_show)) tag)
           else mret tt);
      if retryable_response it.(i_write) r.(ha_status) code && (attempt <? a.(a_max_attempts))%nat
      then again (operation +:+ ":" +:+ status +:+ ":" +:+ code)
      else mret (Some (Settled status (Some r) (Some code) attempt))
  | HTTPError type =>
      let ex := if a.(a_transport_diagnostics)
                then Some (it.(i_index), attempt, operation, failure x.(ex_heap) x.(ex_exception) (trace_of x)) else None in
      _ ← modify (with_transport (count_attempt_error type ex));
      if (attempt <? a.(a_max_attempts))%nat
      then again (operation +:+ ":transport:" +:+ type)
      else _ ← modify (with_transport (count_transport_error type));
           mret (Some (Settled "transport_error" None None attempt))
  end.

(** One attempt.  Nothing is traced before the message is on its way, so the [finally] starts there. *)
Definition try_once (it : item) (attempt : nat) : M generator (option settled) :=
  _ ← modify (with_retries count_physical);
  m ← message_of it;
  _ ← modify (with_sent it.(i_index) m);
  let x := network it.(i_index) attempt in
  finally (settle it attempt x)
    (if a.(a_transport_diagnostics) then modify (with_transport (count_trace (operation_of it) (trace_of x))) else mret tt).

(** [for attempt in range(1, max_attempts + 1)] *)
Fixpoint attempts (it : item) (left attempt : nat) : M generator settled :=
  match left with
  | O => mret (Settled "transport_error" None None (attempt - 1))
  | S left' =>
      r ← try_once it attempt;
      match r with
      | Some s => mret s
      | None => attempts it left' (S attempt)
      end
  end.

Definition hot_conflict_codes : list string := ["SEAT_BUSY"; "SEAT_UNAVAILABLE"].

Definition final_success (it : item) (s : settled) : bool :=
  (if bool_decide (operation_of it = "read") then bool_decide (s.(se_status) ∈ ["200"; "304"])
   else bool_decide (s.(se_status) = pretty (write_success_code a)))
  || (bool_decide (operation_of it = "hot_hold") && bool_decide (s.(se_status) = "409")
      && match s.(se_final_code) with Some c => bool_decide (c ∈ hot_conflict_codes) | None => false end).

(** The error counters of a response that is not the expected success. *)
Definition note_error (it : item) (status : string) (r : http_answer) (e : errors) : errors :=
  let '(code, request_id) := error_diagnostic canonical r in
  Errors (incr (operation_of it +:+ ":" +:+ status +:+ ":" +:+ code) e.(er_error_codes))
    (example (operation_of it, status, code, request_id) e.(er_error_examples))
    (if it.(i_hot) && bool_decide (status = "409") && bool_decide (code ∈ hot_conflict_codes)
     then S e.(er_expected_hot_conflicts) else e.(er_expected_hot_conflicts)).

Definition expected_response (it : item) (r : http_answer) : bool :=
  if it.(i_write) then r.(ha_status) =? write_success_code a
  else bool_decide (r.(ha_status) ∈ [200; 304]).

Definition note_result (it : item) (status : string) (t : tally) : tally :=
  let operation := operation_of it in
  let d := duration it.(i_index) in
  Tally (incr (operation, status) t.(ta_statuses)) (append (operation, status) d t.(ta_latency))
    (incr (it.(i_phase), operation, status) t.(ta_phase_statuses)) (append (it.(i_phase), operation) d t.(ta_phase_latency)).

Definition request (it : item) : M generator unit :=
  s ← attempts it a.(a_max_attempts) 1;
  _ ← (if (1 <? s.(se_attempts_used))%nat
       then modify (with_retries (count_retried (operation_of it) (final_success it s))) else mret tt);
  _ ← (match s.(se_response) with
       | Some r => if expected_response it r then mret tt else modify (with_errors (note_error it s.(se_status) r))
       | None => mret tt
       end);
  modify (with_tally (note_result it s.(se_status))).

Definition exn_type (e : exn) : string :=
  match e with PyError t _ => t | Failure _ _ => "Failure" | _ => "Exception" end.

(** The task of a request and its done callback [completed]. *)
Definition complete (it : item) (g : generator) : generator :=
  match request it g with
  | (g', Ok _) => g'
  | (g', Raise e) => with_task_error (exn_type e) g'
  end.
End requests.

(** ** The dispatch loop *)

(** What happens while the loop sleeps before an arrival: the requests that complete, by index, and how
    late the loop wakes up. *)
Record wakeup : Type := Wakeup { wu_completed : list nat; wu_late : Z }.

Record dispatch : Type := Dispatch {
  d_generator : generator;
  d_pending : list item;
  d_lags : list Z;
  d_drops : nat;
  d_drop_reasons : gmap string nat;
  d_late_drop_examples : list (nat * Z * nat);
  d_late_deliveries : nat;
  d_late_delivery_examples : list (nat * Z * nat);
}.

Definition empty_dispatch : dispatch := Dispatch empty_generator [] [] 0 ∅ [] 0 [].

Definition nanoseconds_per_second : Z := 1000000000.

(** [late > max(0.05, 1 / rate)] *)
Definition too_late (rate late : Z) : bool := (50000000 <? late) && (nanoseconds_per_second <? late * rate).

Section dispatching.
Context (canonical : string -> option string) (a : arguments) (mf : manifest) (run_id : string)
  (initial : gmap string string) (network : nat -> nat -> exchange) (duration : nat -> Z) (wakeups : nat -> wakeup).

(** The pending request of that index, if any, completes. *)
Definition complete_index (index : nat) (d : dispatch) : dispatch :=
  match list_find (fun it => it.(i_index) = index) d.(d_pending) with
  | Some (n, it) =>
      Dispatch (complete canonical a mf run_id initial network duration it d.(d_generator)) (delete n d.(d_pending))
        d.(d_lags) d.(d_drops) d.(d_drop_reasons) d.(d_late_drop_examples) d.(d_late_deliveries) d.(d_late_delivery_examples)
  | None => d
  end.

Definition complete_many (l : list nat) (d : dispatch) : dispatch := foldl (fun d i => complete_index i d) d l.

Definition lagged (late : Z) (d : dispatch) : dispatch :=
  Dispatch d.(d_generator) d.(d_pending) (d.(d_lags) ++ [late]) d.(d_drops) d.(d_drop_reasons) d.(d_late_drop_examples)
    d.(d_late_deliveries) d.(d_late_delivery_examples).
Definition delivered_late (ex : nat * Z * nat) (d : dispatch) : dispatch :=
  Dispatch d.(d_generator) d.(d_pending) d.(d_lags) d.(d_drops) d.(d_drop_reasons) d.(d_late_drop_examples)
    (S d.(d_late_deliveries)) (example ex d.(d_late_delivery_examples)).
Definition dropped (late : bool) (ex : nat * Z * nat) (d : dispatch) : dispatch :=
  Dispatch d.(d_generator) d.(d_pending) d.(d_lags) (S d.(d_drops))
    (incr (if late then "late" else "inflight_limit") d.(d_drop_reasons))
    (if late then example ex d.(d_late_drop_examples) else d.(d_late_drop_examples))
    d.(d_late_deliveries) d.(d_late_delivery_examples).
Definition launch (it : item) (d : dispatch) : dispatch :=
  Dispatch d.(d_generator) (d.(d_pending) ++ [it]) d.(d_lags) d.(d_drops) d.(d_drop_reasons) d.(d_late_drop_examples)
    d.(d_late_deliveries) d.(d_late_delivery_examples).

Definition dispatch_one (it : item) (d0 : dispatch) : dispatch :=
  let wakeup := wakeups it.(i_index) in
  let late := wakeup.(wu_late) in
  let d := lagged late (complete_many wakeup.(wu_completed) d0) in
  let pending := length d.(d_pending) in
  let late_now := too_late a.(a_rate) late in
  let recover_late := late_now && (0 <? a.(a_late_delivery_window)) && (late <=? a.(a_late_delivery_window))
                      && (pending <? a.(a_inflight))%nat in
  if recover_late then launch it (delivered_late (it.(i_index), late, pending) d)
  else if late_now || (a.(a_inflight) <=? pending)%nat then dropped late_now (it.(i_index), late, pending) d
  else launch it d.

(** The loop over the workload, then [gather] of what is still pending. *)
Definition dispatch_all (workload : list item) : dispatch :=
  let d := foldl (fun d it => dispatch_one it d) empty_dispatch workload in
  complete_many (i_index <$> d.(d_pending)) d.
End dispatching.

(** ** The gates *)

Definition ms (n : Z) : Z := n * 1000000.

Definition within_ms (p : option Z) (limit : Z) : bool :=
  match p with Some v => v <=? ms limit | None => false end.

(** [[value for key, values in latency.items() if ... for value in values]] *)
Definition samples (P : string * string -> bool) (t : tally) : list Z :=
  concat (omap (fun kv => if P kv.1 then Some kv.2 else None) (map_to_list t.(ta_latency))).

Definition allowed_status (a : arguments) (operation status : string) : bool :=
  if bool_decide (operation = "read") then bool_decide (status ∈ ["200"; "304"])
  else if bool_decide (operation = "hot_hold") then bool_decide (status ∈ [pretty (write_success_code a); "409"])
  else bool_decide (status = pretty (write_success_code a)).

Definition unexpected (a : arguments) (g : generator) : Z :=
  Z.of_nat (counter_total (filter (fun kv => allowed_status a kv.1.1 kv.1.2 = false) g.(g_tally).(ta_statuses)))
  + (Z.of_nat (default 0%nat (g.(g_tally).(ta_statuses) !! ("hot_hold", "409"))) - Z.of_nat g.(g_errors).(er_expected_hot_conflicts)).

Definition read_samples (g : generator) : list Z := samples (fun k => bool_decide (k.1 = "read")) g.(g_tally).
Definition hold_samples (g : generator) : list Z := samples (fun k => bool_decide (k.1 = "hold")) g.(g_tally).
Definition hot_failed_samples (a : arguments) (g : generator) : list Z :=
  samples (fun k => bool_decide (k.1 = "hot_hold") && negb (bool_decide (k.2 = pretty (write_success_code a)))) g.(g_tally).

Definition local_read_gate_pass (a : arguments) (d : dispatch) : bool :=
  (d.(d_drops) =? 0)%nat && (unexpected a d.(d_generator) =? 0) && bool_decide (d.(d_generator).(g_task_errors) = ∅)
  && bool_decide (read_samples d.(d_generator) <> []) && within_ms (percentile (read_samples d.(d_generator)) p95) 150.

Definition reservation_gate_pass (d : dispatch) : bool :=
  bool_decide (hold_samples d.(d_generator) <> []) && within_ms (percentile (hold_samples d.(d_generator)) p95) 300.

Definition accounting_pass (d : dispatch) (workload : list item) : bool :=
  (counter_total d.(d_generator).(g_tally).(ta_statuses) + counter_total d.(d_generator).(g_task_errors) + d.(d_drops)
   =? length workload)%nat.

(** A list of this map is created by its first [append], so its percentile exists. *)
Definition phase_latency_gate_pass (d : dispatch) : bool :=
  forallb (fun kv => within_ms (percentile kv.2 p95) (if bool_decide (kv.1.2 = "read") then 150 else 300))
    (map_to_list d.(d_generator).(g_tally).(ta_phase_latency)).

Definition hot_contention_gate_pass (a : arguments) (d : dispatch) : bool :=
  negb a.(a_mixed_hot_holds)
  || (bool_decide (hot_failed_samples a d.(d_generator) <> [])
      && within_ms (percentile (hot_failed_samples a d.(d_generator)) p95) 200).

Definition workload_gate_pass (a : arguments) (d : dispatch) (workload : list item) : bool :=
  local_read_gate_pass a d && reservation_gate_pass d && accounting_pass d workload
  && (phase_latency_gate_pass d && hot_contention_gate_pass a d).

(** ** The run *)

(** Everything the run observes from outside. *)
Record surroundings : Type := Surroundings {
  su_now : Z;
  su_ready : reply;
  su_bootstrap : nat -> nat -> reply;
  su_hot_bootstrap : reply;
  su_draws : nat -> nat;
  su_focus : nat -> bool;
  su_run_id : string;
  su_now_bootstrapped : Z;
  su_wakeups : nat -> wakeup;
  su_network : nat -> nat -> exchange;
  su_durations : nat -> Z;
}.

(** [origin.rstrip("/")] *)
Fixpoint rstrip_slash (s : string) : string :=
  match s with
  | EmptyString => ""
  | String.String c s' =>
      let t := rstrip_slash s' in
      if bool_decide (t = "") && bool_decide (String.String c "" = "/") then "" else String.String c t
  end.

(** The credentials must outlive the run and its drain. *)
Definition expires_early (a : arguments) (mf : manifest) (now : Z) : bool :=
  mf.(mf_expires_at) <=? now + seconds (a.(a_seconds) + 60).

Definition check_manifest (a : arguments) (mf : manifest) (now : Z) : outcome unit :=
  if negb (mf.(mf_schema_version) =? 1) || negb (bool_decide (mf.(mf_environment) = "development"))
  then Raise (PyError "ValueError" "Expected a development manifest")
  else if expires_early a mf now
  then Raise (PyError "ValueError" "Regenerate credentials: they must outlive the run and drain")
  else if negb (bool_decide (rstrip_slash a.(a_origin) = mf.(mf_origin)))
  then Raise (PyError "ValueError" "API origin must match the locally prepared manifest")
  else if a.(a_output_is_manifest)
  then Raise (PyError "ValueError" "Result must not overwrite credentials")
  else Ok tt.

(** [response.raise_for_status()] *)
Definition succeeded (r : reply) : outcome http_answer :=
  match r with
  | HTTPError type => Raise (PyError type "")
  | Got r => if is_success r.(ha_status) then Ok r else Raise (PyError "HTTPStatusError" "")
  end.

(** Readiness, the initial validators, and the one of the hot show when it is not among the shows. *)
Definition bootstrap (canonical : string -> option string) (mf : manifest) (su : surroundings)
    : outcome (gmap string string) :=
  match succeeded su.(su_ready) with
  | Raise e => Raise e
  | Ok _ =>
      match fetch_initial_validators canonical su.(su_bootstrap) mf.(mf_show_ids) 16 3 with
      | Raise e => Raise e
      | Ok (initial, _, _) =>
          match mf.(mf_hot_show_id) with
          | Some h =>
              if bool_decide (h = "") || bool_decide (is_Some (initial !! h)) then Ok initial
              else match succeeded su.(su_hot_bootstrap) with
                   | Raise e => Raise e
                   | Ok r => match r.(ha_etag) with
                             | Some t => Ok (<[h := t]> initial)
                             | None => Raise (PyError "KeyError" "etag")
                             end
                   end
          | None => Ok initial
          end
      end
  end.

(** [run(args)] up to the report: the counters and the workload they are about. *)
Definition measure (canonical : string -> option string) (a : arguments) (mf : manifest) (su : surroundings)
    : outcome (dispatch * list item) :=
  match check_manifest a mf su.(su_now) with
  | Raise e => Raise e
  | Ok _ =>
  match bootstrap canonical mf su with
  | Raise e => Raise e
  | Ok initial =>
  match allocate_all mf a.(a_mixed_hot_holds) su.(su_draws) su.(su_focus) 0 (arrival_plan a.(a_rate) a.(a_seconds) a.(a_burst)) ∅ with
  | Raise e => Raise e
  | Ok workload =>
  if expires_early a mf su.(su_now_bootstrapped)
  then Raise (PyError "ValueError" "Credentials expired during bootstrap; regenerate manifest")
  else if match a.(a_start_at) with Some t => t <? su.(su_now_bootstrapped) | None => false end
  then Raise (PyError "ValueError" "Missed coordinated start during bootstrap")
  else Ok (dispatch_all canonical a mf su.(su_run_id) initial su.(su_network) su.(su_durations) su.(su_wakeups) workload, workload)
  end
  end
  end.

(** [run(args)]: the report is written in any case, and [SystemExit(1)] raised when the gate fails. *)
Definition run (canonical : string -> option string) (a : arguments) (mf : manifest) (su : surroundings)
    : outcome (dispatch * list item) :=
  match measure canonical a mf su with
  | Raise e => Raise e
  | Ok (d, workload) => if workload_gate_pass a d workload then Ok (d, workload) else Raise (PyError "SystemExit" "1")
  end.
