(* ===== verification/LoadFacts.v ===== *)
(** * The load generator reports what happened

    Percentiles are order statistics; the seat allocation never makes two ordinary holds compete; a
    retried hold repeats its message and its idempotency key; and the workload gate passes only when
    nothing was dropped, failed or answered with an unexpected status. *)

From Stdlib Require Import QArith.QArith_base.
From stdpp Require Import pretty.
From S2P Require Import Prelude LoadGenerator.

#[local] Open Scope Z_scope.

(** ** Order statistics *)

Definition at_most (v : Z) (l : list Z) : nat := length (filter (fun x => x <= v) l).
Definition below (v : Z) (l : list Z) : nat := length (filter (fun x => x < v) l).

#[global] Instance at_most_proper v : Proper ((≡ₚ) ==> eq) (at_most v).
Proof. intros l1 l2 Hl. unfold at_most. by rewrite Hl. Qed.
#[global] Instance below_proper v : Proper ((≡ₚ) ==> eq) (below v).
Proof. intros l1 l2 Hl. unfold below. by rewrite Hl. Qed.

(** The element at position [i] of a sorted list has [i + 1] elements at most it, and at most [i] below. *)
Lemma sorted_rank l i v :
  StronglySorted Z.le l -> l !! i = Some v -> (i < at_most v l)%nat /\ (below v l <= i)%nat.
Proof.
  revert i. induction l as [|x l IH]; intros i Hs Hi; [done|].
  apply StronglySorted_inv in Hs as [Hs Hall]. destruct i as [|i]; simpl in Hi.
  - injection Hi as ->. unfold at_most, below. rewrite filter_cons_True by lia. split; [simpl; lia|].
    rewrite filter_cons_False by lia.
    enough (filter (fun y => y < v) l = []) as -> by done.
    clear -Hall. induction Hall as [|y l Hy _ IH]; [done|]. by rewrite filter_cons_False by lia.
  - destruct (IH i Hs Hi) as [H1 H2].
    assert (x <= v) by (eapply Forall_forall; [exact Hall|]; by apply list_elem_of_lookup_2 in Hi).
    unfold at_most, below in *. rewrite filter_cons_True by lia. rewrite filter_cons. case_decide; simpl; lia.
Qed.

(** ** The binary64 product *)

(** Rounding to 53 bits is off by at most one part in [2^53]. *)
Lemma round53_error n : 0 < n -> Z.abs (round53 n - n) * 2 ^ 53 <= n.
Proof.
  intros Hn. unfold round53. set (d := Z.max 0 (Z.log2 n - 52)). cbv zeta.
  rewrite !Z.shiftl_mul_pow2, Z.shiftr_div_pow2 by lia.
  pose proof (Z.div_mod n (2 ^ d) ltac:(lia)) as Hdm.
  pose proof (Z.mod_pos_bound n (2 ^ d) ltac:(lia)) as Hb.
  set (q := n / 2 ^ d) in *. set (r := n mod 2 ^ d) in *.
  replace (n - q * 2 ^ d) with r by lia.
  destruct (Z.eqb_spec d 0) as [Hd|Hd].
  { rewrite Hd in *. change (2 ^ 0) with 1 in *. lia. }
  assert (Hpow : 2 ^ d = 2 * 2 ^ (d - 1)).
  { replace d with (Z.succ (d - 1)) at 1 by lia. rewrite Z.pow_succ_r by lia. done. }
  assert (Hlog : 2 ^ (d - 1) * 2 ^ 53 <= n).
  { rewrite <-Z.pow_add_r by lia. replace (d - 1 + 53) with (Z.log2 n) by lia. by apply Z.log2_spec. }
  assert (Hup : 2 ^ (d - 1) <= r \/ r <= 2 ^ (d - 1)) by lia.
  destruct ((2 ^ (d - 1) <? r) || ((r =? 2 ^ (d - 1)) && Z.odd q)) eqn:Hb'.
  - assert (2 ^ (d - 1) <= r).
    { apply orb_true_iff in Hb' as [?|?]; bool_hyps; lia. }
    replace ((q + 1) * 2 ^ d - n) with (2 ^ d - r) by lia. nia.
  - apply orb_false_iff in Hb' as [? _]. bool_hyps. replace (q * 2 ^ d - n) with (- r) by lia. nia.
Qed.

Lemma ceil_spec x k : 0 < k -> x <= - ((- x) / k) * k < x + k.
Proof. intros Hk. pose proof (Z.div_mod (- x) k). pose proof (Z.mod_pos_bound (- x) k). nia. Qed.

(** The float rank of the 95th percentile keeps to the exact [19 n / 20]. *)
Lemma ceil_times_p95 n : 0 < n < 2 ^ 40 -> 19 * n <= 20 * ceil_times n p95 /\ 20 * (ceil_times n p95 - 1) <= 19 * n.
Proof.
  intros [H1 H2]. unfold ceil_times. cbn [dy_mantissa dy_shift p95].
  set (m := 4278419646001971).
  pose proof (round53_error (n * m) ltac:(unfold m; lia)) as He.
  pose proof (ceil_spec (round53 (n * m)) (2 ^ 52) ltac:(lia)) as Hc.
  set (c := - (- round53 (n * m) / 2 ^ 52)) in *. set (x := round53 (n * m)) in *.
  assert (Hx : Z.abs (x - n * m) * 2 <= n) by (unfold m in *; lia).
  clearbody x c. unfold m in Hx. lia.
Qed.

Lemma ceil_times_p95_range n : 0 < n < 2 ^ 40 -> 1 <= ceil_times n p95 <= n.
Proof. intros Hn. pose proof (ceil_times_p95 n Hn). lia. Qed.

Lemma percentile_p95_rank values v :
  Z.of_nat (length values) < 2 ^ 40 -> percentile values p95 = Some v ->
  v ∈ values
  /\ 19 * Z.of_nat (length values) <= 20 * Z.of_nat (at_most v values)
  /\ 20 * Z.of_nat (below v values) <= 19 * Z.of_nat (length values).
Proof.
  intros Hlen Hp. assert (Hpos : 0 < Z.of_nat (length values)) by (destruct values; simpl in *; [done|lia]).
  pose proof (ceil_times_p95 _ (conj Hpos Hlen)). pose proof (ceil_times_p95_range _ (conj Hpos Hlen)).
  assert (Hl : sort_values values !! Z.to_nat (ceil_times (Z.of_nat (length values)) p95 - 1) = Some v) by (by destruct values).
  pose proof (merge_sort_Permutation Z.le values) as Hperm. fold (sort_values values) in Hperm.
  destruct (sorted_rank _ _ _ (StronglySorted_merge_sort Z.le values) Hl) as [Hle Hlt].
  fold (sort_values values) in *. rewrite Hperm in Hle, Hlt.
  split; [|split; lia]. rewrite <-Hperm. by eapply list_elem_of_lookup_2.
Qed.

Lemma percentile_total values :
  values <> [] -> Z.of_nat (length values) < 2 ^ 40 -> is_Some (percentile values p95).
Proof.
  intros Hne Hlen. assert (Hpos : 0 < Z.of_nat (length values)) by (destruct values; simpl in *; [done|lia]).
  pose proof (ceil_times_p95_range _ (conj Hpos Hlen)).
  destruct values as [|x l]; [done|]. unfold percentile. apply lookup_lt_is_Some_2. unfold sort_values.
  rewrite merge_sort_Permutation. lia.
Qed.

(** ** Counters *)

Section counters.
Context {K : Type} `{Countable K}.
Implicit Types (c : gmap K nat).

Lemma counter_total_insert_fresh k n c : c !! k = None -> counter_total (<[k := n]> c) = (n + counter_total c)%nat.
Proof. intros Hk. unfold counter_total. apply map_fold_insert_L; [|done]. intros; lia. Qed.

Lemma counter_total_delete k n c : c !! k = Some n -> counter_total c = (n + counter_total (delete k c))%nat.
Proof.
  intros Hk. rewrite <-(insert_delete_id c k n Hk) at 1. apply counter_total_insert_fresh. apply lookup_delete_eq.
Qed.

Lemma counter_total_incr k c : counter_total (incr k c) = S (counter_total c).
Proof.
  unfold incr. destruct (c !! k) as [n|] eqn:Hk; simpl.
  - rewrite (counter_total_delete k n c Hk), <-insert_delete_eq.
    rewrite counter_total_insert_fresh by apply lookup_delete_eq. lia.
  - by rewrite counter_total_insert_fresh.
Qed.

Lemma counter_total_zero c k n : counter_total c = 0%nat -> c !! k = Some n -> n = 0%nat.
Proof. intros Hz Hk. rewrite (counter_total_delete k n c Hk) in Hz. lia. Qed.

Lemma incr_eq k c : default 0%nat (incr k c !! k) = S (default 0%nat (c !! k)).
Proof. unfold incr. by rewrite lookup_insert_eq. Qed.

Lemma incr_ge k k' c : (default 0%nat (c !! k') <= default 0%nat (incr k c !! k'))%nat.
Proof.
  destruct (decide (k = k')) as [->|Hne]; [rewrite incr_eq; lia|].
  unfold incr. by rewrite lookup_insert_ne.
Qed.

(** [append] adds one sample. *)
Lemma samples_append k v (c : gmap K (list Z)) : counter_total (length <$> append k v c) = S (counter_total (length <$> c)).
Proof.
  rewrite <-(counter_total_incr k). f_equal. unfold append, incr. rewrite fmap_insert, lookup_fmap. f_equal.
  destruct (c !! k) as [l|]; simpl; [rewrite length_app; simpl; lia|done].
Qed.

Lemma counter_total_list c : counter_total c = sum_list (map_to_list c).*2.
Proof. unfold counter_total. rewrite map_fold_foldr. induction (map_to_list c) as [|[k n] l IH]; simpl; [done|by rewrite IH]. Qed.
End counters.

Lemma samples_length (P : string * string -> bool) (t : tally) :
  (length (samples P t) <= counter_total (length <$> t.(ta_latency)))%nat.
Proof.
  rewrite counter_total_list, map_to_list_fmap. unfold samples.
  induction (map_to_list (ta_latency t)) as [|[k l] rest IH]; csimpl; [lia|].
  destruct (P k); csimpl; rewrite ?length_app; lia.
Qed.

(** ** Footprints of a request *)

(** What the attempts of a request leave alone. *)
Definition same_results (g g' : generator) : Prop :=
  g'.(g_tally) = g.(g_tally) /\ g'.(g_errors) = g.(g_errors) /\ g'.(g_task_errors) = g.(g_task_errors).

#[global] Instance same_results_preorder : PreOrder same_results.
Proof.
  split; [done|]. intros g1 g2 g3 (?&?&?) (?&?&?). repeat split; congruence.
Qed.

(** [leaves R m]: whatever [m] does, normally or by raising, [R] relates the states before and after. *)
Definition leaves {A} (R : generator -> generator -> Prop) (m : M generator A) : Prop := forall g, R g (m g).1.

Section leaves.
Context (R : generator -> generator -> Prop) `{!PreOrder R}.

Lemma leaves_ret {A} (x : A) : leaves R (mret x).
Proof. intros g. simpl. reflexivity. Qed.
Lemma leaves_or_raise {A} (o : option A) e : leaves R (or_raise o e).
Proof. destruct o; intros g; simpl; reflexivity. Qed.
Lemma leaves_gets {A} (f : generator -> A) : leaves R (gets f).
Proof. intros g. simpl. reflexivity. Qed.
Lemma leaves_modify f : (forall g, R g (f g)) -> leaves R (modify f).
Proof. intros Hf g. apply Hf. Qed.
Lemma leaves_bind {A B} (m : M generator A) (f : A -> M generator B) :
  leaves R m -> (forall x, leaves R (f x)) -> leaves R (m ≫= f).
Proof.
  intros Hm Hf g. specialize (Hm g). unfold mbind, M_bind. destruct (m g) as [g1 [x|e]]; [|done].
  etransitivity; [exact Hm|apply Hf].
Qed.
Lemma leaves_finally {A} (m : M generator A) f : leaves R m -> leaves R f -> leaves R (finally m f).
Proof.
  intros Hm Hf g. specialize (Hm g). unfold finally. destruct (m g) as [g1 r]. specialize (Hf g1).
  destruct (f g1) as [g2 []]; simpl in *; by etransitivity.
Qed.
End leaves.

(** Walk through a computation that keeps a preorder. *)
Ltac leaves_step :=
  lazymatch goal with
  | |- leaves _ (_ ≫= _) => apply leaves_bind; [typeclasses eauto| |intros ?]
  | |- leaves _ (finally _ _) => apply leaves_finally; [typeclasses eauto| |]
  | |- leaves _ (mret _) => apply leaves_ret; typeclasses eauto
  | |- leaves _ (or_raise _ _) => apply leaves_or_raise; typeclasses eauto
  | |- leaves _ (gets _) => apply leaves_gets; typeclasses eauto
  | |- leaves _ (modify _) => apply leaves_modify; intros ?; try done
  | |- leaves _ (match ?x with _ => _ end) => destruct x
  | |- leaves _ (let _ := _ in _) => cbv zeta
  end.
Ltac leaves := repeat leaves_step.

Section request_facts.
Context (canonical : string -> option string) (a : arguments) (mf : manifest) (run_id : string)
  (initial : gmap string string) (network : nat -> nat -> exchange) (duration : nat -> Z).

Lemma message_of_leaves (R : relation generator) `{!PreOrder R} it : leaves R (message_of mf run_id initial it).
Proof. unfold message_of. leaves. Qed.

Lemma settle_same it n x : leaves same_results (settle canonical a it n x).
Proof. unfold settle. leaves. Qed.

Lemma attempts_same it left n : leaves same_results (attempts canonical a mf run_id initial network it left n).
Proof.
  revert n. induction left as [|left IH]; intros n; simpl; unfold try_once; leaves;
    [apply message_of_leaves; typeclasses eauto|apply settle_same|apply IH].
Qed.

(** A request that returns counts one status, and one expected conflict only with a hot 409; a request
    that raises counts nothing. *)
Lemma request_cases it g :
  match request canonical a mf run_id initial network duration it g with
  | (g', Ok _) => exists status,
      g'.(g_tally) = note_result duration it status g.(g_tally) /\ g'.(g_task_errors) = g.(g_task_errors)
      /\ (g'.(g_errors).(er_expected_hot_conflicts) = g.(g_errors).(er_expected_hot_conflicts)
          \/ (it.(i_hot) = true /\ status = "409"
              /\ g'.(g_errors).(er_expected_hot_conflicts) = S g.(g_errors).(er_expected_hot_conflicts)))
  | (g', Raise _) => same_results g g'
  end.
Proof.
  unfold request. pose proof (attempts_same it (a_max_attempts a) 1 g) as Hs.
  unfold mbind, M_bind. destruct (attempts _ _ _ _ _ _ _ _ _ g) as [g1 [s|e]] eqn:Hat; [|exact Hs].
  simpl in Hs. destruct Hs as (Ht & He & Hte).
  destruct (1 <? se_attempts_used s)%nat; destruct (se_response s) as [r|]; simpl; try destruct (expected_response a it r); simpl;
    exists s.(se_status); rewrite ?Ht, ?He, ?Hte; try (split_and!; auto; fail).
  all: split_and!; [done|done|];
    match goal with |- context [if ?b then S _ else _] => destruct b eqn:Hc end; [right; bool_hyps; auto|by left].
Qed.

Lemma complete_total it g :
  let g' := complete canonical a mf run_id initial network duration it g in
  (counter_total g'.(g_tally).(ta_statuses) + counter_total g'.(g_task_errors)
   = S (counter_total g.(g_tally).(ta_statuses) + counter_total g.(g_task_errors)))%nat.
Proof.
  unfold complete. pose proof (request_cases it g) as H.
  destruct (request _ _ _ _ _ _ _ it g) as [g' [u|e]]; simpl.
  - destruct H as (st & -> & -> & _). simpl. rewrite counter_total_incr. lia.
  - destruct H as (-> & _ & ->). rewrite counter_total_incr. lia.
Qed.

(** Every expected conflict is one of the counted hot 409s, and every counted status has its duration. *)
Definition counters_sound (g : generator) : Prop :=
  (g.(g_errors).(er_expected_hot_conflicts) <= default 0%nat (g.(g_tally).(ta_statuses) !! ("hot_hold", "409")))%nat
  /\ counter_total (length <$> g.(g_tally).(ta_latency)) = counter_total g.(g_tally).(ta_statuses).

Lemma complete_sound it g :
  counters_sound g -> counters_sound (complete canonical a mf run_id initial network duration it g).
Proof.
  intros [Hg Hl]. unfold complete, counters_sound in *. pose proof (request_cases it g) as H.
  destruct (request _ _ _ _ _ _ _ it g) as [g' [u|e]]; simpl; [|by destruct H as (-> & -> & _)].
  destruct H as (st & -> & _ & Hc). simpl. rewrite samples_append, counter_total_incr, Hl. split; [|done].
  destruct Hc as [->|(Hhot & -> & ->)].
  - pose proof (incr_ge (operation_of it, st) ("hot_hold", "409") (ta_statuses (g_tally g))). lia.
  - unfold operation_of. rewrite Hhot, incr_eq. lia.
Qed.
End request_facts.

(** ** Accounting *)

(** Every arrival so far was counted, failed, dropped or is still pending. *)
Definition accounted (d : dispatch) : nat :=
  counter_total d.(d_generator).(g_tally).(ta_statuses) + counter_total d.(d_generator).(g_task_errors)
  + d.(d_drops) + length d.(d_pending).

Section dispatch_facts.
Context (canonical : string -> option string) (a : arguments) (mf : manifest) (run_id : string)
  (initial : gmap string string) (network : nat -> nat -> exchange) (duration : nat -> Z) (wakeups : nat -> wakeup).

Lemma complete_index_accounted index d :
  accounted (complete_index canonical a mf run_id initial network duration index d) = accounted d.
Proof.
  unfold complete_index. destruct (list_find _ _) as [[n it]|] eqn:Hf; [|done].
  apply list_find_Some in Hf as (Hn & _ & _). apply lookup_lt_Some in Hn as Hlt.
  unfold accounted. simpl. pose proof (complete_total canonical a mf run_id initial network duration it (d_generator d)) as Ht.
  cbv zeta in Ht. rewrite Ht, length_delete by done. lia.
Qed.

Lemma complete_index_sound index d :
  counters_sound d.(d_generator) ->
  counters_sound (complete_index canonical a mf run_id initial network duration index d).(d_generator).
Proof.
  intros Hd. unfold complete_index. destruct (list_find _ _) as [[n it]|]; [|done]. by apply complete_sound.
Qed.

Lemma complete_many_accounted l d :
  accounted (complete_many canonical a mf run_id initial network duration l d) = accounted d.
Proof. revert d. induction l as [|i l IH]; intros d; [done|]. simpl. rewrite IH. apply complete_index_accounted. Qed.

Lemma complete_many_sound l d :
  counters_sound d.(d_generator) ->
  counters_sound (complete_many canonical a mf run_id initial network duration l d).(d_generator).
Proof.
  revert d. induction l as [|i l IH]; intros d Hd; [done|]. by apply IH, complete_index_sound.
Qed.

(** Completing every pending request, in the order of the list, leaves none. *)
Lemma complete_many_drains d :
  (complete_many canonical a mf run_id initial network duration (i_index <$> d.(d_pending)) d).(d_pending) = [].
Proof.
  remember (d_pending d) as l eqn:Hl. revert d Hl. induction l as [|it l IH]; intros d Hl; [done|].
  simpl. apply IH. unfold complete_index. rewrite <-Hl. simpl. by rewrite decide_True.
Qed.

Lemma dispatch_one_accounted it d :
  accounted (dispatch_one canonical a mf run_id initial network duration wakeups it d) = S (accounted d).
Proof.
  unfold dispatch_one. cbv zeta. rewrite <-(complete_many_accounted (wu_completed (wakeups (i_index it))) d).
  set (d1 := complete_many _ _ _ _ _ _ _ _ d).
  destruct (_ && _ && _ && _); [|destruct (_ || _)]; unfold accounted; simpl; rewrite ?length_app; simpl; lia.
Qed.

Lemma dispatch_one_sound it d :
  counters_sound d.(d_generator) ->
  counters_sound (dispatch_one canonical a mf run_id initial network duration wakeups it d).(d_generator).
Proof.
  intros Hd. apply (complete_many_sound (wu_completed (wakeups (i_index it)))) in Hd. unfold dispatch_one. cbv zeta.
  destruct (_ && _ && _ && _); [|destruct (_ || _)]; exact Hd.
Qed.

Lemma dispatch_loop l d :
  counters_sound d.(d_generator) ->
  let d' := foldl (fun d it => dispatch_one canonical a mf run_id initial network duration wakeups it d) d l in
  accounted d' = (length l + accounted d)%nat /\ counters_sound d'.(d_generator).
Proof.
  revert d. induction l as [|it l IH]; intros d Hd; [done|]. simpl.
  destruct (IH (dispatch_one canonical a mf run_id initial network duration wakeups it d)) as [Ha Hc];
    [by apply dispatch_one_sound|]. split; [|done]. rewrite Ha, dispatch_one_accounted. lia.
Qed.

Lemma dispatch_all_facts workload :
  let d := dispatch_all canonical a mf run_id initial network duration wakeups workload in
  d.(d_pending) = [] /\ accounted d = length workload /\ counters_sound d.(d_generator).
Proof.
  cbv zeta. unfold dispatch_all. cbv zeta.
  pose proof (dispatch_loop workload empty_dispatch) as H. cbv zeta in H.
  destruct H as [Ha Hc]; [by split; vm_compute|]. split_and!.
  - apply complete_many_drains.
  - rewrite complete_many_accounted, Ha. unfold accounted, empty_dispatch, empty_generator. simpl.
    unfold counter_total. rewrite !map_fold_empty. lia.
  - by apply complete_many_sound.
Qed.

(** Whatever the network, the scheduler and the random draws do, every arrival of the workload ends
    up counted exactly once: under the status of its response, as a task error, or as a drop; none is
    left pending, so the accounting gate of the report always passes. *)
Theorem load_accounting workload :
  let d := dispatch_all canonical a mf run_id initial network duration wakeups workload in
  d.(d_pending) = [] /\ accounting_pass d workload = true.
Proof.
  cbv zeta. destruct (dispatch_all_facts workload) as (Hp & Ha & _). split; [done|].
  unfold accounting_pass. apply Nat.eqb_eq. unfold accounted in Ha. rewrite Hp in Ha. simpl in Ha. lia.
Qed.
End dispatch_facts.

(** ** The gate *)

Lemma length_allocate_all mf mixed draws focus index plan counts l :
  allocate_all mf mixed draws focus index plan counts = Ok l -> length l = length plan.
Proof.
  revert index counts l. induction plan as [|[due phase] plan IH]; intros index counts l; simpl; [by intros [= <-]|].
  destruct (allocate _ _ _ _ _ _ _ _) as [[it counts']|e]; [|done].
  destruct (allocate_all _ _ _ _ _ _ _) as [l'|e] eqn:Hl; [|done]. intros [= <-]. simpl. f_equal. by eapply IH.
Qed.

Lemma length_arrival_plan rate secs burst :
  0 <= rate -> 0 <= secs -> Z.of_nat (length (arrival_plan rate secs burst)) = rate * (if burst then 600 else secs).
Proof.
  intros. unfold arrival_plan, phase_plan, phase_arrivals.
  destruct burst; rewrite ?length_app, !length_map, !length_seq; simpl; lia.
Qed.

(** The parts of a measurement that returned. *)
Lemma measure_inv canonical a mf su d workload :
  measure canonical a mf su = Ok (d, workload) ->
  exists initial,
    allocate_all mf a.(a_mixed_hot_holds) su.(su_draws) su.(su_focus) 0 (arrival_plan a.(a_rate) a.(a_seconds) a.(a_burst)) ∅ = Ok workload
    /\ d = dispatch_all canonical a mf su.(su_run_id) initial su.(su_network) su.(su_durations) su.(su_wakeups) workload.
Proof.
  unfold measure. destruct (check_manifest _ _ _); [|done]. destruct (bootstrap _ _ _) as [initial|]; [|done].
  destruct (allocate_all _ _ _ _ _ _ _) as [w|]; [|done]. destruct (expires_early _ _ _); [done|].
  destruct (match a_start_at a with Some _ => _ | None => _ end); [done|].
  intros [= <- <-]. by exists initial.
Qed.

Lemma run_inv canonical a mf su d workload :
  run canonical a mf su = Ok (d, workload) ->
  measure canonical a mf su = Ok (d, workload) /\ workload_gate_pass a d workload = true.
Proof.
  unfold run. destruct (measure _ _ _ _) as [[d' w]|]; [|done].
  destruct (workload_gate_pass _ _ _) eqn:Hg; [|done]. by intros [= <- <-].
Qed.

Lemma within_rank values limit :
  Z.of_nat (length values) < 2 ^ 40 -> within_ms (percentile values p95) limit = true ->
  19 * Z.of_nat (length values) <= 20 * Z.of_nat (at_most (ms limit) values).
Proof.
  intros Hlen Hw. destruct (percentile values p95) as [v|] eqn:Hp; [|done]. simpl in Hw. bool_hyps.
  destruct (percentile_p95_rank values v Hlen Hp) as (_ & Hr & _).
  enough (at_most v values <= at_most (ms limit) values)%nat by lia.
  unfold at_most. clear -Hw. induction values as [|x l IH]; [done|].
  rewrite !filter_cons. repeat case_decide; simpl; lia.
Qed.

Lemma limits_plan a :
  limits_ok a = true -> 0 <= a.(a_rate) -> 0 <= a.(a_seconds) ->
  Z.of_nat (length (arrival_plan a.(a_rate) a.(a_seconds) a.(a_burst))) < 2 ^ 40.
Proof.
  intros Hok Hr Hs. rewrite length_arrival_plan by done. unfold limits_ok, effective_seconds in Hok. bool_hyps.
  destruct (a_burst a); lia.
Qed.

(** Nothing unexpected was counted when the count of unexpected responses is zero. *)
Lemma unexpected_zero a g :
  counters_sound g -> unexpected a g = 0 ->
  (forall op st n, g.(g_tally).(ta_statuses) !! (op, st) = Some (S n) -> allowed_status a op st = true)
  /\ default 0%nat (g.(g_tally).(ta_statuses) !! ("hot_hold", "409")) = g.(g_errors).(er_expected_hot_conflicts).
Proof.
  intros [Hc _] Hu. unfold unexpected in Hu. split; [|lia]. intros op st n Hl.
  destruct (allowed_status a op st) eqn:Hal; [done|].
  match type of Hu with context [counter_total ?c] => assert (Hz : counter_total c = 0%nat) by lia end.
  eapply counter_total_zero in Hz; [|by apply map_lookup_filter_Some_2]. done.
Qed.

(** A load run that reports success (exit code 0) dropped nothing and lost no task; every request of
    the workload was answered, each with a status allowed for its operation, every hot 409 carrying a
    contention code; and at least 95% of the reads took at most 150 ms and 95% of the ordinary holds at
    most 300 ms, binary64 rounding of the percentile rank included. *)
Theorem load_gate_sound canonical a mf su d workload :
  limits_ok a = true -> 0 <= a.(a_rate) -> 0 <= a.(a_seconds) ->
  run canonical a mf su = Ok (d, workload) ->
  let g := d.(d_generator) in
  d.(d_drops) = 0%nat /\ g.(g_task_errors) = ∅
  /\ counter_total g.(g_tally).(ta_statuses) = length workload
  /\ (forall op st n, g.(g_tally).(ta_statuses) !! (op, st) = Some (S n) -> allowed_status a op st = true)
  /\ default 0%nat (g.(g_tally).(ta_statuses) !! ("hot_hold", "409")) = g.(g_errors).(er_expected_hot_conflicts)
  /\ read_samples g <> []
  /\ 19 * Z.of_nat (length (read_samples g)) <= 20 * Z.of_nat (at_most (ms 150) (read_samples g))
  /\ hold_samples g <> []
  /\ 19 * Z.of_nat (length (hold_samples g)) <= 20 * Z.of_nat (at_most (ms 300) (hold_samples g)).
Proof.
  intros Hok Hr Hs Hrun. apply run_inv in Hrun as [(initial & Hw & Hd)%measure_inv Hgate]. cbv zeta.
  pose proof (dispatch_all_facts canonical a mf su.(su_run_id) initial su.(su_network) su.(su_durations) su.(su_wakeups) workload) as Hf.
  cbv zeta in Hf. rewrite <-Hd in Hf. destruct Hf as (Hp & Hacc & Hsound).
  apply length_allocate_all in Hw. pose proof (limits_plan a Hok Hr Hs) as Hlim. rewrite <-Hw in Hlim.
  unfold workload_gate_pass, local_read_gate_pass, reservation_gate_pass in Hgate. bool_hyps.
  match goal with H : (d_drops d =? 0)%nat = true |- _ => apply Nat.eqb_eq in H as Hdrops end.
  destruct (unexpected_zero a d.(d_generator) Hsound) as [Hst Hhot]; [done|].
  unfold accounted in Hacc. rewrite Hp, Hdrops in Hacc. simpl in Hacc.
  assert (Hte : counter_total (g_task_errors (d_generator d)) = 0%nat)
    by (match goal with H : g_task_errors _ = ∅ |- _ => rewrite H end; apply map_fold_empty).
  destruct Hsound as [_ Hbal].
  assert (Hlen : forall P, Z.of_nat (length (samples P (g_tally (d_generator d)))) < 2 ^ 40).
  { intros P. pose proof (samples_length P (g_tally (d_generator d))). lia. }
  split_and!; try done; try lia; by apply within_rank; [apply Hlen|].
Qed.

(** A run of one second at twenty requests per second against a healthy service. *)
Definition sample_answer (status : Z) : http_answer := HttpAnswer status (JsonObject None) 100 (Some "tag") None.
Definition sample_args : arguments := Arguments_ "http://t/" 20 1 8 false true false false 2 0 None false.
Definition sample_manifest : manifest := Manifest 1 "development" (seconds 1000) "http://t" ["s1"; "s2"] ["t1"; "t2"; "t3"] None 0 10 None None.
Definition sample_run : surroundings :=
  Surroundings 0 (Got (sample_answer 200)) (fun _ _ => Got (sample_answer 200)) (Got (sample_answer 200))
    (fun i => i) (fun _ => false) "run" 0 (fun i => Wakeup [(i - 1)%nat] 0)
    (fun i n => Exchange (if (i =? 3)%nat && (n =? 1)%nat then Got (HttpAnswer 503 (JsonObject (Some "SEATMAP_WARMING")) 10 None None)
                          else Got (sample_answer (if (i =? 0)%nat then 201 else 200))) 0 [("connection.connect_tcp.started", 5)] (fun _ => ExcObject "E" None None) 0)
    (fun i => ms (Z.of_nat i)).
Definition canonical_none (s : string) : option string := None.

Definition sample_outcome : dispatch * list item :=
  match run canonical_none sample_args sample_manifest sample_run with
  | Ok r => r
  | Raise _ => (empty_dispatch, [])
  end.

Lemma load_gate_sound_witness :
  run canonical_none sample_args sample_manifest sample_run = Ok sample_outcome
  /\ length sample_outcome.2 = 20%nat
  /\ sample_outcome.1.(d_generator).(g_retries).(re_physical_http_attempts) = 21%nat
  /\ (let g := sample_outcome.1.(d_generator) in
      g.(g_task_errors) = ∅ /\ counter_total g.(g_tally).(ta_statuses) = length sample_outcome.2).
Proof.
  split; [vm_compute; reflexivity|]. split; [vm_compute; reflexivity|]. split; [vm_compute; reflexivity|].
  destruct (load_gate_sound canonical_none sample_args sample_manifest sample_run sample_outcome.1 sample_outcome.2)
    as (_ & Hte & Ht & _); [vm_compute; reflexivity|vm_compute; discriminate|vm_compute; discriminate|vm_compute; reflexivity|].
  exact (conj Hte Ht).
Defined.

(** ** Seat allocation *)

Definition ordinary (it : item) : Prop := it.(i_write) = true /\ it.(i_hot) = false.
#[global] Instance ordinary_dec it : Decision (ordinary it).
Proof. unfold ordinary. apply _. Defined.

(** One allocation: an ordinary hold takes its show's next seat and advances the count; anything else
    leaves the counts alone, and a hot hold is for the hot seat. *)
Lemma allocate_cases mf mixed draw focus index due phase counts it counts' :
  allocate mf mixed draw focus index due phase counts = Ok (it, counts') ->
  it.(i_index) = index
  /\ ((ordinary it /\ it.(i_seat) = mf.(mf_seat_offset) + count_of counts it.(i_show)
       /\ it.(i_seat) < mf.(mf_seats_per_show) /\ it.(i_show) ∈ mf.(mf_show_ids)
       /\ counts' = <[it.(i_show) := count_of counts it.(i_show) + 1]> counts
       /\ (mixed = true -> Some it.(i_show) = mf.(mf_hot_hold_show_id) -> it.(i_seat) <> hot_seat mf))
      \/ (~ ordinary it /\ counts' = counts
          /\ (it.(i_hot) = true -> Some it.(i_show) = mf.(mf_hot_hold_show_id) /\ it.(i_seat) = hot_seat mf))).
Proof.
  unfold allocate. destruct (mf_viewer_tokens mf) as [|t ts]; [done|].
  destruct (mf_show_ids mf !! _) as [show|] eqn:Hshow; [|done]. apply list_elem_of_lookup_2 in Hshow. cbv zeta.
  destruct (mixed && _) eqn:Hhot.
  { destruct (mf_hot_hold_show_id mf) as [hs|] eqn:Hhs; [|done]. destruct (negb _) eqn:Hn; [done|].
    intros [= <- <-]. split; [done|]. right. unfold ordinary. simpl. split; [by intros []|]. done. }
  destruct (index mod 20 =? 0)%nat eqn:Hw.
  - assert (Hend : forall hot_show,
      (mixed = true -> hot_show = mf_hot_hold_show_id mf) ->
      (if mixed && bool_decide (Some show = hot_show) && (mf_seat_offset mf + count_of counts show =? hot_seat mf)
       then Raise (PyError "ValueError" "Ordinary allocation overlaps the shared hot seat")
       else if mf_seats_per_show mf <=? mf_seat_offset mf + count_of counts show
       then Raise (PyError "ValueError" "Allocated fixture seats exhausted")
       else Ok (Item index (draw mod length (t :: ts)) show true (mf_seat_offset mf + count_of counts show) due phase false,
                <[show := count_of counts show + 1]> counts)) = Ok (it, counts') ->
      it.(i_index) = index
      /\ ordinary it /\ it.(i_seat) = mf.(mf_seat_offset) + count_of counts it.(i_show)
      /\ it.(i_seat) < mf.(mf_seats_per_show) /\ it.(i_show) ∈ mf.(mf_show_ids)
      /\ counts' = <[it.(i_show) := count_of counts it.(i_show) + 1]> counts
      /\ (mixed = true -> Some it.(i_show) = mf.(mf_hot_hold_show_id) -> it.(i_seat) <> hot_seat mf)).
    { intros hot_show Heq. destruct (_ && _ && _) eqn:Hov; [done|]. destruct (_ <=? _) eqn:Hex; [done|].
      intros [= <- <-]. unfold ordinary. simpl. bool_hyps. split_and!; try done.
      intros Hm Hs. rewrite <-(Heq Hm) in Hs. rewrite Hm, bool_decide_eq_true_2 in Hov by done. simpl in Hov. by bool_hyps. }
    destruct mixed, (mf_hot_hold_show_id mf) as [hs|] eqn:Hhs; try done; intros H; apply Hend in H; try done;
      destruct H as (? & H); by split; [|left].
  - intros [= <- <-]. split; [done|]. right. unfold ordinary. simpl. split; [by intros []|]. done.
Qed.

Lemma allocate_all_facts mf mixed draws focus index plan counts l :
  allocate_all mf mixed draws focus index plan counts = Ok l ->
  NoDup ((fun it => (it.(i_show), it.(i_seat))) <$> filter ordinary l)
  /\ i_index <$> l = seq index (length plan)
  /\ forall it, it ∈ l ->
       (ordinary it -> mf.(mf_seat_offset) + count_of counts it.(i_show) <= it.(i_seat) < mf.(mf_seats_per_show)
          /\ it.(i_show) ∈ mf.(mf_show_ids) /\ (mixed = true -> Some it.(i_show) = mf.(mf_hot_hold_show_id) -> it.(i_seat) <> hot_seat mf))
       /\ (it.(i_hot) = true -> Some it.(i_show) = mf.(mf_hot_hold_show_id) /\ it.(i_seat) = hot_seat mf).
Proof.
  revert index counts l. induction plan as [|[due phase] plan IH]; intros index counts l; simpl.
  { intros [= <-]. split_and!; [constructor|done|]. by intros it ?%not_elem_of_nil. }
  destruct (allocate _ _ _ _ _ _ _ _) as [[it counts']|e] eqn:Hal; [|done].
  destruct (allocate_all _ _ _ _ _ _ _) as [l'|e] eqn:Hl; [|done]. intros [= <-].
  apply allocate_cases in Hal as [Hi Hcase]. destruct (IH _ _ _ Hl) as (Hnd & Hidx & Hall). clear IH.
  assert (Hmono : forall show, count_of counts show <= count_of counts' show).
  { intros show. destruct Hcase as [(_ & _ & _ & _ & -> & _)|(_ & -> & _)]; [|done]. unfold count_of at 2.
    destruct (decide (show = i_show it)) as [->|]; [rewrite lookup_insert_eq; simpl; lia|by rewrite lookup_insert_ne]. }
  split_and!.
  - rewrite filter_cons. case_decide as Ho; [|done]. csimpl. apply NoDup_cons. split; [|done].
    intros (it' & [= Hs Hseat] & Hin)%list_elem_of_fmap. apply list_elem_of_filter in Hin as [Ho' Hin].
    destruct Hcase as [(_ & Hs1 & _ & _ & Hc & _)|[? _]]; [|done].
    destruct (Hall _ Hin) as [[[Hlow _] _] _]; [done|]. rewrite <-Hs, Hc in Hlow. unfold count_of at 1 in Hlow.
    rewrite lookup_insert_eq in Hlow. simpl in Hlow. lia.
  - csimpl. by rewrite Hi, Hidx.
  - intros it' [->|Hin]%elem_of_cons.
    + destruct Hcase as [(Ho & Hs1 & Hs2 & Hs3 & _ & Hh)|(Ho & _ & Hh)]; [|done].
      split; [|by destruct Ho as [_ ->]]. intros _. split_and!; [lia|lia|done|done].
    + destruct (Hall _ Hin) as [Ho Hh]. split; [|done]. intros Hord. destruct (Ho Hord) as [Hr ?].
      split; [|done]. pose proof (Hmono (i_show it')). lia.
Qed.

(** The workload of a load run never makes two ordinary holds compete: they are for pairwise distinct
    (show, seat) pairs, every one inside the show's fixture and none of them the shared hot seat; every
    hot hold is for that seat; and the requests are numbered in arrival order. *)
Theorem allocation_disjoint mf mixed draws focus plan workload :
  allocate_all mf mixed draws focus 0 plan ∅ = Ok workload ->
  NoDup ((fun it => (it.(i_show), it.(i_seat))) <$> filter ordinary workload)
  /\ i_index <$> workload = seq 0 (length plan)
  /\ (forall it, it ∈ workload -> ordinary it ->
        mf.(mf_seat_offset) <= it.(i_seat) < mf.(mf_seats_per_show)
        /\ (mixed = true -> Some it.(i_show) = mf.(mf_hot_hold_show_id) -> it.(i_seat) <> hot_seat mf))
  /\ (forall it, it ∈ workload -> it.(i_hot) = true ->
        Some it.(i_show) = mf.(mf_hot_hold_show_id) /\ it.(i_seat) = hot_seat mf).
Proof.
  intros H. apply allocate_all_facts in H as (Hnd & Hidx & Hall). split_and!; [done|done| |].
  - intros it Hin Ho. destruct (Hall it Hin) as [H _]. destruct (H Ho) as (Hr & _ & Hh).
    unfold count_of in Hr. rewrite lookup_empty in Hr. simpl in Hr. split; [lia|done].
  - intros it Hin Hh. by apply (Hall it Hin).
Qed.

Definition mixed_manifest : manifest :=
  Manifest 1 "development" (seconds 1000) "http://t" ["s1"; "s2"] ["t1"; "t2"; "t3"] None 0 300 (Some "s1") None.
Definition mixed_workload : list item :=
  match allocate_all mixed_manifest true (fun i => i) (fun _ => false) 0 (arrival_plan 200 1 false) ∅ with
  | Ok l => l
  | Raise _ => []
  end.

Lemma allocation_disjoint_witness :
  length (filter ordinary mixed_workload) = 8%nat
  /\ NoDup ((fun it => (it.(i_show), it.(i_seat))) <$> filter ordinary mixed_workload).
Proof.
  split; [vm_compute; reflexivity|].
  destruct (allocation_disjoint mixed_manifest true (fun i => i) (fun _ => false) (arrival_plan 200 1 false) mixed_workload)
    as [H _]; [vm_compute; reflexivity|exact H].
Defined.

(** ** Retries *)

(** A message that request [it] may send: for a hold, always the same one. *)
Definition own_message (mf : manifest) (run_id : string) (it : item) (im : nat * message) : Prop :=
  im.1 = it.(i_index) /\
  match im.2 with
  | PostHold show seat token key =>
      it.(i_write) = true /\ show = it.(i_show) /\ seat = it.(i_seat)
      /\ mf.(mf_viewer_tokens) !! it.(i_viewer) = Some token /\ key = idempotency_key run_id it
  | GetAvailability show _ => it.(i_write) = false /\ show = it.(i_show)
  end.

(** At most [n] more messages, all of them [it]'s own. *)
Definition sends (mf : manifest) (run_id : string) (it : item) (n : nat) (g g' : generator) : Prop :=
  exists l, g'.(g_sent) = g.(g_sent) ++ l /\ (length l <= n)%nat /\ Forall (own_message mf run_id it) l.

Definition same_sent (g g' : generator) : Prop := g'.(g_sent) = g.(g_sent).
#[global] Instance same_sent_preorder : PreOrder same_sent.
Proof. split; [done|]. intros g1 g2 g3 H1 H2. unfold same_sent in *. congruence. Qed.

Section retry_facts.
Context (canonical : string -> option string) (a : arguments) (mf : manifest) (run_id : string)
  (initial : gmap string string) (network : nat -> nat -> exchange) (duration : nat -> Z).

Lemma sends_compose it n1 n2 g1 g2 g3 :
  sends mf run_id it n1 g1 g2 -> sends mf run_id it n2 g2 g3 -> sends mf run_id it (n1 + n2) g1 g3.
Proof.
  intros (l1 & H1 & Hl1 & Ho1) (l2 & H2 & Hl2 & Ho2). exists (l1 ++ l2).
  rewrite H2, H1, app_assoc, length_app. split_and!; [done|lia|by apply Forall_app].
Qed.

Lemma sends_none it n g g' : same_sent g g' -> sends mf run_id it n g g'.
Proof. intros H. exists []. rewrite app_nil_r. split_and!; [done|simpl; lia|done]. Qed.

Lemma message_of_own it g g' m :
  message_of mf run_id initial it g = (g', Ok m) -> own_message mf run_id it (it.(i_index), m) /\ g' = g.
Proof.
  unfold message_of, own_message. simpl. destruct (i_write it) eqn:Hw.
  - unfold mbind, M_bind. destruct (mf_viewer_tokens mf !! i_viewer it) as [t|] eqn:Ht; simpl; [|done].
    intros [= <- <-]. done.
  - unfold mbind, M_bind. destruct (initial !! i_show it) as [t|]; simpl; [|done]. intros [= <- <-]. done.
Qed.

Lemma settle_sent it n x : leaves same_sent (settle canonical a it n x).
Proof. unfold settle. leaves. Qed.

Lemma try_once_sends it n g : sends mf run_id it 1 g (try_once canonical a mf run_id initial network it n g).1.
Proof.
  unfold try_once. unfold mbind at 1, M_bind at 1. simpl. set (g0 := with_retries count_physical g).
  pose proof (message_of_leaves mf run_id initial same_sent it g0) as Hs.
  unfold mbind at 1, M_bind at 1. destruct (message_of mf run_id initial it g0) as [g1 [m|e]] eqn:Hm; [|by apply sends_none].
  apply message_of_own in Hm as [Hown ->]. unfold mbind, M_bind. simpl.
  assert (Hf : leaves same_sent (finally (settle canonical a it n (network (i_index it) n))
    (if a_transport_diagnostics a then modify (with_transport (count_trace (operation_of it) (trace_of (network (i_index it) n)))) else mret tt))).
  { leaves. apply settle_sent. }
  exists [(it.(i_index), m)]. rewrite Hf. split_and!; [done|simpl; lia|by apply Forall_singleton].
Qed.

Lemma attempts_sends it left n g :
  sends mf run_id it left g (attempts canonical a mf run_id initial network it left n g).1.
Proof.
  revert n g. induction left as [|left IH]; intros n g; simpl; [by apply sends_none|].
  pose proof (try_once_sends it n g) as Ht. unfold mbind, M_bind.
  destruct (try_once _ _ _ _ _ _ _ _ g) as [g1 [[s|]|e]]; simpl in *.
  - eapply (sends_compose it 1 left); [exact Ht|by apply sends_none].
  - eapply (sends_compose it 1 left); [exact Ht|apply IH].
  - eapply (sends_compose it 1 left); [exact Ht|by apply sends_none].
Qed.

(** A load request is attempted at most [max_attempts] times, and every attempt of a hold puts the
    same message on the wire: the same show, seat, token and idempotency key; no other request of the run
    has that key, so the service can recognise a retry as one. *)
Theorem retries_repeat_message it g :
  sends mf run_id it a.(a_max_attempts) g (request canonical a mf run_id initial network duration it g).1
  /\ (forall it', it'.(i_index) <> it.(i_index) -> idempotency_key run_id it' <> idempotency_key run_id it).
Proof.
  split.
  - unfold request. pose proof (attempts_sends it (a_max_attempts a) 1 g) as Hs.
    unfold mbind, M_bind. destruct (attempts _ _ _ _ _ _ _ _ _ g) as [g1 [s|e]]; [|exact Hs].
    destruct (1 <? se_attempts_used s)%nat; destruct (se_response s) as [r|]; simpl;
      try destruct (expected_response a it r); exact Hs.
  - intros it' Hne Heq. apply Hne. unfold idempotency_key in Heq. by simplify_eq.
Qed.
End retry_facts.
