(* ===== verification/CapacityStage.v ===== *)
(** * The unattended capacity stage

    [scripts/unattended_capacity_stage.py]: one distributed load stage driven over ssh.  Every remote
    command, file copy and local file operation is a [call] to the surroundings, which answer with an
    exit code and output or with an exception; the log of calls is part of the state.  The text that
    [redact] produces and the formatting of floats are parameters; times are microseconds. *)

From stdpp Require Import pretty.
From S2P Require Import Prelude.

#[local] Open Scope Z_scope.

(** ** Exceptions by class *)

(** The exception types below each class the script catches. *)
Definition OSErrors : list string := ["OSError"; "TimeoutError"; "FileNotFoundError"; "FileExistsError"; "PermissionError"; "ConnectionError"].
Definition RuntimeErrors : list string := ["RuntimeError"; "NotImplementedError"; "RecursionError"].
Definition ValueErrors : list string := ["ValueError"; "JSONDecodeError"; "UnicodeDecodeError"; "UnicodeEncodeError"].

Definition instance_of (types : list string) (e : exn) : bool :=
  match e with PyError t _ => bool_decide (t ∈ types) | _ => false end.

Definition load_catches : exn -> bool := instance_of (OSErrors ++ RuntimeErrors ++ ["TypeError"] ++ ValueErrors ++ ["TimeoutExpired"]).
Definition stage_catches : exn -> bool := instance_of (OSErrors ++ RuntimeErrors ++ ["TimeoutExpired"] ++ ValueErrors ++ ["KeyboardInterrupt"]).
Definition finish_catches : exn -> bool := instance_of (OSErrors ++ RuntimeErrors ++ ["TimeoutExpired"]).

(** ** JSON evidence *)

(** JSON values; numbers in millionths. *)
Inductive json : Type :=
| JNull
| JBool (b : bool)
| JNum (micro : Z)
| JStr (s : string)
| JArr (l : list json)
| JObj (members : list (string * json)).

Fixpoint member (key : string) (l : list (string * json)) : json :=
  match l with
  | [] => JNull
  | (k, v) :: rest => if bool_decide (k = key) then v else member key rest
  end.

(** [d.get(key)] of a loaded document; a missing file is the empty object. *)
Definition get (key : string) (doc : json) : outcome json :=
  match doc with
  | JObj l => Ok (member key l)
  | _ => Raise (PyError "AttributeError" "get")
  end.

Definition is_true (v : json) : bool := match v with JBool true => true | _ => false end.
Definition truthy (v : json) : bool :=
  match v with
  | JNull => false
  | JBool b => b
  | JNum n => negb (n =? 0)
  | JStr s => negb (bool_decide (s = ""))
  | JArr l => match l with [] => false | _ => true end
  | JObj l => match l with [] => false | _ => true end
  end.

(** [v == 0], which [False] satisfies. *)
Definition equals_zero (v : json) : bool :=
  match v with JNum n => n =? 0 | JBool b => negb b | _ => false end.

(** [(v or float("inf")) < limit] *)
Definition or_inf_less (v : json) (limit : Z) : outcome bool :=
  if truthy v then
    match v with
    | JNum n => Ok (n <? limit * 1000000)
    | JBool _ => Ok (1 <? limit)
    | _ => Raise (PyError "TypeError" "<")
    end
  else Ok false.

(** [bool(q) and all(value == 0 for value in q.values())] *)
Definition drained (q : json) : outcome bool :=
  if truthy q then
    match q with
    | JObj l => Ok (forallb (fun kv => equals_zero kv.2) l)
    | _ => Raise (PyError "AttributeError" "values")
    end
  else Ok false.

Definition obind {A B} (o : outcome A) (f : A -> outcome B) : outcome B :=
  match o with Ok a => f a | Raise e => Raise e end.

(** The documents below the output directory, [JObj []] for one that does not exist. *)
Record evidence : Type := Evidence { ev_summary : json; ev_durability : json; ev_admission : json; ev_rollback : json }.

(** The gates of [evaluate], in order. *)
Definition evaluate (ev : evidence) (load_exit audit_exit admission_exit : option Z) : outcome (list (string * bool)) :=
  obind (get "workload_gate_pass" ev.(ev_summary)) (fun workload =>
  obind (get "generator_drops" ev.(ev_summary)) (fun drops =>
  obind (get "transport_errors" ev.(ev_summary)) (fun transport_errors =>
  obind (get "worst_worker_read_p95_ms" ev.(ev_summary)) (fun read =>
  obind (or_inf_less read 150) (fun read_p95 =>
  obind (get "worst_worker_hold_p95_ms" ev.(ev_summary)) (fun hold =>
  obind (or_inf_less hold 300) (fun hold_p95 =>
  obind (get "admission_rejections" ev.(ev_admission)) (fun rejections =>
  obind (get "durability_and_expiry_pass" ev.(ev_durability)) (fun durability =>
  obind (get "overlapping_load_hold_intervals" ev.(ev_durability)) (fun overlap =>
  obind (get "queues_snapshot" ev.(ev_durability)) (fun queues =>
  obind (drained queues) (fun queues_drained =>
  obind (get "pass" ev.(ev_rollback)) (fun rollback =>
  Ok [("load_exit_zero", bool_decide (load_exit = Some 0));
      ("workload", is_true workload);
      ("generator_drops_zero", equals_zero drops);
      ("transport_errors_zero", negb (truthy transport_errors));
      ("read_p95", read_p95);
      ("hold_p95", hold_p95);
      ("admission_zero", bool_decide (admission_exit = Some 0) && equals_zero rejections);
      ("audit_exit_zero", bool_decide (audit_exit = Some 0));
      ("durability", is_true durability);
      ("overlap_zero", equals_zero overlap);
      ("queues_drained", queues_drained);
      ("rollback", is_true rollback)]))))))))))))).

(** ** Arguments *)

Record stage_args : Type := StageArgs {
  sa_backend_host : string;
  sa_generator_host : string;
  sa_backend_dir : string;
  sa_generator_dir : string;
  sa_origin : string;
  sa_output_exists : bool;
  sa_identity_file_missing : bool;
  sa_rate : Z;
  sa_seconds : Z;
  sa_workers : Z;
  sa_shows : Z;
  sa_seats : Z;
  sa_viewers : Z;
  sa_sale_hours : Z;
  sa_seat_offset : Z;
  sa_admission_candidate : Z;
  sa_admission_rollback : Z;
  sa_maintenance_candidate : Z;
  sa_maintenance_rollback : Z;
  sa_split_maintenance : bool;
  sa_consumer_candidate : Z;
  sa_consumer_rollback : Z;
  sa_hold_expiry_wait : Z;
  sa_max_attempts : Z;
  sa_retry_base_delay : Z;
  sa_late_delivery_window : Z;
  sa_reservation_mode : string;
  sa_reservation_writer_candidate : Z;
  sa_dry_run : bool;
}.

(** [SAFE_HOST.fullmatch]: [[A-Za-z0-9_.@-]+] *)
Definition safe_char (c : Ascii.ascii) : bool :=
  let n := Z.of_nat (Ascii.nat_of_ascii c) in
  ((65 <=? n) && (n <=? 90)) || ((97 <=? n) && (n <=? 122)) || ((48 <=? n) && (n <=? 57))
  || bool_decide (n ∈ [95; 46; 64; 45]).
Definition all_chars (P : Ascii.ascii -> bool) (s : string) : bool := forallb P (String.list_ascii_of_string s).
Definition safe_host (host : string) : bool := negb (bool_decide (host = "")) && all_chars safe_char host.

Definition validate_args (a : stage_args) : outcome unit :=
  let bad m := Raise (PyError "ValueError" m) in
  if negb (safe_host a.(sa_backend_host)) then bad ("Unsafe SSH host alias: " +:+ a.(sa_backend_host))
  else if negb (safe_host a.(sa_generator_host)) then bad ("Unsafe SSH host alias: " +:+ a.(sa_generator_host))
  else if a.(sa_output_exists) then bad "Use a fresh output directory"
  else if a.(sa_identity_file_missing) then bad "SSH identity file does not exist"
  else if foldr Z.min a.(sa_rate)
            [a.(sa_seconds); a.(sa_workers); a.(sa_shows); a.(sa_seats); a.(sa_viewers); a.(sa_sale_hours); a.(sa_hold_expiry_wait)] <? 1
  then bad "Stage limits must be positive"
  else if a.(sa_seats) <? (a.(sa_rate) * a.(sa_seconds) * 5 / 100 + a.(sa_shows) - 1) / a.(sa_shows)
  then bad "Fresh fixture has insufficient unique seats for the requested stage"
  else if negb ((0 <=? a.(sa_retry_base_delay)) && (a.(sa_retry_base_delay) <=? milliseconds 5000))
  then bad "Retry delay must be between 0 and 5000 ms"
  else if negb ((0 <=? a.(sa_late_delivery_window)) && (a.(sa_late_delivery_window) <=? milliseconds 5000))
  then bad "Late-delivery window must be between 0 and 5000 ms"
  else if negb ((1 <=? a.(sa_admission_candidate)) && (a.(sa_admission_candidate) <=? 64))
          || negb ((1 <=? a.(sa_admission_rollback)) && (a.(sa_admission_rollback) <=? 64))
  then bad "Admission values must be between 1 and 64"
  else if negb ((1 <=? a.(sa_maintenance_candidate)) && (a.(sa_maintenance_candidate) <=? 4))
          || negb ((1 <=? a.(sa_maintenance_rollback)) && (a.(sa_maintenance_rollback) <=? 4))
  then bad "Maintenance replica counts must be between 1 and 4"
  else if negb ((1 <=? a.(sa_consumer_candidate)) && (a.(sa_consumer_candidate) <=? 6))
          || negb ((1 <=? a.(sa_consumer_rollback)) && (a.(sa_consumer_rollback) <=? 6))
  then bad "Consumer replica counts must be between 1 and 6"
  else Ok tt.

(** ** Calls *)

Inductive call : Type :=
| Remote (phase host : string) (argv : list string) (timeout : option Z)
| CopyFrom (phase host remote : string)
| CopyTo (phase host remote : string)
| Local (operation : string)
| Sleep (duration : Z).

Definition phase_of (c : call) : string :=
  match c with
  | Remote p _ _ _ | CopyFrom p _ _ | CopyTo p _ _ => p
  | Local op => op
  | Sleep _ => "sleep"
  end.

(** How a call ends: its duration, then an exception ([subprocess.run], decoding, the log file, the file
    system) or an exit code with the text on stdout. *)
Record answer : Type := Answer {
  an_elapsed : N;
  an_raised : option exn;
  an_returncode : Z;
  an_stdout : string;
}.

(** What [json.loads] of a job status gives. *)
Inductive exit_value : Type := ExitInt (n : Z) | ExitOther.
Inductive job_status : Type :=
| NotJsonStatus
| NotAnObject
| JobStatus (state : option string) (exit_code : exit_value).

Record stage : Type := Stage {
  sg_calls : list call;
  sg_clock : Z;
  sg_completed : list string;
  sg_deployed : bool;
  sg_observers : bool;
  sg_load_start_attempted : bool;
  sg_load_exit : option Z;
  sg_audit_exit : option Z;
  sg_admission_exit : option Z;
  sg_source_revision : option string;
  sg_error : option string;
  sg_finalizer_errors : list string;
}.

Definition empty_stage (now : Z) : stage := Stage [] now [] false false false None None None None None [].

Definition log_call (c : call) (elapsed : N) (s : stage) : stage :=
  Stage (s.(sg_calls) ++ [c])
    (s.(sg_clock) + Z.of_N elapsed + match c with Sleep d => d | _ => 0 end)
    s.(sg_completed) s.(sg_deployed) s.(sg_observers) s.(sg_load_start_attempted) s.(sg_load_exit) s.(sg_audit_exit)
    s.(sg_admission_exit) s.(sg_source_revision) s.(sg_error) s.(sg_finalizer_errors).
Definition set_completed (phase : string) (s : stage) : stage :=
  Stage s.(sg_calls) s.(sg_clock) (s.(sg_completed) ++ [phase]) s.(sg_deployed) s.(sg_observers) s.(sg_load_start_attempted)
    s.(sg_load_exit) s.(sg_audit_exit) s.(sg_admission_exit) s.(sg_source_revision) s.(sg_error) s.(sg_finalizer_errors).
Definition set_flags (deployed observers load_start : bool) (s : stage) : stage :=
  Stage s.(sg_calls) s.(sg_clock) s.(sg_completed) deployed observers load_start
    s.(sg_load_exit) s.(sg_audit_exit) s.(sg_admission_exit) s.(sg_source_revision) s.(sg_error) s.(sg_finalizer_errors).
Definition set_deployed (s : stage) : stage := set_flags true s.(sg_observers) s.(sg_load_start_attempted) s.
Definition set_observers (b : bool) (s : stage) : stage := set_flags s.(sg_deployed) b s.(sg_load_start_attempted) s.
Definition set_load_start (s : stage) : stage := set_flags s.(sg_deployed) s.(sg_observers) true s.
Definition set_exits (load audit admission : option Z) (s : stage) : stage :=
  Stage s.(sg_calls) s.(sg_clock) s.(sg_completed) s.(sg_deployed) s.(sg_observers) s.(sg_load_start_attempted)
    load audit admission s.(sg_source_revision) s.(sg_error) s.(sg_finalizer_errors).
Definition set_load_exit (n : Z) (s : stage) : stage := set_exits (Some n) s.(sg_audit_exit) s.(sg_admission_exit) s.
Definition set_audit_exit (n : Z) (s : stage) : stage := set_exits s.(sg_load_exit) (Some n) s.(sg_admission_exit) s.
Definition set_admission_exit (n : Z) (s : stage) : stage := set_exits s.(sg_load_exit) s.(sg_audit_exit) (Some n) s.
Definition set_text (revision error : option string) (finalizer_errors : list string) (s : stage) : stage :=
  Stage s.(sg_calls) s.(sg_clock) s.(sg_completed) s.(sg_deployed) s.(sg_observers) s.(sg_load_start_attempted)
    s.(sg_load_exit) s.(sg_audit_exit) s.(sg_admission_exit) revision error finalizer_errors.
Definition set_revision (r : string) (s : stage) : stage := set_text (Some r) s.(sg_error) s.(sg_finalizer_errors) s.
Definition set_error (e : string) (s : stage) : stage := set_text s.(sg_source_revision) (Some e) s.(sg_finalizer_errors) s.
Definition add_finalizer_error (e : string) (s : stage) : stage :=
  set_text s.(sg_source_revision) s.(sg_error) (s.(sg_finalizer_errors) ++ [e]) s.
(** [error = f"{error}; {reason}" if error else reason] *)
Definition join_error (reason : string) (s : stage) : stage :=
  match s.(sg_error) with
  | Some e => if bool_decide (e = "") then set_error reason s else set_error (e +:+ "; " +:+ reason) s
  | None => set_error reason s
  end.

(** [str.strip()] *)
Definition is_space (c : Ascii.ascii) : bool := bool_decide (Ascii.nat_of_ascii c ∈ [9; 10; 11; 12; 13; 28; 29; 30; 31; 32]%nat).
Fixpoint drop_spaces (l : list Ascii.ascii) : list Ascii.ascii :=
  match l with c :: l' => if is_space c then drop_spaces l' else l | [] => [] end.
Definition strip (s : string) : string :=
  String.string_of_list_ascii (reverse (drop_spaces (reverse (drop_spaces (String.list_ascii_of_string s))))).

(** [re.fullmatch("[0-9a-f]{40}", s)] *)
Definition hex_char (c : Ascii.ascii) : bool :=
  let n := Z.of_nat (Ascii.nat_of_ascii c) in ((48 <=? n) && (n <=? 57)) || ((97 <=? n) && (n <=? 102)).
Definition is_revision (s : string) : bool := (String.length s =? 40)%nat && all_chars hex_char s.

Section stage.
Context (a : stage_args) (run_id : string) (redact : string -> string) (repr : exn -> string) (show_ms : Z -> string)
  (status_of : string -> job_status) (worker_files : nat -> bool * Z) (world : call -> nat -> answer).

(** The answer to the next call, and the exception it may raise. *)
Definition perform (c : call) : M stage answer := fun s =>
  let r := world c (length s.(sg_calls)) in
  let s' := log_call c r.(an_elapsed) s in
  match r.(an_raised) with
  | Some e => (s', Raise e)
  | None => (s', Ok r)
  end.

Definition remote (phase host : string) (argv : list string) (check : bool) (timeout : option Z) : M stage answer :=
  r ← perform (Remote phase host argv timeout);
  _ ← raise_if (check && negb (r.(an_returncode) =? 0))
        (PyError "RuntimeError" (phase +:+ " failed with exit code " +:+ pretty r.(an_returncode)));
  mret r.

Definition copied (phase : string) (c : call) : M stage unit :=
  r ← perform c;
  raise_if (negb (r.(an_returncode) =? 0)) (PyError "RuntimeError" (phase +:+ " failed with exit code " +:+ pretty r.(an_returncode))).
Definition copy_from (phase host remote_path : string) : M stage unit := copied phase (CopyFrom phase host remote_path).
Definition copy_to (phase host remote_path : string) : M stage unit := copied phase (CopyTo phase host remote_path).

Definition local (operation : string) : M stage unit := _ ← perform (Local operation); mret tt.
Definition sleep (d : Z) : M stage unit := _ ← perform (Sleep d); mret tt.

Definition checkpoint (phase : string) : M stage unit :=
  _ ← modify (set_completed phase); local ("state.json " +:+ phase).

Definition backend_prefix : list string :=
  ["env"; "FLASH_TICKETING_BACKEND_DIR=" +:+ a.(sa_backend_dir); "sh"; a.(sa_backend_dir) +:+ "/scripts/huawei_capacity_backend.sh"].
Definition generator_prefix : list string :=
  ["env"; "FLASH_TICKETING_GENERATOR_DIR=" +:+ a.(sa_generator_dir); "sh"; a.(sa_generator_dir) +:+ "/scripts/huawei_capacity_generator.sh"].
Definition backend (phase : string) (argv : list string) (check : bool) (timeout : option Z) : M stage answer :=
  remote phase a.(sa_backend_host) (backend_prefix ++ argv) check timeout.
Definition generator (phase : string) (argv : list string) (check : bool) (timeout : option Z) : M stage answer :=
  remote phase a.(sa_generator_host) (generator_prefix ++ argv) check timeout.

(** Both hosts run the same commit. *)
Definition match_revisions : M stage unit :=
  b ← remote "backend-revision" a.(sa_backend_host) ["git"; "-C"; a.(sa_backend_dir); "rev-parse"; "HEAD"] true (Some 30);
  g ← remote "generator-revision" a.(sa_generator_host) ["git"; "-C"; a.(sa_generator_dir); "rev-parse"; "HEAD"] true (Some 30);
  let backend_revision := strip b.(an_stdout) in
  let generator_revision := strip g.(an_stdout) in
  _ ← raise_if (negb (is_revision backend_revision) || negb (bool_decide (backend_revision = generator_revision)))
        (PyError "RuntimeError" "Backend and generator source revisions do not match");
  _ ← modify (set_revision backend_revision);
  checkpoint "revisions_matched".

Definition deploy : M stage unit :=
  _ ← modify set_deployed;
  _ ← backend "deploy"
        ["deploy"; run_id; pretty a.(sa_admission_candidate); pretty a.(sa_admission_rollback);
         pretty a.(sa_maintenance_candidate); pretty a.(sa_maintenance_rollback);
         pretty a.(sa_consumer_candidate); pretty a.(sa_consumer_rollback);
         if a.(sa_split_maintenance) then "1" else "0"; a.(sa_reservation_mode);
         pretty a.(sa_reservation_writer_candidate)] true (Some 300);
  checkpoint "deployed".

(** The fixture, and the manifest carried through a private directory that is removed in any case. *)
Definition prepare : M stage unit :=
  _ ← backend "prepare"
        ["prepare"; run_id; pretty a.(sa_shows); pretty a.(sa_seats); pretty a.(sa_sale_hours); a.(sa_origin); pretty a.(sa_viewers)]
        true (Some 900);
  _ ← checkpoint "prepared";
  _ ← local "create private directory";
  _ ← finally
        (_ ← copy_from "manifest-from-backend" a.(sa_backend_host) (a.(sa_backend_dir) +:+ "/tmp/unattended-" +:+ run_id +:+ "/private/manifest.json");
         _ ← local "chmod manifest";
         copy_to "manifest-to-generator" a.(sa_generator_host) ("/root/unattended-" +:+ run_id +:+ "-upload.json"))
        (local "remove private directory");
  _ ← checkpoint "manifest_transferred";
  _ ← backend "preflight" ["preflight"; run_id; pretty a.(sa_seconds)] true (Some 180);
  _ ← checkpoint "preflight_passed";
  _ ← backend "observe" ["observe"; run_id; pretty (a.(sa_seconds) + a.(sa_hold_expiry_wait) + 300)] true (Some 30);
  _ ← modify (set_observers true);
  checkpoint "observers_started".

(** [while True] over the job status, until it finished or the deadline passed. *)
Fixpoint poll (fuel : nat) (deadline : Z) : M stage unit :=
  match fuel with
  | O => raise (PyError "OutOfFuel" "")
  | S fuel' =>
      r ← generator "load-status" ["status"; run_id] true (Some 30);
      match status_of r.(an_stdout) with
      | NotJsonStatus => raise (PyError "JSONDecodeError" "")
      | NotAnObject => raise (PyError "TypeError" "Malformed generator job status")
      | JobStatus state code =>
          if bool_decide (state = Some "finished") then
            match code with
            | ExitInt n =>
                if (0 <=? n) && (n <=? 255) then _ ← modify (set_load_exit n); checkpoint "load_finished"
                else raise (PyError "ValueError" "Malformed generator exit status")
            | ExitOther => raise (PyError "ValueError" "Malformed generator exit status")
            end
          else if negb (bool_decide (state = Some "running")) then raise (PyError "ValueError" "Unexpected generator job state")
          else
            now ← gets sg_clock;
            let remaining := deadline - now in
            if remaining <=? 0 then raise (PyError "TimeoutError" "Generator job exceeded its completion deadline")
            else _ ← sleep (Z.min (seconds 10) remaining); poll fuel' deadline
      end
  end.

(** Iterations that cover the deadline: one per ten seconds, the last one, and one to see it passed. *)
Definition poll_fuel : nat := Z.to_nat ((a.(sa_seconds) + 240) / 10 + 3).

Definition load : M stage unit :=
  _ ← modify set_load_start;
  finally
    (try_except
       (_ ← generator "load-start"
              ["start"; run_id; "/root/unattended-" +:+ run_id +:+ "-upload.json"; pretty a.(sa_rate); pretty a.(sa_seconds);
               pretty a.(sa_workers); pretty a.(sa_seat_offset); pretty a.(sa_max_attempts); show_ms a.(sa_retry_base_delay);
               show_ms a.(sa_late_delivery_window); a.(sa_reservation_mode)] true (Some 60);
        now ← gets sg_clock;
        poll poll_fuel (now + seconds (a.(sa_seconds) + 240)))
       (fun e => if load_catches e then
                   _ ← modify (set_load_exit (-1));
                   _ ← modify (set_error ("Generator job failed: " +:+ redact (repr e)));
                   checkpoint "load_failed"
                 else raise e))
    (r ← generator "load-stop" ["stop"; run_id] false (Some 30);
     raise_if (negb (r.(an_returncode) =? 0)) (PyError "RuntimeError" ("load-stop failed with exit code " +:+ pretty r.(an_returncode)))).

(** Results, the admission gate, and the audit after the holds have expired.  [worker_files] says whether
    the summary is a file and how many worker results were collected. *)
Definition collect : M stage unit :=
  _ ← local "mkdir generator";
  _ ← copy_from "generator-evidence" a.(sa_generator_host) ("/root/unattended-" +:+ run_id +:+ "/public");
  files ← gets (fun s => worker_files (length s.(sg_calls)));
  _ ← raise_if (negb files.1 || negb (files.2 =? a.(sa_workers))) (PyError "RuntimeError" "Incomplete generator evidence");
  _ ← remote "backend-load-dir" a.(sa_backend_host) ["mkdir"; "-p"; a.(sa_backend_dir) +:+ "/tmp/unattended-" +:+ run_id +:+ "/public"] true None;
  _ ← copy_to "load-results-to-backend" a.(sa_backend_host) (a.(sa_backend_dir) +:+ "/tmp/unattended-" +:+ run_id +:+ "/public/");
  admission ← backend "admission-gate" ["gate"; run_id] false None;
  _ ← modify (set_admission_exit admission.(an_returncode));
  _ ← checkpoint "compact_results_collected";
  _ ← sleep (seconds a.(sa_hold_expiry_wait));
  audit ← backend "durability-audit" ["audit"; run_id] false (Some 180);
  _ ← modify (set_audit_exit audit.(an_returncode));
  _ ← checkpoint "audit_finished";
  stopped ← backend "stop-observers" ["stop-observers"; run_id] false (Some 120);
  if negb (stopped.(an_returncode) =? 0)
  then modify (join_error ("stop-observers failed with exit code " +:+ pretty stopped.(an_returncode)))
  else modify (set_observers false).

(** The [try] of [main] with its [except]. *)
Definition stage_body : M stage unit :=
  try_except
    (_ ← match_revisions; _ ← deploy; _ ← prepare; _ ← load; collect)
    (fun e => if stage_catches e then modify (set_error (redact (repr e))) else raise e).

(** [finish(label, operation)] *)
Definition finish (label : string) (operation : M stage Z) : M stage unit :=
  try_except
    (returncode ← operation;
     if negb (returncode =? 0)
     then modify (add_finalizer_error (label +:+ " failed with exit code " +:+ pretty returncode))
     else mret tt)
    (fun e => if finish_catches e then modify (add_finalizer_error (label +:+ ": " +:+ redact (repr e))) else raise e).

Definition exit_code (m : M stage answer) : M stage Z := r ← m; mret r.(an_returncode).

Definition when (f : stage -> bool) (m : M stage unit) : M stage unit := fun s => if f s then m s else (s, Ok tt).

(** The [finally] of [main]. *)
Definition finalizers : M stage unit :=
  _ ← when sg_load_start_attempted (finish "generator stop" (exit_code (generator "load-stop-finally" ["stop"; run_id] false (Some 30))));
  _ ← when sg_observers (finish "stop observers" (exit_code (backend "stop-observers-finally" ["stop-observers"; run_id] false (Some 60))));
  _ ← when sg_deployed (finish "rollback" (exit_code (backend "rollback" ["rollback"; run_id] false (Some 300))));
  _ ← local "mkdir backend";
  _ ← finish "collect backend evidence"
        (_ ← copy_from "backend-evidence" a.(sa_backend_host) (a.(sa_backend_dir) +:+ "/tmp/unattended-" +:+ run_id +:+ "/public"); mret 0);
  _ ← finish "generator cleanup" (exit_code (generator "generator-cleanup" ["cleanup"; run_id] false (Some 30)));
  _ ← finish "backend cleanup" (exit_code (backend "backend-cleanup" ["cleanup"; run_id] false (Some 60)));
  l ← gets sg_finalizer_errors;
  match l with
  | [] => mret tt
  | _ => modify (join_error (String.concat "; " l))
  end.

(** The evaluation and the exit status. *)
Definition report (documents : evidence) : M stage (option (list (string * bool))) :=
  s ← gets (fun s => s);
  match evaluate documents s.(sg_load_exit) s.(sg_audit_exit) s.(sg_admission_exit) with
  | Raise e => raise e
  | Ok gates =>
      let gates := gates ++ [("execution_and_cleanup", bool_decide (s.(sg_error) = None))] in
      _ ← local "stage-result.json";
      if match s.(sg_error) with Some e => negb (bool_decide (e = "")) | None => false end || negb (forallb snd gates)
      then raise (PyError "SystemExit" "1")
      else mret (Some gates)
  end.

(** [main()] after the arguments are parsed.  [documents] are the files found once the finalizers ran. *)
Definition main (documents : evidence) : M stage (option (list (string * bool))) :=
  match validate_args a with
  | Raise e => raise e
  | Ok _ =>
      if a.(sa_dry_run) then mret None
      else
        _ ← local "mkdir output";
        _ ← local "mkdir operator-logs";
        _ ← finally stage_body finalizers;
        report documents
  end.
End stage.
