(* ===== verification/StageFacts.v ===== *)
(** * The capacity stage cleans up after itself

    Whatever fails during a stage, the finalizers send the named hosts the commands that stop the load and
    the observers, roll the deployment back and clean up, and a failure of one of them is an error of the
    stage; a stage exits with success only when every gate holds and every phase completed;
    and the polling loop ends by its deadline. *)

From stdpp Require Import pretty.
From S2P Require Import Prelude CapacityStage.

#[local] Open Scope Z_scope.

Definition called (phase : string) (s : stage) : Prop := phase ∈ phase_of <$> s.(sg_calls).

(** A concrete list without the phase. *)
Ltac absent H := exfalso; unfold called in H; csimpl in H; apply (bool_decide_eq_true_2 _) in H; vm_compute in H; discriminate H.

Lemma called_log phase c n s : called phase (log_call c n s) <-> called phase s \/ phase = phase_of c.
Proof. unfold called. simpl. rewrite fmap_app, elem_of_app. simpl. by rewrite list_elem_of_singleton. Qed.

(** [always P m s]: [P] holds after [m] from [s], whether [m] returns or raises. *)
Definition always {A} (P : stage -> Prop) (m : M stage A) (s : stage) : Prop := P (m s).1.

Lemma afterwards_bind {A B} P (m : M stage A) (f : A -> M stage B) s :
  always P m s -> (forall x s', m s = (s', Ok x) -> P s' -> always P (f x) s') -> always P (m ≫= f) s.
Proof. unfold always, mbind, M_bind. destruct (m s) as [s' [x|e]]; simpl; eauto. Qed.

Lemma afterwards_try {A} P (m : M stage A) h s :
  always P m s -> (forall e s', P s' -> always P (h e) s') -> always P (try_except m h) s.
Proof. unfold always, try_except. destruct (m s) as [s' [x|e]]; simpl; eauto. Qed.

Lemma afterwards_finally {A} P (m : M stage A) f s :
  always P m s -> (forall s', P s' -> always P f s') -> always P (finally m f) s.
Proof.
  unfold always, finally. destruct (m s) as [s1 r]. simpl. intros H1 H2. specialize (H2 s1 H1).
  by destruct (f s1) as [s2 []].
Qed.

Lemma afterwards_raise_if P b e s : P s -> always P (raise_if b e) s.
Proof. by destruct b. Qed.

Section stage_facts.
Context (a : stage_args) (run_id : string) (redact : string -> string) (repr : exn -> string) (show_ms : Z -> string)
  (status_of : string -> job_status) (worker_files : nat -> bool * Z) (world : call -> nat -> answer).

(** The call returned, and a command or a copy with exit code 0. *)
Definition worked (c : call) (n : nat) : Prop :=
  (world c n).(an_raised) = None /\ match c with Local _ => True | _ => (world c n).(an_returncode) = 0 end.

(** One of the calls is of the phase and worked. *)
Definition returned (phase : string) (calls : list call) : Prop :=
  exists k c, calls !! k = Some c /\ phase_of c = phase /\ worked c k.

(** The flags that the finalizers test cover the calls they undo. *)
Definition covered (s : stage) : Prop :=
  (called "deploy" s -> s.(sg_deployed) = true)
  /\ (called "load-start" s -> s.(sg_load_start_attempted) = true)
  /\ (returned "observe" s.(sg_calls) -> s.(sg_observers) = true \/ returned "stop-observers" s.(sg_calls)).

(** The phase may be called now without losing [covered]. *)
Definition permitted (phase : string) (s : stage) : Prop :=
  (phase = "deploy" -> s.(sg_deployed) = true) /\ (phase = "load-start" -> s.(sg_load_start_attempted) = true) /\ phase <> "observe".

Lemma returned_snoc phase l c :
  returned phase (l ++ [c]) <-> returned phase l \/ (phase_of c = phase /\ worked c (length l)).
Proof.
  unfold returned. split.
  - intros (k & c' & Hk & Hp & Hw). apply lookup_app_Some in Hk as [Hk|[Hle Hk]]; [left; by exists k, c'|].
    apply list_lookup_singleton_Some in Hk as [Hk <-]. right. by replace (length l) with k by lia.
  - intros [(k & c' & Hk & Hp & Hw)|[Hp Hw]].
    + exists k, c'. split; [|done]. by apply lookup_app_l_Some.
    + exists (length l), c. by rewrite list_lookup_middle.
Qed.

Lemma covered_log c n s : covered s -> permitted (phase_of c) s -> covered (log_call c n s).
Proof.
  intros (H1 & H2 & H3) (P1 & P2 & P3). split_and!; [rewrite called_log; intros [H|H]; simpl; auto..|].
  simpl. rewrite !returned_snoc. intros [H|[H _]]; [|done]. destruct (H3 H); auto.
Qed.

Lemma covered_empty now : covered (empty_stage now).
Proof. split_and!; [intros H; absent H..|]. by intros (k & c & Hk & _). Qed.

Lemma perform_covered c s : covered s -> permitted (phase_of c) s -> always covered (perform world c) s.
Proof. intros Hs Hp. unfold always, perform. destruct (an_raised _); by apply covered_log. Qed.

Lemma remote_covered phase host argv check timeout s :
  covered s -> permitted phase s -> always covered (remote world phase host argv check timeout) s.
Proof.
  intros Hs Hp. unfold remote. apply afterwards_bind; [by apply perform_covered|]. intros r s1 _ H1.
  apply afterwards_bind; [by apply afterwards_raise_if|]. intros _ s2 _ H2. exact H2.
Qed.

Lemma copied_covered phase c s : covered s -> permitted (phase_of c) s -> always covered (copied world phase c) s.
Proof.
  intros Hs Hp. unfold copied. apply afterwards_bind; [by apply perform_covered|]. intros r s1 _ H1. by apply afterwards_raise_if.
Qed.

Lemma local_covered op s : covered s -> permitted op s -> always covered (local world op) s.
Proof. intros Hs Hp. unfold local. apply afterwards_bind; [by apply perform_covered|]. done. Qed.

Lemma sleep_covered d s : covered s -> always covered (sleep world d) s.
Proof. intros Hs. unfold sleep. apply afterwards_bind; [|done]. apply perform_covered; [done|]. by split. Qed.

Lemma checkpoint_covered phase s : covered s -> always covered (checkpoint world phase) s.
Proof.
  intros Hs. unfold checkpoint. apply afterwards_bind; [exact Hs|]. intros [] s1 _ H1. apply local_covered; [done|]. by split_and!.
Qed.

Ltac covered_step :=
  lazymatch goal with
  | |- always covered (_ ≫= _) _ => apply afterwards_bind; [|let H := fresh in intros ? ? H ?]
  | |- always covered (finally _ _) _ => apply afterwards_finally; [|intros ? ?]
  | |- always covered (try_except _ _) _ => apply afterwards_try; [|intros ? ? ?]
  | |- always covered (mret _) _ => assumption
  | |- always covered (raise _) _ => assumption
  | |- always covered (gets _) _ => assumption
  | |- always covered (raise_if _ _) _ => by apply afterwards_raise_if
  | |- always covered (modify _) _ => assumption
  | |- always covered (checkpoint _ _) _ => by apply checkpoint_covered
  | |- always covered (sleep _ _) _ => by apply sleep_covered
  | |- always covered (local _ _) _ => apply local_covered; [assumption|by split_and!]
  | |- always covered (copy_from _ _ _ _) _ => apply copied_covered; [assumption|by split_and!]
  | |- always covered (copy_to _ _ _ _) _ => apply copied_covered; [assumption|by split_and!]
  | |- always covered (remote _ _ _ _ _ _) _ => apply remote_covered; [assumption|by split_and!]
  | |- always covered (backend _ _ _ _ _ _) _ => apply remote_covered; [assumption|by split_and!]
  | |- always covered (CapacityStage.generator _ _ _ _ _ _) _ => apply remote_covered; [assumption|by split_and!]
  | |- always covered (match ?x with _ => _ end) _ => destruct x
  | |- always covered (let _ := _ in _) _ => cbv zeta
  end.

Lemma poll_covered fuel deadline s : covered s -> always covered (poll a run_id status_of world fuel deadline) s.
Proof.
  revert s. induction fuel as [|fuel IH]; intros s Hs; simpl; [exact Hs|].
  repeat covered_step; try (by apply IH).
Qed.

Lemma match_revisions_covered s : covered s -> always covered (match_revisions a world) s.
Proof. intros Hs. unfold match_revisions. repeat covered_step. Qed.

Lemma deploy_covered s : covered s -> always covered (deploy a run_id world) s.
Proof.
  intros (H1 & H2 & H3). unfold deploy. apply afterwards_bind; [by split_and!|]. intros [] s1 [= <-] Hs1.
  apply afterwards_bind; [apply remote_covered; [done|by split_and!]|]. intros r s2 _ Hs2. by apply checkpoint_covered.
Qed.

(** The observers' flag is set once the command that starts them has returned. *)
Lemma observe_covered {A} host argv timeout (m : M stage A) s :
  covered s -> (forall s', covered s' -> always covered m s') ->
  always covered (_ ← remote world "observe" host argv true timeout; _ ← modify (set_observers true); m) s.
Proof.
  intros (H1 & H2 & H3) Hm. unfold always, remote, perform, mbind, M_bind. set (c := Remote _ _ _ _). simpl.
  assert (~ worked c (length (sg_calls s)) -> covered (log_call c (an_elapsed (world c (length (sg_calls s)))) s)) as Hno.
  { intros Hw. split_and!; [rewrite called_log; intros [H|[=]]; by auto..|]. simpl. rewrite !returned_snoc.
    intros [H|[_ H]]; [|done]. destruct (H3 H); auto. }
  unfold worked in Hno. destruct (an_raised _) as [e|]; simpl; [apply Hno; by intros [? _]|].
  destruct (an_returncode _ =? 0) eqn:Hrc; simpl; [|apply Hno; intros [_ ?]; by apply Z.eqb_neq in Hrc].
  apply Hm. split_and!; [intros Hc; apply (called_log _ c (an_elapsed (world c (length (sg_calls s)))) s) in Hc as [H|[=]]; by auto..|]. by left.
Qed.

(** It is cleared once the command that stops them has exited with 0. *)
Lemma stop_observers_covered host argv timeout s :
  covered s ->
  always covered (stopped ← remote world "stop-observers" host argv false timeout;
    if negb (stopped.(an_returncode) =? 0)
    then modify (join_error ("stop-observers failed with exit code " +:+ pretty stopped.(an_returncode)))
    else modify (set_observers false)) s.
Proof.
  intros Hs. unfold always, remote, perform, mbind, M_bind. set (c := Remote _ _ _ _). simpl.
  pose proof (covered_log c (an_elapsed (world c (length (sg_calls s)))) s Hs ltac:(by split_and!)) as Hl.
  destruct (an_raised _) as [e|] eqn:He; simpl; [exact Hl|]. destruct (an_returncode _ =? 0) eqn:Hrc; simpl.
  - destruct Hl as (H1 & H2 & _). split_and!; [exact H1|exact H2|]. intros _. right. apply returned_snoc. right.
    split; [done|]. split; [done|]. by apply Z.eqb_eq.
  - unfold join_error. destruct (sg_error _); [case_bool_decide|]; exact Hl.
Qed.

Lemma prepare_covered s : covered s -> always covered (prepare a run_id world) s.
Proof.
  intros Hs. unfold prepare. unfold backend at 3.
  repeat first [apply observe_covered; [assumption|intros ? ?]|covered_step].
Qed.

Lemma load_covered s : covered s -> always covered (load a run_id redact repr show_ms status_of world) s.
Proof.
  intros (H1 & H2 & H3). unfold load. apply afterwards_bind; [by split_and!|]. intros [] s1 [= <-] Hs1.
  apply afterwards_finally.
  - apply afterwards_try; [|intros e s' Hs'; repeat covered_step].
    apply afterwards_bind; [apply remote_covered; [done|by split_and!]|]. intros r s2 _ Hs2.
    covered_step; [covered_step|]. by apply poll_covered.
  - intros s' Hs'. repeat covered_step.
Qed.

Lemma collect_covered s : covered s -> always covered (collect a run_id worker_files world) s.
Proof.
  intros Hs. unfold collect. unfold backend at 3.
  repeat first [by apply stop_observers_covered|covered_step].
Qed.

Lemma stage_body_covered s :
  covered s -> always covered (stage_body a run_id redact repr show_ms status_of worker_files world) s.
Proof.
  intros Hs. unfold stage_body. apply afterwards_try; [|intros e s' Hs'; repeat covered_step].
  apply afterwards_bind; [by apply match_revisions_covered|]. intros [] s1 _ H1.
  apply afterwards_bind; [by apply deploy_covered|]. intros [] s2 _ H2.
  apply afterwards_bind; [by apply prepare_covered|]. intros [] s3 _ H3.
  apply afterwards_bind; [by apply load_covered|]. intros [] s4 _ H4. by apply collect_covered.
Qed.

(** ** The finalizers *)

Definition finalizer_phases : list string :=
  ["load-stop-finally"; "stop-observers-finally"; "rollback"; "backend-evidence"; "generator-cleanup"; "backend-cleanup"].

(** An operation that performs exactly the call [c], raises only what [finish] catches, and returns 0 only
    if the call worked. *)
Definition performs (c : call) (op : M stage Z) : Prop :=
  forall s, (op s).1 = log_call c (world c (length s.(sg_calls))).(an_elapsed) s
    /\ (forall e, (op s).2 = Raise e -> finish_catches e = true)
    /\ ((op s).2 = Ok 0 -> worked c (length s.(sg_calls))).

(** From [s] to [s'] the calls [l] were made; the flags are as they were; and if no finalizer has failed,
    all of the calls worked. *)
Record made (l : list call) (s s' : stage) : Prop := Made {
  md_calls : s'.(sg_calls) = s.(sg_calls) ++ l;
  md_deployed : s'.(sg_deployed) = s.(sg_deployed);
  md_observers : s'.(sg_observers) = s.(sg_observers);
  md_load : s'.(sg_load_start_attempted) = s.(sg_load_start_attempted);
  md_worked : s'.(sg_finalizer_errors) = [] -> s.(sg_finalizer_errors) = [] /\
    forall k c, l !! k = Some c -> worked c (length s.(sg_calls) + k);
}.

Lemma made_nil s : made [] s s.
Proof. split; [by rewrite app_nil_r|done..]. Qed.

Lemma made_app l1 l2 s1 s2 s3 : made l1 s1 s2 -> made l2 s2 s3 -> made (l1 ++ l2) s1 s3.
Proof.
  intros [C1 D1 O1 L1 W1] [C2 D2 O2 L2 W2]. split; [by rewrite C2, C1, app_assoc|congruence..|].
  intros He. destruct (W2 He) as [He2 H2]. destruct (W1 He2) as [He1 H1]. split; [done|]. intros k c.
  rewrite lookup_app_Some. intros [Hk|[Hle Hk]]; [by apply H1|].
  apply H2 in Hk. rewrite C1, length_app in Hk. replace (length (sg_calls s1) + k)%nat with (length (sg_calls s1) + length l1 + (k - length l1))%nat by lia. exact Hk.
Qed.

(** [finish] returns after the call. *)
Lemma finish_performs label c op s :
  performs c op -> exists s', finish redact repr label op s = (s', Ok tt) /\ made [c] s s'.
Proof.
  intros Hop. destruct (Hop s) as (H1 & H2 & H3). unfold finish, try_except, mbind, M_bind.
  assert (forall k c', [c] !! k = Some c' -> worked c (length (sg_calls s)) -> worked c' (length (sg_calls s) + k)) as Hone.
  { intros [|k] c' Hk Hw; [|by destruct k]. injection Hk as <-. by rewrite Nat.add_0_r. }
  assert (forall e, sg_finalizer_errors s ++ [e] <> []) as Hsnoc by (intros e He%(f_equal length); rewrite length_app in He; simpl in He; lia).
  destruct (op s) as [s1 [n|e]]; simpl in *; subst s1.
  - destruct (n =? 0) eqn:Hn; simpl; eexists; (split; [done|]); split; try done.
    + apply Z.eqb_eq in Hn as ->. intros He. split; [done|]. intros k c' Hk. by apply Hone, H3.
    + intros He. by apply Hsnoc in He.
  - rewrite (H2 e eq_refl). eexists. split; [done|]. split; try done. intros He. by apply Hsnoc in He.
Qed.

Context (Htame : forall c n e, phase_of c ∈ finalizer_phases -> (world c n).(an_raised) = Some e -> finish_catches e = true).

Lemma remote_performs phase host argv timeout :
  phase ∈ finalizer_phases -> performs (Remote phase host argv timeout) (exit_code (remote world phase host argv false timeout)).
Proof.
  intros Hp s. unfold worked, exit_code, remote, perform, mbind, M_bind. simpl.
  set (c := Remote phase host argv timeout). destruct (an_raised _) as [e|] eqn:He; simpl.
  - split_and!; [done| |done]. intros e' [= <-]. by apply (Htame c _ _ Hp) in He.
  - split_and!; [done|done|]. by intros [= ->].
Qed.

Lemma copy_performs phase host path :
  phase ∈ finalizer_phases -> performs (CopyFrom phase host path) (_ ← copy_from world phase host path; mret 0).
Proof.
  intros Hp s. unfold worked, copy_from, copied, perform, mbind, M_bind. simpl.
  set (c := CopyFrom phase host path). destruct (an_raised _) as [e|] eqn:He; simpl.
  - split_and!; [done| |done]. intros e' [= <-]. by apply (Htame c _ _ Hp) in He.
  - destruct (an_returncode _ =? 0) eqn:Hrc; simpl; [split_and!; [done|done|]; by apply Z.eqb_eq in Hrc|].
    split_and!; [done| |done]. by intros e' [= <-].
Qed.

(** A conditional finalizer: run when its flag is set, skipped otherwise. *)
Lemma when_performs flag label c op s :
  performs c op ->
  exists s', when flag (finish redact repr label op) s = (s', Ok tt) /\ made (if flag s then [c] else []) s s'.
Proof.
  intros Hop. unfold when. destruct (flag s); [by apply finish_performs|]. exists s. split; [done|apply made_nil].
Qed.

Context (Hdir : forall n, (world (Local "mkdir backend") n).(an_raised) = None).

Lemma local_dir s : exists s', local world "mkdir backend" s = (s', Ok tt) /\ made [Local "mkdir backend"] s s'.
Proof.
  unfold local, perform, mbind, M_bind. rewrite Hdir. eexists. split; [done|]. split; try done. intros He. split; [done|].
  intros [|k] c Hk; [|by destruct k]. injection Hk as <-. by split.
Qed.

(** The calls of the finalizers: which host is asked to run which command, in order. *)
Definition cleanup_calls (stop observers rollback : bool) : list call :=
  (if stop then [Remote "load-stop-finally" a.(sa_generator_host) (generator_prefix a ++ ["stop"; run_id]) (Some 30)] else []) ++
  (if observers then [Remote "stop-observers-finally" a.(sa_backend_host) (backend_prefix a ++ ["stop-observers"; run_id]) (Some 60)] else []) ++
  (if rollback then [Remote "rollback" a.(sa_backend_host) (backend_prefix a ++ ["rollback"; run_id]) (Some 300)] else []) ++
  [Local "mkdir backend";
   CopyFrom "backend-evidence" a.(sa_backend_host) (a.(sa_backend_dir) +:+ "/tmp/unattended-" +:+ run_id +:+ "/public");
   Remote "generator-cleanup" a.(sa_generator_host) (generator_prefix a ++ ["cleanup"; run_id]) (Some 30);
   Remote "backend-cleanup" a.(sa_backend_host) (backend_prefix a ++ ["cleanup"; run_id]) (Some 60)].

Lemma finalizers_run s :
  let l := cleanup_calls s.(sg_load_start_attempted) s.(sg_observers) s.(sg_deployed) in
  exists s', finalizers a run_id redact repr world s = (s', Ok tt) /\ s'.(sg_calls) = s.(sg_calls) ++ l
    /\ (s'.(sg_error) = None -> forall k c, l !! k = Some c -> worked c (length s.(sg_calls) + k)).
Proof.
  cbv zeta. unfold finalizers, CapacityStage.generator, backend.
  destruct (when_performs sg_load_start_attempted "generator stop" _ _ s (remote_performs "load-stop-finally"
    (sa_generator_host a) (generator_prefix a ++ ["stop"; run_id]) (Some 30) ltac:(set_solver))) as (s1 & E1 & M1).
  destruct (when_performs sg_observers "stop observers" _ _ s1 (remote_performs "stop-observers-finally"
    (sa_backend_host a) (backend_prefix a ++ ["stop-observers"; run_id]) (Some 60) ltac:(set_solver))) as (s2 & E2 & M2).
  destruct (when_performs sg_deployed "rollback" _ _ s2 (remote_performs "rollback"
    (sa_backend_host a) (backend_prefix a ++ ["rollback"; run_id]) (Some 300) ltac:(set_solver))) as (s3 & E3 & M3).
  destruct (local_dir s3) as (s4 & E4 & M4).
  destruct (finish_performs "collect backend evidence" _ _ s4 (copy_performs "backend-evidence" (sa_backend_host a)
    (sa_backend_dir a +:+ "/tmp/unattended-" +:+ run_id +:+ "/public") ltac:(set_solver))) as (s5 & E5 & M5).
  destruct (finish_performs "generator cleanup" _ _ s5 (remote_performs "generator-cleanup"
    (sa_generator_host a) (generator_prefix a ++ ["cleanup"; run_id]) (Some 30) ltac:(set_solver))) as (s6 & E6 & M6).
  destruct (finish_performs "backend cleanup" _ _ s6 (remote_performs "backend-cleanup"
    (sa_backend_host a) (backend_prefix a ++ ["cleanup"; run_id]) (Some 60) ltac:(set_solver))) as (s7 & E7 & M7).
  rewrite (bind_ok _ _ _ _ _ E1), (bind_ok _ _ _ _ _ E2), (bind_ok _ _ _ _ _ E3), (bind_ok _ _ _ _ _ E4),
    (bind_ok _ _ _ _ _ E5), (bind_ok _ _ _ _ _ E6), (bind_ok _ _ _ _ _ E7).
  rewrite (md_observers _ _ _ M1) in M2. rewrite (md_deployed _ _ _ M2), (md_deployed _ _ _ M1) in M3.
  pose proof (made_app _ _ _ _ _ M1 (made_app _ _ _ _ _ M2 (made_app _ _ _ _ _ M3 (made_app _ _ _ _ _ M4
    (made_app _ _ _ _ _ M5 (made_app _ _ _ _ _ M6 M7)))))) as [C _ _ _ Hw]. simpl in C, Hw.
  unfold mbind, M_bind. simpl. destruct (sg_finalizer_errors s7) as [|e es] eqn:Hfe.
  - exists s7. split_and!; [done|exact C|]. intros _. by apply Hw.
  - eexists. split; [done|]. split; [unfold join_error; destruct (sg_error s7); [case_bool_decide|]; exact C|].
    intros He. exfalso. revert He. unfold join_error. destruct (sg_error s7); [case_bool_decide|]; done.
Qed.

(** What [main] does once the output directories exist. *)
Lemma guarded_stage s1 :
  covered s1 ->
  exists s2 s3 r, finally (stage_body a run_id redact repr show_ms status_of worker_files world)
      (finalizers a run_id redact repr world) s1 = (s3, r)
    /\ covered s2
    /\ s3.(sg_calls) = s2.(sg_calls) ++ cleanup_calls s2.(sg_load_start_attempted) s2.(sg_observers) s2.(sg_deployed)
    /\ (s3.(sg_error) = None -> forall k c,
          cleanup_calls s2.(sg_load_start_attempted) s2.(sg_observers) s2.(sg_deployed) !! k = Some c -> worked c (length s2.(sg_calls) + k)).
Proof.
  intros Hs1. pose proof (stage_body_covered s1 Hs1) as Hc. unfold always in Hc. unfold finally.
  destruct (stage_body _ _ _ _ _ _ _ _ s1) as [s2 r]. destruct (finalizers_run s2) as (s3 & E & C & W).
  rewrite E. by exists s2, s3, r.
Qed.

(** A call to one of the hosts. *)
Definition on_host (c : call) : bool := match c with Local _ | Sleep _ => false | _ => true end.

(** What the report adds: at most the file of the result, and a result of success only without an error. *)
Lemma report_adds documents s s' r :
  report world documents s = (s', r) ->
  s'.(sg_error) = s.(sg_error) /\ (s'.(sg_calls) = s.(sg_calls) \/ s'.(sg_calls) = s.(sg_calls) ++ [Local "stage-result.json"])
  /\ forall gates, r = Ok (Some gates) -> s.(sg_error) = None.
Proof.
  unfold report, mbind at 1, M_bind. simpl. destruct (evaluate _ _ _ _) as [gates|e]; [|intros [= <- <-]; split_and!; auto; done].
  unfold local, perform, mbind, M_bind. destruct (an_raised _); [intros [= <- <-]; split_and!; auto; done|]. simpl.
  destruct (_ || _) eqn:Hb; intros [= <- <-]; (split_and!; auto; try done). intros g [= <-]. bool_hyps.
  match goal with H : forallb _ _ = true |- _ => rewrite forallb_app in H; apply andb_true_iff in H as [_ Herr] end.
  simpl in Herr. rewrite andb_true_r in Herr. by apply bool_decide_eq_true in Herr.
Qed.

(** C40: once a capacity stage has called a host, however it goes on (an interrupt included) it ends with the clean-up
    calls, in this order, to the named hosts with the named commands: stop the load on the generator if it tried to
    start it; stop the observers on the backend if they were started and not stopped; roll the backend back if it tried to deploy; fetch the
    backend's evidence; and run the clean-up command on the generator and on the backend.  If the stage
    records no error, each of these calls returned and each command exited with 0; and a stage that recorded an
    error does not report success.  The conditions: the clean-up calls themselves fail only with errors that
    [finish] records, and the evidence directory can be made. *)
Theorem stage_cleans_up documents now s r :
  main a run_id redact repr show_ms status_of worker_files world documents (empty_stage now) = (s, r) ->
  (exists c, c ∈ s.(sg_calls) /\ on_host c = true) ->
  exists before stop observers rollback rest,
    s.(sg_calls) = before ++ cleanup_calls stop observers rollback ++ rest
    /\ (rest = [] \/ rest = [Local "stage-result.json"])
    /\ (forall c, c ∈ before -> phase_of c = "load-start" -> stop = true)
    /\ (forall c, c ∈ before -> phase_of c = "deploy" -> rollback = true)
    /\ (returned "observe" before -> observers = true \/ returned "stop-observers" before)
    /\ (s.(sg_error) = None -> forall k c, cleanup_calls stop observers rollback !! k = Some c ->
          worked c (length before + k))
    /\ (s.(sg_error) <> None -> forall gates, r <> Ok (Some gates)).
Proof.
  unfold main. destruct (validate_args a); [|by intros [= <- <-] (c & Hc%not_elem_of_nil & _)].
  destruct (sa_dry_run a); [by intros [= <- <-] (c & Hc%not_elem_of_nil & _)|].
  pose proof guarded_stage as Hg. set (G := finally _ _) in *. clearbody G.
  unfold local, perform, mbind, M_bind. simpl.
  destruct (an_raised (world (Local "mkdir output") 0)) as [e|].
  { intros [= <- <-] (c & Hc & Hh). simpl in Hc. apply list_elem_of_singleton in Hc as ->. done. }
  simpl. destruct (an_raised (world (Local "mkdir operator-logs") 1)) as [e|].
  { intros [= <- <-] (c & Hc & Hh). simpl in Hc. apply elem_of_cons in Hc as [->|Hc]; [done|]. by apply list_elem_of_singleton in Hc as ->. }
  simpl. match goal with |- context [G ?s0] => destruct (Hg s0) as (s2 & s3 & r3 & E & Hc & C & W); [by repeat (apply covered_log; [|by split_and!]); apply covered_empty|] end.
  rewrite E. intros Hmain _.
  assert (s.(sg_error) = s3.(sg_error) /\ (s.(sg_calls) = s3.(sg_calls) \/ s.(sg_calls) = s3.(sg_calls) ++ [Local "stage-result.json"])
    /\ forall gates, r = Ok (Some gates) -> s3.(sg_error) = None) as (He & Hcalls & Hok).
  { destruct r3 as [[]|e]; [by apply report_adds in Hmain|]. injection Hmain as <- <-. split_and!; auto; done. }
  assert (exists rest, s.(sg_calls) = s3.(sg_calls) ++ rest /\ (rest = [] \/ rest = [Local "stage-result.json"])) as (rest & Hrest & Hor).
  { destruct Hcalls as [->| ->]; [exists []; rewrite app_nil_r|eexists]; auto. }
  exists s2.(sg_calls), s2.(sg_load_start_attempted), s2.(sg_observers), s2.(sg_deployed), rest.
  split_and!; [by rewrite Hrest, C, <-app_assoc|done|..|apply Hc| |].
  - intros c Hin Hp. apply Hc. unfold called. rewrite <-Hp. by apply list_elem_of_fmap_2.
  - intros c Hin Hp. apply Hc. unfold called. rewrite <-Hp. by apply list_elem_of_fmap_2.
  - intros Hn. rewrite He in Hn. exact (W Hn).
  - intros Hn gates Hr. by rewrite He, (Hok gates Hr) in Hn.
Qed.
End stage_facts.

(** ** Success *)

(** A step that added [names] to the completed phases, or left an error behind. *)
Definition done_phases (names : list string) (s s' : stage) : Prop :=
  s'.(sg_error) = None -> s.(sg_error) = None /\ s'.(sg_completed) = s.(sg_completed) ++ names.

Lemma done_phases_trans l1 l2 s1 s2 s3 :
  done_phases l1 s1 s2 -> done_phases l2 s2 s3 -> done_phases (l1 ++ l2) s1 s3.
Proof.
  intros H1 H2 He. destruct (H2 He) as [He2 Hc2]. destruct (H1 He2) as [He1 Hc1].
  split; [done|]. by rewrite Hc2, Hc1, app_assoc.
Qed.

Lemma join_error_some reason s : (join_error reason s).(sg_error) <> None.
Proof. unfold join_error. destruct (sg_error s); [case_bool_decide|]; done. Qed.

Lemma wpx_of_wp {A} (m : M stage A) Q E s : wp m Q s -> (forall e s', E e s') -> wpx m Q E s.
Proof. intros Hm HE. eapply wpx_mono; [exact Hm|done|auto]. Qed.

Lemma wp_finally {A} (m : M stage A) f Q s :
  wp m (fun x s1 => wp f (fun _ s2 => Q x s2) s1) s -> wp (finally m f) Q s.
Proof.
  unfold wp, wpx, finally. destruct (m s) as [s1 [x|e]]; destruct (f s1) as [s2 []]; done.
Qed.

Lemma wp_always {A} (P : stage -> Prop) (m : M stage A) s : always P m s -> wp m (fun _ => P) s.
Proof. unfold always, wp, wpx. by destruct (m s) as [s' []]. Qed.

Section success.
Context (a : stage_args) (run_id : string) (redact : string -> string) (repr : exn -> string) (show_ms : Z -> string)
  (status_of : string -> job_status) (worker_files : nat -> bool * Z) (world : call -> nat -> answer).

Lemma wp_perform c (Q : answer -> stage -> Prop) s : (forall r n, Q r (log_call c n s)) -> wp (perform world c) Q s.
Proof. intros HQ. unfold wp, wpx, perform. destruct (an_raised _); [done|apply HQ]. Qed.

Lemma wp_remote phase host argv check timeout (Q : answer -> stage -> Prop) s :
  (forall r n, Q r (log_call (Remote phase host argv timeout) n s)) -> wp (remote world phase host argv check timeout) Q s.
Proof. intros HQ. unfold remote. wp_steps. apply wp_perform. intros r n. wp_steps. apply HQ. Qed.

Lemma wp_copied phase c (Q : unit -> stage -> Prop) s : (forall n, Q tt (log_call c n s)) -> wp (copied world phase c) Q s.
Proof. intros HQ. unfold copied. wp_steps. apply wp_perform. intros r n. wp_steps. apply HQ. Qed.

Lemma wp_local op (Q : unit -> stage -> Prop) s : (forall n, Q tt (log_call (Local op) n s)) -> wp (local world op) Q s.
Proof. intros HQ. unfold local. wp_steps. apply wp_perform. intros r n. wp_steps. apply HQ. Qed.

Lemma wp_sleep d (Q : unit -> stage -> Prop) s : (forall n, Q tt (log_call (Sleep d) n s)) -> wp (sleep world d) Q s.
Proof. intros HQ. unfold sleep. wp_steps. apply wp_perform. intros r n. wp_steps. apply HQ. Qed.

Lemma wp_checkpoint phase (Q : unit -> stage -> Prop) s :
  (forall c n, Q tt (log_call c n (set_completed phase s))) -> wp (checkpoint world phase) Q s.
Proof. intros HQ. unfold checkpoint. wp_steps. apply wp_local. auto. Qed.

Ltac stage_step :=
  lazymatch goal with
  | |- wp (checkpoint _ _) _ _ => apply wp_checkpoint; intros ? ?
  | |- wp (sleep _ _) _ _ => apply wp_sleep; intros ?
  | |- wp (local _ _) _ _ => apply wp_local; intros ?
  | |- wp (copy_from _ _ _ _) _ _ => apply wp_copied; intros ?
  | |- wp (copy_to _ _ _ _) _ _ => apply wp_copied; intros ?
  | |- wp (remote _ _ _ _ _ _) _ _ => apply wp_remote; intros ? ?
  | |- wp (backend _ _ _ _ _ _) _ _ => apply wp_remote; intros ? ?
  | |- wp (CapacityStage.generator _ _ _ _ _ _) _ _ => apply wp_remote; intros ? ?
  | |- wp (finally _ _) _ _ => apply wp_finally
  | _ => wp_step
  end.
Ltac stage_steps := repeat (stage_step; cbv beta).

Lemma match_revisions_done s : wp (match_revisions a world) (fun _ => done_phases ["revisions_matched"] s) s.
Proof. unfold match_revisions. stage_steps. by intros ?. Qed.

Lemma deploy_done s : wp (deploy a run_id world) (fun _ => done_phases ["deployed"] s) s.
Proof. unfold deploy. stage_steps. by intros ?. Qed.

Lemma prepare_done s :
  wp (prepare a run_id world) (fun _ => done_phases ["prepared"; "manifest_transferred"; "preflight_passed"; "observers_started"] s) s.
Proof. unfold prepare. stage_steps. intros ?. simpl in *. by rewrite <-!app_assoc. Qed.

Lemma poll_done fuel deadline s : wp (poll a run_id status_of world fuel deadline) (fun _ => done_phases ["load_finished"] s) s.
Proof.
  revert s. induction fuel as [|fuel IH]; intros s; simpl; [done|]. stage_steps; try done.
  eapply wp_mono; [apply IH|]. done.
Qed.

Lemma load_done s :
  wp (load a run_id redact repr show_ms status_of world) (fun _ => done_phases ["load_finished"] s) s.
Proof.
  unfold load. stage_step. stage_step. cbv beta. stage_step.
  apply wp_try_except, wpx_of_wp.
  - stage_steps. eapply wp_mono; [apply poll_done|]. intros [] s' Hs'. stage_steps. exact Hs'.
  - intros e s'. stage_steps; done.
Qed.

Lemma collect_done s :
  wp (collect a run_id worker_files world) (fun _ => done_phases ["compact_results_collected"; "audit_finished"] s) s.
Proof.
  unfold collect. stage_steps; intros He; simpl in *; [|by rewrite <-!app_assoc]. by apply join_error_some in He.
Qed.

Definition all_phases : list string :=
  ["revisions_matched"; "deployed"; "prepared"; "manifest_transferred"; "preflight_passed"; "observers_started";
   "load_finished"; "compact_results_collected"; "audit_finished"].

Lemma stage_body_done s :
  wp (stage_body a run_id redact repr show_ms status_of worker_files world) (fun _ => done_phases all_phases s) s.
Proof.
  unfold stage_body. apply wp_try_except, wpx_of_wp; [|intros e s'; stage_steps; done].
  apply wp_bind. eapply wp_mono; [apply match_revisions_done|]. intros [] s1 H1.
  apply wp_bind. eapply wp_mono; [apply deploy_done|]. intros [] s2 H2.
  apply wp_bind. eapply wp_mono; [apply prepare_done|]. intros [] s3 H3.
  apply wp_bind. eapply wp_mono; [apply load_done|]. intros [] s4 H4.
  eapply wp_mono; [apply collect_done|]. intros [] s5 H5.
  apply (done_phases_trans ["revisions_matched"] _ s s1 s5 H1), (done_phases_trans ["deployed"] _ s1 s2 s5 H2).
  apply (done_phases_trans _ _ s2 s3 s5 H3), (done_phases_trans ["load_finished"] _ s3 s4 s5 H4 H5).
Qed.

(** The finalizers report through [finalizer_errors] only, until they join them to the error. *)
Definition same_progress (s s' : stage) : Prop := s'.(sg_completed) = s.(sg_completed) /\ s'.(sg_error) = s.(sg_error).

Lemma perform_quiet c s0 s : same_progress s0 s -> always (same_progress s0) (perform world c) s.
Proof. intros Hs. unfold always, perform. by destruct (an_raised _). Qed.

Lemma exit_code_quiet phase host argv timeout s0 s :
  same_progress s0 s -> always (same_progress s0) (exit_code (remote world phase host argv false timeout)) s.
Proof.
  intros Hs. unfold exit_code, remote. apply afterwards_bind; [|done].
  apply afterwards_bind; [by apply perform_quiet|]. intros r s1 _ H1. apply afterwards_bind; [by apply afterwards_raise_if|]. done.
Qed.

Lemma copy_quiet phase host path s0 s :
  same_progress s0 s -> always (same_progress s0) (_ ← copy_from world phase host path; mret 0) s.
Proof.
  intros Hs. apply afterwards_bind; [|done]. unfold copy_from, copied.
  apply afterwards_bind; [by apply perform_quiet|]. intros. by apply afterwards_raise_if.
Qed.

Lemma finish_quiet label op s0 s :
  always (same_progress s0) op s -> always (same_progress s0) (finish redact repr label op) s.
Proof.
  intros Hop. unfold finish. apply afterwards_try.
  - apply afterwards_bind; [done|]. intros n s1 _ H1. by destruct (negb _).
  - intros e s1 H1. by destruct (finish_catches e).
Qed.

Lemma when_quiet flag m s0 s :
  same_progress s0 s -> (forall s, same_progress s0 s -> always (same_progress s0) m s) -> always (same_progress s0) (when flag m) s.
Proof. intros Hs Hm. unfold always, when. destruct (flag s); [by apply Hm|done]. Qed.

Lemma local_quiet op s0 s : same_progress s0 s -> always (same_progress s0) (local world op) s.
Proof. intros Hs. unfold local. apply afterwards_bind; [by apply perform_quiet|]. done. Qed.

Lemma finalizers_done s : wp (finalizers a run_id redact repr world) (fun _ => done_phases [] s) s.
Proof.
  unfold finalizers, CapacityStage.generator, backend.
  do 3 (apply wp_bind; eapply wp_mono;
        [apply wp_always, when_quiet; [first [eassumption|by split]|intros ? ?; by apply finish_quiet, exit_code_quiet]|];
        intros [] ? ?).
  apply wp_bind. eapply wp_mono; [by apply wp_always, local_quiet|]. intros [] ? ?.
  apply wp_bind. eapply wp_mono; [by apply wp_always, finish_quiet, copy_quiet|]. intros [] ? ?.
  do 2 (apply wp_bind; eapply wp_mono; [by apply wp_always, finish_quiet, exit_code_quiet|]; intros [] ? ?).
  wp_steps.
  - intros He. rewrite app_nil_r. destruct H5 as [H5 H5']. by rewrite <-H5'.
  - intros He. by apply join_error_some in He.
Qed.

(** The gates hold one by one when all of them do. *)
Lemma evaluate_true ev load_exit audit_exit admission_exit gates :
  evaluate ev load_exit audit_exit admission_exit = Ok gates -> forallb snd gates = true ->
  load_exit = Some 0 /\ audit_exit = Some 0 /\ admission_exit = Some 0
  /\ get "workload_gate_pass" ev.(ev_summary) = Ok (JBool true)
  /\ get "durability_and_expiry_pass" ev.(ev_durability) = Ok (JBool true)
  /\ get "pass" ev.(ev_rollback) = Ok (JBool true).
Proof.
  unfold evaluate. repeat (match goal with |- context [obind ?o _] => destruct o eqn:?; simpl; [|done] end).
  intros [= <-]. simpl. intros Hall. bool_hyps.
  repeat match goal with H : is_true ?v = true |- _ => destruct v as [|[]| | | |]; try discriminate H; clear H end.
  by split_and!.
Qed.

(** A capacity stage that exits with success completed each of its nine phases in order, recorded no
    error (of the run or of the clean-up), saw exit code 0 from the load, the admission gate and the
    audit, and has evidence in which the workload, the durability audit and the rollback all report true. *)
Theorem stage_pass_sound documents now s gates :
  main a run_id redact repr show_ms status_of worker_files world documents (empty_stage now) = (s, Ok (Some gates)) ->
  s.(sg_error) = None /\ s.(sg_completed) = all_phases
  /\ s.(sg_load_exit) = Some 0 /\ s.(sg_audit_exit) = Some 0 /\ s.(sg_admission_exit) = Some 0
  /\ get "workload_gate_pass" documents.(ev_summary) = Ok (JBool true)
  /\ get "durability_and_expiry_pass" documents.(ev_durability) = Ok (JBool true)
  /\ get "pass" documents.(ev_rollback) = Ok (JBool true).
Proof.
  intros Hrun.
  assert (Hwp : wp (main a run_id redact repr show_ms status_of worker_files world documents)
    (fun g s => g = None \/ (s.(sg_error) = None /\ s.(sg_completed) = all_phases
       /\ exists gs, evaluate documents s.(sg_load_exit) s.(sg_audit_exit) s.(sg_admission_exit) = Ok gs /\ forallb snd gs = true))
    (empty_stage now)).
  { unfold main, report. destruct (validate_args a); [|done]. destruct (sa_dry_run a); [by left|].
    stage_step. stage_step. cbv beta. stage_step. stage_step. cbv beta. apply wp_bind, wp_finally.
    eapply wp_mono; [apply stage_body_done|]. intros [] s1 H1. eapply wp_mono; [apply finalizers_done|]. intros [] s2 H2.
    pose proof (done_phases_trans _ _ _ _ _ H1 H2) as Hd.
    stage_step. stage_step. cbv beta. destruct (evaluate _ _ _ _) as [gs|e] eqn:He; [|done].
    stage_steps. right. bool_hyps.
    match goal with H : forallb snd _ = true |- _ => rewrite forallb_app in H; apply andb_true_iff in H as [Hg Herr] end.
    simpl in Herr. rewrite andb_true_r in Herr. apply bool_decide_eq_true in Herr. destruct (Hd Herr) as [_ Hc]. split_and!; [done|exact Hc|by exists gs]. }
  unfold wp, wpx in Hwp. rewrite Hrun in Hwp. destruct Hwp as [|(He & Hc & gs & Hev & Hall)]; [done|].
  pose proof (evaluate_true _ _ _ _ _ Hev Hall) as (?&?&?&?&?&?). by split_and!.
Qed.
End success.

(** ** The polling loop ends *)

Section polling.
Context (a : stage_args) (run_id : string) (status_of : string -> job_status) (world : call -> nat -> answer).

Definition out_of_fuel : exn := PyError "OutOfFuel" "".

Context (Hworld : forall c n, (world c n).(an_raised) <> Some out_of_fuel).

Lemma perform_fuel c s : (perform world c s).2 <> Raise out_of_fuel /\ s.(sg_clock) <= (perform world c s).1.(sg_clock) - match c with Sleep d => d | _ => 0 end.
Proof.
  unfold perform. pose proof (Hworld c (length (sg_calls s))) as Hw.
  destruct (an_raised _) as [e|]; simpl; split; try lia; congruence.
Qed.

(** With [fuel] covering the time left, in steps of ten seconds, the loop never runs out of it. *)
Lemma poll_fuel_enough fuel deadline s :
  (2 <= fuel)%nat -> deadline - s.(sg_clock) <= seconds 10 * (Z.of_nat fuel - 2) ->
  (poll a run_id status_of world fuel deadline s).2 <> Raise out_of_fuel.
Proof.
  revert s. induction fuel as [|fuel IH]; intros s Hf Ht; [lia|]. simpl.
  unfold CapacityStage.generator, remote, sleep, checkpoint, local, mbind, M_bind. simpl.
  set (c1 := Remote _ _ _ _). pose proof (perform_fuel c1 s) as [Hr1 Hc1].
  destruct (perform world c1 s) as [s1 [r|e]]; [|simpl in *; congruence]. simpl in Hc1.
  destruct (negb _); simpl; [done|]. destruct (status_of _) as [| |st code]; [done|done|].
  case_bool_decide.
  { destruct code as [n|]; [|done]. destruct (_ && _); [|done]. cbn -[perform].
    set (c2 := Local _). pose proof (perform_fuel c2 (set_completed "load_finished" (set_load_exit n s1))) as [Hr2 _].
    destruct (perform world c2 _) as [s2 [|]]; simpl in *; congruence. }
  case_bool_decide; [|done]. simpl. destruct (deadline - sg_clock s1 <=? 0) eqn:Hd; [done|]. apply Z.leb_gt in Hd.
  set (c3 := Sleep _). pose proof (perform_fuel c3 s1) as [Hr3 Hc3]. cbn -[perform].
  destruct (perform world c3 s1) as [s3 [r3|e]]; [|simpl in *; congruence]. simpl in Hc3.
  apply IH; [unfold seconds, us_per_second in *; lia|]. unfold seconds, us_per_second in *. lia.
Qed.

(** The polling loop of the load always ends: it sees the job finish, fails, or passes its deadline,
    [seconds + 240] seconds after it began, within the iterations the model gives it. *)
Theorem poll_terminates s :
  0 <= a.(sa_seconds) ->
  (poll a run_id status_of world (poll_fuel a) (s.(sg_clock) + seconds (a.(sa_seconds) + 240)) s).2 <> Raise out_of_fuel.
Proof.
  intros Hs. apply poll_fuel_enough; unfold poll_fuel; pose proof (Z.div_mod (sa_seconds a + 240) 10);
    pose proof (Z.mod_pos_bound (sa_seconds a + 240) 10); unfold seconds, us_per_second; lia.
Qed.
End polling.

(** ** A stage that succeeds, and one that is interrupted *)

Definition demo_stage : stage_args :=
  StageArgs "backend" "generator" "/b" "/g" "http://o" false false 100 60 4 800 300 8000 6 0 20 10 1 1 false 1 1 180 1 0 0 "postgres" 1 false.
Definition commit : string := "0123456789012345678901234567890123456789".

(** Every call succeeds; [git rev-parse] prints the commit and the job finishes at once. *)
Definition healthy (c : call) (n : nat) : answer :=
  Answer 1000 None 0 (if bool_decide (phase_of c ∈ ["backend-revision"; "generator-revision"]) then commit else "done").
(** The operator interrupts the load, and the rollback cannot be reached in time. *)
Definition interrupted (c : call) (n : nat) : answer :=
  if bool_decide (phase_of c = "load-status") then Answer 5 (Some (PyError "KeyboardInterrupt" "")) 0 ""
  else if bool_decide (phase_of c = "rollback") then Answer 300000000 (Some (PyError "TimeoutExpired" "")) 0 ""
  else healthy c n.
Definition finished (text : string) : job_status := JobStatus (Some "finished") (ExitInt 0).
Definition four_workers (n : nat) : bool * Z := (true, 4).
Definition good_evidence : evidence :=
  Evidence (JObj [("workload_gate_pass", JBool true); ("generator_drops", JNum 0); ("transport_errors", JObj []);
                  ("worst_worker_read_p95_ms", JNum 20000000); ("worst_worker_hold_p95_ms", JNum 40000000)])
    (JObj [("durability_and_expiry_pass", JBool true); ("overlapping_load_hold_intervals", JNum 0);
           ("queues_snapshot", JObj [("outbox", JNum 0)])])
    (JObj [("admission_rejections", JNum 0)]) (JObj [("pass", JBool true)]).
Definition demo_main (world : call -> nat -> answer) : stage * outcome (option (list (string * bool))) :=
  main demo_stage "run" (fun s => s) (fun _ => "exception") (fun _ => "25.0") finished four_workers world good_evidence (empty_stage 0).

Lemma interrupted_tame c n e :
  phase_of c ∈ finalizer_phases -> (interrupted c n).(an_raised) = Some e -> finish_catches e = true.
Proof.
  intros Hp. unfold interrupted. case_bool_decide as H1.
  { rewrite H1 in Hp. absent Hp. }
  case_bool_decide; [by intros [= <-]|done].
Qed.

(** The calls of a stage end in a clean-up, which worked if no error was recorded. *)
Definition cleaned (world : call -> nat -> answer) : Prop :=
  exists before stop observers rollback rest,
    (demo_main world).1.(sg_calls) = before ++ cleanup_calls demo_stage "run" stop observers rollback ++ rest
    /\ ((demo_main world).1.(sg_error) = None ->
        forall k c, cleanup_calls demo_stage "run" stop observers rollback !! k = Some c -> worked world c (length before + k)).

(** The healthy stage, whose observers are stopped when it cleans up; and the interrupted one, which stops
    the load and the observers, rolls back and cleans up before it reports the failure. *)
Lemma stage_cleans_up_witness :
  cleaned healthy /\ (demo_main healthy).1.(sg_error) = None /\ cleaned interrupted
  /\ take 7 (drop 22 (demo_main interrupted).1.(sg_calls)) = cleanup_calls demo_stage "run" true true true.
Proof.
  split_and!; [|vm_compute; reflexivity| |vm_compute; reflexivity].
  - destruct (stage_cleans_up demo_stage "run" (fun s => s) (fun _ => "exception") (fun _ => "25.0") finished four_workers healthy
      ltac:(done) ltac:(done) good_evidence 0 (demo_main healthy).1 (demo_main healthy).2)
      as (before & stop & observers & rollback & rest & Hcalls & _ & _ & _ & _ & Hw & _); [vm_compute; reflexivity| |].
    + eexists (Remote "backend-revision" _ _ _). split; [|done]. vm_compute. right; right; left.
    + exists before, stop, observers, rollback, rest. exact (conj Hcalls Hw).
  - destruct (stage_cleans_up demo_stage "run" (fun s => s) (fun _ => "exception") (fun _ => "25.0") finished four_workers interrupted
      interrupted_tame (fun n => eq_refl) good_evidence 0 (demo_main interrupted).1 (demo_main interrupted).2)
      as (before & stop & observers & rollback & rest & Hcalls & _ & _ & _ & _ & Hw & _); [vm_compute; reflexivity| |].
    + eexists (Remote "backend-revision" _ _ _). split; [|done]. vm_compute. right; right; left.
    + exists before, stop, observers, rollback, rest. exact (conj Hcalls Hw).
Defined.

Definition healthy_gates : list (string * bool) :=
  match (demo_main healthy).2 with Ok (Some g) => g | _ => [] end.

Lemma stage_pass_sound_witness :
  length healthy_gates = 13%nat /\ (demo_main healthy).1.(sg_completed) = all_phases.
Proof.
  split; [vm_compute; reflexivity|].
  destruct (stage_pass_sound demo_stage "run" (fun s => s) (fun _ => "exception") (fun _ => "25.0") finished four_workers healthy
    good_evidence 0 (demo_main healthy).1 healthy_gates) as (_ & Hc & _); [vm_compute; reflexivity|exact Hc].
Defined.
