(* ===== verification/ParallelLoad.v ===== *)
(** * The parallel load runner

    [scripts/parallel_cloud_load.py]: the load is split over worker processes, each running the load
    generator on its shard of the shows and viewers, and their reports are merged into one summary with
    its gates.  A worker process is the generator of [LoadGenerator] on that worker's surroundings. *)

From stdpp Require Import pretty.
From S2P Require Import Prelude LoadGenerator LoadFacts.

#[local] Open Scope Z_scope.

(** ** Arguments and shards *)

Record parallel_args : Type := ParallelArgs {
  pa_rate : Z;
  pa_seconds : Z;
  pa_workers : nat;
  pa_seat_offset : Z;
  pa_hot_reads : bool;
  pa_mixed_hot_holds : bool;
  pa_redis_first : bool;
  pa_burst : bool;
  pa_transport_diagnostics : bool;
  pa_max_attempts : nat;
  pa_late_delivery_window : Z;
  pa_start_delay : Z;
}.

Definition pa_duration (a : parallel_args) : Z := if a.(pa_burst) then 240 else a.(pa_seconds).

(** The condition of [p.error]; Python's [%] by zero shows raises before it, so [None]. *)
Definition partition_error (a : parallel_args) (m : manifest) : option bool :=
  if (a.(pa_workers) <? 1)%nat || (a.(pa_rate) <? Z.of_nat a.(pa_workers)) || (pa_duration a <? 1)
     || negb (length m.(mf_show_ids) mod a.(pa_workers) =? 0)%nat then Some true
  else match m.(mf_show_ids) with
       | [] => None
       | _ => Some (negb (length m.(mf_viewer_tokens) mod length m.(mf_show_ids) =? 0)%nat
                    || negb ((seconds 1 <=? a.(pa_start_delay)) && (a.(pa_start_delay) <=? seconds 120)))
       end.

(** [a.rate // a.workers + (i < a.rate % a.workers)] *)
Definition worker_rate (a : parallel_args) (i : nat) : Z :=
  a.(pa_rate) / Z.of_nat a.(pa_workers) + (if Z.of_nat i <? a.(pa_rate) mod Z.of_nat a.(pa_workers) then 1 else 0).
Definition worker_rates (a : parallel_args) : list Z := worker_rate a <$> seq 0 a.(pa_workers).

(** [l[i::n]] *)
Fixpoint stride_from {A} (k i n : nat) (l : list A) : list A :=
  match l with
  | [] => []
  | x :: l' => (if (k mod n =? i)%nat then [x] else []) ++ stride_from (S k) i n l'
  end.
Definition stride {A} (i n : nat) (l : list A) : list A := stride_from 0 i n l.

Definition shard (a : parallel_args) (m : manifest) (i : nat) : manifest :=
  Manifest m.(mf_schema_version) m.(mf_environment) m.(mf_expires_at) m.(mf_origin)
    (stride i a.(pa_workers) m.(mf_show_ids)) (stride i a.(pa_workers) m.(mf_viewer_tokens))
    (if a.(pa_hot_reads) then head m.(mf_show_ids) else m.(mf_hot_show_id))
    a.(pa_seat_offset) m.(mf_seats_per_show)
    (if a.(pa_mixed_hot_holds) then head m.(mf_show_ids) else m.(mf_hot_hold_show_id))
    (if a.(pa_mixed_hot_holds) then Some 299 else m.(mf_hot_hold_seat)).

(** The command line of worker [i], all of them to start at [start]. *)
Definition worker_args (a : parallel_args) (m : manifest) (start : Z) (i : nat) : arguments :=
  Arguments_ m.(mf_origin) (worker_rate a i) (pa_duration a) 64 a.(pa_burst) a.(pa_transport_diagnostics) a.(pa_mixed_hot_holds)
    a.(pa_redis_first) a.(pa_max_attempts) a.(pa_late_delivery_window) (Some start) false.

(** ** Worker processes *)

(** The fields of a worker's result file that the summary reads. *)
Record worker_report : Type := WorkerReport {
  wr_redis_first : bool;
  wr_started : Z;
  wr_workload_gate_pass : bool;
  wr_generator_drops : nat;
  wr_late_deliveries : nat;
  wr_physical_http_attempts : nat;
  wr_first_attempt_failures : gmap string nat;
  wr_retry_attempts : gmap string nat;
  wr_retry_successes : gmap string nat;
  wr_retry_exhausted : gmap string nat;
  wr_attempt_transport_errors : gmap string nat;
  wr_transport_errors : gmap string nat;
  wr_transport_phases : gmap (string * string) nat;
  wr_read_p95 : option Z;
  wr_hold_p95 : option Z;
}.

Definition report_of (a : arguments) (started : Z) (d : dispatch) (workload : list item) : worker_report :=
  let g := d.(d_generator) in
  WorkerReport a.(a_redis_first) started (workload_gate_pass a d workload) d.(d_drops) d.(d_late_deliveries)
    g.(g_retries).(re_physical_http_attempts) g.(g_retries).(re_first_attempt_failures) g.(g_retries).(re_retry_attempts)
    g.(g_retries).(re_retry_successes) g.(g_retries).(re_retry_exhausted)
    g.(g_transport).(tr_attempt_transport_errors) g.(g_transport).(tr_transport_errors)
    (if a.(a_transport_diagnostics) then g.(g_transport).(tr_transport_phases) else ∅)
    (percentile (read_samples g) p95) (percentile (hold_samples g) p95).

(** The exit code of the generator process and its result file, if it got to write one. *)
Definition worker_process (canonical : string -> option string) (a : arguments) (mf : manifest) (su : surroundings) (started : Z)
    : Z * option worker_report :=
  if negb (limits_ok a) then (2, None)
  else match measure canonical a mf su with
       | Raise _ => (1, None)
       | Ok (d, workload) =>
           let r := report_of a started d workload in
           (if r.(wr_workload_gate_pass) then 0 else 1, Some r)
       end.

(** ** Launching and cleaning up *)

(** The processes started, those still running, and the private credential files present. *)
Record launch_state : Type := LaunchState {
  ls_started : list nat;
  ls_running : list nat;
  ls_credentials : list nat;
}.

(** One turn of the launch loop.  [stale i] says that worker [i]'s result file exists already. *)
Definition launch_worker (stale : nat -> bool) (i : nat) : M launch_state unit :=
  _ ← modify (fun s => LaunchState s.(ls_started) s.(ls_running) (s.(ls_credentials) ++ [i]));
  _ ← raise_if (stale i) (PyError "ValueError" "Use a fresh output directory; retain earlier evidence");
  modify (fun s => LaunchState (s.(ls_started) ++ [i]) (s.(ls_running) ++ [i]) s.(ls_credentials)).

(** [codes = [proc.wait() for ...]] *)
Definition wait_all : M launch_state unit :=
  modify (fun s => LaunchState s.(ls_started) [] s.(ls_credentials)).

(** The [finally]: every started process is stopped and its credentials unlinked, then the private
    directory goes. *)
Definition clean_up : M launch_state unit :=
  _ ← modify (fun s => LaunchState s.(ls_started) (filter (fun i => i ∉ s.(ls_started)) s.(ls_running))
                         (filter (fun i => i ∉ s.(ls_started)) s.(ls_credentials)));
  modify (fun s => LaunchState s.(ls_started) s.(ls_running) []).

Definition launch_all (stale : nat -> bool) (workers : nat) {A} (summarise : M launch_state A) : M launch_state A :=
  finally (_ ← for_each (seq 0 workers) (launch_worker stale); _ ← wait_all; summarise) clean_up.

(** ** The summary *)

(** [sum_counter(field)] *)
Definition merge_counters {K} `{Countable K} (l : list (gmap K nat)) : gmap K nat :=
  foldr (union_with (fun a b => Some (a + b)%nat)) ∅ l.

Definition zmax_list (l : list Z) : option Z :=
  match l with [] => None | x :: l' => Some (foldr Z.max x l') end.
Definition zmin_list (l : list Z) : option Z :=
  match l with [] => None | x :: l' => Some (foldr Z.min x l') end.

(** The spread of the starts, measured only when every worker reported. *)
Definition start_skew (workers : nat) (results : list worker_report) : option Z :=
  if (length results =? workers)%nat then
    match zmax_list (wr_started <$> results), zmin_list (wr_started <$> results) with
    | Some hi, Some lo => Some (hi - lo)
    | _, _ => None
    end
  else None.

Record summary : Type := Summary {
  sm_mode_gate_pass : bool;
  sm_exit_codes : list Z;
  sm_start_skew : option Z;
  sm_generator_drops : nat;
  sm_late_deliveries : nat;
  sm_physical_http_attempts : nat;
  sm_first_attempt_failures : gmap string nat;
  sm_retry_attempts : gmap string nat;
  sm_retry_successes : gmap string nat;
  sm_retry_exhausted : gmap string nat;
  sm_attempt_transport_errors : gmap string nat;
  sm_worst_read_p95 : option Z;
  sm_worst_hold_p95 : option Z;
  sm_transport_phases : gmap (string * string) nat;
  sm_transport_errors : gmap string nat;
  sm_coordination_gate_pass : bool;
  sm_workload_gate_pass : bool;
}.

Definition summarise (a : parallel_args) (codes : list Z) (results : list worker_report) : summary :=
  let skew := start_skew a.(pa_workers) results in
  let mode_gate := forallb (fun r => Bool.eqb r.(wr_redis_first) a.(pa_redis_first)) results in
  let coordination_gate :=
    (length results =? a.(pa_workers))%nat && forallb (fun c => c =? 0) codes
    && match skew with Some d => d <=? milliseconds 100 | None => false end && mode_gate in
  Summary mode_gate codes skew
    (sum_list (wr_generator_drops <$> results)) (sum_list (wr_late_deliveries <$> results))
    (sum_list (wr_physical_http_attempts <$> results))
    (merge_counters (wr_first_attempt_failures <$> results)) (merge_counters (wr_retry_attempts <$> results))
    (merge_counters (wr_retry_successes <$> results)) (merge_counters (wr_retry_exhausted <$> results))
    (merge_counters (wr_attempt_transport_errors <$> results))
    (zmax_list (omap wr_read_p95 results)) (zmax_list (omap wr_hold_p95 results))
    (merge_counters (wr_transport_phases <$> results)) (merge_counters (wr_transport_errors <$> results))
    coordination_gate (coordination_gate && forallb wr_workload_gate_pass results).

(** The script: the summary when it exits with success, and the exception or exit otherwise. *)
Definition parallel_run (canonical : string -> option string) (a : parallel_args) (m : manifest) (now : Z)
    (stale : nat -> bool) (su : nat -> surroundings) (started : nat -> Z) : launch_state * outcome summary :=
  match partition_error a m with
  | None => (LaunchState [] [] [], Raise (PyError "ZeroDivisionError" "integer modulo by zero"))
  | Some true => (LaunchState [] [] [], Raise (PyError "SystemExit" "2"))
  | Some false =>
      let start := now + a.(pa_start_delay) in
      let outcomes := (fun i => worker_process canonical (worker_args a m start i) (shard a m i) (su i) (started i)) <$> seq 0 a.(pa_workers) in
      let s := summarise a outcomes.*1 (omap snd outcomes) in
      launch_all stale a.(pa_workers)
        (if s.(sm_workload_gate_pass) then mret s else raise (PyError "SystemExit" "1"))
        (LaunchState [] [] [])
  end.
