(* ===== verification/ParallelFacts.v ===== *)
(** * The parallel load partitions its work

    The workers' rates add up to the offered rate; no two ordinary holds of the whole run, in whatever
    workers, are for the same seat; the launcher leaves no process and no credentials behind; and the
    summary passes only when every worker's own gate did. *)

From Stdlib Require Import QArith.QArith_base.
From stdpp Require Import pretty.
From S2P Require Import Prelude LoadGenerator LoadFacts ParallelLoad.

#[local] Open Scope Z_scope.

(** ** Rates *)

Definition rate_total (l : list Z) : Z := foldr Z.add 0 l.

Lemma rate_total_app l1 l2 : rate_total (l1 ++ l2) = rate_total l1 + rate_total l2.
Proof. induction l1 as [|x l1 IH]; simpl; lia. Qed.

Lemma rate_total_shares q r n :
  0 <= r -> rate_total ((fun i => q + (if Z.of_nat i <? r then 1 else 0)) <$> seq 0 n) = Z.of_nat n * q + Z.min (Z.of_nat n) r.
Proof.
  intros Hr. induction n as [|n IH]; [simpl; lia|].
  rewrite seq_S, fmap_app, rate_total_app, IH. simpl. destruct (Z.ltb_spec (Z.of_nat n) r); lia.
Qed.

Lemma worker_rates_total a : (1 <= a.(pa_workers))%nat -> rate_total (worker_rates a) = a.(pa_rate).
Proof.
  intros Hw. unfold worker_rates, worker_rate.
  pose proof (Z.mod_pos_bound (pa_rate a) (Z.of_nat (pa_workers a)) ltac:(lia)).
  rewrite rate_total_shares by lia. pose proof (Z.div_mod (pa_rate a) (Z.of_nat (pa_workers a)) ltac:(lia)). lia.
Qed.

(** ** Shards *)

Lemma elem_of_stride_from {A} k i n (l : list A) x :
  x ∈ stride_from k i n l <-> exists j, l !! j = Some x /\ ((k + j) mod n = i)%nat.
Proof.
  revert k. induction l as [|y l IH]; intros k; simpl.
  - rewrite elem_of_nil. split; [done|]. intros (j & Hj & _). by rewrite lookup_nil in Hj.
  - rewrite elem_of_app, IH. split.
    + intros [H|(j & Hj & Hm)].
      * destruct (Nat.eqb_spec (k mod n) i); [|by apply not_elem_of_nil in H].
        apply list_elem_of_singleton in H as ->. exists 0%nat. by rewrite Nat.add_0_r.
      * exists (S j). split; [done|]. by rewrite <-Nat.add_succ_comm.
    + intros ([|j] & Hj & Hm); simpl in Hj.
      * left. injection Hj as ->. rewrite Nat.add_0_r in Hm. rewrite (proj2 (Nat.eqb_eq _ _) Hm). apply list_elem_of_here.
      * right. exists j. split; [done|]. by rewrite Nat.add_succ_comm.
Qed.

(** A show belongs to one shard only. *)
Lemma stride_elem {A} i n (l : list A) x : x ∈ stride i n l -> x ∈ l.
Proof. intros (k & Hk & _)%elem_of_stride_from. by eapply list_elem_of_lookup_2. Qed.

Lemma stride_disjoint {A} i j n (l : list A) x : NoDup l -> x ∈ stride i n l -> x ∈ stride j n l -> i = j.
Proof.
  intros Hnd (k1 & H1 & <-)%elem_of_stride_from (k2 & H2 & <-)%elem_of_stride_from.
  by rewrite (NoDup_lookup _ _ _ _ Hnd H1 H2).
Qed.

(** ** Workloads *)

(** The (show, seat) pairs of the ordinary holds of a workload. *)
Definition ordinary_pairs (workload : list item) : list (string * Z) :=
  (fun it => (it.(i_show), it.(i_seat))) <$> filter ordinary workload.

(** The workload of worker [i], when its allocation succeeds. *)
Definition workload_of (a : parallel_args) (m : manifest) (su : nat -> surroundings) (i : nat) : list item :=
  match allocate_all (shard a m i) a.(pa_mixed_hot_holds) (su i).(su_draws) (su i).(su_focus) 0
          (arrival_plan (worker_rate a i) (pa_duration a) a.(pa_burst)) ∅ with
  | Ok l => l
  | Raise _ => []
  end.

Lemma workload_of_facts a m su i :
  NoDup (ordinary_pairs (workload_of a m su i))
  /\ (forall it, it ∈ workload_of a m su i ->
       (ordinary it -> it.(i_show) ∈ stride i a.(pa_workers) m.(mf_show_ids) /\ a.(pa_seat_offset) <= it.(i_seat) < m.(mf_seats_per_show)
          /\ (a.(pa_mixed_hot_holds) = true -> Some it.(i_show) = head m.(mf_show_ids) -> it.(i_seat) <> 299))
       /\ (it.(i_hot) = true -> a.(pa_mixed_hot_holds) = true -> Some it.(i_show) = head m.(mf_show_ids) /\ it.(i_seat) = 299)).
Proof.
  unfold workload_of. destruct (allocate_all _ _ _ _ _ _ _) as [l|e] eqn:Hal.
  2: { split; [apply NoDup_nil_2|]. by intros it Hit%not_elem_of_nil. }
  apply allocate_all_facts in Hal as (Hnd & _ & Hall). split; [done|]. intros it Hit.
  destruct (Hall it Hit) as [Ho Hh]. unfold shard, hot_seat, count_of in *. simpl in *.
  split.
  - intros Hord. destruct (Ho Hord) as (Hr & Hs & Hhot). rewrite lookup_empty in Hr. simpl in Hr.
    split_and!; [done|lia|lia|]. intros Hm. by rewrite Hm in Hhot; apply Hhot.
  - intros Hhot Hm. by rewrite Hm in Hh; apply Hh.
Qed.

Lemma elem_of_ordinary_pairs w x : x ∈ ordinary_pairs w -> exists it, it ∈ w /\ ordinary it /\ x = (it.(i_show), it.(i_seat)).
Proof. intros (it & -> & [Ho Hin]%list_elem_of_filter)%list_elem_of_fmap. by exists it. Qed.

(** C39: over all the workers of a parallel load run on a manifest that names each show once, no two ordinary
    holds are for the same seat of the same show; with a [--seat-offset] that is not negative (the script
    checks neither condition) every seat lies inside the fixture, from the offset up to its seats per
    show, and none is the shared hot seat, for which all hot holds are; and the workers' rates add up to the
    offered rate. *)
Theorem parallel_load_disjoint a m su :
  NoDup m.(mf_show_ids) -> 0 <= a.(pa_seat_offset) -> (1 <= a.(pa_workers))%nat ->
  NoDup (seq 0 a.(pa_workers) ≫= fun i => ordinary_pairs (workload_of a m su i))
  /\ rate_total (worker_rates a) = a.(pa_rate)
  /\ forall i it, it ∈ workload_of a m su i ->
       (ordinary it -> it.(i_show) ∈ m.(mf_show_ids) /\ 0 <= it.(i_seat) /\ a.(pa_seat_offset) <= it.(i_seat) < m.(mf_seats_per_show)
          /\ (a.(pa_mixed_hot_holds) = true -> Some it.(i_show) = head m.(mf_show_ids) -> it.(i_seat) <> 299))
       /\ (it.(i_hot) = true -> a.(pa_mixed_hot_holds) = true -> Some it.(i_show) = head m.(mf_show_ids) /\ it.(i_seat) = 299).
Proof.
  intros Hnd Hoff Hw. split; [|split; [by apply worker_rates_total|]].
  - apply NoDup_bind; [|intros i _; apply workload_of_facts|apply NoDup_seq].
    intros i j x _ _ (it1 & H1 & Ho1 & ->)%elem_of_ordinary_pairs (it2 & H2 & Ho2 & [= Hs _])%elem_of_ordinary_pairs.
    destruct (workload_of_facts a m su i) as [_ F1]. destruct (workload_of_facts a m su j) as [_ F2].
    destruct (F1 _ H1) as [G1 _], (F2 _ H2) as [G2 _]. destruct (G1 Ho1) as [S1 _], (G2 Ho2) as [S2 _].
    rewrite Hs in S1. by eapply stride_disjoint.
  - intros i it Hit. destruct (workload_of_facts a m su i) as [_ F]. destruct (F it Hit) as [Ho Hh].
    split; [|done]. intros Hord. destruct (Ho Hord) as (Hs & Hr & Hhot). split_and!; [by eapply stride_elem|lia..|done].
Qed.

Definition two_workers : parallel_args := ParallelArgs 41 2 2 0 false true false false false 1 0 (seconds 5).
Definition two_shows : manifest :=
  Manifest 1 "development" (seconds 1000) "http://t" ["s1"; "s2"] ["t1"; "t2"; "t3"; "t4"] None 0 300 None None.

Lemma parallel_load_disjoint_witness :
  (length <$> (workload_of two_workers two_shows (fun _ => sample_run) <$> [0; 1]%nat)) = [42; 40]%nat
  /\ NoDup (seq 0 2 ≫= fun i => ordinary_pairs (workload_of two_workers two_shows (fun _ => sample_run) i)).
Proof.
  split; [vm_compute; reflexivity|].
  destruct (parallel_load_disjoint two_workers two_shows (fun _ => sample_run)) as [H _];
    [apply (bool_decide_unpack (NoDup ["s1"; "s2"])); by vm_compute|simpl; lia|simpl; lia|exact H].
Defined.

(** A negative [--seat-offset] is taken as it is: the first hold asks for seat -1, which no fixture has. *)
Definition negative_offset : parallel_args := ParallelArgs 41 2 2 (-1) false true false false false 1 0 (seconds 5).

Lemma negative_offset_unchecked :
  partition_error negative_offset two_shows = Some false
  /\ match ordinary_pairs (workload_of negative_offset two_shows (fun _ => sample_run) 0) with x :: _ => x.2 = -1 | [] => False end.
Proof. split; vm_compute; reflexivity. Qed.

(** ** Processes and credentials *)

Definition owned_processes (s : launch_state) : Prop := forall i, i ∈ s.(ls_running) -> i ∈ s.(ls_started).

Lemma launch_worker_owned stale i s : owned_processes s -> owned_processes (launch_worker stale i s).1.
Proof.
  intros Hs. unfold launch_worker, mbind, M_bind. simpl. destruct (stale i); simpl; [exact Hs|].
  intros j. simpl. rewrite !elem_of_app. intros [Hj|Hj]; [left; by apply Hs|by right].
Qed.

Lemma launch_loop_owned stale l s : owned_processes s -> owned_processes (for_each l (launch_worker stale) s).1.
Proof.
  revert s. induction l as [|i l IH]; intros s Hs; [done|]. simpl.
  pose proof (launch_worker_owned stale i s Hs) as H1. unfold mbind, M_bind.
  destruct (launch_worker stale i s) as [s1 [[]|e]]; [by apply IH|done].
Qed.

Lemma clean_up_clean s : owned_processes s -> exists s', clean_up s = (s', Ok tt) /\ s'.(ls_running) = [] /\ s'.(ls_credentials) = [].
Proof.
  intros Hs. eexists. split; [reflexivity|]. simpl. split; [|done].
  unfold owned_processes in Hs. induction (ls_running s) as [|i l IH]; [done|].
  rewrite filter_cons_False; [|intros Hi; apply Hi, Hs, list_elem_of_here].
  apply IH. intros j Hj. apply Hs. by right.
Qed.

(** However the launch ends, no worker is left running and no credentials are left on disk. *)
Lemma launch_all_clean {A} stale workers (m : M launch_state A) :
  (forall s, (m s).1 = s) ->
  let s' := (launch_all stale workers m (LaunchState [] [] [])).1 in s'.(ls_running) = [] /\ s'.(ls_credentials) = [].
Proof.
  intros Hm. unfold launch_all, finally.
  assert (Hbody : owned_processes ((_ ← for_each (seq 0 workers) (launch_worker stale); _ ← wait_all; m) (LaunchState [] [] [])).1).
  { pose proof (launch_loop_owned stale (seq 0 workers) (LaunchState [] [] [])) as Hl.
    unfold mbind, M_bind. destruct (for_each _ _ _) as [s1 [[]|e]]; simpl in *; [|apply Hl; by intros i Hi%not_elem_of_nil].
    rewrite Hm. by intros i Hi%not_elem_of_nil. }
  destruct ((_ ← for_each (seq 0 workers) (launch_worker stale); _ ← wait_all; m) (LaunchState [] [] [])) as [s1 r].
  destruct (clean_up_clean s1 Hbody) as (s2 & E & H1 & H2). cbv zeta. simpl. unfold clean_up, mbind, M_bind in E. simpl in E.
  injection E as <-. by split.
Qed.

(** ** The gate *)

Lemma zmax_list_ge l x : x ∈ l -> exists hi, zmax_list l = Some hi /\ x <= hi.
Proof.
  destruct l as [|y l]; [by intros ?%not_elem_of_nil|]. intros Hx. eexists. split; [reflexivity|].
  assert (Hy : y <= foldr Z.max y l) by (clear; induction l; simpl; lia).
  apply elem_of_cons in Hx as [->|Hx]; [done|]. clear Hy. induction l as [|z l IH]; [by apply not_elem_of_nil in Hx|].
  simpl. apply elem_of_cons in Hx as [->|Hx]; [lia|]. specialize (IH Hx). lia.
Qed.

Lemma zmin_list_le l x : x ∈ l -> exists lo, zmin_list l = Some lo /\ lo <= x.
Proof.
  destruct l as [|y l]; [by intros ?%not_elem_of_nil|]. intros Hx. eexists. split; [reflexivity|].
  assert (Hy : foldr Z.min y l <= y) by (clear; induction l; simpl; lia).
  apply elem_of_cons in Hx as [->|Hx]; [done|]. clear Hy. induction l as [|z l IH]; [by apply not_elem_of_nil in Hx|].
  simpl. apply elem_of_cons in Hx as [->|Hx]; [lia|]. specialize (IH Hx). lia.
Qed.

(** Two starts reported lie within the skew. *)
Lemma start_skew_bound workers results d r1 r2 :
  start_skew workers results = Some d -> r1 ∈ results -> r2 ∈ results -> r1.(wr_started) - r2.(wr_started) <= d.
Proof.
  unfold start_skew. destruct (_ =? _)%nat; [|done]. intros Hd H1 H2.
  apply (list_elem_of_fmap_2 wr_started) in H1, H2.
  destruct (zmax_list_ge _ _ H1) as (hi & E1 & ?), (zmin_list_le _ _ H2) as (lo & E2 & ?).
  rewrite E1, E2 in Hd. injection Hd as <-. lia.
Qed.

Lemma worker_process_pass canonical a mf su started c r :
  worker_process canonical a mf su started = (c, Some r) -> r.(wr_workload_gate_pass) = true ->
  r.(wr_started) = started /\ exists d w, run canonical a mf su = Ok (d, w).
Proof.
  unfold worker_process, run. destruct (negb _); [done|]. destruct (measure _ _ _ _) as [[d w]|e]; [|done].
  cbv zeta. intros [= _ <-] Hg. simpl in Hg. rewrite Hg. split; [done|]. by exists d, w.
Qed.

(** A parallel run that exits with success: every worker's own run passed its gate (so none of them
    dropped an arrival or saw an unexpected response), they started within 100 ms of each other, and no
    process or credentials are left. *)
Theorem parallel_gate_sound canonical a m now stale su started ls s :
  parallel_run canonical a m now stale su started = (ls, Ok s) ->
  (forall i, (i < a.(pa_workers))%nat -> exists d w,
     run canonical (worker_args a m (now + a.(pa_start_delay)) i) (shard a m i) (su i) = Ok (d, w))
  /\ (forall i j, (i < a.(pa_workers))%nat -> (j < a.(pa_workers))%nat -> started i - started j <= milliseconds 100)
  /\ ls.(ls_running) = [] /\ ls.(ls_credentials) = [].
Proof.
  unfold parallel_run. destruct (partition_error a m) as [[]|]; [done| |done].
  set (f := fun i => worker_process canonical (worker_args a m (now + pa_start_delay a) i) (shard a m i) (su i) (started i)).
  set (outcomes := f <$> seq 0 (pa_workers a)). set (sm := summarise a outcomes.*1 (omap snd outcomes)).
  pose proof (launch_all_clean stale (pa_workers a)
    (if sm_workload_gate_pass sm then mret sm else raise (PyError "SystemExit" "1"))) as Hclean.
  intros Hrun. rewrite Hrun in Hclean. destruct Hclean as [H1 H2]; [by destruct (sm_workload_gate_pass sm)|]. simpl in H1, H2.
  assert (Hgate : sm_workload_gate_pass sm = true).
  { destruct (sm_workload_gate_pass sm); [done|]. unfold launch_all, finally, mbind, M_bind in Hrun.
    by destruct (for_each _ _ _) as [s1 [[]|e]]. }
  unfold sm, summarise in Hgate. simpl in Hgate. bool_hyps.
  match goal with H : (length _ =? _)%nat = true |- _ => apply Nat.eqb_eq in H as Hlen end.
  assert (Hall : forall i, (i < pa_workers a)%nat -> exists c r, f i = (c, Some r) /\ r ∈ omap snd outcomes).
  { intros i Hi. assert (Hin : f i ∈ outcomes) by (apply list_elem_of_fmap_2, elem_of_seq; lia).
    destruct (length_omap_all snd outcomes) with (x := f i) as [r Hr]; [by unfold outcomes at 2; rewrite length_fmap, length_seq|done|].
    exists (f i).1, r. split; [by destruct (f i); simpl in *; subst|]. apply list_elem_of_omap. by exists (f i). }
  assert (Hpass : forall r, r ∈ omap snd outcomes -> wr_workload_gate_pass r = true).
  { intros r Hr. match goal with H : forallb wr_workload_gate_pass _ = true |- _ => rewrite forallb_forall in H; by apply H, list_elem_of_In end. }
  split_and!; [| |done|done].
  - intros i Hi. destruct (Hall i Hi) as (c & r & Hf & Hr). by apply (worker_process_pass _ _ _ _ _ _ _ Hf), Hpass.
  - intros i j Hi Hj. destruct (Hall i Hi) as (ci & ri & Hfi & Hri), (Hall j Hj) as (cj & rj & Hfj & Hrj).
    destruct (worker_process_pass _ _ _ _ _ _ _ Hfi (Hpass _ Hri)) as [<- _].
    destruct (worker_process_pass _ _ _ _ _ _ _ Hfj (Hpass _ Hrj)) as [<- _].
    destruct (start_skew _ _) as [d|] eqn:Hd; [|done]. bool_hyps.
    pose proof (start_skew_bound _ _ _ _ _ Hd Hri Hrj). lia.
Qed.
