(* ===== verification/StabilitySuite.v ===== *)
(** * The cloud stability suite

    [scripts/cloud_stability_suite.py]: for each number of API workers it reconfigures the API, runs a
    stage per rate and keep-alive value with fallback rates after a failure, and restores the API.  Every
    subprocess, probe and file is a call to the surroundings.  The warm-up of the seat maps runs the
    modelled cache and snapshot and is given in the monad of the program's world. *)

From Stdlib Require Import QArith.QArith_base.
From stdpp Require Import pretty.
From S2P Require Import Prelude Domain Schema World Postgres Cache Config Workers CapacityStage.

#[local] Open Scope Z_scope.

(** ** Warming the seat maps *)

Section warmup.
Context `{E : Env} (encode_layout : layout_doc -> string).

(** [RedisSeats(redis_url)] keeps the default TTL. *)
Definition ttl : Z := 30.

Record warmup_counts : Type := WarmupCounts {
  wc_already_ready : nat;
  wc_missing : nat;
  wc_seeded : nat;
  wc_post_ready : nat;
  wc_failures : list (uuid * string);
}.

Definition failure_name (e : exn) : string :=
  match e with
  | Failure _ _ => "Failure"
  | DbError s => "DbError " +:+ s
  | PoolTimeout => "PoolTimeout"
  | TooManyRequests => "TooManyRequests"
  | OperationalError => "OperationalError"
  | RedisError => "RedisError"
  | PyError t _ => t
  end.

Definition with_failure (ev : uuid) (name : string) (c : warmup_counts) : warmup_counts :=
  WarmupCounts c.(wc_already_ready) c.(wc_missing) c.(wc_seeded) c.(wc_post_ready) (c.(wc_failures) ++ [(ev, name)]).

(** The outcome of a computation as a value, for [try: ... except Exception]. *)
Definition attempt {A} (m : W A) : W (outcome A) := try_except (a ← m; mret (Ok a)) (fun e => mret (Raise e)).

(** One show of the first loop. *)
Definition warm_show (ev : uuid) (c : warmup_counts) : W warmup_counts :=
  seen ← attempt (read ttl ev);
  match seen with
  | Ok _ => mret (WarmupCounts (S c.(wc_already_ready)) c.(wc_missing) c.(wc_seeded) c.(wc_post_ready) c.(wc_failures))
  | Raise (Failure code _) =>
      if negb (bool_decide (code ∈ ["SEATMAP_WARMING"; "SEATMAP_UNAVAILABLE"])) then mret (with_failure ev code c)
      else
        let c := WarmupCounts c.(wc_already_ready) (S c.(wc_missing)) c.(wc_seeded) c.(wc_post_ready) c.(wc_failures) in
        done ← attempt (snapshot ttl encode_layout ev);
        match done with
        | Ok _ => mret (WarmupCounts c.(wc_already_ready) c.(wc_missing) (S c.(wc_seeded)) c.(wc_post_ready) c.(wc_failures))
        | Raise e => mret (with_failure ev (failure_name e) c)
        end
  | Raise e => mret (with_failure ev (failure_name e) c)
  end.

(** One show of the second loop. *)
Definition check_show (ev : uuid) (c : warmup_counts) : W warmup_counts :=
  seen ← attempt (read ttl ev);
  match seen with
  | Ok _ => mret (WarmupCounts c.(wc_already_ready) c.(wc_missing) c.(wc_seeded) (S c.(wc_post_ready)) c.(wc_failures))
  | Raise e => mret (with_failure ev (failure_name e) c)
  end.

Fixpoint fold_shows (f : uuid -> warmup_counts -> W warmup_counts) (shows : list uuid) (c : warmup_counts) : W warmup_counts :=
  match shows with
  | [] => mret c
  | ev :: rest => c' ← f ev c; fold_shows f rest c'
  end.

Definition warmup_pass (shows : list uuid) (c : warmup_counts) : bool :=
  bool_decide (c.(wc_failures) = []) && (c.(wc_post_ready) =? length shows)%nat && (0 <? length shows)%nat.

Definition run_warmup (shows : list uuid) : W (warmup_counts * bool) :=
  c1 ← fold_shows warm_show shows (WarmupCounts 0 0 0 0 []);
  c2 ← fold_shows check_show shows c1;
  mret (c2, warmup_pass shows c2).
End warmup.

(** ** Observer rows *)

Record observer_row : Type := ObserverRow {
  or_api_metrics : gmap string Q;
  or_lock_waiters : option Z;
  or_checkpoints_requested : option Z;
  or_checkpoint_sync_ms : option Q;
  or_wal_sync_ms : option Q;
  or_wal_write_ms : option Q;
  or_minimum_ttl : option Z;
}.

Definition metric (m : gmap string Q) (key : string) : Q := default 0%Q (m !! key).

(** [_metric_delta]: the sum of the increases of the metrics with that prefix, and how many rose or stayed. *)
Definition metric_delta (samples : list observer_row) (prefix : string) : Q * nat :=
  match samples, last samples with
  | first :: _, Some final =>
      map_fold (fun key last_value acc =>
          if negb (String.prefix prefix key) then acc
          else let delta := (last_value - metric first.(or_api_metrics) key)%Q in
               if Qle_bool 0 delta then ((acc.1 + delta)%Q, S acc.2) else acc)
        (0%Q, 0%nat) final.(or_api_metrics)
  | _, _ => (0%Q, 0%nat)
  end.

Definition delta (rows : list observer_row) (prefix : string) : Q := (metric_delta rows prefix).1.

(** [sum / count * 1000 if count else None] *)
Definition average_ms (rows : list observer_row) (name : string) : option Q :=
  let count := delta rows (name +:+ "_count") in
  if Qeq_bool count 0 then None else Some (delta rows (name +:+ "_sum") / count * 1000)%Q.

Definition qmax (a b : Q) : Q := if Qle_bool a b then b else a.

(** [max(last - first, 0)] *)
Definition rise (first last : Q) : Q := qmax (last - first)%Q 0%Q.

Record timing : Type := Timing { ti_count : Q; ti_sum : Q; ti_avg_ms : option Q }.
Definition timing_of (rows : list observer_row) (name : string) : timing :=
  Timing (delta rows (name +:+ "_count")) (delta rows (name +:+ "_sum")) (average_ms rows name).

Record observer_summary : Type := ObserverSummary {
  os_row_count : nat;
  os_db_commit : timing;
  os_db_rollback : timing;
  os_db_pool_return : timing;
  os_db_pool_acquire : timing;
  os_db_query : timing;
  os_db_transaction_body : timing;
  os_worker_busy : Q;
  os_worker_active_max : Q;
  os_http_close : Q;
  os_lock_waiter_max : Z;
  os_checkpoint_request : Z;
  os_checkpoint_sync_ms : Q;
  os_wal_sync_ms : Q;
  os_wal_write_ms : Q;
  os_minimum_ttl_min : Z;
}.

Definition active_of (row : observer_row) : option Q :=
  map_fold (fun key v acc => if String.prefix "ticketing_worker_active" key
                             then Some (match acc with Some a => qmax a v | None => v end) else acc) None row.(or_api_metrics).

Definition summarize_observer (rows : list observer_row) : option observer_summary :=
  match rows, last rows with
  | first :: rest, Some final =>
      let q (f : observer_row -> option Q) (r : observer_row) := default 0%Q (f r) in
      Some (ObserverSummary (length rows)
        (timing_of rows "ticketing_db_commit_seconds") (timing_of rows "ticketing_db_rollback_seconds")
        (timing_of rows "ticketing_db_pool_return_seconds") (timing_of rows "ticketing_db_pool_acquire_seconds")
        (timing_of rows "ticketing_db_query_seconds") (timing_of rows "ticketing_db_transaction_body_seconds")
        (delta rows "ticketing_worker_busy_seconds_total")
        (foldr (fun r acc => qmax (default 0%Q (active_of r)) acc) (default 0%Q (active_of first)) rest)
        (delta rows "ticketing_http_connection_close_total")
        (foldr (fun r acc => Z.max (default 0 r.(or_lock_waiters)) acc) (default 0 first.(or_lock_waiters)) rest)
        (Z.max (default 0 final.(or_checkpoints_requested) - default 0 first.(or_checkpoints_requested)) 0)
        (rise (q or_checkpoint_sync_ms first) (q or_checkpoint_sync_ms final))
        (rise (q or_wal_sync_ms first) (q or_wal_sync_ms final)) (rise (q or_wal_write_ms first) (q or_wal_write_ms final))
        (foldr (fun r acc => Z.min (default 1000000000 r.(or_minimum_ttl)) acc) (default 1000000000 first.(or_minimum_ttl)) rest))
  | _, _ => None
  end.

(** ** Calls *)

Inductive suite_call : Type :=
| WriteOverride (api_workers db_pool_max : Z)
| ComposeUp (overridden : bool)
| ProbeReady
| SuiteSleep (duration : Z)
| RunPreflight (manifest : Z * Z) (secs : Z)
| Warmup (manifest : Z * Z)
| StartObserver (secs : Z)
| RunLoader (manifest : Z * Z) (seat_offset : Z) (rate secs workers keepalive : Z) (mixed : bool)
| WaitObserver (timeout : Z)
| PollObserver
| TerminateObserver
| ReadObserver
| RunVerify
| WriteReport.

(** How a call ends: its duration, an exception, or an exit code (an HTTP status for a probe) with the
    members of the JSON object it left, if any; [sx_running] when the polled process still runs; the rows
    of the observer's file. *)
Record suite_answer : Type := SuiteAnswer {
  sx_elapsed : N;
  sx_raised : option exn;
  sx_code : Z;
  sx_running : bool;
  sx_document : option (list (string * json));
  sx_rows : list observer_row;
}.

Record suite : Type := Suite {
  su_calls : list suite_call;
  su_clock : Z;
  su_manifests : gmap (Z * Z) Z;
}.

Record suite_args : Type := SuiteArgs {
  sua_output_exists : bool;
  sua_environment : string;
  sua_rates : list Z;
  sua_seconds : Z;
  sua_workers : Z;
  sua_keepalives : list Z; (* microseconds *)
  sua_api_workers : list Z;
  sua_db_pool_max : Z;
  sua_mixed_hot_holds : bool;
  sua_fallback_rates : list Z;
}.

(** An entry of [rate_progress]. *)
Record stage_entry : Type := StageEntry {
  sn_rate : Z;
  sn_secs : Z;
  sn_keepalive : Z;
  sn_fallback_for : option Z;
  sn_preflight_ok : bool;
  sn_summary : option observer_summary;
  sn_passed : bool;
}.

Record block : Type := Block {
  bl_api_workers : Z;
  bl_configure_error : option exn;
  bl_progress : list stage_entry;
}.

Definition URLErrors : list string := OSErrors ++ ["URLError"; "HTTPError"].

(** ["Reset" in name or "connection" in name.lower() or "RemoteProtocolError" in name] *)
Definition contains (sub s : string) : bool := match String.index 0 sub s with Some _ => true | None => false end.
Fixpoint lower (s : string) : string :=
  match s with
  | EmptyString => ""
  | String.String c s' =>
      let n := Ascii.nat_of_ascii c in
      String.String (if (65 <=? n)%nat && (n <=? 90)%nat then Ascii.ascii_of_nat (n + 32) else c) (lower s')
  end.
Definition reset_like_name (name : string) : bool :=
  contains "Reset" name || contains "connection" (lower name) || contains "RemoteProtocolError" name.

(** The sum of the counts of those names. *)
Definition reset_like (errors : json) : outcome Z :=
  match errors with
  | JObj l => foldr (fun kv acc => match acc with
                                   | Raise e => Raise e
                                   | Ok n => if reset_like_name kv.1 then
                                               match kv.2 with
                                               | JNum v => Ok (n + v)
                                               | JBool b => Ok (n + if b then 1000000 else 0)
                                               | _ => Raise (PyError "TypeError" "+")
                                               end
                                             else Ok n
                                   end) (Ok 0) l
  | _ => Raise (PyError "AttributeError" "items")
  end.

(** [d.get(key, default)] on the members of an object. *)
Definition member_or (key : string) (d : json) (l : list (string * json)) : json :=
  match list_find (fun kv => kv.1 = key) l with Some (_, kv) => kv.2 | None => d end.

Section suite.
Context (a : suite_args) (answers : suite_call -> nat -> suite_answer).

Definition suite_perform (c : suite_call) : M suite suite_answer := fun s =>
  let r := answers c (length s.(su_calls)) in
  let s' := Suite (s.(su_calls) ++ [c]) (s.(su_clock) + Z.of_N r.(sx_elapsed) + match c with SuiteSleep d => d | _ => 0 end) s.(su_manifests) in
  match r.(sx_raised) with
  | Some e => (s', Raise e)
  | None => (s', Ok r)
  end.

(** [while time.monotonic() < deadline], a probe and a second of sleep each turn. *)
Fixpoint readiness_loop (fuel : nat) (deadline : Z) : M suite bool :=
  match fuel with
  | O => raise (PyError "OutOfFuel" "")
  | S fuel' =>
      now ← gets su_clock;
      if negb (now <? deadline) then mret false
      else
        ready ← try_except (r ← suite_perform ProbeReady; mret (r.(sx_code) =? 200))
                  (fun e => if instance_of URLErrors e then mret false else raise e);
        if ready : bool then mret true
        else _ ← suite_perform (SuiteSleep (seconds 1)); readiness_loop fuel' deadline
  end.

(** A turn takes a second at least: 121 turns pass the deadline. *)
Definition readiness_wait : M suite bool :=
  now ← gets su_clock; readiness_loop 122 (now + seconds 120).

Definition configure_api (api_workers : Z) : M suite unit :=
  _ ← suite_perform (WriteOverride api_workers a.(sua_db_pool_max));
  r ← suite_perform (ComposeUp true);
  _ ← raise_if (negb (r.(sx_code) =? 0)) (PyError "RuntimeError" "api reconfigure failed");
  ready ← readiness_wait;
  raise_if (negb ready) (PyError "RuntimeError" "api readiness did not return 200").

Definition restore_api : M suite unit := _ ← suite_perform (ComposeUp false); mret tt.

(** [run_preflight]: whether the caller goes on. *)
Definition run_preflight (manifest : Z * Z) : M suite bool :=
  r ← suite_perform (RunPreflight manifest a.(sua_seconds));
  let ok := match r.(sx_document) with Some l => truthy (member_or "pass" (JBool false) l) | None => false end in
  mret ((r.(sx_code) =? 0) && ok).

(** The load and the observer: whatever the load does, the observer is stopped if it still runs. *)
Definition observed_load (manifest : Z * Z) (rate secs keepalive : Z) : M suite suite_answer :=
  finally
    (offset ← gets (fun s => default 0 (s.(su_manifests) !! manifest));
     r ← suite_perform (RunLoader manifest offset rate secs a.(sua_workers) keepalive a.(sua_mixed_hot_holds));
     _ ← suite_perform (WaitObserver (secs + 60));
     mret r)
    (p ← suite_perform PollObserver;
     if p.(sx_running) then _ ← suite_perform TerminateObserver; _ ← suite_perform (WaitObserver 5); mret tt
     else mret tt).

(** [passed] *)
Definition stage_passed (loader verify : suite_answer) (resets : Z) : bool :=
  let summary := default [] loader.(sx_document) in
  let checked := match verify.(sx_document) with Some l => truthy (member_or "durability_and_expiry_pass" (JBool false) l) | None => false end in
  truthy (member_or "workload_gate_pass" (JBool false) summary) && (loader.(sx_code) =? 0) && (verify.(sx_code) =? 0)
  && checked && (resets =? 0).

Definition run_stage (manifest : Z * Z) (rate secs keepalive : Z) : M suite stage_entry :=
  w ← suite_perform (Warmup manifest);
  let warm := match w.(sx_document) with Some l => truthy (member_or "pass" (JBool false) l) | None => false end in
  if negb warm then mret (StageEntry rate secs keepalive None true None false)
  else
    _ ← suite_perform (StartObserver (secs + 36));
    loader ← observed_load manifest rate secs keepalive;
    rows ← suite_perform ReadObserver;
    verify ← suite_perform RunVerify;
    match reset_like (member_or "transport_errors" (JObj []) (default [] loader.(sx_document))) with
    | Raise e => raise e
    | Ok resets => mret (StageEntry rate secs keepalive None true (summarize_observer rows.(sx_rows)) (stage_passed loader verify resets))
    end.

Definition minimum (l : list Z) : option Z := match l with [] => None | x :: l' => Some (foldr Z.min x l') end.

(** The fallback stages after a failure at [rate]. *)
Fixpoint run_fallbacks (manifest : Z * Z) (rate keepalive : Z) (fallbacks : list Z) : M suite (list stage_entry) :=
  match fallbacks with
  | [] => mret []
  | f :: rest =>
      if rate <=? f then run_fallbacks manifest rate keepalive rest
      else
        e ← run_stage manifest f (Z.min 600 a.(sua_seconds)) keepalive;
        l ← run_fallbacks manifest rate keepalive rest;
        mret (StageEntry e.(sn_rate) e.(sn_secs) e.(sn_keepalive) (Some rate) e.(sn_preflight_ok) e.(sn_summary) e.(sn_passed) :: l)
  end.

(** The keep-alive values at one rate; a failure ends them. *)
Fixpoint run_keepalives (blocks : nat) (api_workers rate : Z) (keepalives : list Z) : M suite (list stage_entry) :=
  match keepalives with
  | [] => mret []
  | k :: rest =>
      let manifest := (api_workers, rate) in
      _ ← modify (fun s => Suite s.(su_calls) s.(su_clock)
                    (match s.(su_manifests) !! manifest with
                     | Some _ => s.(su_manifests)
                     | None => <[manifest := Z.of_nat blocks * 20]> s.(su_manifests)
                     end));
      ok ← run_preflight manifest;
      if negb ok then mret [StageEntry rate a.(sua_seconds) k None false None false]
      else
        e ← run_stage manifest rate a.(sua_seconds) k;
        if e.(sn_passed) then l ← run_keepalives blocks api_workers rate rest; mret (e :: l)
        else
          l ← (if negb (bool_decide (Some rate = minimum a.(sua_rates)))
               then run_fallbacks manifest rate k a.(sua_fallback_rates) else mret []);
          mret (e :: l)
  end.

Fixpoint run_rates (blocks : nat) (api_workers : Z) (rates : list Z) : M suite (list stage_entry) :=
  match rates with
  | [] => mret []
  | rate :: rest =>
      l ← run_keepalives blocks api_workers rate a.(sua_keepalives);
      l' ← run_rates blocks api_workers rest;
      mret (l ++ l')
  end.

(** The blocks: a failed configuration is recorded and skipped; otherwise the API is restored at the end. *)
Fixpoint run_blocks (done : list block) (api_workers : list Z) : M suite (list block) :=
  match api_workers with
  | [] => mret done
  | n :: rest =>
      configured ← try_except (_ ← configure_api n; mret None) (fun e => mret (Some e));
      match configured with
      | Some e => run_blocks (done ++ [Block n (Some e) []]) rest
      | None =>
          l ← run_rates (length done) n a.(sua_rates);
          _ ← restore_api;
          run_blocks (done ++ [Block n None l]) rest
      end
  end.

Definition block_failed (b : block) : bool := existsb (fun e => negb e.(sn_passed)) b.(bl_progress).

Definition suite_main : M suite (list block) :=
  _ ← raise_if a.(sua_output_exists) (PyError "SystemExit" "2");
  _ ← raise_if ((a.(sua_seconds) <? 1) || match minimum a.(sua_rates) with Some r => r <? 1 | None => true end) (PyError "SystemExit" "2");
  _ ← raise_if (negb (bool_decide (a.(sua_environment) = "development"))) (PyError "SystemExit" "2");
  blocks ← run_blocks [] a.(sua_api_workers);
  _ ← suite_perform WriteReport;
  _ ← raise_if (existsb block_failed blocks) (PyError "SystemExit" "1");
  mret blocks.
End suite.
