(* ===== verification/SuiteFacts.v ===== *)
(** * What an exit code of the stability suite means

    A suite that exits with success ran and passed its whole matrix of rates and keep-alive values in
    every block it could configure, and restored the API once per such block; but a block that could not
    be configured does not make the suite fail.  The wait for readiness ends by its deadline, and the
    warm-up of the seat maps keeps the invariant of the database. *)

From stdpp Require Import pretty.
From S2P Require Import Prelude Domain Schema World Cache Workers Invariant InvFulfil InvWorkers CapacityStage StabilitySuite.

#[local] Open Scope Z_scope.

(** ** The warm-up *)

Section warmup_facts.
Context `{E : Env} (encode_layout : layout_doc -> string).

Lemma keeps_attempt {A} P (m : W A) : keeps P m -> keeps P (attempt m).
Proof. intros Hm. apply keeps_try; [|intros; apply keeps_ret]. apply keeps_bind; [done|intros; apply keeps_ret]. Qed.

Lemma keeps_fold_shows P f shows c : (forall ev c, keeps P (f ev c)) -> keeps P (fold_shows f shows c).
Proof.
  intros Hf. revert c. induction shows as [|ev shows IH]; intros c; simpl; [apply keeps_ret|].
  by apply keeps_bind.
Qed.

Lemma run_warmup_keeps shows : keeps inv (run_warmup encode_layout shows).
Proof.
  assert (Hread : forall t ev, keeps inv (read t ev)).
  { intros t ev. unfold read. repeat first [apply keeps_bind; [|intros]|apply keeps_redis|apply keeps_redis_eval|apply keeps_ret|apply keeps_raise
      |apply keeps_try; [|intros]|apply keeps_or_raise|apply keeps_raise_if|apply keeps_obs|apply keeps_clock
      |match goal with |- keeps _ (match ?x with _ => _ end) => destruct x end]. }
  unfold run_warmup. repeat (apply keeps_bind; [|intros]); [..|apply keeps_ret]; apply keeps_fold_shows; intros ev c.
  - unfold warm_show. apply keeps_bind; [by apply keeps_attempt|]. intros [?|[]]; try apply keeps_ret.
    destruct (negb _); [apply keeps_ret|]. apply keeps_bind; [apply keeps_attempt, snapshot_keeps|].
    intros []; apply keeps_ret.
  - unfold check_show. apply keeps_bind; [by apply keeps_attempt|]. intros []; apply keeps_ret.
Qed.
End warmup_facts.

(** ** Restores *)

Definition is_restore (c : suite_call) : bool := match c with ComposeUp false => true | _ => false end.
Definition is_load (c : suite_call) : bool := match c with RunLoader _ _ _ _ _ _ _ => true | _ => false end.

Definition restores (s : suite) : nat := length (filter is_restore s.(su_calls)).

(** [unrestored m]: [m] makes no call that restores the API, whether it returns or raises. *)
Definition unrestored {A} (m : M suite A) : Prop := forall s, restores (m s).1 = restores s.

Lemma unrestored_ret {A} (x : A) : unrestored (mret x).
Proof. by intros s. Qed.

Lemma unrestored_raise {A} e : unrestored (raise (A := A) e).
Proof. by intros s. Qed.

Lemma unrestored_gets {A} (f : suite -> A) : unrestored (gets f).
Proof. by intros s. Qed.

Lemma unrestored_raise_if b e : unrestored (raise_if b e).
Proof. by intros s; destruct b. Qed.

Lemma unrestored_bind {A B} (m : M suite A) (f : A -> M suite B) : unrestored m -> (forall x, unrestored (f x)) -> unrestored (m ≫= f).
Proof.
  intros Hm Hf s. unfold mbind, M_bind. specialize (Hm s). destruct (m s) as [s1 [x|e]]; simpl in *; [|done].
  by rewrite Hf.
Qed.

Lemma unrestored_try {A} (m : M suite A) h : unrestored m -> (forall e, unrestored (h e)) -> unrestored (try_except m h).
Proof.
  intros Hm Hh s. unfold try_except. specialize (Hm s). destruct (m s) as [s1 [x|e]]; simpl in *; [done|].
  by rewrite Hh.
Qed.

Lemma unrestored_finally {A} (m : M suite A) f : unrestored m -> unrestored f -> unrestored (finally m f).
Proof.
  intros Hm Hf s. unfold finally. specialize (Hm s). destruct (m s) as [s1 r]. specialize (Hf s1).
  destruct (f s1) as [s2 []]; simpl in *; congruence.
Qed.

Lemma unrestored_wp {A} (m : M suite A) s : unrestored m -> wp m (fun _ s' => restores s' = restores s) s.
Proof. intros Hm. specialize (Hm s). unfold wp, wpx. by destruct (m s) as [s1 []]. Qed.

Section suite_facts.
Context (a : suite_args) (answers : suite_call -> nat -> suite_answer).

Lemma restores_perform c s :
  restores (suite_perform answers c s).1 = (restores s + if is_restore c then 1 else 0)%nat.
Proof.
  unfold suite_perform, restores. destruct (sx_raised _); simpl; rewrite filter_app, length_app; f_equal;
    by destruct c as [| []| | | | | | | | | | | |].
Qed.

Lemma unrestored_perform c : is_restore c = false -> unrestored (suite_perform answers c).
Proof. intros Hc s. rewrite restores_perform, Hc. lia. Qed.

Ltac quieten_step :=
  lazymatch goal with
  | |- unrestored (_ ≫= _) => apply unrestored_bind; [|intros ?]
  | |- unrestored (suite_perform _ _) => apply unrestored_perform; reflexivity
  | |- unrestored (mret _) => apply unrestored_ret
  | |- unrestored (gets _) => apply unrestored_gets
  | |- unrestored (raise _) => apply unrestored_raise
  | |- unrestored (raise_if _ _) => apply unrestored_raise_if
  | |- unrestored (try_except _ _) => apply unrestored_try; [|intros ?]
  | |- unrestored (finally _ _) => apply unrestored_finally
  | |- unrestored (match ?x with _ => _ end) => destruct x
  | |- unrestored _ => assumption
  end.
Ltac quieten := repeat quieten_step.

Lemma unrestored_readiness fuel deadline : unrestored (readiness_loop answers fuel deadline).
Proof. induction fuel as [|fuel IH]; simpl; quieten. Qed.

Lemma unrestored_configure n : unrestored (configure_api a answers n).
Proof. unfold configure_api, readiness_wait. quieten. apply unrestored_readiness. Qed.

Lemma unrestored_stage m rate secs k : unrestored (run_stage a answers m rate secs k).
Proof. unfold run_stage, observed_load. quieten. Qed.

Lemma unrestored_fallbacks m rate k l : unrestored (run_fallbacks a answers m rate k l).
Proof. induction l as [|f l IH]; simpl; quieten. apply unrestored_stage. Qed.

Lemma unrestored_keepalives blocks n rate ks : unrestored (run_keepalives a answers blocks n rate ks).
Proof.
  induction ks as [|k ks IH]; simpl; unfold run_preflight; quieten; try apply unrestored_stage; try apply unrestored_fallbacks.
  by intros s.
Qed.

Lemma unrestored_rates blocks n rates : unrestored (run_rates a answers blocks n rates).
Proof. induction rates as [|r rates IH]; simpl; quieten. apply unrestored_keepalives. Qed.

(** ** The matrix of a block *)

Definition passed (e : stage_entry) : Prop := e.(sn_passed) = true.
Definition cells (l : list stage_entry) : list (Z * Z) := (fun e => (e.(sn_rate), e.(sn_keepalive))) <$> l.

Lemma wp_any {A} (m : M suite A) (Q : A -> suite -> Prop) s : (forall x s', Q x s') -> wp m Q s.
Proof. intros HQ. unfold wp, wpx. by destruct (m s) as [s1 []]. Qed.

Ltac skip_call := apply wp_bind, wp_any; intros ? ?.

Lemma run_stage_cell m rate secs k s :
  wp (run_stage a answers m rate secs k) (fun e _ => e.(sn_rate) = rate /\ e.(sn_keepalive) = k) s.
Proof.
  unfold run_stage. skip_call. destruct (negb _); [by apply wp_ret|]. do 4 skip_call.
  destruct (reset_like _); [by apply wp_ret|apply wp_raise].
Qed.

Lemma run_keepalives_matrix blocks n rate ks s :
  wp (run_keepalives a answers blocks n rate ks) (fun l _ => Forall passed l -> cells l = pair rate <$> ks) s.
Proof.
  revert s. induction ks as [|k ks IH]; intros s; simpl; [by apply wp_ret|]. do 2 skip_call.
  destruct (negb _); [apply wp_ret; by intros [? _]%Forall_cons|].
  apply wp_bind. eapply wp_mono; [apply run_stage_cell|]. intros e s1 [He1 He2].
  destruct (sn_passed e) eqn:Hp.
  - apply wp_bind. eapply wp_mono; [apply IH|]. intros l s2 Hl. apply wp_ret. intros [_ Hall]%Forall_cons.
    simpl. rewrite (Hl Hall). by subst.
  - skip_call. apply wp_ret. intros [Hq _]%Forall_cons. unfold passed in Hq. congruence.
Qed.

(** The cells that a block is asked to run. *)
Definition matrix : list (Z * Z) := rates ← a.(sua_rates); pair rates <$> a.(sua_keepalives).

Lemma run_rates_matrix blocks n rates s :
  wp (run_rates a answers blocks n rates)
     (fun l _ => Forall passed l -> cells l = (rates ≫= fun r => pair r <$> a.(sua_keepalives))) s.
Proof.
  revert s. induction rates as [|r rates IH]; intros s; simpl; [by apply wp_ret|].
  apply wp_bind. eapply wp_mono; [apply run_keepalives_matrix|]. intros l s1 Hl.
  apply wp_bind. eapply wp_mono; [apply IH|]. intros l' s2 Hl'. apply wp_ret. intros [H1 H2]%Forall_app.
  unfold cells in *. by rewrite fmap_app, (Hl H1), (Hl' H2).
Qed.

(** A block as the suite leaves it: not configured and empty, or the whole matrix unless a stage failed. *)
Definition block_ok (b : block) : Prop :=
  match b.(bl_configure_error) with
  | Some _ => b.(bl_progress) = []
  | None => Forall passed b.(bl_progress) -> cells b.(bl_progress) = matrix
  end.

Definition configured (b : block) : bool := match b.(bl_configure_error) with Some _ => false | None => true end.

Lemma run_blocks_spec ns done s :
  Forall block_ok done -> 
  wp (run_blocks a answers done ns)
     (fun bs s' => Forall block_ok bs /\ bl_api_workers <$> bs = (bl_api_workers <$> done) ++ ns
        /\ (restores s' + length (filter configured done) = restores s + length (filter configured bs))%nat) s.
Proof.
  revert done s. induction ns as [|n ns IH]; intros done s Hdone; simpl.
  - apply wp_ret. rewrite app_nil_r. split_and!; [done..|lia].
  - apply wp_bind. eapply wp_mono; [apply unrestored_wp; quieten; apply unrestored_configure|]. intros [e|] s1 H1; cbv beta in H1.
    + eapply wp_mono; [apply IH, Forall_app; split; [done|by repeat constructor]|].
      intros bs s2 (Hok & Hw & Hr). rewrite fmap_app, <-app_assoc in Hw. rewrite filter_app, length_app in Hr. simpl in Hr.
      split_and!; [done|done|lia].
    + apply wp_bind. eapply wp_mono; [apply wp_and; [apply run_rates_matrix|apply unrestored_wp, unrestored_rates]|].
      intros l s2 [Hl H2]. apply wp_bind. unfold restore_api. apply wp_bind.
      assert (Hq : forall s, wp (suite_perform answers (ComposeUp false)) (fun _ s' => restores s' = S (restores s)) s).
      { intros t. pose proof (restores_perform (ComposeUp false) t) as Hp. unfold wp, wpx.
        destruct (suite_perform _ _ t) as [t' []]; [|done]. simpl in *. lia. }
      eapply wp_mono; [apply Hq|]. intros ? s3 H3. cbv beta in H3. apply wp_ret.
      eapply wp_mono; [apply IH, Forall_app; split; [done|by repeat constructor]|].
      intros bs s4 (Hok & Hw & Hr). rewrite fmap_app, <-app_assoc in Hw. rewrite filter_app, length_app in Hr. simpl in Hr.
      split_and!; [done|done|lia].
Qed.

(** A failing recreation of the container makes the configuration fail, without a load. *)
Lemma configure_fails n s :
  (forall c i, (answers c i).(sx_raised) = None) -> (forall i, (answers (ComposeUp true) i).(sx_code) <> 0) ->
  configure_api a answers n s
  = (Suite (s.(su_calls) ++ [WriteOverride n a.(sua_db_pool_max); ComposeUp true])
       (s.(su_clock) + Z.of_N (answers (WriteOverride n a.(sua_db_pool_max)) (length s.(su_calls))).(sx_elapsed)
          + Z.of_N (answers (ComposeUp true) (S (length s.(su_calls)))).(sx_elapsed)) s.(su_manifests),
     Raise (PyError "RuntimeError" "api reconfigure failed")).
Proof.
  intros Hq Hc. unfold configure_api, suite_perform, mbind, M_bind. rewrite Hq. simpl. rewrite Hq, length_app. simpl.
  rewrite Nat.add_1_r, <-app_assoc, !Z.add_0_r. simpl. specialize (Hc (S (length (su_calls s)))).
  destruct (Z.eqb_spec (sx_code (answers (ComposeUp true) (S (length (su_calls s))))) 0); [done|]. reflexivity.
Qed.

Lemma run_blocks_fails ns done s :
  (forall c i, (answers c i).(sx_raised) = None) -> (forall i, (answers (ComposeUp true) i).(sx_code) <> 0) ->
  exists s', run_blocks a answers done ns s
    = (s', Ok (done ++ ((fun n => Block n (Some (PyError "RuntimeError" "api reconfigure failed")) []) <$> ns)))
    /\ filter is_load s'.(su_calls) = filter is_load s.(su_calls) /\ restores s' = restores s.
Proof.
  intros Hq Hc. revert done s. induction ns as [|n ns IH]; intros done s; simpl; [exists s; by rewrite app_nil_r|].
  unfold try_except, mbind, M_bind. rewrite (configure_fails n s Hq Hc). simpl.
  match goal with |- context [run_blocks _ _ _ ns ?t] => destruct (IH (done ++ [Block n (Some (PyError "RuntimeError" "api reconfigure failed")) []]) t) as (s' & -> & Hl & Hr) end.
  exists s'. rewrite <-app_assoc. split_and!; [done|rewrite Hl; simpl; by rewrite filter_app, app_nil_r|].
  rewrite Hr. unfold restores. simpl. by rewrite filter_app, app_nil_r.
Qed.

(** ** The wait for readiness *)

Lemma perform_clock c s s' r : suite_perform answers c s = (s', Ok r) ->
  s.(su_clock) + match c with SuiteSleep d => d | _ => 0 end <= s'.(su_clock).
Proof. unfold suite_perform. destruct (sx_raised _); [done|]. intros [= <- _]. simpl. lia. Qed.

Lemma perform_raise c s s' e : suite_perform answers c s = (s', Raise e) -> exists i, (answers c i).(sx_raised) = Some e.
Proof. unfold suite_perform. destruct (sx_raised _) eqn:He; [|done]. intros [= _ <-]. eauto. Qed.

(** An exception of the loop is one of its calls', never the end of the fuel. *)
Lemma readiness_loop_ends fuel deadline s s' e :
  deadline - s.(su_clock) <= seconds (Z.of_nat fuel) ->
  readiness_loop answers (S fuel) deadline s = (s', Raise e) -> exists c i, (answers c i).(sx_raised) = Some e.
Proof.
  revert s. induction fuel as [|fuel IH]; intros s Hf; cbn [readiness_loop]; unfold mbind at 1, M_bind at 1, gets at 1.
  { unfold seconds, us_per_second in Hf. destruct (Z.ltb_spec (su_clock s) deadline); [lia|done]. }
  destruct (negb _); [done|]. unfold try_except, mbind, M_bind.
  destruct (suite_perform answers ProbeReady s) as [s1 [r|e1]] eqn:Hp.
  - simpl. destruct (_ =? 200); [done|].
    destruct (suite_perform answers (SuiteSleep (seconds 1)) s1) as [s2 [r2|e2]] eqn:Hs.
    + apply IH. apply perform_clock in Hp, Hs. unfold seconds, us_per_second in *. lia.
    + intros [= _ <-]. by apply perform_raise in Hs as [i Hi]; eauto.
  - assert (Hclock : su_clock s <= su_clock s1).
    { unfold suite_perform in Hp. destruct (sx_raised _); [|done]. injection Hp as <- _. simpl. lia. }
    destruct (CapacityStage.instance_of URLErrors e1).
    + simpl. destruct (suite_perform answers (SuiteSleep (seconds 1)) s1) as [s2 [r2|e2]] eqn:Hs.
      * apply IH. apply perform_clock in Hs. unfold seconds, us_per_second in *. lia.
      * intros [= _ <-]. by apply perform_raise in Hs as [i Hi]; eauto.
    + intros [= _ <-]. by apply perform_raise in Hp as [i Hi]; eauto.
Qed.

Lemma readiness_wait_ends s s' e :
  readiness_wait answers s = (s', Raise e) -> exists c i, (answers c i).(sx_raised) = Some e.
Proof. apply readiness_loop_ends. unfold seconds, us_per_second. lia. Qed.

(** A stability suite that exits with success: there is a block per requested number of API workers, in
    order; a block that was configured passed every cell of the rates and keep-alive values, with no
    fallback; the others are empty; and the API was restored once per configured block. *)
Theorem suite_success_complete s s' bs :
  suite_main a answers s = (s', Ok bs) ->
  bl_api_workers <$> bs = a.(sua_api_workers)
  /\ Forall (fun b => match b.(bl_configure_error) with
                      | Some _ => b.(bl_progress) = []
                      | None => Forall passed b.(bl_progress) /\ cells b.(bl_progress) = matrix
                      end) bs
  /\ restores s' = (restores s + length (filter configured bs))%nat.
Proof.
  intros Hrun. pattern bs, s'. eapply wp_run; [|exact Hrun]. clear Hrun. unfold suite_main. do 3 (apply wp_bind, wp_raise_if; intros _).
  apply wp_bind. eapply wp_mono; [by apply run_blocks_spec|]. intros bs' s1 (Hok & Hw & Hr). simpl in Hw, Hr.
  apply wp_bind. eapply wp_mono; [by apply unrestored_wp, unrestored_perform|]. intros ? s2 H2. cbv beta in H2.
  apply wp_bind, wp_raise_if. intros Hnone. apply wp_ret. split_and!; [done| |lia].
  apply Forall_forall. intros b Hb. rewrite Forall_forall in Hok. specialize (Hok b Hb). unfold block_ok in Hok.
  destruct (bl_configure_error b); [done|].
  assert (Hall : Forall passed (bl_progress b)); [|by split; [|apply Hok]].
  apply Forall_forall. intros e He. destruct (sn_passed e) eqn:Hp; [done|]. exfalso.
  apply (not_true_iff_false _) in Hnone. apply Hnone, existsb_exists. exists b. split; [by apply list_elem_of_In|].
  apply existsb_exists. exists e. split; [by apply list_elem_of_In|]. by rewrite Hp.
Qed.

(** When the API can never be reconfigured, the suite still exits with success: no stage runs, no load is
    offered, and the API is not restored after the failed recreations. *)
Theorem suite_unconfigured_succeeds s :
  (forall c i, (answers c i).(sx_raised) = None) -> (forall i, (answers (ComposeUp true) i).(sx_code) <> 0) ->
  a.(sua_output_exists) = false -> 1 <= a.(sua_seconds) -> (exists r, minimum a.(sua_rates) = Some r /\ 1 <= r) ->
  a.(sua_environment) = "development" ->
  exists s' bs, suite_main a answers s = (s', Ok bs)
    /\ bs = ((fun n => Block n (Some (PyError "RuntimeError" "api reconfigure failed")) []) <$> a.(sua_api_workers))
    /\ filter is_load s'.(su_calls) = filter is_load s.(su_calls) /\ restores s' = restores s.
Proof.
  intros Hq Hc Ho Hsec (r & Hr & Hr1) Henv. unfold suite_main. rewrite Ho, Hr, Henv.
  destruct (Z.ltb_spec (sua_seconds a) 1); [lia|]. destruct (Z.ltb_spec r 1); [lia|].
  destruct (run_blocks_fails (sua_api_workers a) [] s Hq Hc) as (s1 & Hrun & Hl & Hres).
  unfold mbind, M_bind. simpl. rewrite Hrun. simpl. pose proof (unrestored_perform WriteReport eq_refl s1) as Hw.
  unfold suite_perform in *. rewrite Hq in *. simpl in Hw.
  assert (Hok : existsb block_failed ((fun n => Block n (Some (PyError "RuntimeError" "api reconfigure failed")) []) <$> sua_api_workers a) = false)
    by (clear; induction (sua_api_workers a) as [|n ns IH]; [done|exact IH]).
  rewrite Hok. eexists _, _. split; [reflexivity|]. split_and!; [done| |congruence].
  simpl. rewrite filter_app, Hl. simpl. by rewrite app_nil_r.
Qed.
End suite_facts.

(** ** Examples *)

Definition small_suite : suite_args := SuiteArgs false "development" [100; 50] 60 2 [seconds 5] [1; 2] 12 false [25].
Definition quiet_answer (code : Z) (doc : list (string * json)) : suite_answer := SuiteAnswer 0 None code false (Some doc) [].

(** Every call succeeds. *)
Definition healthy (c : suite_call) (i : nat) : suite_answer :=
  match c with
  | ProbeReady => quiet_answer 200 []
  | _ => quiet_answer 0 [("pass", JBool true); ("workload_gate_pass", JBool true); ("durability_and_expiry_pass", JBool true)]
  end.

(** The container cannot be recreated. *)
Definition undeployable (c : suite_call) (i : nat) : suite_answer :=
  match c with
  | ComposeUp true => quiet_answer 1 []
  | _ => healthy c i
  end.

Definition suite0 : suite := Suite [] 0 ∅.

Lemma suite_success_complete_witness :
  exists s' bs, suite_main small_suite healthy suite0 = (s', Ok bs) /\ length bs = 2%nat /\ restores s' = 2%nat.
Proof.
  destruct (suite_main small_suite healthy suite0) as [s' [bs|e]] eqn:Hrun; [|vm_compute in Hrun; discriminate Hrun].
  exists s', bs. split; [reflexivity|].
  destruct (suite_success_complete small_suite healthy suite0 s' bs Hrun) as (Hw & _ & _).
  split; [by rewrite <-(length_fmap bl_api_workers), Hw|].
  vm_compute in Hrun. injection Hrun as <- _. reflexivity.
Defined.

Lemma suite_unconfigured_succeeds_witness :
  exists s' bs, suite_main small_suite undeployable suite0 = (s', Ok bs) /\ filter is_load s'.(su_calls) = [].
Proof.
  destruct (suite_unconfigured_succeeds small_suite undeployable suite0) as (s' & bs & Hrun & _ & Hl & _).
  - intros c i. by destruct c as [| []| | | | | | | | | | | |].
  - intros i. discriminate.
  - reflexivity.
  - simpl. lia.
  - exists 50. split; [reflexivity|lia].
  - reflexivity.
  - exists s', bs. split; [exact Hrun|exact Hl].
Defined.
