(* ===== verification/Durable.v ===== *)
(** * An acknowledged reservation is never forgotten

    Once a hold is recorded for a key, with its hold, its order and its items, no step of any process of
    the deployment removes or redirects any of them: holds and orders change status only, items and
    answered records not at all. *)

From S2P Require Import Prelude Domain Schema World Observability Postgres Sql Reservations Config.
From S2P Require Import Cache Browse Intake Fulfilment Workers Reconcile Service Api Cli Fixtures.
From S2P Require Import Invariant InvReserve InvPayment InvCallback InvFulfil InvWorkers Keeping System Example Contracts.

(** The record of the key answers with [doc], whose hold and order exist, belong to the actor and to each
    other, and carry the promised expiry, total and seats. *)
Record acknowledged (actor key : string) (doc : hold_doc) (d : db) : Prop := Acknowledged {
  ak_record : exists hash, d.(idempotency_records) !! (actor, "hold", key) = Some (IdemRow hash (Some (RHold doc)));
  ak_hold : exists h, d.(holds) !! doc.(hd_hold_id) = Some h /\ h.(h_actor) = actor /\ h.(h_expires_at) = doc.(hd_expires_at);
  ak_order : exists o, d.(orders) !! doc.(hd_order_id) = Some o /\ o.(o_actor) = actor
    /\ o.(o_hold_id) = doc.(hd_hold_id) /\ o.(o_total) = doc.(hd_total) /\ o.(o_currency) = doc.(hd_currency);
  ak_items : forall s, s ∈ doc.(hd_seats) -> is_Some (d.(order_items) !! (doc.(hd_order_id), s));
}.

Section durable.
Context `{E : Env} (actor key : string) (doc : hold_doc).
Abbreviation ack := (acknowledged actor key doc).

(** ** Statements *)

Lemma ack_tables d d' :
  d'.(idempotency_records) = d.(idempotency_records) -> d'.(holds) = d.(holds) -> d'.(orders) = d.(orders) ->
  d'.(order_items) = d.(order_items) -> ack d -> ack d'.
Proof. intros H1 H2 H3 H4 [? ? ? ?]. split; by rewrite ?H1, ?H2, ?H3, ?H4. Qed.

Lemma keeps_insert_hold id r : keeps ack (insert_hold id r).
Proof.
  apply keeps_the_db. intros w Hw. unfold require, raise_if, mbind, M_bind.
  destruct (has w.(w_db).(holds) id) eqn:Hn; [done|]. apply has_false in Hn. simpl. destruct (negb _); [done|].
  destruct Hw as [? (h & Hh & ?) ? ?]. split; simpl; try done. exists h. rewrite lookup_insert_ne; [done|]. intros ->. congruence.
Qed.

Lemma keeps_insert_order id r : keeps ack (insert_order id r).
Proof.
  apply keeps_the_db. intros w Hw. unfold require, raise_if, mbind, M_bind. destruct (negb (0 <=? _)); [done|]. simpl.
  destruct (has w.(w_db).(orders) id) eqn:Hn; [done|]. apply has_false in Hn. simpl.
  destruct (negb _); [done|]. simpl. destruct (negb _); [done|].
  destruct Hw as [? ? (o & Ho & ?) ?]. split; simpl; try done. exists o. rewrite lookup_insert_ne; [done|]. intros ->. congruence.
Qed.

Lemma keeps_insert_item o s r : keeps ack (insert_order_item o s r).
Proof.
  apply keeps_the_db. intros w Hw. unfold require, raise_if, mbind, M_bind.
  destruct (has w.(w_db).(order_items) (o, s)); [done|]. simpl. destruct (negb _); [done|].
  destruct Hw as [? ? ? Hi]. split; simpl; try done. intros s' Hs'. apply lookup_insert_is_Some'. right. by apply Hi.
Qed.

Lemma keeps_hold_status id P st : keeps ack (update_hold_status id P st).
Proof.
  apply keeps_update. intros d [? (h & Hh & ? & ?) ? ?]. split; simpl; try done.
  eexists. rewrite lookup_update_where, Hh. split; [reflexivity|]. by case_match.
Qed.

Lemma keeps_order_status id P st : keeps ack (update_order_status id P st).
Proof.
  apply keeps_update. intros d [? ? (o & Ho & ?) ?]. split; simpl; try done.
  eexists. rewrite lookup_update_where, Ho. split; [reflexivity|]. by case_match.
Qed.

(** The record of the key is answered: [idem] never reports it as new. *)
Lemma keeps_idem {A} a op k req (f : option response -> W A) :
  (forall r, keeps ack (f (Some r))) -> ((a, op, k) <> (actor, "hold", key) -> keeps ack (f None)) ->
  keeps ack (idem a op k req ≫= f).
Proof.
  intros Hsome Hnone w Hw. unfold idem, lock_nowait, sql, mbind, M_bind, draw. simpl.
  unfold raise_if. match goal with |- context [if ?b then _ else _] => destruct b; [done|] end. simpl. destruct (idempotency_records _ !! (a, op, k)) as [row|] eqn:Hrow.
  - case_bool_decide; [done|]. simpl. destruct (id_response row) as [r|] eqn:Hr; [by apply Hsome|].
    apply Hnone; [|done]. intros [= -> -> ->]. destruct (ak_record _ _ _ _ Hw) as [hash Hrec].
    rewrite Hrow in Hrec. by simplify_eq.
  - assert (Hne : (a, op, k) <> (actor, "hold", key)).
    { intros [= -> -> ->]. destruct (ak_record _ _ _ _ Hw) as [hash Hrec]. congruence. }
    apply Hnone; [done|]. destruct Hw as [(hash & Hrec) ? ? ?]. split; simpl; try done.
    exists hash. by rewrite lookup_insert_ne.
Qed.

Lemma keeps_remember a op k r : (a, op, k) <> (actor, "hold", key) -> keeps ack (remember a op k r).
Proof.
  intros Hne. apply keeps_bind; [|intros; apply keeps_ret]. apply keeps_update. intros d [(hash & Hrec) ? ? ?].
  split; simpl; try done. exists hash. rewrite lookup_update_where, Hrec. simpl. by rewrite bool_decide_eq_false_2 by done.
Qed.

(** Statements on the tables of [ack]; those on other tables leave it untouched. *)
Ltac ack_leaf :=
  idtac; lazymatch goal with
  | |- keeps _ (idem _ _ _ _ ≫= _) => apply keeps_idem; [intros ?|intros ?]
  | |- keeps _ (insert_hold _ _) => apply keeps_insert_hold
  | |- keeps _ (insert_order _ _) => apply keeps_insert_order
  | |- keeps _ (insert_order_item _ _ _) => apply keeps_insert_item
  | |- keeps _ (update_hold_status _ _ _) => apply keeps_hold_status
  | |- keeps _ (update_order_status _ _ _) => apply keeps_order_status
  | |- keeps _ (remember _ _ _ _) => apply keeps_remember; first [assumption|congruence]
  | |- keeps _ (transaction _) => apply keeps_tx
  | |- keeps _ (update_db _) => apply keeps_update; let d := fresh "d" in intros d ?; apply (ack_tables d); [reflexivity..|assumption]
  end.
Ltac keeping := repeat (keeping_step ack_leaf).

(** ** The store *)

Lemma event_ack a b : keeps ack (event a b).
Proof. unfold event, insert_outbox. keeping. Qed.

Lemma update_seats_ack P f : keeps ack (update_seats P f).
Proof. unfold update_seats. keeping. Qed.

Lemma grant_ack a ev h o ex t c seats rows : keeps ack (grant a ev h o ex t c seats rows).
Proof. unfold grant. keeping; first [apply update_seats_ack|apply event_ack]. Qed.

Lemma release_ack o r st : keeps ack (_release o r st).
Proof. unfold _release. keeping; first [apply update_seats_ack|apply event_ack]. Qed.

Lemma reserve_tx_ack hs a ev seats k : keeps ack (reserve_tx hs a ev seats k).
Proof. unfold reserve_tx. keeping. apply grant_ack. Qed.

Lemma persist_tx_ack p r : keeps ack (persist_tx p r).
Proof. unfold persist_tx, insert_command. keeping. apply grant_ack. Qed.

Lemma checkout_tx_ack a h k : keeps ack (checkout_tx a h k).
Proof. unfold checkout_tx. keeping. Qed.

Lemma payment_tx_ack a o k out delay dups : keeps ack (initiate_payment_tx a o k out delay dups).
Proof. unfold initiate_payment_tx, insert_payment. keeping. Qed.

Lemma expire_tx_ack limit : keeps ack (expire_tx limit).
Proof. unfold expire_tx. keeping. apply release_ack. Qed.

Lemma callback_tx_ack payload : keeps ack (callback_tx payload).
Proof.
  unfold callback_tx, book, refund_or_fail, insert_callback, insert_booking, insert_refund.
  keeping; first [apply update_seats_ack|apply event_ack|apply release_ack].
Qed.

Lemma expire_batch_ack limit : keeps ack (expire_batch limit).
Proof. unfold expire_batch. keeping. apply expire_tx_ack. Qed.

Lemma postgres_ack hs : StoreKeeps ack (PostgresReservations hs).
Proof.
  split; intros; simpl.
  - apply reserve_keeps_body. intros w Hw. apply keeps_wp; [apply reserve_tx_ack|done].
  - unfold checkout. keeping. apply checkout_tx_ack.
  - unfold get_order. keeping.
  - unfold get_hold. keeping.
  - unfold release, release_tx. keeping. apply release_ack.
  - apply expire_batch_ack.
  - unfold expire_one. keeping. apply expire_batch_ack.
  - unfold initiate_payment. keeping. apply payment_tx_ack.
  - unfold callback. keeping. apply callback_tx_ack.
Qed.

(** ** The workers *)

Lemma snapshot_ack ttl enc ev : keeps ack (snapshot ttl enc ev).
Proof. unfold snapshot. keeping. Qed.

Lemma publish_batch_ack send ack_ limit : keeps ack (publish_batch send ack_ limit).
Proof. unfold publish_batch, publish_batch_body, claim_outbox, mark_published. keeping; first [apply send_rows_keeps|apply await_rows_keeps]. Qed.

Lemma refresh_rows_ack ttl enc rows : keeps ack (refresh_rows ttl enc rows).
Proof.
  induction rows as [|kr rows IH]; cbn [refresh_rows]; unfold refresh_row_cache, changed_snapshot; keeping; apply snapshot_ack.
Qed.

Lemma refresh_batch_ack ttl enc limit cooldown : keeps ack (refresh_batch ttl enc limit cooldown).
Proof. unfold refresh_batch, claim_refreshes, complete_refresh. keeping. apply refresh_rows_ack. Qed.

Lemma persist_message_ack ttl enc m : keeps ack (persist_message ttl enc m).
Proof.
  destruct m as [[stream id] msg]. unfold persist_message, persist_reservation_command, mark_failed, mark_durable, acknowledge.
  keeping; first [apply persist_tx_ack|apply snapshot_ack].
Qed.

Lemma persist_batch_ack ttl enc pages consumer limit : keeps ack (persist_reservation_batch ttl enc pages consumer limit).
Proof. unfold persist_reservation_batch. keeping; first [apply messages_keeps|apply persist_message_ack]. Qed.

Lemma simulate_batch_ack post n : (forall p, keeps ack (post p)) -> keeps ack (simulate_batch post n).
Proof.
  intros Hpost. induction n as [|n IH]; cbn [simulate_batch]; unfold simulate_one, claim_payment; keeping. apply Hpost.
Qed.

Lemma reconcile_loop_ack settings enc token deadline events : keeps ack (reconcile_loop settings enc token deadline events).
Proof.
  induction events as [|ev events IH]; cbn [reconcile_loop];
    unfold reconcile_event, snapshot_event, defer_reconciliation, complete_reconciliation, give_back; keeping; apply snapshot_ack.
Qed.

Lemma reconcile_pass_ack settings enc fuel deadline : keeps ack (reconcile_pass settings enc fuel deadline).
Proof.
  induction fuel as [|fuel IH]; cbn [reconcile_pass]; unfold reconcile_batch, claim_due_events; keeping; apply reconcile_loop_ack.
Qed.

Lemma reconciler_turn_ack settings enc fuel warm : keeps ack (reconciler_turn settings enc fuel warm).
Proof. unfold reconciler_turn, maintain_schedule, sample_schedule. keeping; apply reconcile_pass_ack. Qed.

Lemma seed_ack settings enc : keeps ack (seed settings enc).
Proof. unfold seed, seed_tx. keeping; apply snapshot_ack. Qed.

Lemma prepare_ack dp ut ge a : keeps ack (prepare dp.(dp_settings) dp.(dp_encode_layout) ut ge a).
Proof.
  apply prepare_keeps_copy; [|apply snapshot_ack]. intros. apply keeps_connect. intros w Hw. apply keeps_wp; [|done].
  unfold copy_all, copy_event, copy_seat. keeping.
Qed.

Lemma worker_tx_ack dp t : keeps ack (run_worker_tx dp t).
Proof.
  destruct t; simpl; unfold claim_outbox, mark_published, claim_refreshes, complete_refresh, claim_payment,
    persist_reservation_command, maintain_schedule, sample_schedule, claim_due_events, complete_reconciliation,
    defer_reconciliation, give_back, write_dead_letter; keeping; apply persist_tx_ack.
Qed.

Lemma consume_event_ack env : keeps ack (consume_event env).
Proof.
  unfold consume_event, consume_tx, request_refresh, fulfil_order, settle_refund, insert_ticket. keeping; apply event_ack.
Qed.

Lemma replay_ack decode id : keeps ack (replay decode id).
Proof. unfold replay. keeping; apply consume_event_ack. Qed.

Lemma attempts_ack decode replace n raw offset w pos : ack w.(w_db) -> ack (attempts decode replace n raw offset (w, pos)).1.1.(w_db).
Proof. apply attempts_keep; [unfold attempt_message|unfold write_dead_letter]; keeping. apply consume_event_ack. Qed.
End durable.

(** ** Every step of the deployment *)

Section steps.
Context (dp : deployment) (actor key : string) (doc : hold_doc).
Abbreviation ack := (acknowledged actor key doc).

Lemma worker_iteration_ack `{E : Env} r consumer :
  keeps ack (worker_iteration dp.(dp_settings) dp.(dp_encode_layout) dp.(dp_send) dp.(dp_ack) dp.(dp_scan_pages) (post dp) r consumer).
Proof.
  apply keeps_try; [|intros; apply keeps_bind; [apply keeps_obs|intros; apply keeps_ret]]. destruct r; simpl;
    repeat first [apply publish_batch_ack|apply persist_batch_ack|apply simulate_batch_ack; intros; apply post_keep, postgres_ack|apply refresh_batch_ack
                 |apply keeps_measured, expire_batch_ack|apply keeps_bind; [|intros ?]|apply keeps_ret].
Qed.

Lemma step_acknowledged w w' : system_step dp w w' -> ack w.(w_db) -> ack w'.(w_db).
Proof.
  intros [E u|E raw offset pos Hf|E env Hf|E t|E r consumer|E fuel warm|E|E id Hf|E ut ge a] Hack.
  - apply use_case_keep; [apply api_store_keep, postgres_ack|done].
  - by apply attempts_ack.
  - by apply consume_event_ack.
  - by apply worker_tx_ack.
  - by apply worker_iteration_ack.
  - by apply reconciler_turn_ack.
  - by apply seed_ack.
  - by apply replay_ack.
  - by apply prepare_ack.
Qed.

Lemma steps_acknowledged w w' : rtc (system_step dp) w w' -> ack w.(w_db) -> ack w'.(w_db).
Proof. induction 1 as [|w1 w2 w3 Hstep _ IH]; [done|]. intros Hack. by eapply IH, step_acknowledged. Qed.
End steps.

(** ** From the response to the record *)

Lemma reserved_acknowledged `{E : Env} hs actor ev seats key doc d d' :
  reserved_as hs actor ev seats key (RHold doc) d d' -> acknowledged actor key doc d'.
Proof.
  intros [Hnew (f & sale & now & rows & hold & order & Hf & Hg & [= ->] & ->)]. split; simpl.
  - eexists. unfold remembered. simpl. apply lookup_insert_eq.
  - eexists. rewrite lookup_insert_eq. by split_and!.
  - eexists. rewrite lookup_insert_eq. by split_and!.
  - intros s Hs. destruct (ga_all _ _ _ _ _ _ _ Hg s Hs) as [r Hr].
    rewrite (add_items_hit order ev rows _ s r); [done|apply Hg|]. by apply Hg.
Qed.

(** C8: an acknowledged reservation is never forgotten: after a first [reserve] for a key has returned a
    hold, then whatever any number of steps of API calls, workers and command line do, under any faults,
    the record of the key still answers with that hold, the hold and its order still exist, still belong
    to the actor and to each other with the promised expiry, total and items; and a retry of the same
    request returns that hold or raises, and changes nothing. *)
Theorem acknowledged_never_lost (E1 E2 : Env) dp hs1 hs2 actor ev ids key w w1 w2 doc :
  reachable dp w -> w.(w_db).(idempotency_records) !! (actor, "hold", key) = None ->
  reserve (E := E1) hs1 actor ev ids key w = (w1, Ok (RHold doc)) -> rtc (system_step dp) w1 w2 ->
  acknowledged actor key doc w2.(w_db) /\
  let retry := reserve (E := E2) hs2 actor ev ids key w2 in
  retry.1.(w_db) = w2.(w_db) /\ forall r, retry.2 = Ok r -> r = RHold doc.
Proof.
  intros Hinv%reachable_invariant Hnew Hrun Hsteps.
  destruct (reserve_cases (E := E1) _ _ _ _ _ _ _ _ (inv_i _ Hinv) Hrun) as (_ & _ & [[(row & Hrow & _) _]|Hres]); [congruence|].
  pose proof (steps_acknowledged dp _ _ _ _ _ Hsteps (reserved_acknowledged _ _ _ _ _ _ _ _ Hres)) as Hack.
  split; [done|]. destruct (ak_record _ _ _ _ Hack) as [hash Hrec].
  assert (inv w2.(w_db)) as Hinv2.
  { apply (steps_inv _ _ _ Hsteps). pose proof (reserve_keeps (E := E1) hs1 actor ev ids key w Hinv) as Hk. by rewrite Hrun in Hk. }
  destruct (reserve_answered (E := E2) hs2 actor ev ids key w2 _ (inv_i _ Hinv2) Hrec) as [Hdb Hret].
  split; [done|]. intros r Hr. destruct (Hret r Hr) as [_ [= <-]]. done.
Qed.

Definition demo_doc : hold_doc := HoldDoc 9 10 1120000007 500 "THB" ["A001"; "A002"] None None None None.

Lemma acknowledged_never_lost_witness :
  acknowledged "alice" "k1" demo_doc paying_world.(w_db) /\
  let retry := reserve (E := demo_env) 120 "alice" ev1 ["A002"; "A001"] "k1" paying_world in
  retry.1.(w_db) = paying_world.(w_db) /\ forall r, retry.2 = Ok r -> r = RHold demo_doc.
Proof.
  apply (acknowledged_never_lost demo_env demo_env demo 120 120 "alice" ev1 ["A002"; "A001"] "k1" world0 held_world paying_world).
  - apply world0_reachable.
  - vm_compute. reflexivity.
  - apply demo_reserve.
  - eapply rtc_l; [apply (sys_use demo _ (E := demo_env) payment_call)|].
    replace (run_use_case _ held_world).1 with paying_world; [apply rtc_refl|by vm_compute].
Defined.
