(* ===== verification/BoxOffice.v ===== *)
(** * The box office: what the system promises about seats

    The specification the database implements, without payments, clocks on the wall, retries or failures:
    every seat is free, held by one hold until an instant, or sold to one order; a hold claims its seats
    all at once, gives all of them up, or has all of them sold to its order.  [office_of] reads the office
    off a database. *)

From S2P Require Import Prelude Domain Schema Sql.

(** ** The machine *)

Inductive place : Type :=
| Free
| Held (hold : uuid) (until : Z)
| Sold (order : uuid).

#[global] Instance place_eq_dec : EqDecision place.
Proof. solve_decision. Defined.

(** Seats by event and name, and the order each hold was taken for. *)
Record office : Type := Office {
  of_seats : gmap (uuid * string) place;
  of_claims : gmap uuid uuid;
}.

(** Free, or held by a hold that has run out by [now]. *)
Definition available (now : Z) (p : place) : Prop :=
  match p with Free => True | Held _ t => t <= now | Sold _ => False end.

Definition held_in (hold : uuid) (p : place) : bool :=
  match p with Held h _ => bool_decide (h = hold) | _ => false end.

(** The seats [names] of the event. *)
Definition among (ev : uuid) (names : list string) (k : uuid * string) (_ : place) : bool :=
  bool_decide (k.1 = ev /\ k.2 ∈ names).

Inductive office_step (s : office) : office -> Prop :=
| step_take hold order ev names now until :
    s.(of_claims) !! hold = None -> (forall h, s.(of_claims) !! h <> Some order) -> now < until ->
    (forall n, n ∈ names -> exists p, s.(of_seats) !! (ev, n) = Some p /\ available now p) ->
    office_step s (Office (update_where (among ev names) (fun _ => Held hold until) s.(of_seats)) (<[hold := order]> s.(of_claims)))
| step_give_up hold :
    office_step s (Office (update_where (fun _ => held_in hold) (fun _ => Free) s.(of_seats)) s.(of_claims))
| step_sell hold order :
    s.(of_claims) !! hold = Some order -> (exists k t, s.(of_seats) !! k = Some (Held hold t)) ->
    office_step s (Office (update_where (fun _ => held_in hold) (fun _ => Sold order) s.(of_seats)) s.(of_claims))
| step_open k :
    s.(of_seats) !! k = None -> office_step s (Office (<[k := Free]> s.(of_seats)) s.(of_claims)).

(** ** What follows from the machine alone *)

Lemma held_in_true hold p : held_in hold p = true <-> exists t, p = Held hold t.
Proof.
  destruct p as [|h t|o]; simpl; [by split; [|intros []]| |by split; [|intros []]]. rewrite bool_decide_eq_true.
  split; [intros ->; by exists t|by intros (? & [= ->])].
Qed.

Lemma step_sold s s' k o : office_step s s' -> s.(of_seats) !! k = Some (Sold o) -> s'.(of_seats) !! k = Some (Sold o).
Proof.
  intros [hold order ev names now until _ _ _ Hav|hold|hold order _ _|k' Hn] Hk; simpl.
  - rewrite lookup_update_where, Hk. simpl. unfold among. case_bool_decide as Hc; [|done].
    destruct k as [ev' n]. destruct Hc as [Hev Hn]. simpl in *. subst ev'. destruct (Hav n Hn) as (p & Hp & Ha). simpl in *.
    rewrite Hk in Hp. by injection Hp as <-.
  - by rewrite lookup_update_where, Hk.
  - by rewrite lookup_update_where, Hk.
  - rewrite lookup_insert_ne; [done|]. intros ->. congruence.
Qed.

(** A sale is final. *)
Lemma sold_final s s' k o : rtc office_step s s' -> s.(of_seats) !! k = Some (Sold o) -> s'.(of_seats) !! k = Some (Sold o).
Proof. induction 1 as [|s1 s2 s3 Hs _ IH]; [done|]. intros Hk. by eapply IH, step_sold. Qed.

(** A held seat stays held, is given up, is sold to the order of its hold, or passes to a hold that
    starts when the old one has run out and outlives it. *)
Lemma step_held s s' k h t :
  office_step s s' -> s.(of_seats) !! k = Some (Held h t) ->
  exists p, s'.(of_seats) !! k = Some p
    /\ match p with
       | Free => True
       | Held h' t' => (h' = h /\ t' = t) \/ (s.(of_claims) !! h' = None /\ t < t')
       | Sold o => s.(of_claims) !! h = Some o
       end.
Proof.
  intros [hold order ev names now until Hnew _ Hlt Hav|hold|hold order Hc _|k' Hn] Hk; simpl.
  - rewrite lookup_update_where, Hk. simpl. eexists. split; [reflexivity|]. unfold among.
    case_bool_decide as Hin; [|by left]. destruct k as [ev' n]. destruct Hin as [Hev Hn]. simpl in *. subst ev'. destruct (Hav n Hn) as (p & Hp & Ha).
    simpl in *. rewrite Hk in Hp. injection Hp as <-. right. simpl in Ha. split; [done|lia].
  - rewrite lookup_update_where, Hk. simpl. eexists. split; [reflexivity|]. case_bool_decide; [done|by left].
  - rewrite lookup_update_where, Hk. simpl. eexists. split; [reflexivity|]. case_bool_decide as Heq; [by subst|by left].
  - exists (Held h t). split; [|by left]. rewrite lookup_insert_ne; [done|]. intros ->. congruence.
Qed.

(** Every hold has its own order, and once its seats are sold none of them is still held. *)
Record office_ok (s : office) : Prop := OfficeOk {
  ok_held : forall k h t, s.(of_seats) !! k = Some (Held h t) -> is_Some (s.(of_claims) !! h);
  ok_claims : forall h1 h2 o, s.(of_claims) !! h1 = Some o -> s.(of_claims) !! h2 = Some o -> h1 = h2;
  ok_sold : forall k o, s.(of_seats) !! k = Some (Sold o) ->
    exists h, s.(of_claims) !! h = Some o /\ forall k' t, s.(of_seats) !! k' <> Some (Held h t);
}.

(** Where a seat after an update of some seats to [p] comes from. *)
Lemma updated_place (P : uuid * string -> place -> bool) (p : place) (m : gmap (uuid * string) place) k q :
  update_where P (fun _ => p) m !! k = Some q -> (exists q0, m !! k = Some q0 /\ P k q0 = true /\ q = p) \/ (m !! k = Some q /\ P k q = false).
Proof. rewrite lookup_update_where. destruct (m !! k) as [q0|]; [|done]. simpl. intros [= <-]. destruct (P k q0) eqn:E; eauto. Qed.

Lemma step_ok s s' : office_step s s' -> office_ok s -> office_ok s'.
Proof.
  intros Hs [H1 H2 H3]. destruct Hs as [hold order ev names now until Hnew Hord Hlt Hav|hold|hold order Hc Hex|k0 Hn]; split; simpl.
  - intros k h t [(q & _ & _ & [= -> ->])|[Hk _]]%updated_place; [by rewrite lookup_insert_eq|].
    apply lookup_insert_is_Some'. right. by eapply H1.
  - intros h1 h2 o [[<- <-]|[_ Ha]]%lookup_insert_Some [[<- Hb]|[_ Hb]]%lookup_insert_Some; [done|..].
    + by destruct (Hord h2).
    + subst. by destruct (Hord h1).
    + by eapply H2.
  - intros k o [(q & _ & _ & ?)|[Hk _]]%updated_place; [done|]. destruct (H3 k o Hk) as (h & Hh & Hno).
    exists h. split; [rewrite lookup_insert_ne; [done|by intros ->; congruence]|].
    intros k' t [(q & _ & _ & [= -> _])|[Hk' _]]%updated_place; [congruence|by eapply Hno].
  - intros k h t [(q & _ & _ & ?)|[Hk _]]%updated_place; [done|by eapply H1].
  - done.
  - intros k o [(q & _ & _ & ?)|[Hk _]]%updated_place; [done|]. destruct (H3 k o Hk) as (h & Hh & Hno).
    exists h. split; [done|]. intros k' t [(q & _ & _ & ?)|[Hk' _]]%updated_place; [done|by eapply Hno].
  - intros k h t [(q & _ & _ & ?)|[Hk _]]%updated_place; [done|by eapply H1].
  - done.
  - intros k o [(q & Hq & Hheld & [= ->])|[Hk Hf]]%updated_place.
    + exists hold. split; [done|]. intros k' t [(q' & _ & _ & ?)|[Hk' Hf']]%updated_place; [done|].
      simpl in Hf'. by rewrite bool_decide_eq_true_2 in Hf'.
    + destruct (H3 k o Hk) as (h & Hh & Hno). exists h. split; [done|].
      intros k' t [(q & _ & _ & ?)|[Hk' _]]%updated_place; [done|by eapply Hno].
  - intros k h t [[_ ?]|[_ Hk]]%lookup_insert_Some; [done|by eapply H1].
  - done.
  - intros k o [[_ ?]|[_ Hk]]%lookup_insert_Some; [done|]. destruct (H3 k o Hk) as (h & Hh & Hno). exists h. split; [done|].
    intros k' t [[_ ?]|[_ Hk']]%lookup_insert_Some; [done|by eapply Hno].
Qed.

Lemma steps_ok s s' : rtc office_step s s' -> office_ok s -> office_ok s'.
Proof. induction 1 as [|s1 s2 s3 Hs _ IH]; [done|]. intros Hok. by eapply IH, step_ok. Qed.

(** ** The office a database stands for *)

Definition place_of (r : seat_row) : place :=
  match r.(s_booked_order_id), r.(s_hold_id), r.(s_reserved_until) with
  | Some o, _, _ => Sold o
  | None, Some h, Some t => Held h t
  | None, _, _ => Free
  end.

(** The order of each hold, from the hold of each order. *)
Definition claims_of (m : gmap uuid uuid) : gmap uuid uuid :=
  list_to_map ((fun oh : uuid * uuid => (oh.2, oh.1)) <$> map_to_list m).

Definition office_of (d : db) : office := Office (place_of <$> d.(event_seats)) (claims_of (o_hold_id <$> d.(orders))).
