(* ===== verification/Refinement.v ===== *)
(** * The system implements the box office

    Every step of every process, whatever fails in it, is a sequence of steps of the box office: the
    database moves its seats only by taking, giving up, selling and opening. *)

From S2P Require Import Prelude Domain Schema World Observability Postgres Sql Reservations Config.
From S2P Require Import Cache Browse Intake Fulfilment Workers Reconcile Service Api Cli Fixtures.
From S2P Require Import Invariant InvReserve InvPayment InvCallback InvFulfil InvWorkers Keeping System Example BoxOffice.

(** ** The office after each effect *)

Lemma claims_of_lookup m h o :
  (forall o1 o2 h, m !! o1 = Some h -> m !! o2 = Some h -> o1 = o2) -> claims_of m !! h = Some o <-> m !! o = Some h.
Proof.
  intros Huniq. unfold claims_of. rewrite <-elem_of_list_to_map.
  - rewrite list_elem_of_fmap. split.
    + intros ([o' h'] & [= -> ->] & Hin). by apply elem_of_map_to_list.
    + intros Ho. exists (o, h). split; [done|]. by apply elem_of_map_to_list.
  - rewrite <-list_fmap_compose. apply NoDup_fmap_2_strong; [|apply NoDup_map_to_list].
    intros [o1 h1] [o2 h2] H1%elem_of_map_to_list H2%elem_of_map_to_list Heq. simpl in Heq. subst. f_equal. by eapply Huniq.
Qed.

Lemma hold_ids_unique d o1 o2 h :
  inv_core d -> (o_hold_id <$> d.(orders)) !! o1 = Some h -> (o_hold_id <$> d.(orders)) !! o2 = Some h -> o1 = o2.
Proof.
  rewrite !lookup_fmap, !fmap_Some. intros Hc (r1 & H1 & ->) (r2 & H2 & He). by apply (ic_order_unique _ Hc o1 o2 r1 r2).
Qed.

Lemma claims_of_db d h o : inv_core d -> (office_of d).(of_claims) !! h = Some o <-> exists r, d.(orders) !! o = Some r /\ r.(o_hold_id) = h.
Proof.
  intros Hc. simpl. rewrite claims_of_lookup by (intros; by eapply hold_ids_unique). rewrite lookup_fmap, fmap_Some. naive_solver.
Qed.

(** Rows of a seat update against places. *)
Lemma place_update (P : uuid * string -> seat_row -> bool) (f : seat_row -> seat_row) (P' : uuid * string -> place -> bool) (p : place) (m : gmap (uuid * string) seat_row) :
  (forall k r, m !! k = Some r -> P k r = P' k (place_of r) /\ (P k r = true -> place_of (f r) = p)) ->
  place_of <$> update_where P f m = update_where P' (fun _ => p) (place_of <$> m).
Proof.
  intros H. apply map_eq. intros k. rewrite lookup_fmap, !lookup_update_where, lookup_fmap.
  destruct (m !! k) as [r|] eqn:Hk; [|done]. simpl. destruct (H k r Hk) as [<- Hp]. destruct (P k r); [by rewrite Hp|done].
Qed.

Lemma hold_ids_update (P : uuid -> order_row -> bool) (f : order_row -> order_row) (m : gmap uuid order_row) :
  (forall r, (f r).(o_hold_id) = r.(o_hold_id)) -> o_hold_id <$> update_where P f m = o_hold_id <$> m.
Proof.
  intros Hf. apply map_eq. intros k. rewrite !lookup_fmap, lookup_update_where. destruct (m !! k) as [r|]; [|done]. simpl.
  destruct (P k r); simpl; by rewrite ?Hf.
Qed.

(** Only [event_seats] and the holds of [orders] matter. *)
Lemma office_of_eq d d' :
  d'.(event_seats) = d.(event_seats) -> o_hold_id <$> d'.(orders) = o_hold_id <$> d.(orders) -> office_of d' = office_of d.
Proof. unfold office_of. by intros -> ->. Qed.

(** A row that keeps the CHECKs is held by [h] exactly when its place is. *)
Lemma held_place r h : seat_row_ok r = true -> bool_decide (r.(s_hold_id) = Some h) = held_in h (place_of r).
Proof.
  unfold seat_row_ok, place_of. destruct r as [pr [h'|] [t|] [o|] v]; simpl; intros Hok; bool_hyps; try done; try (by destruct Hok; naive_solver).
  apply bool_decide_ext. split; [by intros [= ->]|by intros ->].
Qed.

Section effects.
Context (d : db) (Hc : inv_core d).

Lemma office_granted actor ev hold order expires total currency seats rows :
  grantable ev hold order expires seats rows d ->
  office_of (granted actor ev hold order expires total currency seats rows d)
  = Office (update_where (among ev seats) (fun _ => Held hold expires) (office_of d).(of_seats)) (<[hold := order]> (office_of d).(of_claims)).
Proof.
  intros Hg. unfold office_of, granted. simpl. f_equal.
  - apply place_update. intros k r Hk. split; [done|]. intros Hin.
    pose proof (ga_checks _ _ _ _ _ _ _ Hg k r Hk Hin) as Hok. apply seat_hold_unbooked in Hok. unfold place_of, seat_hold. simpl. by rewrite Hok.
  - apply map_eq. intros h. apply option_eq. intros o. rewrite fmap_insert, claims_of_lookup; simpl.
    + rewrite !lookup_insert_Some, (claims_of_lookup _ h o) by (intros; by eapply hold_ids_unique).
      split; (intros [[? ?]|[? Ho]]; [left; done|right; split; [|done]]).
      * intros ->. apply lookup_fmap_Some in Ho as (r & Hr & Ho). by apply (ga_order_hold _ _ _ _ _ _ _ Hg o r Ho).
      * intros ->. rewrite lookup_fmap, (ga_order _ _ _ _ _ _ _ Hg) in Ho. done.
    + intros o1 o2 h' [[<- <-]|[_ H1]]%lookup_insert_Some [[<- H2]|[_ H2]]%lookup_insert_Some; [done|..].
      * apply lookup_fmap_Some in H2 as (r & Hr & Ho). by destruct (ga_order_hold _ _ _ _ _ _ _ Hg o2 r Ho).
      * subst. apply lookup_fmap_Some in H1 as (r & Hr & Ho). by destruct (ga_order_hold _ _ _ _ _ _ _ Hg o1 r Ho).
      * by eapply hold_ids_unique.
Qed.

Lemma office_released h o st :
  (forall k r, d.(event_seats) !! k = Some r -> seat_row_ok r = true) ->
  office_of (released h o st d) = Office (update_where (fun _ => held_in h) (fun _ => Free) (office_of d).(of_seats)) (office_of d).(of_claims).
Proof.
  intros Hok. unfold office_of, released. simpl. f_equal; [|f_equal; by apply hold_ids_update].
  apply place_update. intros k r Hk. specialize (Hok k r Hk). unfold held_by. rewrite <-(held_place r h Hok). split.
  - apply bool_decide_ext. split; [by intros [? _]|]. intros Hh. split; [done|].
    unfold seat_row_ok in Hok. bool_hyps. rewrite Hh in *. destruct (s_booked_order_id r); [|done]. naive_solver.
  - intros [_ Hb]%bool_decide_eq_true. unfold place_of, seat_free. simpl. by rewrite Hb.
Qed.

Lemma office_booked o h m' :
  office_of (booked o h m' d) = Office (update_where (fun _ => held_in h) (fun _ => Sold o) (office_of d).(of_seats)) (office_of d).(of_claims).
Proof.
  unfold office_of, booked, with_order_status. simpl. f_equal; [|f_equal; by apply hold_ids_update].
  apply place_update. intros k r Hk. split; [|done]. unfold seat_held. apply held_place. by apply (ic_seat_row _ Hc k r).
Qed.
End effects.

(** ** Computations that the office can follow *)

(** The database is consistent and its office is reached from [a0]. *)
Definition reach (a0 : office) (d : db) : Prop := inv d /\ rtc office_step a0 (office_of d).

(** [still m]: the office is the same after [m]. *)
Definition still {A} (m : W A) : Prop := forall x, keeps (fun d => office_of d = x) m.

Section follow.
Context `{E : Env} (a0 : office).

Lemma still_reach {A} (m : W A) : keeps inv m -> still m -> keeps (reach a0) m.
Proof. intros Hi Hs w [Hinv Hr]. split; [by apply Hi|]. by rewrite (Hs (office_of w.(w_db)) w eq_refl). Qed.

Lemma tx_reach {A} (body : W A) :
  (forall w, inv w.(w_db) -> wp body (fun _ w' => inv w'.(w_db)) w) -> still body -> keeps (reach a0) (transaction body).
Proof. intros Hi Hs. apply still_reach; [by apply keeps_transaction|]. intros x. by apply keeps_tx. Qed.

Lemma reach_step d s' : reach a0 d -> office_step (office_of d) s' -> rtc office_step a0 s'.
Proof. intros [_ Hr] Hs. by eapply rtc_r. Qed.

Lemma keeps_still_orders x P st o : keeps (fun d => office_of d = x) (update_order_status o P st).
Proof. apply keeps_update. intros d <-. apply office_of_eq; [done|]. simpl. by apply hold_ids_update. Qed.
End follow.

(** Statements that leave the office still. *)
Ltac still_leaf :=
  idtac; lazymatch goal with
  | |- keeps _ (update_order_status _ _ _) => apply keeps_still_orders
  | |- keeps _ (transaction _) => apply keeps_tx
  | |- keeps _ (update_db _) => apply keeps_update; let d := fresh "d" in intros d ?; assumption
  end.
Ltac stilling := intros ?; repeat (keeping_step still_leaf).

Section operations.
Context `{E : Env} (a0 : office).

(** ** Taking *)

Lemma take_step d actor ev hold order now expires total currency seats rows :
  inv d -> rtc office_step a0 (office_of d) -> grantable ev hold order expires seats rows d -> now < expires ->
  (forall s r, (s, r) ∈ rows -> free_at now r) ->
  rtc office_step a0 (office_of (granted actor ev hold order expires total currency seats rows d)).
Proof.
  intros [[Hc _ _ _] _] Hr Hg Hlt Hfree. eapply rtc_r; [exact Hr|]. rewrite office_granted by done.
  apply (step_take _ hold order ev seats now).
  - apply eq_None_not_Some. intros [o Ho]. apply claims_of_db in Ho as (r & Ho & Hh); [|done].
    by apply (ga_order_hold _ _ _ _ _ _ _ Hg o r Ho).
  - intros h Hh. apply claims_of_db in Hh as (r & Ho & _); [|done]. rewrite (ga_order _ _ _ _ _ _ _ Hg) in Ho. done.
  - done.
  - intros n Hn. destruct (ga_all _ _ _ _ _ _ _ Hg n Hn) as [r Hs]. exists (place_of r). simpl. rewrite lookup_fmap, Hs. split; [done|].
    destruct (Hfree n r) as [Hb Hu]; [by apply Hg|]. unfold place_of. rewrite Hb.
    destruct (s_hold_id r), (s_reserved_until r); try done. by apply Hu.
Qed.

Lemma reserve_tx_reach hs actor ev seats key w :
  1 <= hs -> reach a0 w.(w_db) -> wp (reserve_tx hs actor ev seats key) (fun _ w' => reach a0 w'.(w_db)) w.
Proof.
  intros Hhs [Hinv Hr]. apply wp_and; [by apply reserve_tx_inv|]. apply wp_reserve_tx; [apply Hinv| |].
  - by intros w' row r _ _ _ ->.
  - intros w' f sale now rows hold order expires doc _ Hf Hg _ ->.
    eapply (take_step _ actor ev hold order now expires); [done..| |apply Hf]. unfold expires, seconds, us_per_second. lia.
Qed.

(** A held seat's hold exists, so a command's own hold cannot be on it yet. *)
Lemma free_for_new d hold now k r : inv_core d -> d.(holds) !! hold = None -> d.(event_seats) !! k = Some r ->
  free_for hold now r -> free_at now r.
Proof.
  intros Hc Hnew Hk [Hb Hu]. split; [done|]. intros t Ht. destruct (Z.le_gt_cases t now) as [|Hlt]; [done|].
  specialize (Hu t Ht Hlt). destruct (ic_seat_hold _ Hc _ _ _ Hk Hu) as (hr & o & orow & it & Hh & _). congruence.
Qed.

Lemma persist_tx_reach p doc w : reach a0 w.(w_db) -> wp (persist_tx p doc) (fun _ w' => reach a0 w'.(w_db)) w.
Proof.
  intros [Hinv Hr]. apply wp_and; [by apply persist_tx_inv|]. apply wp_persist_tx; [apply Hinv|by intros w' c _ _ ->| |].
  - by intros w' row d _ _ _ _ _ _ ->.
  - intros w' f sale now rows durable _ _ Hf Hg _ ->.
    eapply (take_step _ _ _ _ _ now); [done..|apply Hf|]. intros s r Hin.
    apply (free_for_new w.(w_db) p.(cp_hold_id) now (p.(cp_event_id), s)); [apply Hinv|apply Hg|by apply Hg|by eapply Hf].
Qed.

(** ** Giving up *)

Lemma seats_released h o st d :
  (forall k r, d.(event_seats) !! k = Some r -> seat_row_ok r = true) ->
  forall k r, (released h o st d).(event_seats) !! k = Some r -> seat_row_ok r = true.
Proof.
  intros Hok k r' (r & Hk & ->)%released_seat. destruct (held_by h k r) eqn:Hheld; [|by eapply Hok].
  apply bool_decide_eq_true in Hheld as [_ Hb]. unfold seat_row_ok, seat_free. simpl. by rewrite Hb.
Qed.

Lemma release_tx_reach actor hold w : reach a0 w.(w_db) -> wp (release_tx actor hold) (fun _ w' => reach a0 w'.(w_db)) w.
Proof.
  intros [Hinv Hr]. apply wp_and; [by apply release_tx_inv|]. unfold release_tx. wp_sql. apply wp_release. intros w' f -> _.
  eapply rtc_r; [exact Hr|]. change (office_of (set_outbox_events f ?x)) with (office_of x).
  rewrite office_released; [apply step_give_up|]. apply (ic_seat_row _ (inv_c _ (inv_com _ Hinv))).
Qed.

Lemma expire_tx_reach limit w : reach a0 w.(w_db) -> wp (expire_tx limit) (fun _ w' => reach a0 w'.(w_db)) w.
Proof.
  intros [Hinv Hr]. apply wp_and; [by apply expire_tx_inv|]. unfold expire_tx.
  apply wp_bind, wp_clock, wp_bind, wp_sql, wp_bind, wp_skip_locked. intros l _ _. apply wp_bind.
  eapply wp_mono; [apply (wp_for_each (fun w' => rtc office_step a0 (office_of w'.(w_db)) /\
    forall k r, w'.(w_db).(event_seats) !! k = Some r -> seat_row_ok r = true))|].
  - intros [o r] w' _ [Hr' Hok]. apply wp_release. intros w2 f -> _. split; [|exact (seats_released _ _ _ _ Hok)].
    eapply rtc_r; [exact Hr'|]. change (office_of (set_outbox_events f ?x)) with (office_of x). rewrite office_released by done. apply step_give_up.
  - split; [done|]. apply (ic_seat_row _ (inv_c _ (inv_com _ Hinv))).
  - intros [] w' [Hr' _]. by apply wp_ret.
Qed.
(** ** Selling *)

(** A valid hold still holds a seat. *)
Lemma valid_holds_seat payload d o orow pr now valid dec :
  callback_facts payload d o orow pr now valid dec -> valid = true ->
  exists k r, d.(event_seats) !! k = Some r /\ r.(s_hold_id) = Some orow.(o_hold_id).
Proof.
  intros Hf Hv. rewrite (cf_valid _ _ _ _ _ _ _ _ Hf) in Hv. unfold callback_valid, hold_valid in Hv.
  destruct (seats_of_order o d) as [|[k r] rest] eqn:Hs; [done|]. destruct (_ !! _) as [hr|]; [|done]. simpl in Hv.
  exists k, r. assert ((k, r) ∈ seats_of_order o d) as Hin by (rewrite Hs; left). destruct k as [ev s].
  apply elem_of_seats_of_order in Hin as (it & _ & _ & Hk). split; [done|]. unfold seat_valid in Hv. bool_hyps. done.
Qed.

Lemma refunded_office dec p o h d :
  (forall k r, d.(event_seats) !! k = Some r -> seat_row_ok r = true) ->
  office_step (office_of d) (office_of (refunded dec p o h d)).
Proof.
  intros Hok. set (st := if bool_decide (dec = REFUND) then H_EXPIRED else H_RELEASED).
  assert (office_of (refunded dec p o h d) = office_of (released h o st d)) as ->.
  { unfold refunded. destruct (_ && _); (apply office_of_eq; [done|]); simpl; by apply hold_ids_update. }
  rewrite office_released by done. apply step_give_up.
Qed.

Lemma decided_reach payload d o orow pr now valid dec m' d' :
  callback_facts payload d o orow pr now valid dec -> decided payload d o orow dec m' d' ->
  inv d -> rtc office_step (office_of d) (office_of d').
Proof.
  intros Hf [_ [f ->]] [[Hc _ _ _] _]. change (office_of (set_outbox_events f ?x)) with (office_of x).
  change (office_of d) with (office_of (noted payload d)). destruct dec; simpl; [| | |reflexivity]; apply rtc_once.
  2,3: apply refunded_office, (ic_seat_row _ Hc).
  destruct (payment_decision_inv _ _ _ _ (eq_sym (cf_dec _ _ _ _ _ _ _ _ Hf))) as (_ & Hv & _).
  destruct (valid_holds_seat _ _ _ _ _ _ _ _ Hf Hv) as (k & r & Hk & Hh).
  rewrite office_booked by (by apply (inv_core_eq d)). apply step_sell.
  - apply claims_of_db; [by apply (inv_core_eq d)|]. exists orow. split; [apply Hf|done].
  - pose proof (held_place r (o_hold_id orow) (ic_seat_row _ Hc k r Hk)) as Hp. rewrite Hh, bool_decide_eq_true_2 in Hp by done.
    symmetry in Hp. apply held_in_true in Hp as [t Hp]. exists k, t. simpl. rewrite lookup_fmap, Hk. simpl. by rewrite Hp.
Qed.

Lemma callback_tx_reach payload w : reach a0 w.(w_db) -> wp (callback_tx payload) (fun _ w' => reach a0 w'.(w_db)) w.
Proof.
  intros [Hinv Hr]. apply wp_and; [by apply callback_tx_inv|]. apply wp_callback_tx; [apply Hinv| | |].
  - by intros w' c _ _ ->.
  - by intros w' pr _ _ _ ->.
  - intros w' o orow pr now valid dec m' Hf Hd _. etrans; [exact Hr|]. by eapply decided_reach.
Qed.

(** ** The store *)

Lemma checkout_still a h k : still (checkout_tx a h k).
Proof. unfold checkout_tx, idem, remember. stilling. Qed.

Lemma payment_still a o k out delay dups : still (initiate_payment_tx a o k out delay dups).
Proof. unfold initiate_payment_tx, insert_payment, idem, remember. stilling. Qed.

Lemma expire_batch_reach limit : keeps (reach a0) (expire_batch limit).
Proof. apply keeps_bind; [apply keeps_raise_if|intros _]. apply keeps_transaction. intros. by apply expire_tx_reach. Qed.

Lemma postgres_reach hs : 1 <= hs -> StoreKeeps (reach a0) (PostgresReservations hs).
Proof.
  intros Hhs. split; intros; simpl.
  - apply reserve_keeps_body. intros. by apply reserve_tx_reach.
  - apply still_reach; [apply (law_checkout (LawfulStore := postgres_lawful hs))|]. intros x. apply keeps_tx, checkout_still.
  - apply still_reach; [apply (law_get_order (LawfulStore := postgres_lawful hs))|]. unfold get_order. stilling.
  - apply still_reach; [apply (law_get_hold (LawfulStore := postgres_lawful hs))|]. unfold get_hold. stilling.
  - apply keeps_bind; [|intros; apply keeps_ret]. apply keeps_transaction. intros. by apply release_tx_reach.
  - apply expire_batch_reach.
  - apply keeps_bind; [apply expire_batch_reach|intros; apply keeps_ret].
  - apply still_reach; [apply (law_payment (LawfulStore := postgres_lawful hs))|]. intros x. apply keeps_tx, payment_still.
  - apply keeps_transaction. intros. by apply callback_tx_reach.
Qed.

(** ** The workers *)

Lemma snapshot_still ttl enc ev : still (snapshot ttl enc ev).
Proof. unfold snapshot. stilling. Qed.

Lemma publish_batch_still send ack limit : still (publish_batch send ack limit).
Proof.
  unfold publish_batch, publish_batch_body, claim_outbox, mark_published. stilling; first [apply send_rows_keeps|apply await_rows_keeps].
Qed.

Lemma refresh_rows_still ttl enc rows : still (refresh_rows ttl enc rows).
Proof.
  intros x. induction rows as [|kr rows IH]; cbn [refresh_rows]; unfold refresh_row_cache, changed_snapshot;
    repeat (keeping_step still_leaf); apply snapshot_still.
Qed.

Lemma refresh_batch_still ttl enc limit cooldown : still (refresh_batch ttl enc limit cooldown).
Proof. unfold refresh_batch, claim_refreshes, complete_refresh. stilling. apply refresh_rows_still. Qed.

Lemma event_still a b : still (event a b).
Proof. unfold event, insert_outbox. stilling. Qed.

Lemma consume_event_still env : still (consume_event env).
Proof. unfold consume_event, consume_tx, request_refresh, fulfil_order, settle_refund, insert_ticket. stilling; apply event_still. Qed.

Lemma reconcile_loop_still settings enc token deadline events : still (reconcile_loop settings enc token deadline events).
Proof.
  intros x. induction events as [|ev events IH]; cbn [reconcile_loop];
    unfold reconcile_event, snapshot_event, defer_reconciliation, complete_reconciliation, give_back;
    repeat (keeping_step still_leaf); apply snapshot_still.
Qed.

Lemma reconcile_pass_still settings enc fuel deadline : still (reconcile_pass settings enc fuel deadline).
Proof.
  intros x. induction fuel as [|fuel IH]; cbn [reconcile_pass]; unfold reconcile_batch, claim_due_events;
    repeat (keeping_step still_leaf); apply reconcile_loop_still.
Qed.

Lemma reconciler_turn_still settings enc fuel warm : still (reconciler_turn settings enc fuel warm).
Proof. unfold reconciler_turn, maintain_schedule, sample_schedule. stilling; apply reconcile_pass_still. Qed.

Lemma replay_still decode id : still (replay decode id).
Proof. unfold replay. stilling; apply consume_event_still. Qed.

Lemma attempts_still decode replace n raw offset w pos : office_of (attempts decode replace n raw offset (w, pos)).1.1.(w_db) = office_of w.(w_db).
Proof.
  apply (attempts_keep (fun d => office_of d = office_of w.(w_db))); [unfold attempt_message|unfold write_dead_letter|done];
    repeat (keeping_step still_leaf). apply consume_event_still.
Qed.

Lemma persist_command_reach p doc : keeps (reach a0) (persist_reservation_command p doc).
Proof.
  apply keeps_bind; [apply keeps_raise_if|intros _]. apply keeps_transaction. intros. by apply persist_tx_reach.
Qed.

Lemma snapshot_reach ttl enc ev : keeps (reach a0) (snapshot ttl enc ev).
Proof. apply still_reach; [apply snapshot_keeps|apply snapshot_still]. Qed.

Lemma persist_message_reach ttl enc m : keeps (reach a0) (persist_message ttl enc m).
Proof.
  destruct m as [[stream id] msg]. unfold persist_message, mark_failed, mark_durable, acknowledge.
  repeat (keeping_step ltac:(idtac; first [apply persist_command_reach|apply snapshot_reach])).
Qed.

Lemma persist_batch_reach ttl enc pages consumer limit : keeps (reach a0) (persist_reservation_batch ttl enc pages consumer limit).
Proof.
  unfold persist_reservation_batch.
  repeat (keeping_step ltac:(idtac; first [apply messages_keeps|apply persist_message_reach])).
Qed.

Lemma simulate_batch_reach post n : (forall p, keeps (reach a0) (post p)) -> keeps (reach a0) (simulate_batch post n).
Proof.
  intros Hpost.
  assert (forall token p, keeps (reach a0) (transaction (update_db (set_payment_attempts (update_where
    (fun k r => bool_decide (k = p) && bool_decide (r.(p_lease_token) = Some token)) payment_delivered))))) as Hd.
  { intros. apply tx_reach; [|stilling]. intros w Hw. wp_sql. by apply inv_payment_fields. }
  assert (forall token, keeps (reach a0) (transaction (claim_payment token))) as Hc.
  { intros. apply tx_reach; [|unfold claim_payment; stilling]. intros. by apply claim_payment_inv. }
  induction n as [|n IH]; cbn [simulate_batch]; unfold simulate_one; repeat (keeping_step ltac:(idtac; first [apply Hpost|apply Hc|apply Hd])).
Qed.
End operations.

(** ** Every step of the deployment *)

Section steps.
Context (dp : deployment) (Hhs : 1 <= dp.(dp_settings).(hold_seconds)).

(** Inserting a seat that is not there yet opens it. *)
Lemma opened a0 k r d :
  place_of r = Free -> d.(event_seats) !! k = None -> rtc office_step a0 (office_of d) -> rtc office_step a0 (office_of (set_event_seats <[k := r]> d)).
Proof.
  intros Hfree Hn Hr. eapply rtc_r; [exact Hr|]. unfold office_of at 2. simpl. rewrite fmap_insert, Hfree.
  apply (step_open (office_of d)). simpl. by rewrite lookup_fmap, Hn.
Qed.

Abbreviation opens a0 := (fun d => rtc office_step a0 (office_of d)).

Lemma open_seat `{E : Env} a0 k r :
  place_of r = Free -> keeps (opens a0) (d ← the_db; if has d.(event_seats) k then mret tt else update_db (set_event_seats <[k := r]>)).
Proof.
  intros Hfree. apply keeps_the_db. intros w Hr. destruct (has _ _) eqn:Hn; [done|]. apply has_false in Hn. by apply opened.
Qed.

Lemma copy_seat_opens `{E : Env} a0 kp : keeps (opens a0) (copy_seat kp).
Proof.
  apply keeps_the_db. intros w Hr. unfold require, raise_if, mbind, M_bind. destruct (0 <=? kp.2); [|done].
  destruct (has w.(w_db).(event_seats) _) eqn:Hn; [done|]. destruct (has w.(w_db).(events) _); [|done].
  apply has_false in Hn. by apply opened.
Qed.

(** Computations that open seats at most. *)
Ltac opening_leaf :=
  idtac; lazymatch goal with
  | |- keeps _ (transaction _) => apply keeps_tx
  | |- keeps _ (snapshot _ _ _) =>
      let w := fresh "w" in let Hw := fresh "Hw" in intros w Hw; by rewrite (snapshot_still _ _ _ _ w eq_refl)
  | |- keeps _ (update_db (set_events _)) => by apply keeps_update
  | |- keeps _ (copy_seat _) => apply copy_seat_opens
  | |- keeps _ (the_db ≫= _) => by apply open_seat
  end.
Ltac opening := repeat (keeping_step opening_leaf).

Lemma seed_opens `{E : Env} a0 enc : keeps (opens a0) (seed dp.(dp_settings) enc).
Proof. unfold seed, seed_tx. opening. Qed.

Lemma prepare_opens `{E : Env} a0 ut ge a : keeps (opens a0) (prepare dp.(dp_settings) dp.(dp_encode_layout) ut ge a).
Proof.
  apply prepare_keeps_copy; [|intros; opening]. intros. apply keeps_connect. intros w Hw. apply (keeps_wp (opens a0)); [|done].
  unfold copy_all, copy_event. opening.
Qed.

Lemma worker_tx_reach `{E : Env} a0 t : keeps (reach a0) (run_worker_tx dp t).
Proof.
  destruct t. 7: by apply keeps_bind; [apply persist_command_reach|intros; apply keeps_ret].
  all: apply still_reach; [apply worker_tx_keeps|]; simpl; unfold claim_outbox, mark_published, claim_refreshes, complete_refresh,
    claim_payment, maintain_schedule, sample_schedule, claim_due_events, complete_reconciliation, defer_reconciliation, give_back,
    write_dead_letter; stilling.
Qed.

Lemma worker_iteration_reach `{E : Env} a0 r consumer :
  keeps (reach a0) (worker_iteration dp.(dp_settings) dp.(dp_encode_layout) dp.(dp_send) dp.(dp_ack) dp.(dp_scan_pages) (post dp) r consumer).
Proof.
  apply keeps_try; [|intros; apply keeps_bind; [apply keeps_obs|intros; apply keeps_ret]]. destruct r; simpl;
    repeat first [apply still_reach; [apply publish_batch_keeps|apply publish_batch_still]|apply persist_batch_reach
                 |apply simulate_batch_reach; intros; by apply post_keep, postgres_reach
                 |apply still_reach; [apply refresh_batch_keeps|apply refresh_batch_still]
                 |apply keeps_measured, expire_batch_reach|apply keeps_bind; [|intros ?]|apply keeps_ret].
Qed.

Lemma step_office w w' : system_step dp w w' -> inv w.(w_db) -> rtc office_step (office_of w.(w_db)) (office_of w'.(w_db)).
Proof.
  intros Hs Hinv. set (a0 := office_of w.(w_db)). assert (reach a0 w.(w_db)) as Hr by done.
  destruct Hs as [E u|E raw offset pos Hf|E env Hf|E t|E r consumer|E fuel warm|E|E id Hf|E ut ge a].
  - apply (use_case_keep (reach a0)); [by apply api_store_keep, postgres_reach|done].
  - by rewrite attempts_still.
  - by rewrite (consume_event_still env a0).
  - by apply worker_tx_reach.
  - by apply worker_iteration_reach.
  - by rewrite (reconciler_turn_still _ _ _ _ a0).
  - by apply seed_opens.
  - by rewrite (replay_still _ _ a0).
  - by apply prepare_opens.
Qed.

Lemma steps_office w w' : rtc (system_step dp) w w' -> inv w.(w_db) -> rtc office_step (office_of w.(w_db)) (office_of w'.(w_db)).
Proof.
  induction 1 as [|w1 w2 w3 Hs _ IH]; [done|]. intros Hinv. etrans; [by apply step_office|]. by apply IH, (system_step_inv dp w1).
Qed.
End steps.

(** A database whose invariant holds is an office in order. *)
Lemma office_of_ok dp w : 1 <= dp.(dp_settings).(hold_seconds) -> reachable dp w -> office_ok (office_of w.(w_db)).
Proof.
  intros Hhs (w0 & Hinit & Hsteps). pose proof (initial_inv _ Hinit) as Hinv. eapply steps_ok; [by eapply steps_office|].
  destruct Hinit as [Hs (_ & Ho & _)]. assert (forall k p, (office_of w0.(w_db)).(of_seats) !! k = Some p -> p = Free) as Hfree.
  { intros k p (r & <- & Hk)%lookup_fmap_Some. destruct (Hs k r Hk) as (H1 & H2 & H3). unfold place_of. by rewrite H1, H3. }
  split.
  - by intros k h t ?%Hfree.
  - simpl. rewrite Ho, fmap_empty. unfold claims_of. rewrite map_to_list_empty. simpl. by setoid_rewrite lookup_empty.
  - by intros k o ?%Hfree.
Qed.

(** A row whose place is sold is booked and no longer held. *)
Lemma sold_place r o : seat_row_ok r = true -> place_of r = Sold o -> r.(s_booked_order_id) = Some o /\ r.(s_hold_id) = None.
Proof.
  unfold seat_row_ok, place_of. destruct r as [pr [h|] [t|] [o'|] v]; simpl; intros Hok; bool_hyps; try done; naive_solver.
Qed.

(** C2: the deployment implements the box office: in every reachable state each hold has its own order and
    no seat of a hold is held once one of them is sold; and every step of every process, under any clock,
    draws, lock conflicts and faults, changes who has which seat only by taking free or lapsed seats all
    together for a hold and an order that are both new, giving up all seats of one hold, selling all seats
    of one hold to the order it was taken for, or opening a new seat. *)
Theorem box_office_refinement dp w w' :
  1 <= dp.(dp_settings).(hold_seconds) -> reachable dp w -> system_step dp w w' ->
  office_ok (office_of w.(w_db)) /\ rtc office_step (office_of w.(w_db)) (office_of w'.(w_db)).
Proof. intros Hhs Hr Hs. split; [by eapply office_of_ok|]. apply (step_office dp); [done..|]. by eapply reachable_invariant. Qed.

Lemma box_office_refinement_witness :
  (office_ok (office_of paying_world.(w_db)) /\ rtc office_step (office_of paying_world.(w_db)) (office_of booked_world.(w_db))) /\
  (office_of paying_world.(w_db)).(of_seats) !! (ev1, "A001") = Some (Held 9 1120000007) /\
  (office_of booked_world.(w_db)).(of_seats) !! (ev1, "A001") = Some (Sold 10%positive).
Proof.
  split; [|split; by vm_compute]. apply (box_office_refinement demo).
  - by vm_compute.
  - apply paying_reachable.
  - replace booked_world with (use (UCallback paid_payload) paying_world) by (by vm_compute).
    apply (sys_use demo _ (E := demo_env) (UCallback paid_payload)).
Defined.

(** C3: a sale is final: a seat booked for an order stays booked for that order, with no hold on it, after
    any number of steps of any processes. *)
Theorem sold_seat_final dp w w' k r o :
  1 <= dp.(dp_settings).(hold_seconds) -> reachable dp w -> rtc (system_step dp) w w' ->
  w.(w_db).(event_seats) !! k = Some r -> r.(s_booked_order_id) = Some o ->
  exists r', w'.(w_db).(event_seats) !! k = Some r' /\ r'.(s_booked_order_id) = Some o /\ r'.(s_hold_id) = None.
Proof.
  intros Hhs Hinv%reachable_invariant Hsteps Hk Hb. pose proof (steps_office dp Hhs _ _ Hsteps Hinv) as Hr.
  assert ((office_of w.(w_db)).(of_seats) !! k = Some (Sold o)) as Hs.
  { simpl. rewrite lookup_fmap, Hk. simpl. unfold place_of. by rewrite Hb. }
  apply (sold_final _ _ _ _ Hr), lookup_fmap_Some in Hs as (r' & Hp & Hk'). exists r'. split; [done|].
  apply sold_place; [|done]. pose proof (steps_inv dp _ _ Hsteps Hinv) as [[Hc _ _ _] _]. by apply (ic_seat_row _ Hc k r').
Qed.

Lemma sold_seat_final_witness :
  exists r', ticketed_world.(w_db).(event_seats) !! (ev1, "A002") = Some r' /\ r'.(s_booked_order_id) = Some 10%positive /\ r'.(s_hold_id) = None.
Proof.
  apply (sold_seat_final demo booked_world ticketed_world (ev1, "A002") (SeatRow 250 None None (Some 10%positive) 2)).
  - by vm_compute.
  - apply booked_reachable.
  - eapply rtc_l; [apply (sys_consume demo booked_world (E := demo_env) "paid" 0 (ConsumerPos 1 0)); by apply demo_fresh|].
    replace (attempts _ _ 5 "paid" 0 _).1.1 with ticketed_world by (by vm_compute). apply rtc_refl.
  - by vm_compute.
  - done.
Defined.
