(* ===== verification/WellTyped.v ===== *)
(** * The database keeps to its schema

    Every foreign key points to a row, every UNIQUE column is unique and every CHECK of the migrations 001 to 006
    holds in each state the processes commit (the receipt tables of 009 are used by no code).  The constraints a statement tests itself ([checked]) survive each
    statement; those no statement tests, such as the hold a seat points to, come from the invariant. *)

From S2P Require Import Prelude Domain Schema World Observability Postgres Sql Reservations Config.
From S2P Require Import Cache Browse Intake Fulfilment Workers Reconcile Service Api Cli Fixtures.
From S2P Require Import Invariant InvReserve InvPayment InvCallback InvFulfil InvWorkers System Keeping Example.

(** ** Constraints *)

Definition refers {K A} `{Countable K} (m : gmap K A) (k : K) : Prop := is_Some (m !! k).

(** The constraints the statements test, over a fixed catalogue of events: those on single rows, and the
    UNIQUE columns of [reservation_commands]. *)
Record checked (evs : gmap uuid event_row) (d : db) : Prop := Checked {
  ck_events : d.(events) = evs;
  ck_event : map_Forall (fun _ r => String.length r.(ev_currency) = 3%nat /\ r.(ev_sale_starts) < r.(ev_sale_ends)) evs;
  ck_hold : map_Forall (fun _ r => refers evs r.(h_event_id)) d.(holds);
  ck_order : map_Forall (fun _ r => 0 <= r.(o_total) /\ refers evs r.(o_event_id)) d.(orders);
  ck_seat : map_Forall (fun k r => 0 <= r.(s_price) /\ refers evs k.1) d.(event_seats);
  ck_payment : map_Forall (fun _ r => 1 <= r.(p_target_deliveries) <= 10 /\ 0 <= r.(p_deliveries)) d.(payment_attempts);
  ck_callback : map_Forall (fun _ r => refers d.(payment_attempts) r.(c_payment_id)) d.(payment_callbacks);
  ck_refresh : map_Forall (fun ev r => refers evs ev /\ 0 < r.(rq_generation) /\
    0 <= r.(rq_completed_generation) <= r.(rq_generation)) d.(seat_refresh_requests);
  ck_reconcile : map_Forall (fun ev r => refers evs ev /\ 0 <= r.(rc_consecutive_failures) /\
    (r.(rc_lease_until) = None <-> r.(rc_lease_token) = None)) d.(event_reconciliation);
  ck_command : map_Forall (fun _ r => refers evs r.(rcmd_event_id)) d.(reservation_commands);
  ck_command_unique : forall c1 c2 r1 r2, d.(reservation_commands) !! c1 = Some r1 -> d.(reservation_commands) !! c2 = Some r2 ->
    r1.(rcmd_hold_id) = r2.(rcmd_hold_id) \/ r1.(rcmd_order_id) = r2.(rcmd_order_id) -> c1 = c2;
}.

(** The schema: [migrations/001_initial.sql] .. [006_reservation_commands.sql]. *)
Record well_typed (d : db) : Prop := WellTyped {
  wt_checked : checked d.(events) d;
  wt_order : map_Forall (fun _ r => refers d.(holds) r.(o_hold_id)) d.(orders);
  wt_order_unique : forall o1 o2 r1 r2, d.(orders) !! o1 = Some r1 -> d.(orders) !! o2 = Some r2 ->
    r1.(o_hold_id) = r2.(o_hold_id) -> o1 = o2;
  wt_seat : map_Forall (fun _ r => seat_row_ok r = true /\
    (forall h, r.(s_hold_id) = Some h -> refers d.(holds) h) /\
    (forall o, r.(s_booked_order_id) = Some o -> refers d.(orders) o)) d.(event_seats);
  wt_item : map_Forall (fun k r => refers d.(orders) k.1 /\ refers d.(event_seats) (r.(i_event_id), k.2)) d.(order_items);
  wt_booking : map_Forall (fun _ r => refers d.(orders) r.(b_order_id) /\
    refers d.(event_seats) (r.(b_event_id), r.(b_seat_id))) d.(bookings);
  wt_booking_unique : forall b1 b2 r1 r2, d.(bookings) !! b1 = Some r1 -> d.(bookings) !! b2 = Some r2 ->
    r1.(b_event_id) = r2.(b_event_id) -> r1.(b_seat_id) = r2.(b_seat_id) -> b1 = b2;
  wt_payment : map_Forall (fun _ r => refers d.(orders) r.(p_order_id)) d.(payment_attempts);
  wt_payment_unique : forall p1 p2 r1 r2, d.(payment_attempts) !! p1 = Some r1 -> d.(payment_attempts) !! p2 = Some r2 ->
    r1.(p_order_id) = r2.(p_order_id) -> p1 = p2;
  wt_refund : map_Forall (fun p r => refers d.(payment_attempts) p /\ refers d.(orders) r.(r_order_id)) d.(refund_requests);
  wt_ticket : map_Forall (fun _ r => refers d.(bookings) r.(t_booking_id)) d.(tickets);
  wt_ticket_unique : forall t1 t2 r1 r2, d.(tickets) !! t1 = Some r1 -> d.(tickets) !! t2 = Some r2 ->
    r1.(t_booking_id) = r2.(t_booking_id) -> t1 = t2;
}.

Lemma well_typed_of d : inv d -> checked d.(events) d -> well_typed d.
Proof.
  intros [[[H1 H2 H3 H4 H5 H6 H7 H8 H9] [P1 P2 P3 P4 P5 P6] _ [T1 T2 T3]] _] Hck. split; try done; unfold refers.
  - intros o r Ho. destruct (H1 o r Ho) as (h & -> & _). eauto.
  - intros k r Hk. split_and!; [by eapply H3|intros h Hh|intros o Ho].
    + destruct (H4 k r h Hk Hh) as (? & ? & ? & ? & -> & _). eauto.
    + destruct (H6 k r o Hk Ho) as (? & ? & ? & -> & _). eauto.
  - intros [o s] r Hi. destruct (H5 o s r Hi) as (orow & q & Ho & _ & Hs & _). simpl. rewrite Ho, Hs. eauto.
  - intros b r Hb. destruct (H7 b r Hb) as (q & Hs & Ho). destruct (H6 _ _ _ Hs Ho) as (orow & ? & ? & -> & _). rewrite Hs. eauto.
  - intros p r Hp. destruct (P5 p r Hp) as (pr & o & -> & _ & _ & -> & _). eauto.
Qed.

(** ** Statements *)

Lemma Forall_update {K A} `{Countable K} (Q : K -> A -> Prop) (P : K -> A -> bool) (f : A -> A) (m : gmap K A) :
  (forall k a, Q k a -> Q k (f a)) -> map_Forall Q m -> map_Forall Q (update_where P f m).
Proof. intros Hf Hm k a' (a & Hk & ->)%update_where_Some. specialize (Hm k a Hk). destruct (P k a); auto. Qed.

Lemma refers_update {K A} `{Countable K} (P : K -> A -> bool) (f : A -> A) (m : gmap K A) k :
  refers m k -> refers (update_where P f m) k.
Proof. unfold refers. rewrite lookup_update_where. intros [a ->]. eauto. Qed.

Lemma refers_insert {K A} `{Countable K} (m : gmap K A) i a k : refers m k -> refers (<[i := a]> m) k.
Proof. unfold refers. intros. apply lookup_insert_is_Some'. eauto. Qed.

#[local] Hint Resolve refers_update refers_insert : core.

(** One table of a record of checks after a statement. *)
Ltac checked_table :=
  simpl; first
  [ assumption
  | apply map_Forall_insert_2; [|assumption]
  | apply Forall_update; [|assumption]
  | apply map_Forall_delete; assumption
  | eapply map_Forall_impl; [eassumption|by auto] ].
Ltac checked_update :=
  apply keeps_update; let d := fresh "d" in intros d []; split; checked_table.

Section statements.
Context `{E : Env} (evs : gmap uuid event_row).
Abbreviation ck := (checked evs).

(** What was read was read from a checked database. *)
Lemma keeps_read {A B} P (g : db -> A) (f : A -> W B) : (forall d, P d -> keeps P (f (g d))) -> keeps P (sql g ≫= f).
Proof. intros Hf w Hw. by apply (Hf w.(w_db)). Qed.

Lemma keeps_require {B} P b e (f : unit -> W B) : (b = true -> keeps P (f tt)) -> keeps P (require b e ≫= f).
Proof. intros Hf w Hw. unfold require, raise_if, mbind, M_bind. destruct b; [|done]. by apply Hf. Qed.

Lemma has_event d k : ck d -> has d.(events) k = true -> refers evs k.
Proof. intros [He] Hh%has_true. unfold refers. by rewrite <-He. Qed.

Lemma insert_hold_ck id r : keeps ck (insert_hold id r).
Proof.
  apply keeps_read. intros d Hd. apply keeps_require. intros _. apply keeps_require. intros Hh%(has_event d _ Hd). checked_update. done.
Qed.

Lemma insert_order_ck id r : keeps ck (insert_order id r).
Proof.
  apply keeps_read. intros d Hd. apply keeps_require. intros Ht%Z.leb_le. do 2 (apply keeps_require; intros _).
  apply keeps_require. intros [_ Hh%(has_event d _ Hd)]%andb_true_iff. checked_update. done.
Qed.

Lemma insert_payment_ck id r : 0 <= r.(p_deliveries) -> keeps ck (insert_payment id r).
Proof.
  intros Hz. apply keeps_read. intros d Hd. apply keeps_require. intros Ht. do 3 (apply keeps_require; intros _).
  bool_hyps. checked_update. lia.
Qed.

Lemma insert_callback_ck id r : keeps ck (insert_callback id r).
Proof.
  apply keeps_the_db. intros w Hw. unfold require, raise_if, mbind, M_bind. destruct (negb _); [done|]. simpl.
  destruct (has w.(w_db).(payment_attempts) _) eqn:Hh; [|done]. apply has_true in Hh. simpl. destruct Hw. split; checked_table. done.
Qed.

Lemma insert_command_ck id r : keeps ck (insert_command id r).
Proof.
  apply keeps_the_db. intros w Hw. unfold require, raise_if, mbind, M_bind.
  destruct (has w.(w_db).(reservation_commands) id) eqn:Hid; [done|]. apply has_false in Hid. simpl.
  destruct (none_with _ _) eqn:Hn; [|done]. rewrite none_with_true in Hn. simpl.
  destruct (has w.(w_db).(events) _) eqn:Hh; [|done]. apply (has_event _ _ Hw) in Hh. simpl.
  assert (forall c c', w.(w_db).(reservation_commands) !! c = Some c' ->
    c'.(rcmd_hold_id) <> r.(rcmd_hold_id) /\ c'.(rcmd_order_id) <> r.(rcmd_order_id)) as Hnew.
  { intros c c' Hc. apply Hn in Hc. bool_hyps. tauto. }
  destruct Hw. split; try checked_table; [done|]. simpl.
  intros c1 c2 r1 r2 [[<- <-]|[Hne1 H1]]%lookup_insert_Some [[<- <-]|[Hne2 H2]]%lookup_insert_Some Heq; try done; [| |by eauto].
  - apply Hnew in H2. destruct H2, Heq; congruence.
  - apply Hnew in H1. destruct H1, Heq; congruence.
Qed.

Lemma complete_refresh_ck token at_ cooldown kr : keeps ck (complete_refresh token at_ cooldown kr).
Proof.
  unfold complete_refresh. apply keeps_bind; [apply keeps_clock|intros now]. apply keeps_the_db. intros w Hw.
  unfold require, raise_if, mbind, M_bind. case_bool_decide as Hok; [|done]. simpl. destruct Hw. split; try (simpl; assumption). simpl.
  intros k r' (r & Hr & ->)%update_where_Some. destruct (ck_refresh0 k r Hr) as (? & ? & ?). specialize (Hok k r Hr). cbn beta in Hok.
  destruct (_ && _); [|done]. specialize (Hok eq_refl). unfold generations_ok in Hok. simpl in *. bool_hyps. lia || (split_and!; [done|lia..]).
Qed.

Lemma update_seats_ck P f : (forall r, (f r).(s_price) = r.(s_price)) -> keeps ck (update_seats P f).
Proof. intros Hf. apply keeps_read. intros d Hd. apply keeps_require. intros _. checked_update. intros k r. by rewrite Hf. Qed.

Lemma request_refresh_ck ev seats : keeps ck (request_refresh ev seats).
Proof.
  apply keeps_read. intros d Hd. apply keeps_require. intros Hh%(has_event d _ Hd). apply keeps_bind; [apply keeps_clock|intros now].
  destruct (seat_refresh_requests d !! ev) as [r|] eqn:Hr.
  - destruct (ck_refresh _ _ Hd ev r Hr) as (_ & Hg & Hc). checked_update. simpl. split; [done|lia].
  - apply keeps_bind; [apply keeps_clock|intros next]. checked_update. done.
Qed.
End statements.

(** Statements on the tables of [checked]; the rows that remain are arithmetic. *)
Ltac ck_row := simpl; intros; simpl in *; intuition (auto; try lia; congruence).
Ltac ck_leaf :=
  idtac; lazymatch goal with
  | |- keeps _ (insert_hold _ _) => apply insert_hold_ck
  | |- keeps _ (insert_order _ _) => apply insert_order_ck
  | |- keeps _ (insert_payment _ _) => apply insert_payment_ck; simpl; lia
  | |- keeps _ (insert_callback _ _) => apply insert_callback_ck
  | |- keeps _ (insert_command _ _) => apply insert_command_ck
  | |- keeps _ (update_seats _ _) => apply update_seats_ck; done
  | |- keeps _ (request_refresh _ _) => apply request_refresh_ck
  | |- keeps _ (complete_refresh _ _ _ _) => apply complete_refresh_ck
  | |- keeps _ (transaction _) => apply keeps_tx
  | |- keeps _ (update_db _) => checked_update; ck_row
  end.
Ltac checking := repeat (keeping_step ck_leaf).

Section operations.
Context `{E : Env} (evs : gmap uuid event_row).
Abbreviation ck := (checked evs).

(** ** The store *)

Lemma event_ck a b : keeps ck (event a b).
Proof. unfold event, insert_outbox. checking. Qed.

Lemma grant_ck a ev h o ex t c seats rows : keeps ck (grant a ev h o ex t c seats rows).
Proof. unfold grant, insert_order_item. checking. apply event_ck. Qed.

Lemma release_ck o r st : keeps ck (_release o r st).
Proof. unfold _release, update_hold_status, update_order_status. checking. apply event_ck. Qed.

Lemma expire_batch_ck limit : keeps ck (expire_batch limit).
Proof. unfold expire_batch, expire_tx. checking. apply release_ck. Qed.

Lemma callback_tx_ck payload : keeps ck (callback_tx payload).
Proof.
  unfold callback_tx, book, refund_or_fail, insert_booking, insert_refund, update_hold_status, update_order_status.
  checking; first [apply event_ck|apply release_ck].
Qed.

Lemma reserve_tx_ck hs a ev seats k : keeps ck (reserve_tx hs a ev seats k).
Proof. unfold reserve_tx, idem, remember. checking. apply grant_ck. Qed.

Lemma persist_tx_ck p r : keeps ck (persist_tx p r).
Proof. unfold persist_tx, idem, remember. checking. apply grant_ck. Qed.

Lemma postgres_ck hs : StoreKeeps ck (PostgresReservations hs).
Proof.
  split; intros; simpl.
  - apply reserve_keeps_body. intros w Hw. by apply keeps_wp; [apply reserve_tx_ck|].
  - unfold checkout, checkout_tx, idem, remember. checking.
  - unfold get_order. checking.
  - unfold get_hold. checking.
  - unfold release, release_tx. checking. apply release_ck.
  - apply expire_batch_ck.
  - unfold expire_one. checking. apply expire_batch_ck.
  - unfold initiate_payment, initiate_payment_tx, idem, remember. checking.
  - unfold callback. checking. apply callback_tx_ck.
Qed.
(** ** The workers *)

Lemma snapshot_ck ttl enc ev : keeps ck (snapshot ttl enc ev).
Proof. unfold snapshot. checking. Qed.

Lemma publish_batch_ck send ack limit : keeps ck (publish_batch send ack limit).
Proof. unfold publish_batch, publish_batch_body, claim_outbox, mark_published. checking; first [apply send_rows_keeps|apply await_rows_keeps]. Qed.

Lemma refresh_rows_ck ttl enc rows : keeps ck (refresh_rows ttl enc rows).
Proof.
  induction rows as [|kr rows IH]; cbn [refresh_rows]; unfold refresh_row_cache, changed_snapshot; checking; apply snapshot_ck.
Qed.

Lemma refresh_batch_ck ttl enc limit cooldown : keeps ck (refresh_batch ttl enc limit cooldown).
Proof. unfold refresh_batch, claim_refreshes. checking. apply refresh_rows_ck. Qed.

Lemma persist_command_ck p r : keeps ck (persist_reservation_command p r).
Proof. unfold persist_reservation_command. checking. apply persist_tx_ck. Qed.

Lemma persist_batch_ck ttl enc pages consumer limit : keeps ck (persist_reservation_batch ttl enc pages consumer limit).
Proof.
  unfold persist_reservation_batch. repeat (keeping_step ltac:(idtac; first [apply messages_keeps|ck_leaf])).
  destruct x as [[stream id] msg]. unfold persist_message, mark_failed, mark_durable, acknowledge.
  checking; first [apply persist_command_ck|apply snapshot_ck].
Qed.

Lemma simulate_batch_ck post n : (forall p, keeps ck (post p)) -> keeps ck (simulate_batch post n).
Proof. intros Hpost. induction n as [|n IH]; cbn [simulate_batch]; unfold simulate_one, claim_payment; checking. apply Hpost. Qed.

(** An event is scheduled because it was found among the events. *)
Lemma seedable_event window now d ev : ck d -> ev ∈ seedable window now d -> refers evs ev.
Proof.
  intros Hd. unfold seedable. rewrite list_elem_of_fmap. intros ([k e] & -> & Hin). rewrite order_by_perm in Hin.
  apply list_elem_of_filter in Hin as [_ Hin%elem_of_map_to_list]. unfold refers. rewrite <-(ck_events _ _ Hd). eauto.
Qed.

Lemma maintain_schedule_ck settings : keeps ck (maintain_schedule settings).
Proof.
  unfold maintain_schedule, sample_schedule. apply keeps_measured, keeps_bind; [|intros ?; checking].
  apply keeps_tx, keeps_bind; [apply keeps_clock|intros now]. apply keeps_read. intros d Hd.
  apply keeps_bind; [|intros ?; checking]. apply keeps_for_each_in.
  intros ev (i & Hin%list_elem_of_lookup_2 & _)%elem_of_take. apply (seedable_event _ _ _ _ Hd) in Hin. checking.
Qed.

Lemma reconcile_loop_ck settings enc token deadline events : keeps ck (reconcile_loop settings enc token deadline events).
Proof.
  induction events as [|ev events IH]; cbn [reconcile_loop];
    unfold reconcile_event, snapshot_event, defer_reconciliation, complete_reconciliation, give_back; checking; apply snapshot_ck.
Qed.

Lemma reconcile_pass_ck settings enc fuel deadline : keeps ck (reconcile_pass settings enc fuel deadline).
Proof.
  induction fuel as [|fuel IH]; cbn [reconcile_pass]; unfold reconcile_batch, claim_due_events; checking; apply reconcile_loop_ck.
Qed.

Lemma reconciler_turn_ck settings enc fuel warm : keeps ck (reconciler_turn settings enc fuel warm).
Proof. unfold reconciler_turn. checking; first [apply maintain_schedule_ck|apply reconcile_pass_ck]. Qed.

Lemma consume_event_ck env : keeps ck (consume_event env).
Proof. unfold consume_event, consume_tx, fulfil_order, settle_refund, insert_ticket, update_order_status. checking; apply event_ck. Qed.

Lemma replay_ck decode id : keeps ck (replay decode id).
Proof. unfold replay. checking; apply consume_event_ck. Qed.

Lemma attempts_ck decode replace n raw offset w pos : ck w.(w_db) -> ck (attempts decode replace n raw offset (w, pos)).1.1.(w_db).
Proof. apply attempts_keep; [unfold attempt_message|unfold write_dead_letter]; checking. apply consume_event_ck. Qed.

Lemma worker_tx_ck dp t : keeps ck (run_worker_tx dp t).
Proof.
  destruct t; simpl; unfold claim_outbox, mark_published, claim_refreshes, claim_payment, claim_due_events,
    complete_reconciliation, defer_reconciliation, give_back, write_dead_letter; checking;
    first [apply persist_command_ck|apply maintain_schedule_ck].
Qed.

Lemma worker_iteration_ck dp r consumer :
  keeps ck (worker_iteration dp.(dp_settings) dp.(dp_encode_layout) dp.(dp_send) dp.(dp_ack) dp.(dp_scan_pages) (post dp) r consumer).
Proof.
  apply keeps_try; [|intros; apply keeps_bind; [apply keeps_obs|intros; apply keeps_ret]]. destruct r; simpl;
    repeat first [apply publish_batch_ck|apply persist_batch_ck|apply simulate_batch_ck; intros; apply post_keep, postgres_ck
                 |apply refresh_batch_ck|apply keeps_measured, expire_batch_ck|apply keeps_bind; [|intros ?]|apply keeps_ret].
Qed.
End operations.

(** ** Seeding adds an event *)

Lemma checked_new_event evs k e d :
  String.length e.(ev_currency) = 3%nat -> e.(ev_sale_starts) < e.(ev_sale_ends) ->
  checked evs d -> checked (<[k := e]> evs) (set_events <[k := e]> d).
Proof.
  intros He1 He2 [<- H0 H1 H2 H3 H4 H5 H6 H7 H8 H9]. split; simpl; try done; [by apply map_Forall_insert_2| ..];
    (eapply map_Forall_impl; [eassumption|]); simpl; intros; destruct_and?; eauto.
Qed.

Lemma seed_ck `{E : Env} settings enc : keeps (fun d => exists evs, checked evs d) (seed settings enc).
Proof.
  unfold seed. apply keeps_bind; [apply keeps_raise_if|intros _]. apply keeps_bind.
  2: intros _ w [evs Hw]; exists evs; by apply snapshot_ck.
  apply keeps_tx. unfold seed_tx. do 2 (apply keeps_bind; [apply keeps_clock|intros ?]). intros w [evs Hw].
  assert (forall evs', is_Some (evs' !! DEMO_EVENT) -> keeps (checked evs') (for_each (seqZ 1 100) (fun i =>
    d ← the_db; if has d.(event_seats) (DEMO_EVENT, demo_seat i) then mret tt
    else update_db (set_event_seats <[(DEMO_EVENT, demo_seat i) := SeatRow 250000 None None None 0]>)))) as Hseats.
  { intros evs' Hev. apply keeps_for_each. intros i. apply keeps_read. intros d Hd. destruct (has _ _); checking. }
  cbv zeta. unfold require at 1, raise_if, the_db, sql, mbind, M_bind. simpl. destruct (_ <? _) eqn:Hlt; [|by exists evs]. apply Z.ltb_lt in Hlt. simpl.
  destruct (has w.(w_db).(events) DEMO_EVENT) eqn:Hh.
  - exists evs. apply Hseats; [|done]. apply has_true in Hh. by rewrite <-(ck_events _ _ Hw).
  - eexists. apply Hseats; [|by apply checked_new_event]. by rewrite lookup_insert_eq.
Qed.

(** A fixture adds events, and seats of events. *)
Lemma copy_ck `{E : Env} ut id starts ends seats ids : keeps (fun d => exists evs, checked evs d) (copy_all ut id starts ends seats ids).
Proof.
  unfold copy_all. apply keeps_bind; [|intros _]; apply keeps_for_each; intros x.
  - apply keeps_read. intros d Hd. apply keeps_require. intros Hck. bool_hyps. apply keeps_require; intros _. apply keeps_update. intros d' [evs Hd'].
    eexists. apply checked_new_event; [lia|done|done].
  - intros w [evs Hw]. exists evs. revert w Hw. apply keeps_read. intros d Hd. apply keeps_require. intros Hp%Z.leb_le.
    apply keeps_require. intros _. apply keeps_require. intros Hh%(has_event evs d _ Hd). checked_update. done.
Qed.

Lemma prepare_ck `{E : Env} dp ut ge a : keeps (fun d => exists evs, checked evs d) (prepare dp.(dp_settings) dp.(dp_encode_layout) ut ge a).
Proof.
  apply prepare_keeps_copy.
  - intros. apply keeps_connect. intros w Hw. apply (keeps_wp (fun d => exists evs, checked evs d)); [apply copy_ck|done].
  - intros ev w [evs Hw]. exists evs. by apply snapshot_ck.
Qed.

(** ** Every step of the deployment *)

Lemma step_checked dp w w' : system_step dp w w' -> (exists evs, checked evs w.(w_db)) -> exists evs, checked evs w'.(w_db).
Proof.
  intros [E u|E raw offset pos Hf|E env Hf|E t|E r consumer|E fuel warm|E|E id Hf|E ut ge a] Hck. 7: by apply seed_ck. 8: by apply prepare_ck.
  all: destruct Hck as [evs Hck]; exists evs.
  - apply use_case_keep; [apply api_store_keep, postgres_ck|done].
  - by apply attempts_ck.
  - by apply consume_event_ck.
  - by apply worker_tx_ck.
  - by apply worker_iteration_ck.
  - by apply reconciler_turn_ck.
  - by apply replay_ck.
Qed.

Lemma steps_checked dp w w' : rtc (system_step dp) w w' -> (exists evs, checked evs w.(w_db)) -> exists evs, checked evs w'.(w_db).
Proof. induction 1 as [|w1 w2 w3 Hs _ IH]; [done|]. intros Hck. by eapply IH, step_checked. Qed.

(** C9: every state the deployment reaches from a catalogue that keeps to the schema of the migrations 001 to 006
    keeps to it: every foreign key has its row, every UNIQUE column is unique, and the CHECKs on totals, prices, seat
    columns, sale windows and currencies, delivery targets, refresh generations and reconciliation leases hold, although the
    statements that move seats, book and refund test none of the foreign keys they write. *)
Theorem reachable_well_typed dp w0 w :
  initial w0.(w_db) -> checked w0.(w_db).(events) w0.(w_db) -> rtc (system_step dp) w0 w -> well_typed w.(w_db).
Proof.
  intros Hinit%initial_inv Hck Hsteps. apply well_typed_of; [by eapply steps_inv|].
  destruct (steps_checked _ _ _ Hsteps) as [evs Hevs]; [by eexists|]. by rewrite (ck_events _ _ Hevs).
Qed.

Lemma world0_checked : checked world0.(w_db).(events) world0.(w_db).
Proof.
  split; try done; try apply map_Forall_empty.
  { intros k r. cbn [world0 w_db catalogue events set_event_seats set_events]. intros [_ <-]%lookup_singleton_Some. by split. }
  intros k r. cbn [world0 w_db catalogue event_seats set_event_seats set_events].
  intros [[<- <-]|[_ [[<- <-]|[_ [<- <-]%lookup_singleton_Some]]%lookup_insert_Some]]%lookup_insert_Some; (split; [done|]); by vm_compute; eexists.
Qed.

Lemma reachable_well_typed_witness : well_typed booked_world.(w_db).
Proof.
  apply (reachable_well_typed demo world0).
  - apply world0_initial.
  - apply world0_checked.
  - eapply rtc_l; [apply (sys_use demo _ (E := demo_env) hold_call)|].
    replace (run_use_case _ world0).1 with held_world by (by vm_compute).
    eapply rtc_l; [apply (sys_use demo _ (E := demo_env) payment_call)|].
    replace (run_use_case _ held_world).1 with paying_world by (by vm_compute).
    eapply rtc_l; [apply (sys_use demo _ (E := demo_env) (UCallback paid_payload))|].
    replace (run_use_case _ paying_world).1 with booked_world by (by vm_compute). apply rtc_refl.
Defined.
