(* ===== verification/FixtureFacts.v ===== *)
(** * What a fixture leaves in the database

    The rows a capacity fixture adds, exactly, and that it adds them all or none. *)

From stdpp Require Import pretty.
From S2P Require Import Prelude Domain Schema World Observability Postgres Sql Reservations Config.
From S2P Require Import Cache Workers Cli Fixtures InvFulfil InvWorkers System Keeping.

#[local] Open Scope Z_scope.

Definition free_seat (price : Z) : seat_row := SeatRow price None None None 0.

(** The rows of a table after a copy that met no row of its keys. *)
Record copied {K A} `{Countable K} (rows : list (K * A)) (m m' : gmap K A) : Prop := Copied {
  cp_rows : m' = list_to_map rows ∪ m;
  cp_nodup : NoDup rows.*1;
  cp_new : forall k, k ∈ rows.*1 -> m !! k = None;
}.

Lemma copied_nil {K A} `{Countable K} (m : gmap K A) : copied [] m m.
Proof. split; simpl; [by rewrite map_empty_union|constructor|by intros k ?%not_elem_of_nil]. Qed.

Lemma copied_snoc {K A} `{Countable K} rows (m m' : gmap K A) k a :
  copied rows m m' -> m' !! k = None -> copied (rows ++ [(k, a)]) m (<[k := a]> m').
Proof.
  intros [-> Hnd Hnew] Hk. apply lookup_union_None in Hk as [Hk Hm]. apply not_elem_of_list_to_map in Hk. split.
  - rewrite list_to_map_snoc by done. by rewrite insert_union_l.
  - rewrite fmap_app. apply NoDup_app. split; [done|]. split; [|apply NoDup_singleton].
    intros x Hx ->%list_elem_of_singleton. done.
  - intros x. rewrite fmap_app. intros [Hx|Hx%list_elem_of_singleton]%elem_of_app; [by apply Hnew|by subst].
Qed.

Lemma copied_hit {K A} `{Countable K} rows (m m' : gmap K A) k a : copied rows m m' -> (k, a) ∈ rows -> m' !! k = Some a.
Proof. intros [-> Hnd _] Hin. apply lookup_union_Some_l. by apply elem_of_list_to_map_1. Qed.

Lemma copied_miss {K A} `{Countable K} rows (m m' : gmap K A) k : copied rows m m' -> k ∉ rows.*1 -> m' !! k = m !! k.
Proof. intros [-> _ _] Hk. by apply lookup_union_r, not_elem_of_list_to_map_1. Qed.

Section facts.
Context `{E : Env} (settings : Settings) (encode_layout : layout_doc -> string).
Context (uuid_text : uuid -> string) (getenv : string -> option string).

(** ** The copies *)

(** Everything but events and seats is as in [d]. *)
Definition fixture_db (evs : gmap uuid event_row) (seats : gmap (uuid * string) seat_row) (d : db) : db :=
  set_event_seats (fun _ => seats) (set_events (fun _ => evs) d).

Lemma fixture_db_id d : fixture_db d.(events) d.(event_seats) d = d.
Proof. by destruct d. Qed.

Definition seat_rows (seats : Z) (ids : list uuid) : list ((uuid * string) * seat_row) :=
  (fun kp => (kp.1, free_seat kp.2)) <$> seat_keys seats ids.

Lemma wp_copy_all id starts ends seats ids w :
  wp (copy_all uuid_text id starts ends seats ids) (fun _ w' => exists evs ss,
    w'.(w_db) = fixture_db evs ss w.(w_db) /\
    copied (event_rows uuid_text id starts ends ids) w.(w_db).(events) evs /\
    copied (seat_rows seats ids) w.(w_db).(event_seats) ss) w.
Proof.
  unfold copy_all. apply wp_bind.
  eapply wp_mono; [apply (wp_for_each_prefix (fun pre w' => exists evs,
    w'.(w_db) = fixture_db evs w.(w_db).(event_seats) w.(w_db) /\ copied pre w.(w_db).(events) evs))|].
  - intros pre [k r] rest w' _ (evs & Hdb & Hc). unfold copy_event. apply wp_bind, wp_the_db.
    apply wp_bind, wp_require. intros _. apply wp_bind, wp_require. intros Hn%negb_true_iff%has_false. apply wp_update_db.
    exists (<[k := r]> evs). simpl. rewrite Hdb in *. split; [done|]. by apply copied_snoc.
  - exists w.(w_db).(events). split; [by rewrite fixture_db_id|apply copied_nil].
  - intros [] w1 (evs & Hdb1 & Hevs).
    eapply wp_mono; [apply (wp_for_each_prefix (fun pre w' => exists ss,
      w'.(w_db) = fixture_db evs ss w.(w_db) /\ copied ((fun kp => (kp.1, free_seat kp.2)) <$> pre) w.(w_db).(event_seats) ss))|].
    + intros pre [k price] rest w' _ (ss & Hdb & Hc). unfold copy_seat. apply wp_bind, wp_the_db. apply wp_bind, wp_require. intros _.
      apply wp_bind, wp_require. intros Hn%negb_true_iff%has_false. apply wp_bind, wp_require. intros _. apply wp_update_db.
      exists (<[k := free_seat price]> ss). simpl. rewrite Hdb in *. split; [done|]. rewrite fmap_app. by apply copied_snoc.
    + exists w.(w_db).(event_seats). split; [done|apply copied_nil].
    + intros [] w2 (ss & Hdb & Hss). by exists evs, ss.
Qed.
(** ** The whole script *)

(** [d'] is [d] with the rows of a fixture. *)
Definition filled (id : uuid) (starts ends seats : Z) (ids : list uuid) (d d' : db) : Prop :=
  exists evs ss, d' = fixture_db evs ss d /\ copied (event_rows uuid_text id starts ends ids) d.(events) evs
    /\ copied (seat_rows seats ids) d.(event_seats) ss.

Section filled.
Context (id : uuid) (starts ends seats : Z) (ids : list uuid) (d d' : db) (Hf : filled id starts ends seats ids d d').

Lemma event_rows_keys : (event_rows uuid_text id starts ends ids).*1 = ids.
Proof.
  unfold event_rows. rewrite fmap_imap. apply list_eq. intros i. rewrite list_lookup_imap. by destruct (ids !! i).
Qed.

Lemma filled_shows : NoDup ids /\ forall ev, ev ∈ ids -> d.(events) !! ev = None.
Proof. destruct Hf as (evs & ss & _ & [_ Hnd Hnew] & _). by rewrite event_rows_keys in *. Qed.

Lemma filled_event ev : ev ∈ ids -> exists title, d'.(events) !! ev = Some (EventRow title "THB" starts ends).
Proof.
  destruct Hf as (evs & ss & -> & Hc & _). intros [i Hi]%list_elem_of_lookup. eexists. eapply (copied_hit _ _ _ _ _ Hc).
  unfold event_rows. apply list_elem_of_lookup. exists i. rewrite list_lookup_imap, Hi. done.
Qed.

Lemma elem_of_seat_keys ev s p : ((ev, s), p) ∈ seat_keys seats ids <-> ev ∈ ids /\ p = 100 /\ exists n, 0 <= n < seats /\ s = seat_name n.
Proof.
  unfold seat_keys. rewrite list_elem_of_bind. split.
  - intros (ev' & (n & [= -> -> ->] & Hn%elem_of_seqZ)%list_elem_of_fmap & Hin). split_and!; [done|done|]. exists n. split; [lia|done].
  - intros (Hin & -> & n & Hn & ->). exists ev. split; [|done]. apply list_elem_of_fmap. exists n. split; [done|]. apply elem_of_seqZ. lia.
Qed.

Lemma filled_seat ev n : ev ∈ ids -> 0 <= n < seats -> d'.(event_seats) !! (ev, seat_name n) = Some (free_seat 100).
Proof.
  destruct Hf as (evs & ss & -> & _ & Hc). intros Hev Hn. eapply (copied_hit _ _ _ _ _ Hc). unfold seat_rows.
  apply list_elem_of_fmap. exists ((ev, seat_name n), 100). split; [done|]. apply elem_of_seat_keys. eauto.
Qed.

(** Nothing else changes. *)
Lemma filled_other k : k.1 ∉ ids -> d'.(event_seats) !! k = d.(event_seats) !! k.
Proof.
  destruct Hf as (evs & ss & -> & _ & Hc). intros Hk. apply (copied_miss _ _ _ _ Hc). intros Hin. apply Hk. unfold seat_rows in Hin.
  rewrite <-list_fmap_compose in Hin. apply list_elem_of_fmap in Hin as ([[ev s] p] & -> & Hin). by apply elem_of_seat_keys in Hin as [? _].
Qed.

Lemma filled_other_event ev : ev ∉ ids -> d'.(events) !! ev = d.(events) !! ev.
Proof. destruct Hf as (evs & ss & -> & Hc & _). intros Hk. apply (copied_miss _ _ _ _ Hc). by rewrite event_rows_keys. Qed.
End filled.

(** A computation whose outcome and database satisfy [Q]. *)
Definition ends_in {A} (m : W A) (Q : outcome A -> db -> Prop) (w : world) : Prop := Q (m w).2 (m w).1.(w_db).

Lemma ends_bind {A B} (m : W A) (f : A -> W B) Q w :
  match m w with (w1, Ok a) => ends_in (f a) Q w1 | (w1, Raise e) => Q (Raise e) w1.(w_db) end -> ends_in (m ≫= f) Q w.
Proof. unfold ends_in, mbind, M_bind. by destruct (m w) as [w1 [a|e]]. Qed.

Lemma ends_after {A B} (m : W A) (f : A -> W B) Q w :
  keeps (fun d => d = w.(w_db)) m -> (forall e, Q (Raise e) w.(w_db)) ->
  (forall a w1, m w = (w1, Ok a) -> w1.(w_db) = w.(w_db) -> ends_in (f a) Q w1) -> ends_in (m ≫= f) Q w.
Proof.
  intros Hm He Hf. specialize (Hm w eq_refl). apply ends_bind. destruct (m w) as [w1 [a|e]]; simpl in Hm; [by apply Hf|]. by rewrite Hm.
Qed.

(** A block that raises, or whose commit fails, leaves nothing; a commit whose answer is lost leaves all. *)
Lemma connect_ends {A} (block : W A) R w :
  (forall w1, w1.(w_db) = w.(w_db) -> wp block (fun a w2 => R a w2.(w_db)) w1) ->
  ends_in (psycopg_connect block) (fun r d => match r with Ok a => R a d | Raise _ => d = w.(w_db) \/ exists a, R a d end) w.
Proof.
  intros Hb. unfold ends_in, psycopg_connect, Postgres.begin, commit, the_db, sql, try_except, draw, mbind, M_bind. simpl.
  destruct (e_begin w.(w_tick)); [by left|]. simpl.
  pose proof (Hb (next_tick w) eq_refl) as Hblock. unfold wp, wpx in Hblock. destruct (block (next_tick w)) as [w2 [a|e]]; [|by left].
  simpl. destruct (e_commit w2.(w_tick)); simpl; [done|by left|right; by exists a].
Qed.

Lemma uuid4s_length n w l w' : uuid4s n w = (w', Ok l) -> length l = n.
Proof.
  revert w l w'. induction n as [|n IH]; intros w l w'; simpl; [by intros [= _ <-]|].
  intros (u & w1 & _ & (l' & w2 & Hl & [= _ <-])%bind_inv_ok)%bind_inv_ok. simpl. f_equal. by eapply IH.
Qed.

Lemma uuid4s_tick n w l w' : uuid4s n w = (w', Ok l) -> w'.(w_tick) = (w.(w_tick) + n)%nat.
Proof.
  revert w l w'. induction n as [|n IH]; intros w l w'; simpl; [intros [= <- _]; lia|].
  intros (u & w1 & [= <- _] & (l' & w2 & Hl & [= <- _])%bind_inv_ok)%bind_inv_ok. rewrite (IH _ _ _ Hl). simpl. lia.
Qed.

(** The window a run that starts at draw [tick] gives its shows: from five minutes before its first reading
    of the clock until the given hours after its second. *)
Definition sale_opens (a : fixture_args) (tick : nat) : Z := e_clock (tick + S (Z.to_nat a.(fa_shows)))%nat - seconds 300.
Definition sale_closes (a : fixture_args) (tick : nat) : Z :=
  e_clock (tick + S (S (Z.to_nat a.(fa_shows))))%nat + seconds (3600 * a.(fa_sale_hours)).

(** What [prepare] leaves, however it ends. *)
Definition prepared (a : fixture_args) (tick : nat) (d0 : db) (r : outcome fixture) (d : db) : Prop :=
  match r with
  | Ok fx => settings.(environment) = "development" /\ 1 <= a.(fa_shows) <= 2000 /\ 1 <= a.(fa_seats) <= 1000
      /\ fx.(fx_shows) = a.(fa_shows) /\ fx.(fx_seats_per_show) = a.(fa_seats) /\ Z.of_nat (length fx.(fx_show_ids)) = a.(fa_shows)
      /\ fx.(fx_sale_ends) = sale_closes a tick
      /\ filled fx.(fx_id) (sale_opens a tick) (sale_closes a tick) a.(fa_seats) fx.(fx_show_ids) d0 d
  | Raise _ => d = d0 \/ exists id ids, filled id (sale_opens a tick) (sale_closes a tick) a.(fa_seats) ids d0 d
  end.

Lemma validate_cases a w :
  (exists e, validate settings a w = (w, Raise e)) \/
  (validate settings a w = (w, Ok tt) /\ settings.(environment) = "development" /\ 1 <= a.(fa_shows) <= 2000 /\ 1 <= a.(fa_seats) <= 1000).
Proof.
  unfold validate, raise_if, mbind, M_bind. case_bool_decide as Henv; [by left; eexists|].
  destruct (fa_output_exists a); [by left; eexists|].
  destruct (negb ((1 <=? a.(fa_shows)) && _)) eqn:H1; [by left; eexists|]. destruct (negb ((1 <=? a.(fa_seats)) && _)) eqn:H2; [by left; eexists|].
  destruct (negb ((1 <=? a.(fa_sale_hours)) && _)); [by left; eexists|]. right. bool_hyps. repeat split; try done; lia.
Qed.

Lemma snapshots_keep P ids : keeps P (for_each ids (snapshot 30 encode_layout)).
Proof. apply keeps_for_each. intros ev. unfold snapshot. repeat (keeping_step ltac:(idtac; apply keeps_tx)). Qed.

Lemma prepare_ends a w : ends_in (prepare settings encode_layout uuid_text getenv a) (prepared a w.(w_tick) w.(w_db)) w.
Proof.
  unfold prepare. destruct (validate_cases a w) as [[e He]|(Hv & Henv & Hshows & Hseats)].
  { apply ends_bind. rewrite He. by left. }
  apply ends_bind. rewrite Hv. clear Hv.
  apply ends_after; [apply keeps_raise_if|by left|]. intros [] w1 Hw1 <-.
  assert (w1.(w_tick) = w.(w_tick)) as <- by (unfold raise_if in Hw1; destruct (_ || _); [done|by injection Hw1 as <-]).
  apply ends_after; [apply keeps_uuid4|by left|]. intros id w2 [= <- _] _.
  apply ends_after; [apply keeps_uuid4s|by left|]. intros ids w3 Hids Hdb3. pose proof (uuid4s_tick _ _ _ _ Hids) as Htick. apply uuid4s_length in Hids.
  simpl in Hdb3, Htick. rewrite <-Hdb3.
  apply ends_after; [apply keeps_clock|by left|]. intros now1 w4 [= <- Hn1] _.
  apply ends_after; [apply keeps_clock|by left|]. intros now2 w5 [= <- Hn2] _. cbv zeta.
  assert (now1 - seconds 300 = sale_opens a w1.(w_tick)) as -> by (unfold sale_opens; rewrite <-Hn1, Htick; do 2 f_equal; lia).
  assert (now2 + seconds (3600 * fa_sale_hours a) = sale_closes a w1.(w_tick)) as ->
    by (unfold sale_closes; rewrite <-Hn2; simpl; rewrite Htick; do 2 f_equal; lia).
  set (starts := sale_opens _ _). set (ends := sale_closes _ _). set (w5 := next_tick (next_tick w3)). change (w_db w3) with (w_db w5).
  pose proof (connect_ends (copy_all uuid_text id starts ends a.(fa_seats) ids) (fun _ d => filled id starts ends a.(fa_seats) ids w5.(w_db) d) w5) as Hc.
  apply ends_bind. unfold ends_in in Hc. destruct (psycopg_connect _ w5) as [w6 [[]|e]]; simpl in Hc.
  - assert (filled id starts ends (fa_seats a) ids (w_db w5) (w_db w6)) as Hfilled.
    { apply Hc. intros w' <-. apply wp_copy_all. }
    assert (forall e, prepared a w1.(w_tick) w5.(w_db) (Raise e) w6.(w_db)) as Hraise by (right; eauto).
    apply ends_after; [apply snapshots_keep|done|]. intros _ w7 _ Hw7. rewrite <-Hw7 in *.
    apply ends_after; [apply keeps_clock|done|]. intros now w8 _ Hw8. unfold ends_in. simpl. rewrite Hw8.
    split_and!; try done; lia.
  - simpl. destruct Hc as [Hc|[_ Hc]]; [intros w' <-; apply wp_copy_all|by left|right; eauto].
Qed.
End facts.
