(* ===== verification/Manifests.v ===== *)
(** * Load manifests

    [scripts/export_load_manifest.py] turns the result of a fixture into the manifest a load generator
    reads, and [scripts/warm_capacity_manifest.py] asks for every show of a manifest until it is served.
    [urlsplit], [jwt.encode] and the text of a UUID are parameters, and so are the answers of the API;
    files are the values read from or written to them. *)

From stdpp Require Import pretty.
From S2P Require Import Prelude Domain Schema World Config LoadGenerator.

#[local] Open Scope Z_scope.

(** [parser.error]: usage and exit code 2. *)
Definition parser_error (message : string) : exn := PyError "SystemExit" message.

(** ** export_load_manifest *)

Record split_url : Type := SplitUrl {
  sp_scheme : string;
  sp_netloc : string;
  sp_username : option string;
  sp_path : string;
  sp_query : string;
  sp_fragment : string;
}.

Record export_args : Type := ExportArgs {
  xa_origin : string;
  xa_under_tmp : bool;
  xa_viewers : Z;
  xa_seat_offset : Z;
}.

(** [text.rstrip("/")] *)
Fixpoint rstrip_slash (text : string) : string :=
  match text with
  | EmptyString => EmptyString
  | String c rest =>
      match rstrip_slash rest with
      | EmptyString => if bool_decide (String c EmptyString = "/") then EmptyString else String c EmptyString
      | r => String c r
      end
  end.

(** An origin: a scheme and a host, no credentials, path, query or fragment. *)
Definition bad_origin (t : split_url) : bool :=
  negb (bool_decide (t.(sp_scheme) ∈ ["http"; "https"])) ||
  bool_decide (t.(sp_netloc) = "") ||
  match t.(sp_username) with Some u => negb (bool_decide (u = "")) | None => false end ||
  negb (bool_decide (t.(sp_query) = "")) ||
  negb (bool_decide (t.(sp_fragment) = "")) ||
  negb (bool_decide (t.(sp_path) ∈ [""; "/"])).

(** [{"sub": .., "aud": "ticketing", "iss": "ticketing", "exp": ..}] *)
Record viewer_claims : Type := ViewerClaims { vc_sub : string; vc_aud : string; vc_iss : string; vc_exp : Z }.

Section export.
Context `{E : Env} (settings : Settings).
Context (urlsplit : string -> split_url) (uuid_text : uuid -> string) (jwt_encode : viewer_claims -> string -> string).

Definition viewer_token (identifier : uuid) (expiry i : Z) : string :=
  jwt_encode (ViewerClaims ("load-" +:+ uuid_text identifier +:+ "-" +:+ pretty i) "ticketing" "ticketing" expiry) settings.(jwt_secret).

(** [shows] is the [show_ids] member of the results file. *)
Definition export (a : export_args) (shows : list string) : W manifest :=
  _ ← raise_if (bool_decide (settings.(environment) <> "development")) (parser_error "Development token issuer only");
  _ ← raise_if (bad_origin (urlsplit a.(xa_origin))) (parser_error "Provide a test API origin without credentials or a path");
  _ ← raise_if (negb a.(xa_under_tmp)) (parser_error "Credential manifests must be written under ignored tmp/");
  _ ← raise_if (negb ((1 <=? a.(xa_viewers)) && (a.(xa_viewers) <=? 50000)) ||
                negb ((0 <=? a.(xa_seat_offset)) && (a.(xa_seat_offset) <? 300)))
        (parser_error "Invalid viewer count or seat offset");
  now ← clock_timestamp;
  identifier ← uuid4;
  let expiry := now + seconds 3600 in
  let tokens := viewer_token identifier expiry <$> seqZ 0 a.(xa_viewers) in
  mret (Manifest 1 "development" expiry (rstrip_slash a.(xa_origin)) shows tokens None a.(xa_seat_offset) 300 None None).
End export.

(** ** warm_capacity_manifest *)

(** What [response.json()] gives: an object with the text of its [code] member, a value without [get], or an
    error of the named type. *)
Inductive warm_body : Type := WarmObject (code : option string) | WarmOther | WarmInvalid (type : string).
Inductive warm_answer : Type := WarmStatus (status : Z) (body : warm_body) | WarmRaised (type : string).

Definition warm_code (r : warm_answer) : string :=
  match r with
  | WarmStatus status body =>
      if bool_decide (status ∈ [200; 304]) then "ok"
      else match body with
           | WarmObject code => pretty status +:+ ":" +:+ default "unknown" code
           | WarmOther => "AttributeError"
           | WarmInvalid type => type
           end
  | WarmRaised type => type
  end.

Record warm_row : Type := WarmRow { wr_attempt : nat; wr_counts : gmap string nat; wr_left : nat }.
Record warm_result : Type := WarmResult { wm_show_count : nat; wm_remaining : nat; wm_pass : bool; wm_history : list warm_row }.

(** [Counter(..)] *)
Definition counter (l : list string) : gmap string nat := foldr (fun c m => <[c := S (default O (m !! c))]> m) ∅ l.

Section warm.
(** The answer to the request for a show, by attempt and position. *)
Context (answer : nat -> nat -> warm_answer).

(** [for attempt in range(1, args.attempts + 1)]: the indices left, the history, and the requests made. *)
Fixpoint warm_loop (left attempt : nat) (unresolved : list nat) : list nat * list warm_row * list (nat * nat) :=
  match left with
  | O => (unresolved, [], [])
  | S left' =>
      let rows := (fun i => (i, warm_code (answer attempt i))) <$> unresolved in
      let still := (filter (fun ic => ic.2 <> "ok") rows).*1 in
      let row := WarmRow attempt (counter rows.*2) (length still) in
      let asked := (fun i => (attempt, i)) <$> unresolved in
      match still with
      | [] => (still, [row], asked)
      | _ => let '(u, h, r) := warm_loop left' (S attempt) still in (u, row :: h, asked ++ r)
      end
  end.

Definition warm_run (attempts : nat) (shows : list string) : warm_result * list (nat * nat) :=
  let '(unresolved, history, asked) := warm_loop attempts 1 (seq 0 (length shows)) in
  (WarmResult (length shows) (length unresolved)
     (bool_decide (unresolved = []) && negb (bool_decide (shows = []))) history, asked).

(** [main]: the exit code, or the usage error.  [timeout] in microseconds. *)
Definition warm_main (output_exists : bool) (attempts concurrency timeout : Z) (shows : list string) : outcome Z :=
  if output_exists || (Z.min attempts (Z.min concurrency timeout) <=? 0)
  then Raise (parser_error "Use a fresh output and positive limits")
  else Ok (if (warm_run (Z.to_nat attempts) shows).1.(wm_pass) then 0 else 1).
End warm.
