(* ===== verification/ManifestFacts.v ===== *)
(** * Fixture, manifest and load fit together

    The seats a load generator asks for are free seats, on sale, of the fixture its manifest was exported from; and
    warming a manifest passes exactly when every show has been served. *)

From stdpp Require Import pretty.
From S2P Require Import Prelude Domain Schema World Observability Postgres Sql Reservations Config.
From S2P Require Import Cache Workers Cli Fixtures InvFulfil System FixtureFacts Example.
From S2P Require Import LoadGenerator LoadFacts Manifests.

#[local] Open Scope Z_scope.

(** ** The exported manifest *)

Lemma export_inv `{E : Env} settings urlsplit uuid_text jwt_encode a shows w w' mf :
  export settings urlsplit uuid_text jwt_encode a shows w = (w', Ok mf) ->
  w'.(w_db) = w.(w_db) /\ mf.(mf_show_ids) = shows /\ mf.(mf_seat_offset) = a.(xa_seat_offset) /\ mf.(mf_seats_per_show) = 300
  /\ mf.(mf_hot_hold_show_id) = None /\ 0 <= a.(xa_seat_offset) < 300 /\ Z.of_nat (length mf.(mf_viewer_tokens)) = a.(xa_viewers).
Proof.
  unfold export, raise_if, mbind, M_bind. case_bool_decide; [done|]. destruct (bad_origin _); [done|]. destruct (xa_under_tmp a); [|done]. simpl.
  destruct (_ || _) eqn:Hb; [done|]. intros [= <- <-]. bool_hyps. simpl. rewrite length_fmap, length_seqZ. split_and!; try done; lia.
Qed.

(** At [t] the show of the item is on sale and its seat is free. *)
Definition on_sale (d : db) (uuid_text : uuid -> string) (t : Z) (it : item) : Prop :=
  exists ev row, it.(i_show) = uuid_text ev /\ d.(events) !! ev = Some row /\ row.(ev_sale_starts) <= t < row.(ev_sale_ends)
    /\ d.(event_seats) !! (ev, seat_name it.(i_seat)) = Some (free_seat 100).

(** C37: a fixture of at least 300 seats per show, exported as a manifest, feeds a load run: every ordinary
    hold of any workload the generator builds from it asks for a seat that exists, is free and is on
    sale at every instant from five minutes before the fixture first read the clock until the end it
    announces, the given hours after it read the clock again; and no two of them ask for the same seat of the
    same show. *)
Theorem fixture_supports_load (E1 E2 : Env) settings enc uuid_text getenv fa urlsplit jwt xa w w1 w2 fx mf mixed draws focus plan workload :
  prepare (E := E1) settings enc uuid_text getenv fa w = (w1, Ok fx) -> 300 <= fa.(fa_seats) ->
  export (E := E2) settings urlsplit uuid_text jwt xa (uuid_text <$> fx.(fx_show_ids)) w1 = (w2, Ok mf) ->
  allocate_all mf mixed draws focus 0 plan ∅ = Ok workload ->
  let first := (w.(w_tick) + S (Z.to_nat fa.(fa_shows)))%nat in
  (forall it t, it ∈ workload -> ordinary it ->
     e_clock (Env := E1) first - seconds 300 <= t < fx.(fx_sale_ends) -> on_sale w2.(w_db) uuid_text t it)
  /\ fx.(fx_sale_ends) = e_clock (Env := E1) (S first) + seconds (3600 * fa.(fa_sale_hours))
  /\ NoDup ((fun it => (it.(i_show), seat_name it.(i_seat))) <$> filter ordinary workload).
Proof.
  intros Hprep Hseats (-> & Hshows & Hoff & H300 & _ & Hr & _)%export_inv Hal first.
  pose proof (prepare_ends (E := E1) settings enc uuid_text getenv fa w) as Hp. unfold ends_in in Hp. rewrite Hprep in Hp. simpl in Hp.
  destruct Hp as (_ & _ & _ & _ & _ & _ & Hends & Hf).
  apply allocate_all_facts in Hal as (Hnd & _ & Hall). split_and!.
  - intros it t Hin Ho Ht. destruct (Hall it Hin) as [Hord _]. destruct (Hord Ho) as (Hs & Hshow & _). clear Hord.
    unfold count_of in Hs. rewrite lookup_empty in Hs. simpl in Hs. rewrite Hshows in Hshow.
    apply list_elem_of_fmap in Hshow as (ev & Hev & Hin'). destruct (filled_event _ _ _ _ _ _ _ _ Hf ev Hin') as [title Ht'].
    exists ev. eexists. split_and!; [done|exact Ht'|simpl; unfold sale_opens; fold first; lia|simpl; lia|]. eapply filled_seat; [done|done|lia].
  - rewrite Hends. unfold sale_closes, first. do 2 f_equal. lia.
  - assert ((fun it => (i_show it, seat_name (i_seat it))) <$> filter ordinary workload
      = (fun ss : string * Z => (ss.1, seat_name ss.2)) <$> ((fun it => (i_show it, i_seat it)) <$> filter ordinary workload)) as ->
      by by rewrite <-list_fmap_compose.
    apply NoDup_fmap_2; [|done]. intros [s1 n1] [s2 n2]. simpl. intros [= -> ->%(inj _)%(inj pretty)]. done.
Qed.

(** ** A run *)

Lemma with_outcome {A B} (x : A * B) b : x.2 = b -> x = (x.1, b).
Proof. intros <-. apply surjective_pairing. Qed.

Definition dev_settings : Settings := default_settings.
Definition demo_getenv (name : string) : option string := Some "url".
Definition demo_text (u : uuid) : string := pretty (Zpos u).
Definition demo_url (s : string) : split_url := SplitUrl "http" "api" None "" "" "".
Definition demo_jwt (c : viewer_claims) (secret : string) : string := c.(vc_sub).

(** The fixture of [seats] seats for one show, its manifest with the default offset, and a workload. *)
Section demo_run.
Context (seats : Z).
Definition demo_fixture_run : world * outcome fixture :=
  prepare (E := demo_env) dev_settings (fun _ => "layout") demo_text demo_getenv (FixtureArgs false 1 seats 6) world0.
Definition demo_fixture : fixture := Fixture 1 1000000016 22600000003 1 seats [2%positive].
Definition demo_export_run : world * outcome manifest :=
  export (E := demo_env) dev_settings demo_url demo_text demo_jwt (ExportArgs "http://api/" true 2 100) ["2"] demo_fixture_run.1.
Definition demo_manifest : manifest :=
  Manifest 1 "development" 4600000017 "http://api" ["2"] ["load-19-0"; "load-19-1"] None 100 300 None None.
End demo_run.
Definition demo_workload : outcome (list item) := allocate_all demo_manifest false (fun i => i) (fun _ => false) 0 (arrival_plan 40 1 false) ∅.

Lemma fixture_supports_load_witness :
  exists workload, demo_workload = Ok workload /\ length (filter ordinary workload) = 2%nat
  /\ forall it, it ∈ workload -> ordinary it -> on_sale (demo_export_run 300).1.(w_db) demo_text (seconds 1000) it.
Proof.
  eexists. split; [vm_compute; reflexivity|]. split; [vm_compute; reflexivity|].
  destruct (fixture_supports_load demo_env demo_env dev_settings (fun _ => "layout") demo_text demo_getenv (FixtureArgs false 1 300 6)
    demo_url demo_jwt (ExportArgs "http://api/" true 2 100) world0 (demo_fixture_run 300).1 (demo_export_run 300).1 (demo_fixture 300) demo_manifest
    false (fun i => i) (fun _ => false) (arrival_plan 40 1 false) (match demo_workload with Ok l => l | Raise _ => [] end)) as [H _].
  - apply with_outcome. vm_compute; reflexivity.
  - done.
  - apply with_outcome. vm_compute; reflexivity.
  - vm_compute; reflexivity.
  - intros it Hin Ho. apply H; [done|done|]. vm_compute. split; [intros [=]|reflexivity].
Defined.

(** A manifest names 300 seats per show whatever the fixture has: exported from a fixture of 10 seats with
    the default offset, the first hold of the load asks for a seat that does not exist. *)
Lemma manifest_ignores_fixture_size :
  (demo_fixture_run 10).2 = Ok (demo_fixture 10) /\ (demo_export_run 10).2 = Ok demo_manifest
  /\ match demo_workload with Ok (it :: _) => it.(i_write) = true /\ it.(i_seat) = 100 | _ => False end
  /\ (demo_export_run 10).1.(w_db).(event_seats) !! (2%positive, seat_name 100) = None.
Proof. split_and!; vm_compute; repeat split. Qed.

(** ** Warming *)

Section warm.
Context (answer : nat -> nat -> warm_answer).

(** The show was served at the attempt. *)
Definition served (t i : nat) : Prop := warm_code (answer t i) = "ok".
#[local] Instance served_dec t i : Decision (served t i).
Proof. unfold served. apply _. Defined.

Definition unserved (t : nat) (l : list nat) : list nat := filter (fun i => ~ served t i) l.

Lemma warm_still t l :
  (filter (fun ic : nat * string => ic.2 <> "ok") ((fun i => (i, warm_code (answer t i))) <$> l)).*1 = unserved t l.
Proof.
  induction l as [|i l IH]; [done|]. unfold unserved in *. csimpl. rewrite !filter_cons. simpl. unfold served at 1.
  repeat case_decide; csimpl; try done; by rewrite IH.
Qed.

Lemma warm_loop_S left t l :
  warm_loop answer (S left) t l =
    let row := WarmRow t (counter ((fun i => (i, warm_code (answer t i))) <$> l).*2) (length (unserved t l)) in
    match unserved t l with
    | [] => ([], [row], (fun i => (t, i)) <$> l)
    | u => let '(u', h, r) := warm_loop answer left (S t) u in (u', row :: h, ((fun i => (t, i)) <$> l) ++ r)
    end.
Proof. cbn [warm_loop]. rewrite warm_still. by destruct (unserved t l). Qed.

Lemma elem_of_unserved t l i : i ∈ unserved t l <-> i ∈ l /\ ~ served t i.
Proof. unfold unserved. rewrite list_elem_of_filter. tauto. Qed.

(** What is left after the loop, and which requests it made. *)
Lemma warm_loop_facts left t l :
  let '(u, h, r) := warm_loop answer left t l in
  (forall i, i ∈ u <-> i ∈ l /\ forall k, (t <= k < t + left)%nat -> ~ served k i)
  /\ (length h <= left)%nat
  /\ (forall k i, (k, i) ∈ r <-> i ∈ l /\ (t <= k < t + left)%nat /\ (forall j, (t <= j < k)%nat -> ~ served j i)).
Proof.
  revert t l. induction left as [|left IH]; intros t l.
  { simpl. split_and!; [|done|]; [intros i; split; [intros ?; split; [done|lia]|by intros []]|].
    intros k i. rewrite elem_of_nil. split; [done|]. intros (_ & ? & _). lia. }
  rewrite warm_loop_S. cbv zeta. assert (forall i, i ∈ unserved t l <-> i ∈ l /\ ~ served t i) as Hu by apply elem_of_unserved.
  assert (forall k i, (k, i) ∈ (fun i => (t, i)) <$> l <-> k = t /\ i ∈ l) as Hasked.
  { intros k i. rewrite list_elem_of_fmap. naive_solver. }
  destruct (unserved t l) as [|u0 us].
  - assert (forall i, i ∈ l -> served t i) as Hall.
    { intros i Hi. apply dec_stable. intros Hn. apply (not_elem_of_nil i). by apply Hu. }
    split_and!; [|simpl; lia|].
    + intros i. rewrite elem_of_nil. split; [done|]. intros [Hi Hn]. apply (Hn t); [lia|auto].
    + intros k i. rewrite Hasked. split; [intros [-> ?]; split_and!; [done|lia|lia|intros; lia]|].
      intros (Hi & Hk & Hn). split; [|done]. destruct (decide (k = t)) as [|]; [done|]. exfalso. apply (Hn t); [lia|auto].
  - specialize (IH (S t) (u0 :: us)). destruct (warm_loop answer left (S t) (u0 :: us)) as [[u h] r]. destruct IH as (H1 & H2 & H3).
    split_and!; [|simpl; lia|].
    + intros i. rewrite H1, Hu. split.
      * intros [[Hi Hs] Hk]. split; [done|]. intros k ?. destruct (decide (k = t)) as [->|]; [done|]. apply Hk. lia.
      * intros [Hi Hk]. split; [split; [done|apply Hk; lia]|]. intros k ?. apply Hk. lia.
    + intros k i. rewrite elem_of_app, Hasked, H3, Hu. split.
      * intros [[-> Hi]|([Hi Hs] & Hk & Hn)]; [split_and!; [done|lia|lia|intros; lia]|]. split_and!; [done|lia|lia|].
        intros j ?. destruct (decide (j = t)) as [->|]; [done|]. apply Hn. lia.
      * intros (Hi & Hk & Hn). destruct (decide (k = t)) as [->|]; [by left|right].
        split_and!; [done|apply Hn; lia|lia|lia|]. intros j ?. apply Hn. lia.
Qed.

(** Warming passes exactly when there is a show and every show was served within the attempts; a show is asked for
    until it is first served and not again; and there are at most as many rounds as attempts. *)
Theorem warm_sound attempts shows result asked :
  warm_run answer attempts shows = (result, asked) ->
  (result.(wm_pass) = true <-> shows <> [] /\ forall i, (i < length shows)%nat -> exists t, (1 <= t <= attempts)%nat /\ served t i)
  /\ (length result.(wm_history) <= attempts)%nat
  /\ forall t i, (t, i) ∈ asked <-> (i < length shows)%nat /\ (1 <= t <= attempts)%nat /\ forall j, (1 <= j < t)%nat -> ~ served j i.
Proof.
  unfold warm_run. pose proof (warm_loop_facts attempts 1 (seq 0 (length shows))) as Hf.
  destruct (warm_loop _ _ _ _) as [[u h] r]. destruct Hf as (H1 & H2 & H3). intros [= <- <-]. simpl. split_and!; [|done|].
  - rewrite andb_true_iff, negb_true_iff, bool_decide_eq_true, bool_decide_eq_false. split.
    + intros [-> Hne]. split; [done|]. intros i Hi. destruct (decide (Exists (fun t => served t i) (seq 1 attempts))) as [(t & Ht%elem_of_seq & Hs)%Exists_exists|Hn].
      * exists t. split; [lia|done].
      * exfalso. apply (not_elem_of_nil i), H1. split; [apply elem_of_seq; lia|]. intros k ? Hs. apply Hn, Exists_exists.
        exists k. split; [apply elem_of_seq; lia|done].
    + intros [Hne Hall]. split; [|done]. destruct u as [|i u]; [done|]. exfalso.
      destruct (proj1 (H1 i) (list_elem_of_here _ _)) as [Hi%elem_of_seq Hn]. destruct (Hall i) as (t & Ht & Hs); [lia|]. apply (Hn t); [lia|done].
  - intros t i. rewrite H3, elem_of_seq. split; intros (? & ? & Hn); split_and!; try lia; intros j ?; apply Hn; lia.
Qed.
End warm.
