(* ===== verification/Preflight.v ===== *)
(** * The database preflight

    [scripts/rds_preflight.py]: the read-only checks of a managed PostgreSQL target before it is used.  What the
    target answers is the parameter [target]; the medians of the reported timings are not modelled. *)

From S2P Require Import Prelude World LoadGenerator Manifests.

#[local] Open Scope Z_scope.

Definition REQUIRED_TABLES : gset string := list_to_set
  ["bookings"; "consumer_inbox"; "dead_letters"; "event_reconciliation"; "event_seats"; "events"; "holds";
   "idempotency_records"; "order_items"; "orders"; "outbox_events"; "payment_attempts"; "payment_callbacks";
   "refund_requests"; "schema_migrations"; "seat_refresh_requests"; "tickets"].
Definition REQUIRED_INDEXES : gset string := list_to_set
  ["event_reconciliation_due"; "event_seats_active_hold"; "events_pkey"; "events_sale_window"; "event_seats_pkey";
   "holds_expiry"; "idempotency_records_pkey"; "outbox_pending"; "seat_refresh_pending"].

(** [int(count * fraction + 0.999999)] in binary64; [fraction] has at most 53 bits after the point. *)
Definition ROUND_UP : dyadic := Dyadic 9007190247541737 53.
Definition scaled_index (count : Z) (fraction : dyadic) : Z :=
  let product := round53 (count * fraction.(dy_mantissa)) in
  round53 (product * 2 ^ (ROUND_UP.(dy_shift) - fraction.(dy_shift)) + ROUND_UP.(dy_mantissa)) / 2 ^ ROUND_UP.(dy_shift).

Definition preflight_percentile (values : list Z) (fraction : dyadic) : option Z :=
  match values with
  | [] => None
  | _ => let last := Z.of_nat (length values) - 1 in sort_values values !! Z.to_nat (Z.min last (scaled_index last fraction))
  end.

(** [files] are the migrations of the directory by name. *)
Definition migration_checksums (sha256 : string -> string) (files : list (string * string)) : gmap string string :=
  list_to_map ((fun nt => (nt.1, sha256 nt.2)) <$> files).

Record server : Type := Server {
  sv_version_num : Z;
  sv_encoding : string;
  sv_max_connections : Z;
  sv_in_recovery : bool;
  sv_read_only : string;
  sv_ssl : bool;
}.

(** The names of the checks that fail, in the order of the checks. *)
Definition failing (checks : list (bool * string)) : list string := omap (fun c => if c.1 : bool then Some c.2 else None) checks.

Definition validate_server (s : server) (minimum_version minimum_connections : Z) (require_tls : bool) : list string :=
  failing [(s.(sv_version_num) <? minimum_version * 10000, "server_version");
           (s.(sv_in_recovery), "primary_required");
           (negb (bool_decide (s.(sv_read_only) = "off")), "read_write_required");
           (negb (bool_decide (s.(sv_encoding) = "UTF8")), "utf8_required");
           (s.(sv_max_connections) <? minimum_connections, "connection_budget");
           (require_tls && negb s.(sv_ssl), "tls_required")].

Definition validate_schema (actual expected : gmap string string) (tables indexes : gset string) : list string :=
  failing [(negb (bool_decide (actual = expected)), "migration_checksums");
           (negb (bool_decide (REQUIRED_TABLES ⊆ tables)), "required_tables");
           (negb (bool_decide (REQUIRED_INDEXES ⊆ indexes)), "required_indexes")].

(** ** main *)

Record preflight_args : Type := PreflightArgs {
  pa_output_exists : bool;
  pa_attempts : nat;
  pa_transaction_attempts : nat;
  pa_minimum_version : Z;
  pa_minimum_connections : Z;
  pa_require_schema : bool;
  pa_allow_plaintext : bool;
}.

(** What the environment and the target answer: the URL when it is set and not empty, its host likewise, the
    addresses, the time of each TCP connection, session and transaction, the server's settings and its
    catalogue. *)
Record target : Type := Target {
  tg_url : option string;
  tg_host : outcome (option string);
  tg_dns : outcome nat;
  tg_tcp : nat -> outcome Z;
  tg_connect : nat -> outcome Z;
  tg_server : outcome server;
  tg_session : outcome unit;
  tg_transaction : nat -> outcome Z;
  tg_migrations : outcome (gmap string string);
  tg_tables : outcome (gset string);
  tg_indexes : outcome (gset string);
}.

Record timing : Type := Timing { ti_minimum : option Z; ti_p95 : option Z; ti_maximum : option Z }.
Definition timing_of (l : list Z) : timing := Timing (head (sort_values l)) (preflight_percentile l p95) (last (sort_values l)).

Record report : Type := Report {
  rp_failures : list string;
  rp_error : option exn;
  rp_timings : list timing;
  rp_server : option server;
}.

(** [f] for [n] attempts, stopping at the first that raises. *)
Fixpoint sample (f : nat -> outcome Z) (i n : nat) : outcome (list Z) :=
  match n with
  | O => Ok []
  | S n' =>
      match f i with
      | Raise e => Raise e
      | Ok t => match sample f (S i) n' with Ok l => Ok (t :: l) | Raise e => Raise e end
      end
  end.

(** The sessions: the first one that connects reads the settings. *)
Definition sessions (tg : target) (n : nat) : outcome (list Z * server) :=
  match n with
  | O => Raise (PyError "TypeError" "snapshot")
  | S n' =>
      match tg.(tg_connect) O with
      | Raise e => Raise e
      | Ok t =>
          match tg.(tg_server) with
          | Raise e => Raise e
          | Ok s => match sample tg.(tg_connect) 1 n' with Ok l => Ok (t :: l, s) | Raise e => Raise e end
          end
      end
  end.

Definition schema_failures (sha256 : string -> string) (files : list (string * string)) (tg : target) : outcome (list string) :=
  match tg.(tg_migrations), tg.(tg_tables), tg.(tg_indexes) with
  | Raise e, _, _ => Raise e
  | _, Raise e, _ => Raise e
  | _, _, Raise e => Raise e
  | Ok actual, Ok tables, Ok indexes => Ok (validate_schema actual (migration_checksums sha256 files) tables indexes)
  end.

Section preflight.
(** [isinstance(exc, (OSError, ValueError, KeyError, psycopg.Error))] *)
Context (caught : exn -> bool) (sha256 : string -> string).

(** The body of the [try]: the report so far, and the exception that ended it. *)
Definition inspect (a : preflight_args) (files : list (string * string)) (tg : target) : report * option exn :=
  match tg.(tg_dns) with
  | Raise e => (Report [] None [] None, Some e)
  | Ok _ =>
  match sample tg.(tg_tcp) 0 a.(pa_attempts) with
  | Raise e => (Report [] None [] None, Some e)
  | Ok tcp =>
  match sessions tg a.(pa_attempts) with
  | Raise e => (Report [] None [timing_of tcp] None, Some e)
  | Ok (connect, s) =>
  let failures := validate_server s a.(pa_minimum_version) a.(pa_minimum_connections) (negb a.(pa_allow_plaintext)) in
  let early := Report failures None [timing_of tcp; timing_of connect] (Some s) in
  match tg.(tg_session) with
  | Raise e => (early, Some e)
  | Ok _ =>
  match sample tg.(tg_transaction) 0 a.(pa_transaction_attempts) with
  | Raise e => (early, Some e)
  | Ok txs =>
  let timed := Report failures None [timing_of tcp; timing_of connect; timing_of txs] (Some s) in
  if a.(pa_require_schema) then
    match schema_failures sha256 files tg with
    | Raise e => (timed, Some e)
    | Ok l => (Report (failures ++ l) None timed.(rp_timings) (Some s), None)
    end
  else (timed, None)
  end end end end end.

(** The report and the exit code; usage errors and exceptions of other types propagate. *)
Definition preflight_main (a : preflight_args) (files : list (string * string)) (tg : target) : outcome (report * Z) :=
  if a.(pa_output_exists) then Raise (parser_error "Use a fresh output path")
  else if (a.(pa_attempts) <? 1)%nat || (a.(pa_transaction_attempts) <? 1)%nat then Raise (parser_error "Attempt counts must be positive")
  else match tg.(tg_url), tg.(tg_host) with
  | None, _ => Raise (parser_error "Set RDS_DATABASE_URL; credentials are read only from the environment")
  | _, Raise e => Raise e
  | _, Ok None => Raise (parser_error "RDS_DATABASE_URL must include a host")
  | Some _, Ok (Some _) =>
      match inspect a files tg with
      | (r, Some e) =>
          if caught e then Ok (Report (r.(rp_failures) ++ ["preflight_exception"]) (Some e) r.(rp_timings) r.(rp_server), 1)
          else Raise e
      | (r, None) => Ok (r, if bool_decide (r.(rp_failures) = []) then 0 else 1)
      end
  end.
End preflight.
