(* ===== verification/PreflightFacts.v ===== *)
(** * Migrations and the preflight agree

    [migrate] records every migration of the directory with its checksum, in one transaction, and runs only
    those not recorded yet; a database it has migrated passes the schema check of the preflight. *)

From S2P Require Import Prelude Domain Schema World Observability Postgres Sql Reservations Config.
From S2P Require Import Cache Workers Cli Fixtures InvFulfil System Keeping FixtureFacts Example.
From S2P Require Import LoadGenerator Manifests Preflight.

#[local] Open Scope Z_scope.

(** ** The preflight's verdict *)

Lemma failing_nil checks : failing checks = [] <-> Forall (fun c : bool * string => c.1 = false) checks.
Proof.
  unfold failing. induction checks as [|[b n] checks IH]; [done|]. rewrite Forall_cons, <-IH. destruct b; simpl; naive_solver.
Qed.

Lemma schema_ok actual expected tables indexes :
  validate_schema actual expected tables indexes = [] <-> actual = expected /\ REQUIRED_TABLES ⊆ tables /\ REQUIRED_INDEXES ⊆ indexes.
Proof.
  unfold validate_schema. rewrite failing_nil, !Forall_cons. cbn [fst]. rewrite !negb_false_iff, !bool_decide_eq_true. naive_solver.
Qed.

Lemma server_ok s v n tls :
  validate_server s v n tls = [] <->
  v * 10000 <= s.(sv_version_num) /\ s.(sv_in_recovery) = false /\ s.(sv_read_only) = "off" /\ s.(sv_encoding) = "UTF8"
  /\ n <= s.(sv_max_connections) /\ (tls = true -> s.(sv_ssl) = true).
Proof.
  unfold validate_server. rewrite failing_nil, !Forall_cons. cbn [fst]. rewrite !negb_false_iff, !bool_decide_eq_true, !Z.ltb_ge.
  destruct tls, (sv_ssl s); simpl; naive_solver.
Qed.

Lemma sample_ok f i n l : sample f i n = Ok l -> length l = n /\ forall k, (k < n)%nat -> exists t, f (i + k)%nat = Ok t /\ l !! k = Some t.
Proof.
  revert i l. induction n as [|n IH]; intros i l; simpl; [intros [= <-]; split; [done|lia]|].
  destruct (f i) as [t|] eqn:Hf; [|done]. destruct (sample f (S i) n) as [l'|] eqn:Hs; [|done]. intros [= <-].
  destruct (IH _ _ Hs) as [Hl Hk]. split; [by simpl; rewrite Hl|]. intros [|k] Hlt.
  - exists t. by rewrite Nat.add_0_r.
  - destruct (Hk k) as (t' & Ht & Hlk); [lia|]. exists t'. by rewrite <-Nat.add_succ_comm.
Qed.

(** A target that answered every probe and whose settings and catalogue are as required. *)
Record fit (sha256 : string -> string) (a : preflight_args) (files : list (string * string)) (tg : target) : Prop := Fit {
  fit_dns : exists n, tg.(tg_dns) = Ok n;
  fit_tcp : forall i, (i < a.(pa_attempts))%nat -> exists t, tg.(tg_tcp) i = Ok t;
  fit_connect : forall i, (i < a.(pa_attempts))%nat -> exists t, tg.(tg_connect) i = Ok t;
  fit_server : exists s, tg.(tg_server) = Ok s /\ a.(pa_minimum_version) * 10000 <= s.(sv_version_num) /\ s.(sv_in_recovery) = false
    /\ s.(sv_read_only) = "off" /\ s.(sv_encoding) = "UTF8" /\ a.(pa_minimum_connections) <= s.(sv_max_connections)
    /\ (a.(pa_allow_plaintext) = false -> s.(sv_ssl) = true);
  fit_session : tg.(tg_session) = Ok tt;
  fit_transaction : forall i, (i < a.(pa_transaction_attempts))%nat -> exists t, tg.(tg_transaction) i = Ok t;
  fit_schema : a.(pa_require_schema) = true -> tg.(tg_migrations) = Ok (migration_checksums sha256 files)
    /\ (exists t, tg.(tg_tables) = Ok t /\ REQUIRED_TABLES ⊆ t) /\ (exists x, tg.(tg_indexes) = Ok x /\ REQUIRED_INDEXES ⊆ x);
}.

Lemma schema_failures_nil sha256 files tg :
  schema_failures sha256 files tg = Ok [] -> tg.(tg_migrations) = Ok (migration_checksums sha256 files)
    /\ (exists t, tg.(tg_tables) = Ok t /\ REQUIRED_TABLES ⊆ t) /\ (exists x, tg.(tg_indexes) = Ok x /\ REQUIRED_INDEXES ⊆ x).
Proof.
  unfold schema_failures. destruct (tg_migrations tg), (tg_tables tg), (tg_indexes tg); try done.
  intros [= H]. apply schema_ok in H as (-> & ? & ?). split_and!; eauto.
Qed.

Lemma sessions_ok tg n l s : sessions tg n = Ok (l, s) -> tg.(tg_server) = Ok s /\ forall i, (i < n)%nat -> exists t, tg.(tg_connect) i = Ok t.
Proof.
  unfold sessions. destruct n as [|n]; [done|]. destruct (tg_connect tg 0) as [t|] eqn:H0; [|done]. destruct (tg_server tg); [|done].
  destruct (sample _ 1 n) as [l'|] eqn:Hs; [|done]. intros [= <- <-]. split; [done|]. apply sample_ok in Hs as [_ Hs].
  intros [|i] Hi; [eauto|]. destruct (Hs i) as (t' & Ht & _); [lia|]. eauto.
Qed.

(** An exit code of 0 means a fit target. *)
Lemma rds_preflight_sound caught sha256 a files tg r : preflight_main caught sha256 a files tg = Ok (r, 0) -> fit sha256 a files tg.
Proof.
  unfold preflight_main. destruct (pa_output_exists a); [done|]. destruct (_ || _); [done|].
  destruct (tg_url tg) as [url|]; [|done]. destruct (tg_host tg) as [[h|]|]; [|done|done].
  destruct (inspect sha256 a files tg) as [r' [e|]] eqn:Hi; [by destruct (caught e)|].
  case_bool_decide as Hf; [|done]. intros [= <-]. unfold inspect in Hi.
  destruct (tg_dns tg) as [n|] eqn:Hdns; [|done]. destruct (sample (tg_tcp tg) _ _) as [tcp|] eqn:Htcp; [|done].
  destruct (sessions tg _) as [[cs s]|] eqn:Hs; [|done]. destruct (tg_session tg) as [[]|] eqn:Hse; [|done].
  destruct (sample (tg_transaction tg) _ _) as [txs|] eqn:Htx; [|done]. cbv zeta in Hi. apply sessions_ok in Hs as [Hsv Hcs].
  apply sample_ok in Htcp as [_ Htcp]. apply sample_ok in Htx as [_ Htx].
  assert (validate_server s (pa_minimum_version a) (pa_minimum_connections a) (negb (pa_allow_plaintext a)) = [] /\
    (pa_require_schema a = true -> schema_failures sha256 files tg = Ok [])) as [Hserver Hschema].
  { destruct (pa_require_schema a); [|by injection Hi as <-]. destruct (schema_failures sha256 files tg) as [l|]; [|done].
    injection Hi as <-. apply app_eq_nil in Hf as [? ->]. done. }
  apply server_ok in Hserver as (? & ? & ? & ? & ? & Htls). split; try done.
  - eauto.
  - intros i Hi'. destruct (Htcp i Hi') as (t & ? & _). eauto.
  - exists s. split_and!; try done. intros Hp. apply Htls. by rewrite Hp.
  - intros i Hi'. destruct (Htx i Hi') as (t & ? & _). eauto.
  - intros Hreq. by apply schema_failures_nil, Hschema.
Qed.

(** ** Migrations *)

Section migrate.
Context `{E : Env} (execute : string -> W unit).
(** The text of a migration does not touch the table of migrations. *)
Context (Hexecute : forall text m, keeps (fun d => d.(schema_migrations) = m) (execute text)).

Abbreviation checksums := (migration_checksums e_sha256).

Lemma checksums_snoc pre n t : n ∉ pre.*1 -> checksums (pre ++ [(n, t)]) = <[n := e_sha256 t]> (checksums pre).
Proof.
  intros Hn. unfold migration_checksums. rewrite fmap_app. simpl. apply list_to_map_snoc. by rewrite <-list_fmap_compose.
Qed.

Lemma checksums_miss files n : n ∉ files.*1 -> checksums files !! n = None.
Proof. intros Hn. apply not_elem_of_list_to_map_1. by rewrite <-list_fmap_compose. Qed.

Lemma checksums_hit files n t : NoDup files.*1 -> (n, t) ∈ files -> checksums files !! n = Some (e_sha256 t).
Proof.
  intros Hnd Hin. apply elem_of_list_to_map_1; [by rewrite <-list_fmap_compose|]. apply list_elem_of_fmap. by exists (n, t).
Qed.

(** One migration: recorded before with the same text, or run and recorded now. *)
Lemma wp_apply_migration n t m w :
  w.(w_db).(schema_migrations) = m ->
  wp (apply_migration execute n t) (fun _ w' =>
    w'.(w_db).(schema_migrations) = <[n := e_sha256 t]> m /\
    match m !! n with Some c => c = e_sha256 t /\ w' = w | None => True end) w.
Proof.
  intros <-. unfold apply_migration. apply wp_bind, wp_sql. simpl. destruct (schema_migrations _ !! n) as [c|] eqn:Hc.
  - apply wp_raise_if. intros Heq%bool_decide_eq_false%dec_stable. subst c. by rewrite insert_id.
  - apply wp_bind. eapply wp_mono; [by apply (keeps_wp (fun d => d.(schema_migrations) = w.(w_db).(schema_migrations)))|].
    intros [] w1 Hw1. apply wp_update_db. simpl. by rewrite Hw1.
Qed.

(** The migrations already recorded agree with the directory. *)
Definition agrees (files : list (string * string)) (m : gmap string string) : Prop :=
  forall n t c, (n, t) ∈ files -> m !! n = Some c -> c = e_sha256 t.

Lemma wp_migrations files w :
  NoDup files.*1 ->
  wp (for_each files (fun nt => apply_migration execute nt.1 nt.2)) (fun _ w' =>
    w'.(w_db).(schema_migrations) = checksums files ∪ w.(w_db).(schema_migrations)
    /\ agrees files w.(w_db).(schema_migrations)
    /\ ((forall n, n ∈ files.*1 -> is_Some (w.(w_db).(schema_migrations) !! n)) -> w' = w)) w.
Proof.
  intros Hnd. set (m := w.(w_db).(schema_migrations)).
  apply (wp_for_each_prefix (fun pre w' => w'.(w_db).(schema_migrations) = checksums pre ∪ m /\ agrees pre m
    /\ ((forall n, n ∈ pre.*1 -> is_Some (m !! n)) -> w' = w))).
  - intros pre [n t] rest w' Hsplit (Hm & Hag & Hsame).
    assert (n ∉ pre.*1) as Hn.
    { rewrite Hsplit, fmap_app in Hnd. apply NoDup_app in Hnd as (_ & Hd & _). intros Hin. apply (Hd n Hin). csimpl. left. }
    eapply wp_mono; [by apply wp_apply_migration|]. intros [] w1 [H1 H2]. cbn [fst snd] in *.
    assert ((checksums pre ∪ m) !! n = m !! n) as Hlk by by apply lookup_union_r, checksums_miss.
    rewrite Hlk in H2. split_and!.
    + rewrite H1, checksums_snoc by done. by rewrite insert_union_l.
    + intros n' t' c [Hin|[= -> ->]%list_elem_of_singleton]%elem_of_app Hc; [by eapply Hag|]. rewrite Hc in H2. apply H2.
    + intros Hall. rewrite fmap_app in Hall. destruct (Hall n) as [c Hc]; [apply elem_of_app; right; csimpl; left|].
      rewrite Hc in H2. destruct H2 as [_ ->]. apply Hsame. intros n' Hn'. apply Hall, elem_of_app. by left.
  - split_and!; [unfold migration_checksums; simpl; by rewrite map_empty_union|by intros n t c ?%not_elem_of_nil|done].
Qed.

(** What [migrate] leaves, however it ends. *)
Definition migrated (files : list (string * string)) (d0 d : db) : Prop :=
  d.(schema_migrations) = checksums files ∪ d0.(schema_migrations) /\ agrees files d0.(schema_migrations)
  /\ ((forall n, n ∈ files.*1 -> is_Some (d0.(schema_migrations) !! n)) -> d = d0).

Lemma migrate_ends files w :
  NoDup files.*1 ->
  ends_in (migrate execute files) (fun r d => match r with
    | Ok _ => migrated files w.(w_db) d
    | Raise _ => d = w.(w_db) \/ migrated files w.(w_db) d
    end) w.
Proof.
  intros Hnd. pose proof (connect_ends (_ ← raise_if (bool_decide (files = [])) (RuntimeError "Run migrations from the repository root");
    for_each files (fun nt => apply_migration execute nt.1 nt.2)) (fun _ d => migrated files w.(w_db) d) w) as H.
  assert (forall (r : outcome unit) d (P Q : Prop), (match r with Ok _ => P | Raise _ => d = w.(w_db) \/ exists _ : unit, P end) ->
    match r with Ok _ => P | Raise _ => d = w.(w_db) \/ P end) as Hex by (intros [] d P Q; [done|]; intros [?|[_ ?]]; auto).
  unfold ends_in in *. apply Hex; [exact True|]. apply H. intros w1 Hw1. apply wp_bind, wp_raise_if. intros _.
  eapply wp_mono; [by apply wp_migrations|]. intros [] w2 (H1 & H2 & H3). rewrite Hw1 in *. split_and!; [done|done|]. intros Hall.
  by rewrite (H3 Hall).
Qed.

(** C36: [migrate] is atomic, checked and idempotent, and what the preflight expects: when it returns, every
    migration of the directory is recorded with the checksum of its text and every other record is
    kept; a recorded migration whose text has changed makes it fail without changing the database; run
    on a database that has them all, it changes nothing; and when no other migration was recorded, the
    preflight's comparison of checksums then succeeds, so that its schema check fails only for missing
    tables or indexes. *)
Theorem migrate_checked files w w' r :
  NoDup files.*1 -> migrate execute files w = (w', r) ->
  (r = Ok tt -> w'.(w_db).(schema_migrations) = checksums files ∪ w.(w_db).(schema_migrations))
  /\ (~ agrees files w.(w_db).(schema_migrations) -> w'.(w_db) = w.(w_db) /\ r <> Ok tt)
  /\ ((forall n, n ∈ files.*1 -> is_Some (w.(w_db).(schema_migrations) !! n)) -> w'.(w_db) = w.(w_db))
  /\ (r = Ok tt -> (forall n, is_Some (w.(w_db).(schema_migrations) !! n) -> n ∈ files.*1) -> forall tables indexes,
        validate_schema w'.(w_db).(schema_migrations) (checksums files) tables indexes
        = failing [(negb (bool_decide (REQUIRED_TABLES ⊆ tables)), "required_tables"); (negb (bool_decide (REQUIRED_INDEXES ⊆ indexes)), "required_indexes")]).
Proof.
  intros Hnd Hrun. pose proof (migrate_ends files w Hnd) as H. unfold ends_in in H. rewrite Hrun in H. cbn [fst snd] in H.
  split_and!.
  - intros ->. apply H.
  - intros Hag. destruct r as [[]|e]; [by destruct H as (_ & ? & _)|]. destruct H as [?|(_ & ? & _)]; done.
  - intros Hall. destruct r as [[]|e]; [by apply H|]. destruct H as [?|(_ & _ & Hs)]; [done|by apply Hs].
  - intros -> Hsub tables indexes. destruct H as (Hm & Hag & _).
    assert (w'.(w_db).(schema_migrations) = checksums files) as ->; [|unfold validate_schema; by rewrite bool_decide_eq_true_2].
    rewrite Hm. apply map_eq. intros n. rewrite lookup_union. destruct (w.(w_db).(schema_migrations) !! n) as [c|] eqn:Hc.
    + apply mk_is_Some, Hsub, list_elem_of_fmap in Hc as ([n' t] & -> & Hin). cbn [fst].
      by rewrite (checksums_hit files n' t Hnd Hin).
    + by destruct (checksums files !! n).
Qed.
End migrate.

Definition two_files : list (string * string) := [("001_initial.sql", "CREATE"); ("002_seat_refresh.sql", "ALTER")].
Definition migrated_world : world := (migrate (E := demo_env) (fun _ => mret tt) two_files world0).1.

Lemma migrate_checked_witness :
  migrated_world.(w_db).(schema_migrations) = migration_checksums (e_sha256 (Env := demo_env)) two_files ∪ ∅
  /\ validate_schema migrated_world.(w_db).(schema_migrations) (migration_checksums (e_sha256 (Env := demo_env)) two_files) REQUIRED_TABLES ∅
     = ["required_indexes"].
Proof.
  destruct (migrate_checked (E := demo_env) (fun _ => mret tt) (fun _ _ => keeps_ret _ _) two_files world0 migrated_world (Ok tt))
    as (H1 & _ & _ & H4).
  - apply (bool_decide_unpack _). vm_compute. done.
  - vm_compute. reflexivity.
  - split; [by apply H1|]. rewrite (H4 eq_refl); [vm_compute; reflexivity|]. intros n [c Hc]. vm_compute in Hc. done.
Defined.
