(* ===== verification/Contention.v ===== *)
(** * Contention for one seat

    [scripts/hot_seat_load.py]: many viewers ask for one seat at once; [scripts/contention_timing.py]: the same wave
    from several worker processes over a fixed number of lanes, merged and judged by a coordinator;
    [scripts/verify_contention_matrix.py] and [scripts/analyze_hold_contention.py] read their results.  What the
    API answers, the completion order and the clocks are parameters; instants are microseconds, measured
    times nanoseconds. *)

From stdpp Require Import pretty.
From S2P Require Import Prelude World LoadGenerator.

#[local] Open Scope Z_scope.

Definition ValueError (message : string) : exn := PyError "ValueError" message.

(** [Counter] over the rows. *)
Definition tally_of (l : list string) : gmap string nat := foldr (fun s m => <[s := S (default O (m !! s))]> m) ∅ l.
Definition tally_count (m : gmap string nat) (s : string) : nat := default O (m !! s).

(** ** hot_seat_load *)

Record hot_args : Type := HotArgs {
  ha_output_is_manifest : bool;
  ha_output_exists : bool;
  ha_contenders : nat;
  ha_seat : Z;
  ha_reservation_mode : string;
}.

Definition check_hot (a : hot_args) (m : manifest) (now : Z) : outcome string :=
  if negb (m.(mf_schema_version) =? 1) || negb (bool_decide (m.(mf_environment) = "development"))
  then Raise (ValueError "Development manifest required")
  else if a.(ha_output_is_manifest) || a.(ha_output_exists) then Raise (ValueError "Use a fresh result path, never the credential path")
  else if m.(mf_expires_at) <? now + seconds 300 then Raise (ValueError "Fresh credentials required")
  else if (length m.(mf_viewer_tokens) <? a.(ha_contenders))%nat || negb ((0 <=? a.(ha_seat)) && (a.(ha_seat) <? m.(mf_seats_per_show)))
  then Raise (ValueError "Insufficient viewers or invalid seat")
  else match m.(mf_show_ids) with
       | [] => Raise (PyError "IndexError" "list index out of range")
       | show :: _ => Ok show
       end.

Definition winner_status (a : hot_args) : string := if bool_decide (a.(ha_reservation_mode) = "redis-first") then "202" else "201".

(** The request of a contender: its seat, token and idempotency key. *)
Definition hot_request (a : hot_args) (m : manifest) (show run_id : string) (index : nat) : option message :=
  (fun token => PostHold show a.(ha_seat) token (run_id +:+ "-" +:+ pretty index)) <$> m.(mf_viewer_tokens) !! index.

(** The answer to a hold, with its [hold_id] member. *)
Record hold_answer : Type := HoldAnswer { hn_answer : http_answer; hn_hold_id : option string }.
Inductive hold_reply : Type := HoldGot (r : hold_answer) | HoldError (type : string).

Record hot_row : Type := HotRow {
  hr_index : nat;
  hr_status : string;
  hr_code : option string;
  hr_request_id : option string;
  hr_latency : Z;
  hr_offset : Z;
  hr_hold_id : option string;
}.

Section hot.
Context (canonical : string -> option string).

(** [latency] and [offset] are what the attempt measured. *)
Definition hot_attempt (a : hot_args) (index : nat) (latency offset : Z) (r : hold_reply) : outcome hot_row :=
  match r with
  | HoldError type => Ok (HotRow index "transport_error" (Some type) None latency offset None)
  | HoldGot h =>
      let status := pretty h.(hn_answer).(ha_status) in
      if bool_decide (status = winner_status a) then
        match h.(hn_answer).(ha_body) with
        | JsonObject _ => Ok (HotRow index status None None latency offset h.(hn_hold_id))
        | JsonOther => Raise (PyError "AttributeError" "get")
        | NotJson => Raise (PyError "JSONDecodeError" "")
        end
      else
        let '(code, request_id) := error_diagnostic canonical h.(hn_answer) in
        Ok (HotRow index status (Some code) request_id latency offset None)
  end.

(** The rows in the order in which the attempts complete; the first exception is [gather]'s. *)
Fixpoint hot_rows (a : hot_args) (answers : nat -> hold_reply) (times : nat -> Z * Z) (order : list nat) : outcome (list hot_row) :=
  match order with
  | [] => Ok []
  | i :: rest =>
      match hot_attempt a i (times i).1 (times i).2 (answers i) with
      | Raise e => Raise e
      | Ok row => match hot_rows a answers times rest with Raise e => Raise e | Ok l => Ok (row :: l) end
      end
  end.

Definition expected_conflict (status : string) (code : option string) : bool :=
  bool_decide (status = "409") && bool_decide (code ∈ [Some "SEAT_BUSY"; Some "SEAT_UNAVAILABLE"]).

Record hot_result : Type := HotResult {
  ht_statuses : gmap string nat;
  ht_expected : nat;
  ht_error_codes : gmap string nat;
  ht_one_winner : bool;
  ht_available : bool;
  ht_failed_p95 : option Z;
  ht_spread : Z;
  ht_rows : list hot_row;
}.

(** The dispatch offsets are not negative, and there is at least one contender. *)
Definition hot_summary (a : hot_args) (rows : list hot_row) : hot_result :=
  let statuses := tally_of (hr_status <$> rows) in
  let expected := length (filter (fun r => expected_conflict r.(hr_status) r.(hr_code) = true) rows) in
  let one := bool_decide (tally_count statuses (winner_status a) = 1%nat) in
  HotResult statuses expected (tally_of (omap hr_code rows)) one
    (one && bool_decide (Z.of_nat expected = Z.of_nat a.(ha_contenders) - 1))
    (percentile (hr_latency <$> filter (fun r => r.(hr_status) <> winner_status a) rows) p95)
    (foldr Z.max 0 (hr_offset <$> rows)) rows.

(** The result, and the exit code. *)
Definition hot_seat_load (a : hot_args) (m : manifest) (now : Z) (ready : outcome unit) (answers : nat -> hold_reply)
    (times : nat -> Z * Z) (order : list nat) : outcome (hot_result * Z) :=
  match check_hot a m now, ready with
  | Raise e, _ => Raise e
  | _, Raise e => Raise e
  | Ok _, Ok _ =>
      match hot_rows a answers times order with
      | Raise e => Raise e
      | Ok rows => let result := hot_summary a rows in Ok (result, if result.(ht_one_winner) then 0 else 1)
      end
  end.
End hot.

(** ** contention_timing: one worker *)

Record wave_args : Type := WaveArgs {
  wa_contenders : nat;
  wa_lanes : nat;
  wa_seat : Z;
  wa_warm : bool;
  wa_workers : nat;
  wa_require_ingress : bool;
}.

(** [range(worker_index, contenders, workers)] *)
Definition worker_indices (a : wave_args) (worker : nat) : list nat :=
  filter (fun i => i mod a.(wa_workers) = worker)%nat (seq 0 a.(wa_contenders)).

Definition lane_count (a : wave_args) : nat := (Nat.min a.(wa_contenders) a.(wa_lanes) / a.(wa_workers))%nat.
Definition lane_of (a : wave_args) (position : nat) : nat := (position mod lane_count a)%nat.

(** What [measured_request] and [attempt] record, as far as the coordinator judges it. *)
Record wave_row : Type := WaveRow {
  wv_index : nat;
  wv_lane : nat;
  wv_status : string;
  wv_code : option string;
  wv_hold_id : option string;
  wv_connect_attempted : bool;
  wv_protocol_queue : option Z;
  wv_asgi_headers : option Z;
  wv_local_port : option Z;
  wv_port_reused : option bool;
}.

(** The transport of a request: its answer, whether it connected, the parsed server timings and the port. *)
Record traced : Type := Traced {
  tc_reply : hold_reply;
  tc_connected : bool;
  tc_protocol_queue : option Z;
  tc_asgi_headers : option Z;
  tc_port : option Z;
}.

Section wave.
Context (canonical : string -> option string).

Definition measured_request (t : traced) : outcome (string * option string * option string * option Z * option Z * option Z) :=
  match t.(tc_reply) with
  | HoldError type => Ok ("transport_error", Some type, None, None, None, None)
  | HoldGot h =>
      let status := h.(hn_answer).(ha_status) in
      let code := (error_diagnostic canonical h.(hn_answer)).1 in
      if status =? 201 then
        match h.(hn_answer).(ha_body) with
        | JsonObject _ => Ok (pretty status, None, h.(hn_hold_id), t.(tc_protocol_queue), t.(tc_asgi_headers), t.(tc_port))
        | JsonOther => Raise (PyError "AttributeError" "get")
        | NotJson => Raise (PyError "JSONDecodeError" "")
        end
      else Ok (pretty status, Some code, None, t.(tc_protocol_queue), t.(tc_asgi_headers), t.(tc_port))
  end.

Definition wave_attempt (a : wave_args) (ports : nat -> option Z) (position index : nat) (t : traced) : outcome wave_row :=
  let lane := lane_of a position in
  match measured_request t with
  | Raise e => Raise e
  | Ok (status, code, hold, queue, headers, port) =>
      Ok (WaveRow index lane status code hold t.(tc_connected) queue headers port
            (if a.(wa_warm) then Some (bool_decide (port = ports lane)) else None))
  end.

Fixpoint wave_rows (a : wave_args) (ports : nat -> option Z) (answers : nat -> traced) (position : nat) (indices : list nat)
    : outcome (list wave_row) :=
  match indices with
  | [] => Ok []
  | i :: rest =>
      match wave_attempt a ports position i (answers i) with
      | Raise e => Raise e
      | Ok row => match wave_rows a ports answers (S position) rest with Raise e => Raise e | Ok l => Ok (row :: l) end
      end
  end.

(** The checks before the wave: manifest, credentials and viewers. *)
Definition check_worker (a : wave_args) (m : manifest) (now : Z) : outcome unit :=
  if negb (m.(mf_schema_version) =? 1) || negb (bool_decide (m.(mf_environment) = "development"))
  then Raise (ValueError "Development manifest required")
  else if m.(mf_expires_at) <? now + seconds 300 then Raise (ValueError "Fresh credentials required")
  else if (length m.(mf_viewer_tokens) <? a.(wa_contenders))%nat then Raise (ValueError "Insufficient distinct viewers")
  else Ok tt.

(** The warm connections have ports, all different. *)
Definition ports_verified (a : wave_args) (ports : nat -> option Z) : bool :=
  let warm := ports <$> seq 0 (lane_count a) in negb (bool_decide (None ∈ warm)) && bool_decide (NoDup warm).

Record worker_result : Type := WorkerResult {
  wk_run_id : string;
  wk_started : Z;
  wk_rows : list wave_row;
  wk_warm_reuse : option bool;
}.

(** [warm_up] is what the warm requests learn of the lanes' ports, [released] the wait for the coordinated start. The
    rows are listed by index; every request names the first show of the manifest. *)
Definition contention_worker (a : wave_args) (m : manifest) (now : Z) (warm_up : outcome (nat -> option Z)) (released : outcome unit)
    (run_id : string) (started : Z) (answers : nat -> traced) (worker : nat) : outcome worker_result :=
  match check_worker a m now, (if a.(wa_warm) then warm_up else Ok (fun _ => None)), released with
  | Raise e, _, _ => Raise e
  | _, Raise e, _ => Raise e
  | Ok _, Ok ports, released =>
      if a.(wa_warm) && negb (ports_verified a ports) then Raise (ValueError "Warm connections were not independently verified")
      else match released, m.(mf_show_ids), wave_rows a ports answers 0 (worker_indices a worker) with
           | Raise e, _, _ => Raise e
           | _, [], _ => Raise (PyError "IndexError" "list index out of range")
           | _, _, Raise e => Raise e
           | Ok _, _ :: _, Ok rows => Ok (WorkerResult run_id started rows
               (if a.(wa_warm)
                then Some (forallb (fun r => bool_decide (r.(wv_port_reused) = Some true) && negb r.(wv_connect_attempted)) rows)
                else None))
           end
  end.
End wave.

(** ** contention_timing: the coordinator *)

Record wave_summary : Type := WaveSummary {
  ws_winners : list (string * option string);
  ws_skew : Z;
  ws_statuses : gmap string nat;
  ws_expected : nat;
  ws_one_winner : bool;
  ws_accounting : bool;
  ws_warm_reuse : option bool;
  ws_connects : nat;
  ws_ingress_complete : bool;
  ws_valid : bool;
  ws_available : bool;
}.

(** [set(..)] has as many elements as the list without repetitions. *)
Definition distinct_count (l : list nat) : nat := length (remove_dups l).

Definition wave_merge (a : wave_args) (workers : list worker_result) : wave_summary :=
  let rows := workers ≫= wk_rows in
  let winners := workers ≫= (fun w => (fun r => (w.(wk_run_id), r.(wv_hold_id))) <$> filter (fun r => r.(wv_status) = "201") w.(wk_rows)) in
  let starts := wk_started <$> workers in
  let skew := foldr Z.max (default 0 (head starts)) starts - foldr Z.min (default 0 (head starts)) starts in
  let expected := length (filter (fun r => expected_conflict r.(wv_status) r.(wv_code) = true) rows) in
  let accounting := bool_decide (length rows = a.(wa_contenders)) && bool_decide (distinct_count (wv_index <$> rows) = a.(wa_contenders)) in
  let warm := if a.(wa_warm) then Some (forallb (fun w => bool_decide (w.(wk_warm_reuse) = Some true)) workers) else None in
  let ingress := forallb (fun r => bool_decide (is_Some r.(wv_protocol_queue)) && bool_decide (is_Some r.(wv_asgi_headers))) rows in
  let valid := accounting && (skew <=? us_per_ms * 100) && negb (bool_decide (warm = Some false)) in
  let one := bool_decide (length winners = 1%nat) in
  WaveSummary winners skew (tally_of (wv_status <$> rows)) expected one accounting warm
    (length (filter (fun r => r.(wv_connect_attempted) = true) rows)) ingress
    (if a.(wa_require_ingress) then valid && ingress else valid)
    (one && bool_decide (Z.of_nat expected = Z.of_nat a.(wa_contenders) - 1)).

(** The life of a worker process, as the coordinator sees it: [None] while it has not exited. *)
Record processes : Type := Processes { ps_ready : bool; ps_exit : nat -> option Z }.

(** The summary when the gates pass, and the workers that the [finally] has to terminate. *)
Definition coordinate (a : wave_args) (output_exists : bool) (ps : processes) (results : nat -> worker_result)
    : outcome wave_summary * list nat :=
  if output_exists then (Raise (PyError "FileExistsError" ""), [])
  else
    let all := seq 0 a.(wa_workers) in
    let running := filter (fun i => ps.(ps_exit) i = None) all in
    if negb ps.(ps_ready) then (Raise (PyError "RuntimeError" "Worker bootstrap failed; inspect retained logs"), running)
    else if negb (bool_decide (running = [])) then (Raise (PyError "TimeoutExpired" ""), running)
    else if existsb (fun i => negb (bool_decide (ps.(ps_exit) i = Some 0))) all
    then (Raise (PyError "RuntimeError" "Worker failed; retain partial evidence"), [])
    else
      let result := wave_merge a (results <$> all) in
      if negb result.(ws_valid) || negb result.(ws_one_winner)
      then (Raise (PyError "RuntimeError" "Measurement/correctness gate failed; stop matrix and retain evidence"), [])
      else (Ok result, []).

(** The arguments of each wave of [--matrix]: every variant, then the variants in reverse, on a fresh seat each. *)
Definition variants : list (bool * nat) := [(false, 1); (true, 1); (false, 4); (true, 4)]%nat.
Definition matrix (a : wave_args) : list wave_args :=
  imap (fun i mw => WaveArgs a.(wa_contenders) a.(wa_lanes) (a.(wa_seat) + Z.of_nat i) mw.1 mw.2 a.(wa_require_ingress))
    (variants ++ reverse variants).

(** [main]'s check of the arguments. *)
Definition wave_args_ok (a : wave_args) (is_matrix : bool) : bool :=
  (4 <=? a.(wa_lanes))%nat && (a.(wa_lanes) <=? 128)%nat && (Nat.min a.(wa_lanes) a.(wa_contenders) mod 4 =? 0)%nat
  && (0 <=? a.(wa_seat)) && (a.(wa_seat) <=? if is_matrix then 292 else 299).

(** ** verify_contention_matrix *)

(** The verifications to run, one per summary; a summary without exactly one winner stops the script. *)
Fixpoint verify_matrix (summaries : list wave_summary) : list (string * option string) * option exn :=
  match summaries with
  | [] => ([], None)
  | s :: rest =>
      match s.(ws_winners) with
      | [w] => let '(l, e) := verify_matrix rest in (w :: l, e)
      | _ => ([], Some (ValueError "Expected one winner"))
      end
  end.

(** ** analyze_hold_contention *)

(** A client row may lack its [request_id]: that of a transport error does. *)
Record client_row : Type := ClientRow { cl_request_id : option string; cl_status : string; cl_code : option string }.
Record server_row : Type := ServerRow { sl_request_id : string; sl_status : Z; sl_code : option string; sl_duration : Z; sl_phases : gmap string Z }.

(** The rows of the log by request, which must be distinct. *)
Fixpoint index_logs (logs : list server_row) (m : gmap string server_row) : outcome (gmap string server_row) :=
  match logs with
  | [] => Ok m
  | r :: rest =>
      match m !! r.(sl_request_id) with
      | Some _ => Raise (ValueError "Duplicate server request ID")
      | None => index_logs rest (<[r.(sl_request_id) := r]> m)
      end
  end.

(** [{'app_ms': .., 'unattributed_app_ms': ..}] of a matched request, under its code. *)
Record matched : Type := Matched { mt_client : client_row; mt_app : Z; mt_unattributed : Z }.

Definition phase_sum (phases : gmap string Z) : Z := map_fold (fun _ v n => v + n) 0 phases.

Definition group_of (c : client_row) : string :=
  match c.(cl_code) with Some s => if bool_decide (s = "") then "SUCCESS" else s | None => "SUCCESS" end.

Fixpoint match_clients (server : gmap string server_row) (seen : gset string) (clients : list client_row) : outcome (list (string * matched)) :=
  match clients with
  | [] => Ok []
  | c :: rest =>
      match c.(cl_request_id) with
      | None => Raise (PyError "KeyError" "request_id")
      | Some identifier =>
          if bool_decide (identifier ∈ seen) then Raise (ValueError "Duplicate client request ID")
          else match server !! identifier with
               | None => Raise (PyError "KeyError" identifier)
               | Some r =>
                   if negb (bool_decide (pretty r.(sl_status) = c.(cl_status))) || negb (bool_decide (r.(sl_code) = c.(cl_code)))
                   then Raise (ValueError "Client/server outcome mismatch")
                   else match match_clients server ({[identifier]} ∪ seen) rest with
                        | Raise e => Raise e
                        | Ok l => Ok ((group_of c, Matched c r.(sl_duration) (r.(sl_duration) - phase_sum r.(sl_phases))) :: l)
                        end
               end
      end
  end.

Definition analyze (clients : list client_row) (logs : list server_row) : outcome (nat * gmap string (list matched)) :=
  match index_logs logs ∅ with
  | Raise e => Raise e
  | Ok server =>
      match match_clients server ∅ clients with
      | Raise e => Raise e
      | Ok rows => Ok (length rows, foldr (fun ck m => <[ck.1 := ck.2 :: default [] (m !! ck.1)]> m) ∅ rows)
      end
  end.
