(* ===== verification/OneWinner.v ===== *)
(** * One seat has one winner

    With the store of the postgres mode, however many customers ask the API for the same seat while one hold would last, at most one of them is
    granted it; so the tools that contend for a seat count at most one winner. *)

From stdpp Require Import pretty.
From S2P Require Import Prelude Domain Schema World Observability Postgres Sql Reservations Config.
From S2P Require Import Cache Browse Intake Service Api.
From S2P Require Import Invariant InvReserve InvFulfil System Keeping Contracts Example.
From S2P Require Import LoadGenerator Contention.

#[local] Open Scope Z_scope.

Section seat.
Context (hs t0 : Z) (ev : uuid) (seat : string).

(** The seat is held past the window. *)
Definition taken (d : db) : Prop :=
  exists r t, d.(event_seats) !! (ev, seat) = Some r /\ r.(s_reserved_until) = Some t /\ t0 + seconds hs <= t.

(** None of the identities has a record of a hold. *)
Definition unrecorded (ids : list (string * string)) (d : db) : Prop :=
  forall who key, (who, key) ∈ ids -> d.(idempotency_records) !! (who, "hold", key) = None.

Definition in_window (E : Env) : Prop := forall i, t0 <= e_clock (Env := E) i < t0 + seconds hs.

Lemma one_seat : sorted_seats (set_of [seat]) = [seat].
Proof. done. Qed.

Section call.
Context `{E : Env} (Hclock : in_window E) (who key : string) (ids : list (string * string)) (Hnew : (who, key) ∉ ids).

(** A granted request asked for a free seat, takes it past the window and records itself only. *)
Lemma granted_wins d sale now rows hold order expires total currency f hash resp :
  inv_idem d -> reserve_facts ev [seat] sale now rows d -> grantable ev hold order expires [seat] rows d -> expires = now + seconds hs ->
  let d' := set_outbox_events f (remembered (who, "hold", key) hash resp (granted who ev hold order expires total currency [seat] rows d)) in
  ~ taken d /\ taken d' /\ inv_idem d' /\ (unrecorded ids d -> unrecorded ids d').
Proof.
  intros Hi Hf Hg ->. destruct (ga_all _ _ _ _ _ _ _ Hg seat (list_elem_of_here _ _)) as [r Hr].
  destruct (rf_now _ _ _ _ _ _ Hf) as [i ->]. pose proof (Hclock i) as Hc. split_and!.
  - intros (r' & t & Hr' & Ht & Hle). rewrite Hr in Hr'. injection Hr' as <-.
    destruct (rf_free _ _ _ _ _ _ Hf seat r) as [_ Hu]; [apply (ga_rows _ _ _ _ _ _ _ Hg); split; [left|done]|]. specialize (Hu t Ht). lia.
  - eexists _, (e_clock i + seconds hs). simpl. rewrite lookup_update_where, Hr. simpl. unfold in_request.
    rewrite bool_decide_eq_true_2 by (split; [done|by left]). split_and!; [reflexivity|done|lia].
  - by apply (inv_idem_remembered _ _ _ d).
  - intros Hu who' key' Hin. simpl. rewrite lookup_insert_ne; [by apply Hu|]. intros [= -> ->]. done.
Qed.

Lemma reserve_window : keeps (fun d => inv_idem d /\ unrecorded ids d) (reserve hs who ev [seat] key).
Proof.
  apply reserve_keeps_body. intros w [Hi Hu]. rewrite one_seat. apply wp_reserve_tx; [done|by intros w' row r _ _ _ ->|].
  intros w' f sale now rows hold order expires doc _ Hf Hg _ ->.
  destruct (granted_wins w.(w_db) sale now rows hold order expires (total_price rows) (ev_currency sale) f (digest (ReqHold ev [seat])) doc)
    as (_ & _ & ? & ?); auto.
Qed.

Lemma reserve_taken : keeps (fun d => inv_idem d /\ taken d) (reserve hs who ev [seat] key).
Proof.
  apply reserve_keeps_body. intros w [Hi Ht]. rewrite one_seat. apply wp_reserve_tx; [done|by intros w' row r _ _ _ ->|].
  intros w' f sale now rows hold order expires doc _ Hf Hg _ ->.
  destruct (granted_wins w.(w_db) sale now rows hold order expires (total_price rows) (ev_currency sale) f (digest (ReqHold ev [seat])) doc)
    as (? & _ & _ & _); auto. done.
Qed.

(** A first request that returns took a seat that was not taken. *)
Lemma reserve_wins w w' r :
  inv_idem w.(w_db) -> w.(w_db).(idempotency_records) !! (who, "hold", key) = None ->
  reserve hs who ev [seat] key w = (w', Ok r) -> ~ taken w.(w_db) /\ taken w'.(w_db).
Proof.
  intros Hi Hn Hrun. destruct (reserve_cases _ _ _ _ _ _ _ _ Hi Hrun) as (_ & _ & [[(row & Hrow & _) _]|Hres]); [congruence|].
  rewrite one_seat in Hres. destruct Hres as [_ (f & sale & now & rows & hold & order & Hf & Hg & _ & ->)].
  destruct (granted_wins w.(w_db) sale now rows hold order (now + seconds hs) (total_price rows) (ev_currency sale) f
    (digest (ReqHold ev [seat])) r) as (? & ? & _); auto.
Qed.
End call.
End seat.

(** ** A wave of requests to the API *)

(** One customer's request, with the environment its handling meets. *)
Record contender : Type := Contender { ct_env : Env; ct_token : string; ct_key : string }.

Definition won (r : http_response) : bool := match r with Success 201 _ _ => true | _ => false end.

Section wave.
Context (dp : deployment) (jwt_decode : string -> string -> token) (ev : uuid) (seat : string).
Context (contenders : nat -> contender).
Abbreviation settings := dp.(dp_settings).
Abbreviation operational := dp.(dp_operational).
Abbreviation hs := settings.(hold_seconds).

(** [POST /v1/holds], on the store the deployment selects. *)
Definition ask (c : contender) : W http_response :=
  respond operational (hold (E := c.(ct_env)) settings jwt_decode (S := api_store dp (E := c.(ct_env)))
    c.(ct_token) ev [seat] c.(ct_key)).

(** The requests in the order in which the API handles them, with its responses. *)
Fixpoint wave (order : list nat) (w : world) : list (nat * http_response) :=
  match order with
  | [] => []
  | i :: rest =>
      match ask (contenders i) w with
      | (w', Ok r) => (i, r) :: wave rest w'
      | (w', Raise _) => wave rest w'
      end
  end.

(** Who asks: the subject of the token, and the key. *)
Definition identity (i : nat) : option (string * string) :=
  match actor settings jwt_decode (contenders i).(ct_token) with Ok who => Some (who, (contenders i).(ct_key)) | Raise _ => None end.

Context (Hmode : settings.(reservation_mode) <> "redis-first").

Lemma ask_postgres c :
  ask c = respond operational (hold (E := c.(ct_env)) settings jwt_decode (S := PostgresReservations (E := c.(ct_env)) hs)
    c.(ct_token) ev [seat] c.(ct_key)).
Proof using Hmode. unfold ask, api_store. by rewrite bool_decide_eq_false_2. Qed.

Lemma ask_keeps c P :
  (forall who, actor settings jwt_decode c.(ct_token) = Ok who -> keeps P (reserve (E := c.(ct_env)) hs who ev [seat] c.(ct_key))) -> keeps P (ask c).
Proof.
  intros Hr. rewrite ask_postgres. unfold respond, hold. apply keeps_try; [|intros; apply keeps_bind; [apply record_exception_keeps|intros; apply keeps_ret]].
  unfold authenticated. destruct (actor _ _ _) as [who|e]; [|apply keeps_raise]. unfold rate_limit, observe_hold_phase, app_reserve.
  repeat first [apply keeps_raise_if|apply keeps_raise|apply keeps_obs|apply keeps_redis_eval|apply keeps_hold_phase|apply keeps_ret|by apply Hr
               |apply keeps_try; [|intros ?]|apply keeps_bind; [|intros ?]].
Qed.

Lemma error_not_won e : won (handle_exception operational e) = false.
Proof. unfold handle_exception, business_error. by repeat case_match. Qed.

Lemma same_db {A} (m : W A) w w' r : (forall P, keeps P m) -> m w = (w', r) -> w'.(w_db) = w.(w_db).
Proof. intros Hm Hrun. pose proof (Hm (fun d => d = w.(w_db)) w eq_refl) as H. by rewrite Hrun in H. Qed.

(** A request that is answered 201 is a [reserve] that returned. *)
Lemma ask_won c w w' r :
  ask c w = (w', Ok r) -> won r = true ->
  exists who w0 w1 doc, actor settings jwt_decode c.(ct_token) = Ok who /\ w0.(w_db) = w.(w_db) /\ w'.(w_db) = w1.(w_db)
    /\ reserve (E := c.(ct_env)) hs who ev [seat] c.(ct_key) w0 = (w1, Ok doc).
Proof.
  intros Hask Hwon. rewrite ask_postgres in Hask. unfold respond, try_except in Hask. destruct (hold _ _ _ _ _ _ w) as [w1 [r1|e]] eqn:Hh.
  2: { apply bind_inv_ok in Hask as (? & w2 & _ & [= _ <-]). by rewrite error_not_won in Hwon. }
  injection Hask as <- <-. unfold hold, authenticated in Hh. destruct (actor _ _ _) as [who|e]; [|done]. exists who.
  apply bind_inv_ok in Hh as (? & w2 & H2 & Hh). apply bind_inv_ok in Hh as (? & w3 & H3 & Hh). apply bind_inv_ok in Hh as (? & w4 & H4 & Hh).
  apply bind_inv_ok in Hh as (doc & w5 & H5 & [= <- _]). unfold app_reserve in H5.
  apply bind_inv_ok in H5 as (? & w6 & H6 & H5). apply bind_inv_ok in H5 as (? & w7 & H7 & H5).
  exists w7, w5, doc. split_and!; [done| |done|done].
  apply same_db in H2 as <-; [|intros; apply keeps_raise_if]. apply same_db in H3 as <-; [|intros; apply keeps_obs].
  apply same_db in H4 as <-; [|intros; apply keeps_hold_phase; unfold rate_limit; apply keeps_bind; [|intros; apply keeps_raise_if];
    apply keeps_try; [apply keeps_redis_eval|intros; apply keeps_raise]].
  apply same_db in H6 as <-; [|intros; apply keeps_raise_if]. by apply same_db in H7 as <-; [|intros; apply keeps_raise_if].
Qed.

Context (t0 : Z).

(** Contenders that ask within the window, each for the first time. *)
Definition contending (order : list nat) (d : db) : Prop :=
  (forall i, i ∈ order -> in_window hs t0 (contenders i).(ct_env)) /\ NoDup (omap identity order) /\ unrecorded (omap identity order) d.

Abbreviation is_taken := (taken hs t0 ev seat).

(** One request of the wave. *)
Lemma ask_step i order w w' o :
  inv_idem w.(w_db) -> contending (i :: order) w.(w_db) -> ask (contenders i) w = (w', o) ->
  inv_idem w'.(w_db) /\ contending order w'.(w_db) /\ (is_taken w.(w_db) -> is_taken w'.(w_db))
  /\ forall r, o = Ok r -> won r = true -> ~ is_taken w.(w_db) /\ is_taken w'.(w_db).
Proof.
  intros Hi (Hwin & Hnd & Hu) Hask. specialize (Hwin i (list_elem_of_here _ _)) as Hclock.
  assert (forall who, actor settings jwt_decode (contenders i).(ct_token) = Ok who ->
    identity i = Some (who, (contenders i).(ct_key)) /\ (who, (contenders i).(ct_key)) ∉ omap identity order) as Hid.
  { intros who Hwho. unfold identity. rewrite Hwho. split; [done|]. simpl in Hnd. unfold identity at 1 in Hnd. rewrite Hwho in Hnd.
    by apply NoDup_cons in Hnd as [? _]. }
  assert (inv_idem w'.(w_db) /\ unrecorded (omap identity order) w'.(w_db)) as [Hi' Hu'].
  { pose proof (ask_keeps (contenders i) (fun d => inv_idem d /\ unrecorded (omap identity order) d)) as Hk. unfold keeps in Hk.
    specialize (Hk (fun who Hwho => reserve_window hs t0 ev seat Hclock who _ _ (proj2 (Hid who Hwho))) w). rewrite Hask in Hk. apply Hk.
    split; [done|]. intros who key Hin. apply Hu. simpl. destruct (identity i); [by right|done]. }
  split_and!; [done| | |].
  - split_and!; [intros j Hj; apply Hwin; by right| |done]. simpl in Hnd. destruct (identity i); [by apply NoDup_cons in Hnd as [_ ?]|done].
  - intros Ht. pose proof (ask_keeps (contenders i) (fun d => inv_idem d /\ is_taken d)) as Hk. unfold keeps in Hk.
    specialize (Hk (fun who Hwho => reserve_taken hs t0 ev seat Hclock who _ [] (not_elem_of_nil _)) w). rewrite Hask in Hk. by apply Hk.
  - intros r -> Hwon. destruct (ask_won _ _ _ _ Hask Hwon) as (who & w0 & w1 & doc & Hwho & Hw0 & -> & Hrun). rewrite <-Hw0 in *.
    apply (reserve_wins hs t0 ev seat Hclock who (contenders i).(ct_key) [] (not_elem_of_nil _) w0 w1 doc); [done| |done]. apply Hu. simpl.
    destruct (Hid who Hwho) as [-> _]. left.
Qed.

Lemma wave_none order w :
  inv_idem w.(w_db) -> is_taken w.(w_db) -> contending order w.(w_db) -> filter (fun ir => won ir.2 = true) (wave order w) = [].
Proof.
  revert w. induction order as [|i order IH]; intros w Hi Ht Hc; [done|]. simpl. destruct (ask (contenders i) w) as [w' o] eqn:Hask.
  destruct (ask_step _ _ _ _ _ Hi Hc Hask) as (Hi' & Hc' & Ht' & Hwin). destruct o as [r|e]; [|by apply IH; auto].
  rewrite filter_cons. case_decide as Hwon; [by destruct (Hwin r eq_refl Hwon)|]. apply IH; auto.
Qed.

(** At most one of them is granted the seat. *)
Lemma wave_at_most_one order w :
  inv_idem w.(w_db) -> contending order w.(w_db) -> (length (filter (fun ir => won ir.2 = true) (wave order w)) <= 1)%nat.
Proof.
  revert w. induction order as [|i order IH]; intros w Hi Hc; [simpl; lia|]. simpl. destruct (ask (contenders i) w) as [w' o] eqn:Hask.
  destruct (ask_step _ _ _ _ _ Hi Hc Hask) as (Hi' & Hc' & Ht' & Hwin). destruct o as [r|e]; [|by apply IH].
  rewrite filter_cons. case_decide as Hwon; [|by apply IH]. rewrite wave_none; [done|done| |done]. by apply (Hwin r).
Qed.
End wave.

(** ** What the contention tools see *)

(** The response as it arrives: status, error code and [hold_id]. *)
Definition reply_of (text : uuid -> string) (r : http_response) : hold_reply :=
  match r with
  | Success status body _ =>
      HoldGot (HoldAnswer (HttpAnswer status (JsonObject None) 0 None None)
        (match body with BodyResponse (RHold d) => Some (text d.(hd_hold_id)) | _ => None end))
  | ErrorResponse status code _ => HoldGot (HoldAnswer (HttpAnswer status (JsonObject (Some code)) 0 None None) None)
  end.

(** The answer to a contender of the wave; no answer is a transport error. *)
Definition answer_in (text : uuid -> string) (l : list (nat * http_response)) (i : nat) : hold_reply :=
  match head (filter (fun ir => ir.1 = i) l) with Some ir => reply_of text ir.2 | None => HoldError "ReadTimeout" end.

Lemma tally_length l s : tally_count (tally_of l) s = length (filter (fun x => x = s) l).
Proof.
  unfold tally_count. induction l as [|x l IH]; simpl; [by rewrite lookup_empty|]. rewrite filter_cons. case_decide as Hx.
  - subst x. rewrite lookup_insert_eq. simpl. by rewrite IH.
  - by rewrite lookup_insert_ne.
Qed.

Lemma hot_rows_facts canonical a answers times order rows :
  hot_rows canonical a answers times order = Ok rows -> hr_index <$> rows = order
  /\ forall row, row ∈ rows -> hot_attempt canonical a row.(hr_index) (times row.(hr_index)).1 (times row.(hr_index)).2 (answers row.(hr_index)) = Ok row.
Proof.
  revert rows. induction order as [|i order IH]; intros rows; simpl; [intros [= <-]; split; [done|by intros row ?%not_elem_of_nil]|].
  destruct (hot_attempt _ _ _ _ _ _) as [row|] eqn:Ha; [|done]. destruct (hot_rows _ _ _ _ order) as [rest|]; [|done]. intros [= <-].
  destruct (IH rest eq_refl) as [Hidx Hall].
  assert (hr_index row = i) as Hi.
  { unfold hot_attempt in Ha. repeat case_match; simplify_eq; done. }
  split; [csimpl; by rewrite Hi, Hidx|]. intros row' [->|Hin]%elem_of_cons; [by rewrite Hi|auto].
Qed.

(** A row with the winner's status comes from an answer with that status. *)
Lemma winner_row canonical a index latency offset r row :
  a.(ha_reservation_mode) <> "redis-first" -> hot_attempt canonical a index latency offset r = Ok row -> row.(hr_status) = "201" ->
  exists h, r = HoldGot h /\ h.(hn_answer).(ha_status) = 201.
Proof.
  intros Hmode Ha Hs. unfold hot_attempt, winner_status in Ha. rewrite (bool_decide_eq_false_2 (_ = "redis-first")) in Ha by done.
  assert (forall z : Z, pretty z = "201" -> z = 201) as Hp by (intros z Hz; by apply (inj pretty)).
  destruct r as [h|type]; [|by injection Ha as <-]. exists h. split; [done|]. apply Hp. repeat case_match; simplify_eq/=; try done.
Qed.

Section tools.
Context (dp : deployment) (jwt_decode : string -> string -> token) (ev : uuid) (seat : string).
Context (contenders : nat -> contender) (t0 : Z) (text : uuid -> string) (canonical : string -> option string).

Lemma answered l i h : answer_in text l i = HoldGot h -> exists r, (i, r) ∈ l /\ reply_of text r = HoldGot h.
Proof.
  unfold answer_in. destruct (head _) as [[j r]|] eqn:Hh; [|done]. intros Hr. apply head_Some_elem_of, list_elem_of_filter in Hh as [Hj Hin].
  simpl in *. subst j. eauto.
Qed.

(** C12: in the default [postgres] reservation mode, of the deployment and of the tool alike, whatever number of
    customers contends for one seat, at most one of them gets it: when the API handles
    their holds, in any order and under any faults, within the life of one hold, [hot_seat_load] counts at most
    one winner, and it exits with 0 exactly when it counts one.  Each customer asks for the first time; the
    exceptions the environment raises are errors, not disguised 201 responses.  (In [redis-first] mode the
    API answers 202 from Redis and the tool counts those; the theorem does not speak of that mode.) *)
Theorem hot_seat_one_winner a m now ready times order finished w result code :
  dp.(dp_settings).(reservation_mode) <> "redis-first" -> a.(ha_reservation_mode) <> "redis-first" ->
  inv_idem w.(w_db) -> contending dp jwt_decode contenders t0 order w.(w_db) ->
  let answers := wave dp jwt_decode ev seat contenders order w in
  (forall i status error retry, (i, ErrorResponse status error retry) ∈ answers -> status <> 201) ->
  NoDup finished ->
  hot_seat_load canonical a m now ready (answer_in text answers) times finished = Ok (result, code) ->
  (tally_count result.(ht_statuses) "201" <= 1)%nat /\ (code = 0 <-> tally_count result.(ht_statuses) "201" = 1%nat).
Proof.
  intros Hdp Hmode Hi Hc answers Herr Hnd Hload. unfold hot_seat_load in Hload.
  destruct (check_hot a m now); [|done]. destruct ready as [[]|]; [|done]. destruct (hot_rows _ _ _ _ _) as [rows|] eqn:Hrows; [|done].
  injection Hload as <- <-. simpl. unfold winner_status. rewrite (bool_decide_eq_false_2 (_ = "redis-first")) by done. split; [|by case_bool_decide].
  apply hot_rows_facts in Hrows as [Hidx Hall]. rewrite tally_length.
  etrans; [|apply (wave_at_most_one dp jwt_decode ev seat contenders Hdp t0 order w Hi Hc)].
  assert (length (filter (fun x => x = "201") (hr_status <$> rows)) = length (hr_index <$> filter (fun r => r.(hr_status) = "201") rows)) as ->.
  { rewrite length_fmap. clear. induction rows as [|r rows IH]; [done|]. csimpl. rewrite !filter_cons. repeat case_decide; simpl; congruence. }
  rewrite <-(length_fmap fst). apply submseteq_length, NoDup_submseteq.
  - subst finished. eapply sublist_NoDup; [exact Hnd|]. apply fmap_sublist, sublist_filter.
  - intros i (row & -> & Hin)%list_elem_of_fmap. apply list_elem_of_filter in Hin as [Hs Hin].
    destruct (winner_row _ _ _ _ _ _ _ Hmode (Hall row Hin) Hs) as (h & Hans & Hst). apply answered in Hans as (r & Hr & Hh).
    apply list_elem_of_fmap. exists (hr_index row, r). split; [done|]. apply list_elem_of_filter. split; [|done]. simpl.
    destruct r as [st b hd|st c rt]; simplify_eq/=; [done|]. by destruct (Herr _ _ _ _ Hr).
Qed.
End tools.

(** ** Three customers and one seat *)

(** A clock that stands still, and draws of its own for each customer. *)
Definition still_env (offset : nat) : Env := {|
  e_rng := fun i => Pos.of_succ_nat (i + offset); e_clock := fun _ => seconds 1000; e_mono := fun i => Z.of_nat i;
  e_busy := fun _ _ => false; e_pool := fun _ => None; e_begin := fun _ => None; e_rollback := fun _ => None; e_putconn := fun _ => None; e_commit := fun _ => NoFault; e_redis := fun _ => NoFault;
  e_digest := fun _ => "digest"; e_sha256 := fun s => s |}.
Definition three (i : nat) : contender := Contender (still_env (1000 * i)) ("viewer-" +:+ pretty i) ("key-" +:+ pretty i).
Definition demo_wave : list (nat * http_response) :=
  wave demo (fun _ t => Subject t) ev1 "A001" three [2; 0; 1]%nat world0.
Definition demo_hot_args : hot_args := HotArgs false false 3 1 "postgres".
Definition demo_hot_manifest : manifest :=
  Manifest 1 "development" (seconds 9000) "http://api" ["show"] ["viewer-0"; "viewer-1"; "viewer-2"] None 0 300 None None.
Definition demo_hot_run : outcome (hot_result * Z) :=
  hot_seat_load (fun _ => None) demo_hot_args demo_hot_manifest (seconds 1000) (Ok tt) (answer_in (fun u => pretty (Zpos u)) demo_wave)
    (fun i => (Z.of_nat i, 0)) [0; 1; 2]%nat.

Lemma hot_seat_one_winner_witness :
  exists result, demo_hot_run = Ok (result, 0) /\ tally_count result.(ht_statuses) "201" = 1%nat /\ result.(ht_expected) = 2%nat.
Proof.
  destruct demo_hot_run as [[result code]|e] eqn:Hrun; [|by vm_compute in Hrun].
  destruct (hot_seat_one_winner demo (fun _ t => Subject t) ev1 "A001" three (seconds 1000) (fun u => pretty (Zpos u))
    (fun _ => None) demo_hot_args demo_hot_manifest (seconds 1000) (Ok tt) (fun i => (Z.of_nat i, 0)) [2; 0; 1]%nat [0; 1; 2]%nat world0 result code)
    as [_ Hcode].
  - done.
  - done.
  - apply (inv_i _ (initial_inv _ world0_initial)).
  - split_and!; [intros i _ j; change (seconds 1000 <= seconds 1000 < seconds 1000 + seconds 120); split; by vm_compute| |].
    + assert (omap (identity demo (fun _ t => Subject t) three) [2; 0; 1]%nat
        = [("viewer-2", "key-2"); ("viewer-0", "key-0"); ("viewer-1", "key-1")]) as -> by (vm_compute; reflexivity).
      apply (bool_decide_unpack _). vm_compute. done.
    + intros who key _. vm_compute. reflexivity.
  - intros i st er re Hin.
    assert (forallb (fun ir => match ir.2 with ErrorResponse s _ _ => negb (s =? 201) | Success _ _ _ => true end) demo_wave = true) as Hall
      by (vm_compute; reflexivity).
    rewrite forallb_forall in Hall. specialize (Hall _ (proj1 (list_elem_of_In _ _) Hin)). simpl in Hall. by bool_hyps.
  - apply (bool_decide_unpack _). vm_compute. done.
  - exact Hrun.
  - exists result. vm_compute in Hrun. injection Hrun as <- <-. split; [done|]. split; [by apply Hcode|by vm_compute].
Defined.
