(* ===== verification/ContentionFacts.v ===== *)
(** * What the contention tools establish

    The workers of a wave share out its contenders; a wave the coordinator accepts has exactly one winner and
    accounts for every contender once; the waves of a matrix use different seats; an analysis matches
    every client row with the server row of the same request and outcome. *)

From stdpp Require Import pretty.
From S2P Require Import Prelude World LoadGenerator Contention.

#[local] Open Scope Z_scope.

(** ** Shares *)

Lemma elem_of_share a k i : i ∈ worker_indices a k <-> (i < a.(wa_contenders))%nat /\ (i mod a.(wa_workers) = k)%nat.
Proof. unfold worker_indices. rewrite list_elem_of_filter, elem_of_seq. split; intros; lia. Qed.

(** Every contender belongs to exactly one worker. *)
Lemma shares_partition a : (0 < a.(wa_workers))%nat -> (seq 0 a.(wa_workers) ≫= worker_indices a) ≡ₚ seq 0 a.(wa_contenders).
Proof.
  intros Hw. apply NoDup_Permutation.
  - assert (forall n, (n <= wa_workers a)%nat -> NoDup (seq 0 n ≫= worker_indices a)) as H; [|by apply H].
    intros n. induction n as [|n IH]; intros Hn; [constructor|]. rewrite seq_S, bind_app. apply NoDup_app. split_and!; [apply IH; lia| |].
    + intros i (k & Hi%elem_of_share & Hk%elem_of_seq)%list_elem_of_bind. simpl. rewrite app_nil_r. intros Hi'%elem_of_share. lia.
    + simpl. rewrite app_nil_r. apply NoDup_filter, NoDup_seq.
  - apply NoDup_seq.
  - intros i. rewrite list_elem_of_bind, elem_of_seq. split.
    + intros (k & Hi%elem_of_share & _). lia.
    + intros Hi. exists (i mod wa_workers a)%nat. rewrite elem_of_share, elem_of_seq. pose proof (Nat.mod_upper_bound i (wa_workers a)). lia.
Qed.

(** Accepted arguments give every worker a lane, and every request one of them. *)
Lemma lanes_positive a matrix : wave_args_ok a matrix = true -> (4 <= a.(wa_contenders))%nat -> a.(wa_workers) = 1%nat \/ a.(wa_workers) = 4%nat ->
  forall position, (lane_of a position < lane_count a)%nat.
Proof.
  unfold wave_args_ok. rewrite !andb_true_iff, !Nat.leb_le. intros ((((Hl & _) & _) & _) & _) Hc Hw position.
  apply Nat.mod_upper_bound. unfold lane_count. assert (4 <= Nat.min (wa_contenders a) (wa_lanes a))%nat as Hm by lia.
  intros H0. apply Nat.div_small_iff in H0; lia.
Qed.

(** ** The coordinator *)

Lemma distinct_all l n : length l = n -> distinct_count l = n -> NoDup l.
Proof.
  intros Hl Hd. unfold distinct_count in Hd. assert (remove_dups l ≡ₚ l) as <-; [|apply NoDup_remove_dups].
  apply submseteq_length_Permutation; [|lia]. apply NoDup_submseteq; [apply NoDup_remove_dups|]. intros x. by rewrite elem_of_remove_dups.
Qed.

Lemma coordinate_ok a output_exists ps results s running :
  coordinate a output_exists ps results = (Ok s, running) ->
  running = [] /\ (forall i, (i < a.(wa_workers))%nat -> ps.(ps_exit) i = Some 0) /\ s = wave_merge a (results <$> seq 0 a.(wa_workers))
  /\ s.(ws_valid) = true /\ s.(ws_one_winner) = true.
Proof.
  unfold coordinate. destruct output_exists; [done|]. destruct (ps_ready ps); [|done]. cbn [negb]. destruct (bool_decide (filter _ _ = [])); [|done].
  destruct (existsb _ _) eqn:He; [done|]. cbv zeta. destruct (ws_valid _) eqn:Hv; [|done]. destruct (ws_one_winner _) eqn:Ho; [|done]. simpl.
  intros [= <- <-]. split_and!; try done. intros i Hi.
  destruct (bool_decide (ps_exit ps i = Some 0)) eqn:Hb; [by apply bool_decide_eq_true in Hb|]. exfalso.
  assert (existsb (fun i => negb (bool_decide (ps_exit ps i = Some 0))) (seq 0 (wa_workers a)) = true); [|congruence].
  apply existsb_exists. exists i. split; [apply in_seq; lia|by rewrite Hb].
Qed.

(** Whatever it meets, the coordinator leaves no worker running: those still running are the ones it terminates. *)
Lemma coordinate_cleans a ps results r running :
  coordinate a false ps results = (r, running) -> forall i, (i < a.(wa_workers))%nat -> ps.(ps_exit) i = None -> i ∈ running.
Proof.
  unfold coordinate. intros Hc i Hi He. assert (i ∈ filter (fun i => ps_exit ps i = None) (seq 0 (wa_workers a))) as Hin.
  { apply list_elem_of_filter. split; [done|]. apply elem_of_seq. lia. }
  destruct (ps_ready ps); cbn [negb] in Hc; [|by injection Hc as _ <-].
  destruct (bool_decide (filter _ _ = [])) eqn:Hr; cbn [negb] in Hc; [apply bool_decide_eq_true in Hr|by injection Hc as _ <-].
  rewrite Hr in Hin. by apply not_elem_of_nil in Hin.
Qed.

Lemma wave_rows_indices canonical a ports answers position indices rows :
  wave_rows canonical a ports answers position indices = Ok rows -> wv_index <$> rows = indices.
Proof.
  revert position rows. induction indices as [|i indices IH]; intros position rows; simpl; [by intros [= <-]|].
  destruct (wave_attempt _ _ _ _ _ _) as [row|] eqn:Ha; [|done]. destruct (wave_rows _ _ _ _ _ indices) as [rest|] eqn:Hr; [|done].
  intros [= <-]. csimpl. rewrite (IH _ _ Hr). f_equal. unfold wave_attempt in Ha.
  destruct (measured_request _ _) as [[[[[[st c] h] q] hd] p]|]; [|done]. by injection Ha as <-.
Qed.

Lemma worker_rows canonical a m now warm_up released run_id started answers k r :
  contention_worker canonical a m now warm_up released run_id started answers k = Ok r -> wv_index <$> r.(wk_rows) = worker_indices a k.
Proof.
  unfold contention_worker. destruct (check_worker a m now); [|done]. destruct (if wa_warm a then _ else _); [|done].
  destruct (wa_warm a && _); [done|]. destruct released; [|done]. destruct (mf_show_ids m); [done|]. destruct (wave_rows _ _ _ _ _ _) as [rows|] eqn:Hr; [|done].
  intros [= <-]. by apply wave_rows_indices in Hr.
Qed.

(** A wave the coordinator accepts, run by its workers: every worker exited with 0 and none is left running, the rows
    are those of all contenders, each once, exactly one of them won, and the workers started within 100 ms. *)
Theorem wave_accepted canonical a m now warm_up released run_id started answers results output_exists ps s running :
  (0 < a.(wa_workers))%nat ->
  (forall k, (k < a.(wa_workers))%nat ->
    contention_worker canonical a m (now k) (warm_up k) (released k) (run_id k) (started k) answers k = Ok (results k)) ->
  coordinate a output_exists ps results = (Ok s, running) ->
  let rows := (results <$> seq 0 a.(wa_workers)) ≫= wk_rows in
  running = [] /\ (forall i, (i < a.(wa_workers))%nat -> ps.(ps_exit) i = Some 0)
  /\ wv_index <$> rows ≡ₚ seq 0 a.(wa_contenders)
  /\ length (filter (fun r => r.(wv_status) = "201") rows) = 1%nat /\ s.(ws_skew) <= us_per_ms * 100.
Proof.
  intros Hw Hres (Hrun & Hexit & -> & Hvalid & Hone)%coordinate_ok rows. split_and!; [done|done| | |].
  - rewrite <-(shares_partition a Hw). apply Permutation_refl'. unfold rows.
    assert (forall l, (forall k, k ∈ l -> (k < wa_workers a)%nat) -> wv_index <$> ((results <$> l) ≫= wk_rows) = l ≫= worker_indices a) as H.
    { intros l. induction l as [|k l IH]; intros Hl; [done|]. csimpl. rewrite fmap_app, IH by (intros; apply Hl; by right). f_equal.
      eapply worker_rows. apply Hres, Hl. left. }
    apply H. intros k ?%elem_of_seq. lia.
  - simpl in Hone. apply bool_decide_eq_true in Hone. rewrite <-Hone. unfold rows. clear.
    generalize (results <$> seq 0 (wa_workers a)). intros l. induction l as [|x l IH]; [done|]. csimpl.
    rewrite filter_app, !length_app, IH, length_fmap. done.
  - simpl in Hvalid. destruct (wa_require_ingress a); bool_hyps; simpl; lia.
Qed.

(** ** The matrix *)

(** The eight waves use eight seats of the fixture. *)
Lemma matrix_seats a : wave_args_ok a true = true -> wa_seat <$> matrix a = seqZ a.(wa_seat) 8 /\ forall b, b ∈ matrix a -> 0 <= b.(wa_seat) <= 299.
Proof.
  intros Hok. unfold wave_args_ok in Hok. bool_hyps. assert (wa_seat <$> matrix a = seqZ (wa_seat a) 8) as Heq.
  { unfold matrix, seqZ. change (Z.to_nat 8) with 8%nat. cbn. repeat (apply f_equal2; [lia|]). done. }
  split; [done|]. intros b Hb. assert (wa_seat b ∈ seqZ (wa_seat a) 8) as Hin by (rewrite <-Heq; by apply list_elem_of_fmap_2). apply elem_of_seqZ in Hin. lia.
Qed.

(** Every accepted wave is verified. *)
Lemma verify_matrix_all summaries : Forall (fun s => s.(ws_one_winner) = true /\ exists a ws, s = wave_merge a ws) summaries ->
  (verify_matrix summaries).2 = None /\ length (verify_matrix summaries).1 = length summaries.
Proof.
  induction 1 as [|s l [Hone (a & ws & ->)] _ [IH1 IH2]]; [done|]. simpl. simpl in Hone. apply bool_decide_eq_true in Hone.
  destruct (ws ≫= _) as [|x [|y r]]; try done. simpl. destruct (verify_matrix l). simpl in *. by rewrite IH2.
Qed.

(** ** The analysis *)

Lemma index_logs_facts logs m m' :
  index_logs logs m = Ok m' ->
  NoDup (sl_request_id <$> logs) /\ (forall r, r ∈ logs -> m !! r.(sl_request_id) = None)
  /\ forall id r, m' !! id = Some r <-> m !! id = Some r \/ (r ∈ logs /\ r.(sl_request_id) = id).
Proof.
  revert m. induction logs as [|r logs IH]; intros m; simpl.
  { intros [= <-]. split_and!; [constructor|by intros r ?%not_elem_of_nil|]. intros id r. split; [by left|]. by intros [?|[?%not_elem_of_nil _]]. }
  destruct (m !! sl_request_id r) eqn:Hr; [done|]. intros (Hnd & Hnone & Hm)%IH.
  assert (forall r', r' ∈ logs -> sl_request_id r' <> sl_request_id r /\ m !! sl_request_id r' = None) as Hne.
  { intros r' Hin. specialize (Hnone r' Hin). apply lookup_insert_None in Hnone as [? ?]. auto. }
  split_and!.
  - csimpl. apply NoDup_cons. split; [|done]. intros (r' & Hid & Hin)%list_elem_of_fmap. by destruct (Hne r' Hin).
  - intros r' [->|Hin]%elem_of_cons; [done|by apply Hne].
  - intros id r'. rewrite Hm, lookup_insert_Some, elem_of_cons. split.
    + intros [[[<- <-]|[? ?]]|[? ?]]; auto.
    + intros [Hid|[[->|Hin] <-]]; [|by left; left|by right]. left. right. split; [|done]. congruence.
Qed.

(** A client row and the measurements the analysis files for it. *)
Definition joined (logs : list server_row) (c : client_row) (gm : string * matched) : Prop :=
  exists r, r ∈ logs /\ c.(cl_request_id) = Some r.(sl_request_id) /\ pretty r.(sl_status) = c.(cl_status) /\ r.(sl_code) = c.(cl_code)
    /\ gm = (group_of c, Matched c r.(sl_duration) (r.(sl_duration) - phase_sum r.(sl_phases))).

Lemma match_clients_facts logs server seen clients l :
  (forall id r, server !! id = Some r <-> r ∈ logs /\ r.(sl_request_id) = id) ->
  match_clients server seen clients = Ok l ->
  Forall2 (joined logs) clients l /\ NoDup (cl_request_id <$> clients) /\ forall c id, c ∈ clients -> c.(cl_request_id) = Some id -> id ∉ seen.
Proof.
  intros Hs. revert seen l. induction clients as [|c clients IH]; intros seen l; simpl.
  { intros [= <-]. split_and!; [constructor|constructor|by intros c id ?%not_elem_of_nil]. }
  destruct (cl_request_id c) as [id|] eqn:Hid; [|done]. case_bool_decide as Hseen; [done|].
  destruct (server !! id) as [r|] eqn:Hr; [|done]. destruct (negb _ || negb _) eqn:Hcmp; [done|]. bool_hyps.
  destruct (match_clients _ _ clients) as [l'|] eqn:Hl; [|done]. intros [= <-]. destruct (IH _ _ Hl) as (Hall & Hnd & Hnew).
  apply Hs in Hr as [Hin <-]. split_and!.
  - constructor; [|done]. exists r. by rewrite Hid.
  - csimpl. apply NoDup_cons. split; [|done]. intros (c' & Hc' & Hin')%list_elem_of_fmap.
    specialize (Hnew c' (sl_request_id r) Hin' (eq_sym Hc')). set_solver.
  - intros c' id' [->|Hin']%elem_of_cons Hc'; [by simplify_eq|]. specialize (Hnew c' id' Hin' Hc'). set_solver.
Qed.

(** An analysis that succeeds joins every client row, each of a request of its own, with the log row of that request, which
    has the same outcome; its count is that of the client rows. *)
Theorem analyze_sound clients logs n groups :
  analyze clients logs = Ok (n, groups) ->
  n = length clients /\ NoDup (cl_request_id <$> clients) /\ NoDup (sl_request_id <$> logs)
  /\ exists l, Forall2 (joined logs) clients l /\ forall g, groups !! g = match filter (fun gm => gm.1 = g) l with [] => None | l' => Some l'.*2 end.
Proof.
  unfold analyze. destruct (index_logs logs ∅) as [server|] eqn:Hlogs; [|done]. apply index_logs_facts in Hlogs as (Hnd & _ & Hs).
  destruct (match_clients server ∅ clients) as [l|] eqn:Hl; [|done]. intros [= <- <-].
  apply (match_clients_facts logs) in Hl as (Hall & Hndc & _); [|intros id r; rewrite Hs, lookup_empty; by split; [intros [?|?]|right]].
  split_and!; [by apply Forall2_length in Hall|done|done|]. exists l. split; [done|]. intros g. clear.
  induction l as [|[k x] l IH]; [done|]. simpl. rewrite filter_cons. case_decide as Hk; simpl in Hk.
  - subst k. rewrite lookup_insert_eq, IH. simpl. by destruct (filter _ l).
  - by rewrite lookup_insert_ne, IH.
Qed.
