(* ===== verification/Drills.v ===== *)
(** * Outage drills

    [scripts/recovery_drill.py] and [scripts/cloud_failure_drill.py] stop a service, check what the API does without it,
    start it again and check the recovery.  Requests, compose commands, queries, sleeps and the
    saving of the report are calls to the surroundings, which answer or raise; the calls made, the clock and the
    report are the state.  A query answers with rows of numbers; times are microseconds. *)

From stdpp Require Import pretty.
From S2P Require Import Prelude CapacityStage.

#[local] Open Scope Z_scope.

(** ** The surroundings *)

Inductive verb : Type := Stop | Start.

#[global] Instance verb_eq_dec : EqDecision verb.
Proof. solve_decision. Defined.

Inductive query : Type :=
| UnusedSeats (event : string) (seats : list string)
| KeyRecords (key : string)
| CurrentOwners (event seat hold : string)
| PendingPaidEvents (order : string)
| Deliveries (order : string)
| OrderCounts (order : string).

Inductive drill_call : Type :=
| Http (method path : string) (body : option json) (key : option string)
| Compose (v : verb) (service : string)
| Db (q : query)
| DrillSleep (us : Z)
| Save.

(** What a call comes back with, and the time it takes; a [Save] or a [Compose] only matters by raising. *)
Record drill_answer : Type := DrillAnswer {
  da_raised : option exn;
  da_elapsed : N;
  da_status : Z;
  da_body : json;
  da_rows : list (list Z);
}.

(** A case of the report: its service, and once it is known, whether it passed and what failed. *)
Record drill_case : Type := DrillCase { dc_service : string; dc_pass : option bool; dc_failure : option string }.

Record drill : Type := Drill { dr_calls : list drill_call; dr_clock : Z; dr_cases : list drill_case }.

Definition type_name (e : exn) : string := match e with PyError t _ => t | _ => "Exception" end.

(** [a == b] of loaded documents: objects compare by key, [True] is 1. *)
Fixpoint json_eqb (a b : json) : bool :=
  match a, b with
  | JNull, JNull => true
  | JBool x, JBool y => Bool.eqb x y
  | JNum x, JNum y => x =? y
  | JBool x, JNum y | JNum y, JBool x => y =? if x then 1000000 else 0
  | JStr x, JStr y => bool_decide (x = y)
  | JArr l, JArr l' => Nat.eqb (length l) (length l') && (fix go l l' := match l, l' with x :: r, y :: r' => json_eqb x y && go r r' | _, _ => true end) l l'
  | JObj l, JObj l' =>
      Nat.eqb (length l) (length l') && forallb (fun kv => existsb (fun kv' => bool_decide (kv'.1 = kv.1) && json_eqb kv.2 kv'.2) l') l
  | _, _ => false
  end.

Section drills.
Context (answers : drill_call -> nat -> drill_answer).
(** [uuid4().hex] of the n-th call. *)
Context (hex : nat -> string).

Definition drill_perform (c : drill_call) : M drill drill_answer := fun s =>
  let r := answers c (length s.(dr_calls)) in
  let s' := Drill (s.(dr_calls) ++ [c]) (s.(dr_clock) + Z.of_N r.(da_elapsed) + match c with DrillSleep d => d | _ => 0 end) s.(dr_cases) in
  match r.(da_raised) with Some e => (s', Raise e) | None => (s', Ok r) end.

Definition compose (v : verb) (service : string) : M drill unit := _ ← drill_perform (Compose v service); mret tt.
Definition fresh_key (prefix : string) : M drill string := gets (fun s => prefix +:+ hex (length s.(dr_calls))).
Definition assert (b : bool) : M drill unit := raise_if (negb b) (PyError "AssertionError" "").

(** [d[key]], [l[0]] and [l[-1]] of a loaded document. *)
Definition item (key : string) (doc : json) : outcome json :=
  match doc with
  | JObj l => if existsb (fun kv => bool_decide (kv.1 = key)) l then Ok (member key l) else Raise (PyError "KeyError" key)
  | _ => Raise (PyError "TypeError" "")
  end.
Definition elements (doc : json) : outcome (list json) := match doc with JArr l => Ok l | _ => Raise (PyError "TypeError" "") end.
Definition at_end (o : option json) : outcome json := match o with Some j => Ok j | None => Raise (PyError "IndexError" "list index out of range") end.
Definition lift {A} (o : outcome A) : M drill A := match o with Ok a => mret a | Raise e => raise e end.
Definition text (j : json) : string := match j with JStr s => s | _ => "" end.

(** [while time.monotonic() < deadline: x = probe(); if done(x): break; time.sleep(pause)], with the last [x]. *)
Fixpoint poll_until {A} (fuel : nat) (deadline pause : Z) (probe : M drill A) (done : A -> outcome bool) (last : option A) : M drill (option A) :=
  match fuel with
  | O => raise (PyError "OutOfFuel" "")
  | S fuel' =>
      now ← gets dr_clock;
      if negb (now <? deadline) then mret last
      else
        x ← probe;
        b ← lift (done x);
        if b : bool then mret (Some x)
        else _ ← drill_perform (DrillSleep pause); poll_until fuel' deadline pause probe done (Some x)
  end.

(** A variable no turn of a loop has set. *)
Definition bound {A} (o : option A) : M drill A := or_raise o (PyError "UnboundLocalError" "").

(** ** recovery_drill *)

(** [raise_for_status]: an [HTTPStatusError] for a status that is not a success. *)
Definition checked (r : drill_answer) : M drill unit :=
  raise_if (negb ((200 <=? r.(da_status)) && (r.(da_status) <? 300))) (PyError "HTTPStatusError" "").

Definition get_order (order : string) : M drill json := r ← drill_perform (Http "GET" ("/v1/orders/" +:+ order) None None); mret r.(da_body).
Definition has_status (s : string) (order : json) : outcome bool := obind (item "status" order) (fun v => Ok (bool_decide (text v = s))).
Definition ticket_count (order : json) : outcome nat := obind (item "tickets" order) (fun v => obind (elements v) (fun l => Ok (length l))).

(** The seat the drill holds: the last one available of the first event. *)
Definition last_available : M drill (json * json) :=
  events ← drill_perform (Http "GET" "/v1/events" None None);
  l ← lift (elements events.(da_body));
  first ← lift (at_end (head l));
  event ← lift (item "id" first);
  seats ← drill_perform (Http "GET" ("/v1/events/" +:+ text event +:+ "/seats") None None);
  all ← lift (obind (item "seats" seats.(da_body)) elements);
  available ← lift (foldr (fun s acc => obind (item "status" s) (fun v => obind acc (fun l => Ok (if bool_decide (text v = "AVAILABLE") then s :: l else l)))) (Ok []) all);
  chosen ← lift (at_end (last available));
  seat ← lift (item "seat_id" chosen);
  mret (event, seat).

(** Paying while Kafka is stopped: the order is paid and has no ticket. *)
Definition pay_without_kafka (order : string) : M drill unit :=
  _ ← compose Stop "kafka";
  key ← fresh_key "";
  r ← drill_perform (Http "POST" ("/v1/orders/" +:+ order +:+ "/payments") (Some (JObj [("delay_seconds", JNum 0); ("duplicates", JNum 3000000)])) (Some key));
  _ ← checked r;
  now ← gets dr_clock;
  last ← poll_until 68 (now + seconds 20) (milliseconds 300) (get_order order) (has_status "PAID") None;
  current ← bound last;
  paid ← lift (has_status "PAID" current);
  _ ← assert paid;
  n ← lift (ticket_count current);
  assert (Nat.eqb n 0).

(** The loop returns at the first fulfilled order. *)
Definition await_fulfilled (order : string) : M drill unit :=
  now ← gets dr_clock;
  last ← poll_until 182 (now + seconds 90) (milliseconds 500) (get_order order) (has_status "FULFILLED") None;
  fulfilled ← lift (match last with Some current => has_status "FULFILLED" current | None => Ok false end);
  n ← lift (match last with Some current => if fulfilled then ticket_count current else Ok O | None => Ok O end);
  if fulfilled : bool then assert (Nat.eqb n 1) else raise (PyError "AssertionError" "Fulfillment did not recover").

Definition recovery_drill : M drill unit :=
  es ← last_available;
  key ← fresh_key "";
  r ← drill_perform (Http "POST" "/v1/holds" (Some (JObj [("event_id", es.1); ("seat_ids", JArr [es.2])])) (Some key));
  _ ← checked r;
  order ← lift (item "order_id" r.(da_body));
  _ ← finally (pay_without_kafka (text order)) (compose Start "kafka");
  await_fulfilled (text order).

(** ** cloud_failure_drill *)

Record drill_args : Type := DrillArgs {
  dg_output_exists : bool;
  dg_seat_offset : Z;
  dg_environment : string;
  dg_expires_at : Z;
  dg_token_count : nat;
  dg_shows : list string;
}.

(** [p.error] exits with status 2. *)
Definition check_drill (a : drill_args) (now : Z) : outcome (string * list string) :=
  if a.(dg_output_exists) then Raise (PyError "SystemExit" "Use a fresh result path")
  else if negb ((0 <=? a.(dg_seat_offset)) && (a.(dg_seat_offset) <=? 297)) then Raise (PyError "SystemExit" "Three fixture seats must fit the inventory")
  else if negb (bool_decide (a.(dg_environment) = "development")) then Raise (PyError "SystemExit" "Development fixture required")
  else if a.(dg_expires_at) <=? now + seconds 900 then Raise (PyError "SystemExit" "Refresh development credentials before the drill")
  else match a.(dg_token_count), a.(dg_shows) with
       | S _, show :: _ => Ok (show, (fun i => "S" +:+ pretty (a.(dg_seat_offset) + i)) <$> [0; 1; 2])
       | _, _ => Raise (PyError "IndexError" "list index out of range")
       end.

(** The errors [ready] rides out. *)
Definition unreachable (e : exn) : bool := instance_of ["URLError"; "HTTPError"; "TimeoutError"] e.

Fixpoint ready_loop (fuel : nat) (started : Z) : M drill unit :=
  match fuel with
  | O => raise (PyError "OutOfFuel" "")
  | S fuel' =>
      now ← gets dr_clock;
      if negb (now - started <? seconds 120) then raise (PyError "AssertionError" "Readiness did not recover in 120s")
      else
        up ← try_except (r ← drill_perform (Http "GET" "/health/ready" None None); mret (r.(da_status) =? 200))
               (fun e => if unreachable e then mret false else raise e);
        if up : bool then mret tt else _ ← drill_perform (DrillSleep (seconds 1)); ready_loop fuel' started
  end.

(** A turn sleeps a second: 121 turns pass the 120 seconds. *)
Definition ready : M drill unit := now ← gets dr_clock; ready_loop 122 now.

Definition save : M drill unit := _ ← drill_perform Save; mret tt.
Definition open_case (service : string) : M drill unit :=
  _ ← modify (fun s => Drill s.(dr_calls) s.(dr_clock) (s.(dr_cases) ++ [DrillCase service None None])); save.
(** [case['pass'] = ..] of the last case. *)
Definition close_case (pass : bool) (failure : option string) : M drill unit :=
  modify (fun s => Drill s.(dr_calls) s.(dr_clock)
    (match rev s.(dr_cases) with c :: r => rev r ++ [DrillCase c.(dc_service) (Some pass) failure] | [] => [] end)).

(** [try: m except BaseException: mark the case failed and raise; finally: save()] *)
Definition in_case (m : M drill unit) : M drill unit :=
  finally (try_except (_ ← m; close_case true None) (fun e => _ ← close_case false (Some (type_name e)); _ ← save; raise e)) save.

Definition hold_seat (event seat key : string) : M drill drill_answer :=
  drill_perform (Http "POST" "/v1/holds" (Some (JObj [("event_id", JStr event); ("seat_ids", JArr [JStr seat])])) (Some key)).
Definition first_number (rows : list (list Z)) : outcome Z :=
  match rows with (n :: _) :: _ => Ok n | _ => Raise (PyError "IndexError" "list index out of range") end.
Definition db (q : query) : M drill (list (list Z)) := r ← drill_perform (Db q); mret r.(da_rows).

(** A service is stopped, a hold is refused, the service is started; then the same hold succeeds once. *)
Definition outage_case (event service seat key : string) : M drill unit :=
  _ ← finally
    (_ ← compose Stop service;
     _ ← drill_perform (DrillSleep (seconds 2));
     r ← hold_seat event seat key;
     _ ← save;
     assert (r.(da_status) =? 503))
    (compose Start service);
  _ ← ready;
  before ← db (KeyRecords key);
  n ← lift (first_number before);
  _ ← assert (n =? 0);
  first ← hold_seat event seat key;
  _ ← save;
  _ ← assert (first.(da_status) =? 201);
  repeated ← hold_seat event seat key;
  _ ← assert ((repeated.(da_status) =? 201) && json_eqb repeated.(da_body) first.(da_body));
  other ← fresh_key "conflict-";
  conflict ← hold_seat event seat other;
  code ← lift (if conflict.(da_status) =? 409 then item "code" conflict.(da_body) else Ok JNull);
  _ ← assert ((conflict.(da_status) =? 409) && bool_decide (text code ∈ ["SEAT_BUSY"; "SEAT_UNAVAILABLE"]));
  h ← lift (item "hold_id" first.(da_body));
  owners ← db (CurrentOwners event seat (text h));
  m ← lift (first_number owners);
  assert (m =? 1).

(** [current = order(id); while current.get('status') != 'PAID' and time.monotonic() < deadline: sleep; current = order(id)] *)
Fixpoint await_paid (fuel : nat) (order : string) (deadline : Z) (current : json) : M drill json :=
  match fuel with
  | O => raise (PyError "OutOfFuel" "")
  | S fuel' =>
      s ← lift (get "status" current);
      if bool_decide (text s = "PAID") then mret current
      else now ← gets dr_clock;
           if negb (now <? deadline) then mret current
           else _ ← drill_perform (DrillSleep (milliseconds 500)); next ← get_order order; await_paid fuel' order deadline next
  end.

Definition kafka_stopped (order : string) : M drill unit :=
  _ ← compose Stop "kafka";
  key ← fresh_key "payment-";
  r ← drill_perform (Http "POST" ("/v1/orders/" +:+ order +:+ "/payments") (Some (JObj [("duplicates", JNum 5000000); ("delay_seconds", JNum 0)])) (Some key));
  _ ← assert (r.(da_status) =? 202);
  _ ← save;
  now ← gets dr_clock;
  first ← get_order order;
  current ← await_paid 82 order (now + seconds 40) first;
  _ ← save;
  paid ← lift (has_status "PAID" current);
  n ← lift (if paid then ticket_count current else Ok O);
  _ ← assert (paid && Nat.eqb n 0);
  rows ← db (PendingPaidEvents order);
  pending ← lift (first_number rows);
  assert (pending =? 1).

(** Fulfilment, then the five deliveries, within 150 seconds; and the counts of what was written. *)
Definition kafka_recovered (order : string) : M drill unit :=
  now ← gets dr_clock;
  let deadline := now + seconds 150 in
  last ← poll_until 302 deadline (milliseconds 500) (get_order order) (fun o => obind (get "status" o) (fun v => Ok (bool_decide (text v = "FULFILLED")))) None;
  current ← bound last;
  fulfilled ← lift (has_status "FULFILLED" current);
  n ← lift (if fulfilled then ticket_count current else Ok O);
  _ ← assert (fulfilled && Nat.eqb n 1);
  last_rows ← poll_until 302 deadline (milliseconds 500) (db (Deliveries order)) (fun rows => obind (first_number rows) (fun d => Ok (5 <=? d))) None;
  rows ← bound last_rows;
  _ ← assert (bool_decide (rows = [[5; 5]]));
  counts ← db (OrderCounts order);
  assert (bool_decide (head counts = Some [1; 1; 1; 1])).

Definition kafka_case (order : string) : M drill unit :=
  _ ← finally (kafka_stopped order) (compose Start "kafka"); kafka_recovered order.

Definition cloud_drill (event : string) (s0 s1 s2 : string) : M drill bool :=
  _ ← save;
  _ ← ready;
  unused ← db (UnusedSeats event [s0; s1; s2]);
  _ ← save;
  _ ← assert (bool_decide (unused = [[3; 0]]));
  _ ← for_each [("redis", s0); ("postgres", s1)] (fun ss =>
        _ ← open_case ss.1; key ← fresh_key "fault-"; in_case (outage_case event ss.1 ss.2 key));
  _ ← open_case "kafka";
  key ← fresh_key "fault-payment-";
  held ← hold_seat event s2 key;
  _ ← assert (held.(da_status) =? 201);
  order ← lift (item "order_id" held.(da_body));
  _ ← in_case (kafka_case (text order));
  pass ← gets (fun s => forallb (fun c => bool_decide (c.(dc_pass) = Some true)) s.(dr_cases));
  _ ← save;
  mret pass.

Definition cloud_failure_drill (a : drill_args) (now : Z) : M drill bool :=
  chosen ← lift (check_drill a now);
  match chosen.2 with
  | [s0; s1; s2] => cloud_drill chosen.1 s0 s1 s2
  | _ => raise (PyError "IndexError" "list index out of range")
  end.
End drills.
