(* ===== verification/DrillFacts.v ===== *)
(** * What the outage drills do

    Whatever the surroundings answer or raise, a drill starts every service it stopped; and its waits end. *)

From S2P Require Import Prelude CapacityStage Drills.

#[local] Open Scope Z_scope.

(** Every stop is followed by a start of the same service. *)
Definition restarted (l : list drill_call) : Prop :=
  forall before service after, l = before ++ Compose Stop service :: after -> Compose Start service ∈ after.

Definition no_stop (l : list drill_call) : Prop := forall service, Compose Stop service ∉ l.

(** ** Computations by the calls they add *)

(** A property of call sequences that sequencing keeps. *)
Class Sequential (P : list drill_call -> Prop) : Prop := {
  seq_nil : P [];
  seq_app : forall l l', P l -> P l' -> P (l ++ l');
}.

#[global] Instance no_stop_sequential : Sequential no_stop.
Proof. split; [by intros s ?%not_elem_of_nil|]. intros l l' H H' s [?|?]%elem_of_app; [by eapply H|by eapply H']. Qed.

Lemma no_stop_restarted l : no_stop l -> restarted l.
Proof. intros H before s after ->. destruct (H s). apply elem_of_app. right. left. Qed.

#[global] Instance restarted_sequential : Sequential restarted.
Proof.
  split; [by intros [] ? ? ?|]. intros l l' H H' before s after Heq.
  apply app_eq_app in Heq as (k & [[-> Hk]|[-> Hk]]).
  - destruct k as [|c k]; simpl in Hk; [by apply (H' [] s after)|]. injection Hk as <- ->. apply elem_of_app. left. by apply (H before s k).
  - by apply (H' k s after).
Qed.

Section emits.
Context (P : list drill_call -> Prop) `{!Sequential P}.

Definition emits {A} (m : M drill A) : Prop := forall s, exists l, (m s).1.(dr_calls) = s.(dr_calls) ++ l /\ P l.

Lemma emits_silent {A} (m : M drill A) : (forall s, (m s).1.(dr_calls) = s.(dr_calls)) -> emits m.
Proof. intros H s. exists []. rewrite H, app_nil_r. split; [done|apply seq_nil]. Qed.

Lemma emits_bind {A B} (m : M drill A) (f : A -> M drill B) : emits m -> (forall a, emits (f a)) -> emits (m ≫= f).
Proof.
  intros Hm Hf s. unfold mbind, M_bind. destruct (Hm s) as (l & Hl & Hp). destruct (m s) as [s1 [a|e]]; simpl in *; [|eauto].
  destruct (Hf a s1) as (l' & Hl' & Hp'). exists (l ++ l'). rewrite Hl', Hl, app_assoc. split; [done|by apply seq_app].
Qed.

Lemma emits_try {A} (m : M drill A) h : emits m -> (forall e, emits (h e)) -> emits (try_except m h).
Proof.
  intros Hm Hh s. unfold try_except. destruct (Hm s) as (l & Hl & Hp). destruct (m s) as [s1 [a|e]]; simpl in *; [eauto|].
  destruct (Hh e s1) as (l' & Hl' & Hp'). exists (l ++ l'). rewrite Hl', Hl, app_assoc. split; [done|by apply seq_app].
Qed.

Lemma emits_finally {A} (m : M drill A) f : emits m -> emits f -> emits (finally m f).
Proof.
  intros Hm Hf s. unfold finally. destruct (Hm s) as (l & Hl & Hp). destruct (m s) as [s1 r]; simpl in *.
  destruct (Hf s1) as (l' & Hl' & Hp'). destruct (f s1) as [s2 [?|?]]; simpl in *; exists (l ++ l'); rewrite Hl', Hl, app_assoc; (split; [done|by apply seq_app]).
Qed.

Lemma emits_for_each {X} (l : list X) (f : X -> M drill unit) : (forall x, emits (f x)) -> emits (for_each l f).
Proof. intros Hf. induction l as [|x l IH]; [by apply emits_silent|]. by apply emits_bind. Qed.

Lemma emits_lift {A} (o : outcome A) : emits (lift o).
Proof. apply emits_silent. by destruct o. Qed.

Lemma emits_raise_if b e : emits (raise_if b e).
Proof. apply emits_silent. by destruct b. Qed.

Lemma emits_or_raise {A} (o : option A) e : emits (or_raise o e).
Proof. apply emits_silent. by destruct o. Qed.

Context (answers : drill_call -> nat -> drill_answer).

Lemma emits_perform c : P [c] -> emits (drill_perform answers c).
Proof. intros Hc s. exists [c]. unfold drill_perform. by destruct (da_raised _). Qed.

Context (Hquiet : forall c, (forall service, c <> Compose Stop service) -> P [c]).

Lemma emits_poll {A} fuel deadline pause (probe : M drill A) done last : emits probe -> emits (poll_until answers fuel deadline pause probe done last).
Proof.
  intros Hp. revert last. induction fuel as [|fuel IH]; intros last; [by apply emits_silent|]. simpl.
  apply emits_bind; [by apply emits_silent|]. intros now. destruct (negb _); [by apply emits_silent|].
  apply emits_bind; [done|]. intros x. apply emits_bind; [apply emits_lift|]. intros []; [by apply emits_silent|].
  apply emits_bind; [by apply emits_perform, Hquiet|]. intros _. apply IH.
Qed.
End emits.

(** ** Drills restart what they stop *)

Lemma quiet_no_stop c : (forall service, c <> Compose Stop service) -> no_stop [c].
Proof. intros Hc s Hin%list_elem_of_singleton. by apply (Hc s). Qed.

Lemma quiet_restarted c : (forall service, c <> Compose Stop service) -> restarted [c].
Proof. intros Hc. by apply no_stop_restarted, quiet_no_stop. Qed.

Lemma emits_weaken {A} (m : M drill A) : emits no_stop m -> emits restarted m.
Proof. intros Hm s. destruct (Hm s) as (l & Hl & Hn). exists l. split; [done|by apply no_stop_restarted]. Qed.

(** Through the statements of a drill that stops nothing. *)
Ltac call := lazymatch goal with
  | |- emits _ (poll_until _ _ _ _ _ _ _) => apply (emits_poll _ _ quiet_no_stop)
  | |- emits _ (lift _) => apply (emits_lift _)
  | |- emits _ (raise_if _ _) => apply (emits_raise_if _)
  | |- emits _ (assert _) => apply (emits_raise_if _)
  | |- emits _ (checked _) => apply (emits_raise_if _)
  | |- emits _ (bound _) => apply (emits_or_raise _)
  | |- emits _ (drill_perform _ _) => apply (emits_perform _ _), quiet_no_stop; done
  | |- emits _ (hold_seat _ _ _ _) => apply (emits_perform _ _), quiet_no_stop; done
  | |- emits _ (compose _ _ _) => unfold compose
  | |- emits _ (save _) => unfold save
  | |- emits _ (db _ _) => unfold db
  | |- emits _ (get_order _ _) => unfold get_order
  | |- emits _ (open_case _ _) => unfold open_case
  | |- emits _ (mbind _ _) => apply (emits_bind _); [|intros ?]
  | |- emits _ (try_except _ _) => apply (emits_try _); [|intros ?]
  | |- emits _ (finally _ _) => apply (emits_finally _)
  | |- emits _ (match ?x with _ => _ end) => destruct x
  | |- emits _ (gets _) => by apply (emits_silent _)
  | |- emits _ (fresh_key _ _) => by apply (emits_silent _)
  | |- emits _ (close_case _ _) => by apply (emits_silent _)
  | |- emits _ (modify _) => by apply (emits_silent _)
  | |- emits _ (mret _) => by apply (emits_silent _)
  | |- emits _ (raise _) => by apply (emits_silent _)
  end.
Ltac calls := repeat call.

Section restart.
Context (answers : drill_call -> nat -> drill_answer) (hex : nat -> string).

(** [try: stop; body finally: start] *)
Lemma outage_restarts (service : string) (body : M drill unit) :
  emits no_stop body -> emits restarted (finally (_ ← compose answers Stop service; body) (compose answers Start service)).
Proof.
  intros Hb s. set (m := (_ ← compose answers Stop service; body) : M drill unit).
  assert (exists l, (m s).1.(dr_calls) = s.(dr_calls) ++ Compose Stop service :: l /\ no_stop l) as (l & Hl & Hn).
  { unfold m, compose at 1, drill_perform, mbind, M_bind. destruct (da_raised _); simpl; [exists []; split; [done|apply seq_nil]|].
    match goal with |- context [body ?s1] => destruct (Hb s1) as (l & Hl & Hn) end. exists l. rewrite Hl. simpl. by rewrite <-app_assoc. }
  unfold finally. destruct (m s) as [s1 r]. simpl in Hl. exists (Compose Stop service :: l ++ [Compose Start service]).
  assert ((compose answers Start service s1).1.(dr_calls) = s1.(dr_calls) ++ [Compose Start service]) as Hc.
  { unfold compose, drill_perform, mbind, M_bind. by destruct (da_raised _). }
  destruct (compose answers Start service s1) as [s2 [?|?]]; simpl in *.
  all: rewrite Hc, Hl, <-app_assoc; split; [done|]; intros [|c before] s' after [= ? Htl]; subst; [apply elem_of_app; right; left|].
  all: exfalso; assert (no_stop (l ++ [Compose Start service])) as Hns by (apply seq_app; [done|by apply quiet_no_stop]);
    rewrite Htl in Hns; apply (Hns s'); apply elem_of_app; right; left.
Qed.

Lemma ready_calls : emits no_stop (ready answers).
Proof.
  unfold ready. calls. generalize 122%nat. intros fuel. induction fuel as [|fuel IH]; cbn [ready_loop]; calls. apply IH.
Qed.

Lemma await_paid_calls fuel order deadline current : emits no_stop (await_paid answers fuel order deadline current).
Proof. revert current. induction fuel as [|fuel IH]; intros current; cbn [await_paid]; calls. apply IH. Qed.

Lemma pay_without_kafka_restarts order : emits restarted (finally (pay_without_kafka answers hex order) (compose answers Start "kafka")).
Proof. unfold pay_without_kafka. apply outage_restarts. calls. Qed.

Lemma kafka_case_restarts order : emits restarted (kafka_case answers hex order).
Proof.
  unfold kafka_case, kafka_stopped. apply (emits_bind _).
  - apply outage_restarts. calls. apply await_paid_calls.
  - intros _. apply emits_weaken. unfold kafka_recovered. calls.
Qed.

Lemma outage_case_restarts event service seat key : emits restarted (outage_case answers hex event service seat key).
Proof.
  unfold outage_case. apply (emits_bind _).
  - apply outage_restarts. calls.
  - intros _. apply emits_weaken. calls; apply ready_calls.
Qed.

Lemma in_case_restarts m : emits restarted m -> emits restarted (in_case answers m).
Proof.
  intros Hm. unfold in_case. apply (emits_finally _); [|apply emits_weaken; calls].
  apply (emits_try _); [apply (emits_bind _); [done|]; intros _|intros e]; apply emits_weaken; calls.
Qed.

(** Every service a drill stops it also starts, whatever a request, a command, a query or the saving of the report raises. *)
Theorem recovery_drill_restarts s : exists l, (recovery_drill answers hex s).1.(dr_calls) = s.(dr_calls) ++ l /\ restarted l.
Proof.
  revert s. change (emits restarted (recovery_drill answers hex)). unfold recovery_drill.
  apply (emits_bind _); [apply emits_weaken; unfold last_available; calls|intros es].
  do 2 (apply (emits_bind _); [apply emits_weaken; calls|intros ?]). apply (emits_bind _); [apply emits_weaken; calls|intros _].
  apply (emits_bind _); [apply emits_weaken; calls|intros order]. apply (emits_bind _); [apply pay_without_kafka_restarts|intros _].
  apply emits_weaken. unfold await_fulfilled. calls.
Qed.

Theorem cloud_drill_restarts a now s : exists l, (cloud_failure_drill answers hex a now s).1.(dr_calls) = s.(dr_calls) ++ l /\ restarted l.
Proof.
  revert s. change (emits restarted (cloud_failure_drill answers hex a now)). unfold cloud_failure_drill.
  apply (emits_bind _); [apply (emits_lift _)|intros [event seats]]. cbn [fst snd].
  destruct seats as [|s0 [|s1 [|s2 [|]]]]; try (by apply (emits_silent _)). unfold cloud_drill.
  do 5 (apply (emits_bind _); [apply emits_weaken; calls; apply ready_calls|intros ?]).
  apply (emits_bind _); [apply (emits_for_each _); intros ss|intros _].
  - do 2 (apply (emits_bind _); [apply emits_weaken; calls|intros ?]). apply in_case_restarts, outage_case_restarts.
  - do 5 (apply (emits_bind _); [apply emits_weaken; calls|intros ?]).
    apply (emits_bind _); [apply in_case_restarts, kafka_case_restarts|intros _]. apply emits_weaken. calls.
Qed.
End restart.

(** ** Waits end *)

Definition OutOfFuel : exn := PyError "OutOfFuel" "".

Section ends.
Context (answers : drill_call -> nat -> drill_answer) (Hreal : forall c n, (answers c n).(da_raised) <> Some OutOfFuel).

(** [m] does not run out of fuel, and time does not go back. *)
Definition timely {A} (m : M drill A) : Prop := forall s, (m s).2 <> Raise OutOfFuel /\ s.(dr_clock) <= (m s).1.(dr_clock).

Lemma timely_bind {A B} (m : M drill A) (f : A -> M drill B) : timely m -> (forall a, timely (f a)) -> timely (m ≫= f).
Proof.
  intros Hm Hf s. destruct (Hm s) as [Ho Hc]. unfold mbind, M_bind. destruct (m s) as [s1 [a|e]]; simpl in *; [|split; [congruence|done]].
  destruct (Hf a s1) as [? ?]. split; [done|lia].
Qed.

Lemma timely_try {A} (m : M drill A) h : timely m -> (forall e, e <> OutOfFuel -> timely (h e)) -> timely (try_except m h).
Proof.
  intros Hm Hh s. destruct (Hm s) as [Ho Hc]. unfold try_except. destruct (m s) as [s1 [a|e]]; simpl in *; [done|].
  destruct (Hh e ltac:(congruence) s1) as [? ?]. split; [done|lia].
Qed.

Lemma timely_silent {A} (m : M drill A) : (forall s, (m s).2 <> Raise OutOfFuel /\ (m s).1.(dr_clock) = s.(dr_clock)) -> timely m.
Proof. intros H s. destruct (H s) as [? ->]. done. Qed.

Lemma timely_perform c : (forall d, c = DrillSleep d -> 0 <= d) -> timely (drill_perform answers c).
Proof.
  intros Hd s. unfold drill_perform. pose proof (Hreal c (length (dr_calls s))) as Hr.
  assert (0 <= match c with DrillSleep d => d | _ => 0 end) as Hz by (destruct c; try lia; by apply Hd).
  destruct (da_raised _) as [e|]; simpl; (split; [congruence|lia]).
Qed.

Lemma sleep_real d s s' e : 0 <= d -> drill_perform answers (DrillSleep d) s = (s', Raise e) -> Raise (A := unit) e <> Raise OutOfFuel.
Proof.
  intros Hd Hs. destruct (timely_perform (DrillSleep d)) with (s := s) as [Hn _]; [intros d' [= <-]; lia|]. rewrite Hs in Hn. simpl in Hn. congruence.
Qed.

(** A sleep passes its time, or raises. *)
Lemma sleep_passes d s s' r : drill_perform answers (DrillSleep d) s = (s', Ok r) -> s.(dr_clock) + d <= s'.(dr_clock).
Proof. unfold drill_perform. destruct (da_raised _); [done|]. intros [= <- _]. simpl. lia. Qed.

Lemma poll_ends {A} fuel deadline pause (probe : M drill A) done last s :
  0 < pause -> timely probe -> (forall x, done x <> Raise OutOfFuel) -> (1 <= fuel)%nat -> deadline <= s.(dr_clock) + Z.of_nat (fuel - 1) * pause ->
  (poll_until answers fuel deadline pause probe done last s).2 <> Raise OutOfFuel.
Proof.
  intros Hp Hprobe Hdone. revert last s. induction fuel as [|fuel IH]; intros last s Hf Hd; [lia|]. cbn [poll_until].
  rewrite (bind_ok (gets dr_clock) _ s s (dr_clock s) eq_refl). destruct (dr_clock s <? deadline) eqn:Hnow; [|done]. cbn [negb]. apply Z.ltb_lt in Hnow.
  destruct (Hprobe s) as [Ho Hc]. destruct (probe s) as [s1 [x|e]] eqn:Hs1.
  2: { rewrite (bind_raise _ _ _ _ _ Hs1). simpl in *. congruence. }
  rewrite (bind_ok _ _ _ _ _ Hs1). specialize (Hdone x). destruct (done x) as [b|e]; [|simpl; congruence].
  rewrite (bind_ok (lift (Ok b)) _ s1 s1 b eq_refl). destruct b; [done|].
  destruct (drill_perform answers (DrillSleep pause) s1) as [s2 [r|e]] eqn:Hs2.
  2: { rewrite (bind_raise _ _ _ _ _ Hs2). simpl. apply sleep_real in Hs2; [congruence|lia]. }
  rewrite (bind_ok _ _ _ _ _ Hs2). apply sleep_passes in Hs2. simpl in Hc. apply IH; [|nia].
  destruct fuel; [|lia]. simpl in Hd. lia.
Qed.

(** The waits of the drills have enough fuel. *)
Lemma wait_ends {A} fuel limit pause (probe : M drill A) done :
  0 < pause -> timely probe -> (forall x, done x <> Raise OutOfFuel) -> (1 <= fuel)%nat -> limit <= Z.of_nat (fuel - 1) * pause ->
  forall s, ((now ← gets dr_clock; poll_until answers fuel (now + limit) pause probe done None) s).2 <> Raise OutOfFuel.
Proof. intros Hp Hpr Hd Hf Hl s. apply poll_ends; try done. lia. Qed.

Lemma order_ends order : timely (get_order answers order).
Proof. apply timely_bind; [by apply timely_perform|]. intros a. by apply timely_silent. Qed.

Lemma item_real key doc : item key doc <> Raise OutOfFuel.
Proof. unfold item. destruct doc; try done. by destruct (existsb _ _). Qed.

Lemma has_status_real st o : has_status st o <> Raise OutOfFuel.
Proof. unfold has_status. pose proof (item_real "status" o). destruct (item "status" o); simpl; [done|congruence]. Qed.

Lemma recovery_waits_end order s :
  ((now ← gets dr_clock; poll_until answers 68 (now + seconds 20) (milliseconds 300) (get_order answers order) (has_status "PAID") None) s).2 <> Raise OutOfFuel
  /\ ((now ← gets dr_clock; poll_until answers 182 (now + seconds 90) (milliseconds 500) (get_order answers order) (has_status "FULFILLED") None) s).2 <> Raise OutOfFuel.
Proof. split; (apply wait_ends; [done|apply order_ends|apply has_status_real|lia|done]). Qed.

Lemma await_paid_ends fuel order deadline current s :
  (1 <= fuel)%nat -> deadline <= s.(dr_clock) + Z.of_nat (fuel - 1) * milliseconds 500 ->
  (await_paid answers fuel order deadline current s).2 <> Raise OutOfFuel.
Proof.
  revert current s. induction fuel as [|fuel IH]; intros current s Hf Hd; [lia|]. cbn [await_paid].
  destruct (get "status" current) as [v|e] eqn:Hg; [|by destruct current; simplify_eq/=].
  rewrite (bind_ok (lift (Ok v)) _ s s v eq_refl). case_bool_decide; [done|]. rewrite (bind_ok (gets dr_clock) _ s s (dr_clock s) eq_refl).
  destruct (dr_clock s <? deadline) eqn:Hnow; [|done]. cbn [negb]. apply Z.ltb_lt in Hnow.
  destruct (drill_perform answers (DrillSleep (milliseconds 500)) s) as [s1 [r|e]] eqn:Hs1.
  2: { rewrite (bind_raise _ _ _ _ _ Hs1). simpl. apply sleep_real in Hs1; [congruence|done]. }
  rewrite (bind_ok _ _ _ _ _ Hs1). apply sleep_passes in Hs1. destruct (order_ends order s1) as [Ho Hc].
  destruct (get_order answers order s1) as [s2 [next|e]] eqn:Hs2; [|rewrite (bind_raise _ _ _ _ _ Hs2); simpl in *; congruence].
  rewrite (bind_ok _ _ _ _ _ Hs2). simpl in Hc. unfold milliseconds, us_per_ms in *. destruct fuel; [simpl in Hd; lia|]. apply IH; lia.
Qed.

Lemma ready_ends s : (ready answers s).2 <> Raise OutOfFuel.
Proof.
  unfold ready. rewrite (bind_ok (gets dr_clock) _ s s (dr_clock s) eq_refl).
  assert (forall fuel started s, (1 <= fuel)%nat -> started + seconds 120 <= s.(dr_clock) + Z.of_nat (fuel - 1) * seconds 1 ->
    (ready_loop answers fuel started s).2 <> Raise OutOfFuel) as H; [|apply H; [lia|unfold seconds, us_per_second; lia]].
  clear s. intros fuel started. induction fuel as [|fuel IH]; intros s Hf Hd; [lia|]. cbn [ready_loop].
  rewrite (bind_ok (gets dr_clock) _ s s (dr_clock s) eq_refl). destruct (dr_clock s - started <? seconds 120) eqn:Hnow; [|done]. cbn [negb]. apply Z.ltb_lt in Hnow.
  set (probe := try_except _ _). assert (timely probe) as Hprobe.
  { apply timely_try; [apply timely_bind; [by apply timely_perform|intros; by apply timely_silent]|].
    intros e He. destruct (unreachable e); apply timely_silent; [done|]. intros s'. simpl. split; [congruence|done]. }
  destruct (Hprobe s) as [Ho Hc]. destruct (probe s) as [s1 [up|e]] eqn:Hs1.
  2: { rewrite (bind_raise _ _ _ _ _ Hs1). simpl in *. congruence. }
  rewrite (bind_ok _ _ _ _ _ Hs1). destruct up; [done|].
  destruct (drill_perform answers (DrillSleep (seconds 1)) s1) as [s2 [r|e]] eqn:Hs2.
  2: { rewrite (bind_raise _ _ _ _ _ Hs2). simpl. apply sleep_real in Hs2; [congruence|done]. }
  rewrite (bind_ok _ _ _ _ _ Hs2). apply sleep_passes in Hs2. simpl in Hc. unfold seconds, us_per_second in *.
  destruct fuel; [simpl in Hd; lia|]. apply IH; lia.
Qed.
End ends.
