(* ===== verification/LoadAudit.v ===== *)
(** * The audits of a load run

    [scripts/verify_cloud_holds.py], [scripts/verify_hot_seat.py], [scripts/capacity_queue_state.py] and
    [scripts/cloud_load_preflight.py]: read-only queries over the modelled database and the streams, and
    the verdicts computed from them.  A query is a function of the database and of the instant of its
    [clock_timestamp()].  [orders.created_at], which no other code reads, is the argument [created]. *)

From Stdlib Require Import Ascii.
From S2P Require Import Prelude Domain Schema World Sql.

#[local] Open Scope Z_scope.

(** ** SQL *)

(** [s LIKE p]: [%] matches any text, [_] one character, a backslash escapes.  A pattern that ends in a
    backslash, an error in PostgreSQL, matches nothing. *)
Fixpoint like (p s : string) : bool :=
  match p with
  | EmptyString => match s with EmptyString => true | _ => false end
  | String.String c p' =>
      if bool_decide (c = "%"%char) then
        (fix any (s : string) : bool :=
           like p' s || match s with EmptyString => false | String.String _ s' => any s' end) s
      else if bool_decide (c = "_"%char) then
        match s with EmptyString => false | String.String _ s' => like p' s' end
      else if bool_decide (c = "\"%char) then
        match p', s with
        | String.String c' p'', String.String x s' => bool_decide (x = c') && like p'' s'
        | _, _ => false
        end
      else match s with EmptyString => false | String.String x s' => bool_decide (x = c) && like p' s' end
  end.

(** [run_id + '-%'] *)
Definition run_pattern (run_id : string) : string := run_id +:+ "-%".

(** [count( * ) FILTER (WHERE P)] and [count(DISTINCT f)], which ignores NULL. *)
Definition count_if {A} (P : A -> bool) (l : list A) : Z := Z.of_nat (length (filter (fun x => P x) l)).
Definition count_distinct {A} (f : A -> option uuid) (l : list A) : Z := Z.of_nat (length (remove_dups (omap f l))).

(** [r.response->>'hold_id'] and [r.response->>'order_id'] *)
Definition response_hold (r : option response) : option uuid :=
  match r with Some (RHold doc) => Some doc.(hd_hold_id) | _ => None end.
Definition response_order (r : option response) : option uuid :=
  match r with
  | Some (RHold doc) => Some doc.(hd_order_id)
  | Some (ROrder o _ _ _) => Some o
  | Some (RPayment _ o) => Some o
  | None => None
  end.

(** A row of [idempotency_records r LEFT JOIN holds h LEFT JOIN orders o]. *)
Record joined : Type := Joined {
  j_actor : string;
  j_key : string;
  j_hold : option (uuid * hold_row);
  j_order : option (uuid * order_row);
}.

(** [WHERE r.operation='hold' AND r.key LIKE ANY(patterns)] *)
Definition selected (patterns : list string) (k : string * string * string) : bool :=
  bool_decide (k.1.2 = "hold") && existsb (fun p => like p k.2) patterns.

Definition lookup_row {A} (m : gmap uuid A) (id : option uuid) : option (uuid * A) :=
  match id with Some i => (fun r => (i, r)) <$> m !! i | None => None end.

Definition records (patterns : list string) (d : db) : list joined :=
  (fun kr : (string * string * string) * idem_row =>
     Joined kr.1.1.1 kr.1.2 (lookup_row d.(holds) (response_hold kr.2.(id_response)))
       (lookup_row d.(orders) (response_order kr.2.(id_response))))
  <$> filter (fun kr => selected patterns kr.1) (map_to_list d.(idempotency_records)).

(** ** verify_cloud_holds: the runs *)

(** [h.id IS NULL OR o.id IS NULL OR o.hold_id IS DISTINCT FROM h.id OR h.actor IS DISTINCT FROM r.actor OR ...] *)
Definition broken (j : joined) : bool :=
  match j.(j_hold), j.(j_order) with
  | Some (h, hr), Some (_, o) =>
      negb (bool_decide (o.(o_hold_id) = h) && bool_decide (hr.(h_actor) = j.(j_actor)) && bool_decide (o.(o_actor) = j.(j_actor)))
  | _, _ => true
  end.

Definition hold_is (P : hold_row -> bool) (j : joined) : bool := match j.(j_hold) with Some (_, h) => P h | None => false end.
Definition order_is (P : order_row -> bool) (j : joined) : bool := match j.(j_order) with Some (_, o) => P o | None => false end.
Definition active (h : hold_row) : bool := bool_decide (h.(h_status) = H_ACTIVE).
Definition pending (o : order_row) : bool := bool_decide (o.(o_status) = O_PENDING).

(** The eight columns of the query of a run; the table only ever holds DURABLE commands. *)
Record run_row : Type := RunRow {
  rr_records : Z;
  rr_holds : Z;
  rr_orders : Z;
  rr_broken : Z;
  rr_active : Z;
  rr_overdue : Z;
  rr_pending : Z;
  rr_durable : Z;
}.

Definition run_query (run_id : string) (now : Z) (d : db) : run_row :=
  let rows := records [run_pattern run_id] d in
  RunRow (Z.of_nat (length rows)) (count_distinct (fun j => fst <$> j.(j_hold)) rows) (count_distinct (fun j => fst <$> j.(j_order)) rows)
    (count_if broken rows) (count_if (hold_is active) rows)
    (count_if (hold_is (fun h => active h && (h.(h_expires_at) <? now))) rows) (count_if (order_is pending) rows)
    (count_if (fun c : command_row => like (run_pattern run_id) c.(rcmd_idempotency_key)) (map_to_list d.(reservation_commands)).*2).

(** What the load generator acknowledged: the counts of 201 and 202 over [hold] and [hot_hold]. *)
Record acks : Type := Acks { ac_201 : Z; ac_202 : Z }.
Definition ac_total (a : acks) : Z := a.(ac_201) + a.(ac_202).

(** A worker's result file: its run id and [statuses[operation][status]]. *)
Record worker_result : Type := WorkerResult { wk_run_id : string; wk_statuses : gmap (string * string) Z }.
Definition status_count (r : worker_result) (op st : string) : Z := default 0 (r.(wk_statuses) !! (op, st)).
Definition acks_of (r : worker_result) : acks :=
  Acks (status_count r "hold" "201" + status_count r "hot_hold" "201") (status_count r "hold" "202" + status_count r "hot_hold" "202").

(** [runs[result['run_id']] = ..]: a later file of the same run replaces an earlier one. *)
Definition runs_of (results : list worker_result) : gmap string acks :=
  foldl (fun m r => <[r.(wk_run_id) := acks_of r]> m) ∅ results.

Definition run_passed (a : acks) (r : run_row) : bool :=
  (r.(rr_records) =? ac_total a) && (r.(rr_holds) =? ac_total a) && (r.(rr_orders) =? ac_total a)
  && (r.(rr_broken) =? 0) && (r.(rr_active) =? 0) && (r.(rr_overdue) =? 0) && (r.(rr_pending) =? 0)
  && (r.(rr_durable) =? a.(ac_202)).

(** ** verify_cloud_holds: the intervals *)

(** A row of [selected]: the hold, its event and expiry, the creation of its order and a seat. *)
Record interval : Type := Interval { iv_id : uuid; iv_event : uuid; iv_expires : Z; iv_created : Z; iv_seat : string }.

#[global] Instance interval_eq_dec : EqDecision interval.
Proof. solve_decision. Defined.

(** [JOIN order_items i ON i.order_id=o.id] *)
Definition items_of (o : uuid) (d : db) : list string :=
  (fun kr : (uuid * string) * item_row => kr.1.2) <$> filter (fun kr => kr.1.1 = o) (map_to_list d.(order_items)).

Definition intervals (created : uuid -> Z) (patterns : list string) (d : db) : list interval :=
  remove_dups (records patterns d ≫= fun j =>
    match j.(j_hold), j.(j_order) with
    | Some (h, hr), Some (o, _) => (fun s => Interval h hr.(h_event_id) hr.(h_expires_at) (created o) s) <$> items_of o d
    | _, _ => []
    end).

(** [ORDER BY created_at,id] *)
Definition earlier (a b : interval) : Prop :=
  a.(iv_created) < b.(iv_created) \/ (a.(iv_created) = b.(iv_created) /\ (a.(iv_id) <= b.(iv_id))%positive).
#[global] Instance earlier_dec : RelDecision earlier.
Proof. intros a b. unfold earlier. solve_decision. Defined.

Definition seat_of (i : interval) : uuid * string := (i.(iv_event), i.(iv_seat)).

(** One partition, in order: [max(expires_at)] of the rows before a row, and whether the row starts before it. *)
Fixpoint overlapping (prior : option Z) (l : list interval) : Z :=
  match l with
  | [] => 0
  | i :: l' =>
      (match prior with Some m => if i.(iv_created) <? m then 1 else 0 | None => 0 end)
      + overlapping (Some (match prior with Some m => Z.max m i.(iv_expires) | None => i.(iv_expires) end)) l'
  end.

Definition partition (rows : list interval) (k : uuid * string) : list interval :=
  merge_sort earlier (filter (fun i => seat_of i = k) rows).

Definition overlaps (rows : list interval) : Z :=
  foldr (fun k n => overlapping None (partition rows k) + n) 0 (remove_dups (seat_of <$> rows)).

(** ** verify_cloud_holds: the streams and the verdict *)

(** [xlen] and the pending entries of [reservation-writers]; without the group, all entries count. *)
Definition stream_counts (s : stream) : Z * Z :=
  let length := Z.of_nat (length s.(st_entries)) in
  (length, if s.(st_group) then Z.of_nat (size s.(st_pending)) else length).

(** [scanned]: the streams [scan_iter] yields. *)
Definition stream_totals (scanned : list uuid) (r : redis) : Z * Z :=
  foldr (fun ev acc => match r.(r_streams) !! ev with
                       | Some s => ((stream_counts s).1 + acc.1, (stream_counts s).2 + acc.2)
                       | None => acc
                       end) (0, 0) scanned.

Record verdict : Type := Verdict {
  vd_checks : list (string * acks * run_row * bool);
  vd_audited_holds : Z;
  vd_audited_intervals : Z;
  vd_overlaps : Z;
  vd_queues : Z * Z * Z;
  vd_stream_entries : Z;
  vd_stream_pending : Z;
  vd_pass : bool;
}.

(** Unpublished events, refreshes due and dead letters: context, not part of the verdict. *)
Definition queues_snapshot (d : db) : Z * Z * Z :=
  (count_if (fun e => bool_decide (e.(ob_published_at) = None)) (map_to_list d.(outbox_events)).*2,
   count_if (fun r => r.(rq_completed_generation) <? r.(rq_generation)) (map_to_list d.(seat_refresh_requests)).*2,
   Z.of_nat (size d.(dead_letters))).

Definition total_acks (runs : gmap string acks) : Z := map_fold (fun _ a n => ac_total a + n) 0 runs.

(** [None] when no worker result was found.  [now]: the instant of the query of each run. *)
Definition verify_cloud_holds (created : uuid -> Z) (results : list worker_result) (now : string -> Z) (scanned : list uuid)
    (d : db) (r : redis) : option verdict :=
  let runs := runs_of results in
  if bool_decide (runs = ∅) then None
  else
    let checks := (fun ra : string * acks => let row := run_query ra.1 (now ra.1) d in (ra.1, ra.2, row, run_passed ra.2 row))
                  <$> map_to_list runs in
    let rows := intervals created (run_pattern <$> (map_to_list runs).*1) d in
    let audited := count_distinct (fun i => Some i.(iv_id)) rows in
    let streams := stream_totals scanned r in
    Some (Verdict checks audited (Z.of_nat (length rows)) (overlaps rows) (queues_snapshot d) streams.1 streams.2
      (forallb snd checks && (overlaps rows =? 0) && (audited =? total_acks runs) && (streams.1 =? 0) && (streams.2 =? 0))).

(** ** verify_hot_seat *)

(** [order_items i JOIN orders o JOIN holds h WHERE i.event_id=.. AND i.seat_id=.. AND h.status='ACTIVE' AND h.expires_at>now] *)
Definition active_owners (ev : uuid) (seat : string) (now : Z) (d : db) : list (uuid * uuid) :=
  omap (fun kr : (uuid * string) * item_row =>
    if bool_decide (kr.2.(i_event_id) = ev) && bool_decide (kr.1.2 = seat) then
      match d.(orders) !! kr.1.1 with
      | Some o => match d.(holds) !! o.(o_hold_id) with
                  | Some h => if active h && (now <? h.(h_expires_at)) then Some (o.(o_hold_id), kr.1.1) else None
                  | None => None
                  end
      | None => None
      end
    else None) (map_to_list d.(order_items)).

(** The record names the acknowledged hold of the event, with its order and one actor. *)
Definition owner_record (hold ev : uuid) (j : joined) : bool :=
  match j.(j_hold), j.(j_order) with
  | Some (h, hr), Some (_, o) =>
      bool_decide (h = hold) && bool_decide (hr.(h_event_id) = ev) && bool_decide (o.(o_hold_id) = h)
      && bool_decide (o.(o_actor) = hr.(h_actor)) && bool_decide (j.(j_actor) = hr.(h_actor))
  | _, _ => false
  end.

Definition one_durable_owner_pass (run_id : string) (ev : uuid) (seat : string) (hold : uuid) (now : Z) (d : db) : bool :=
  let rows := records [run_pattern run_id] d in
  let owners := active_owners ev seat now d in
  (Z.of_nat (length rows) =? 1) && (count_distinct (fun j => fst <$> j.(j_hold)) rows =? 1)
  && (count_distinct (fun j => fst <$> j.(j_order)) rows =? 1) && (count_if (owner_record hold ev) rows =? 1)
  && (count_distinct (fun p => Some p.1) owners =? 1) && (count_distinct (fun p => Some p.2) owners =? 1)
  && match d.(event_seats) !! (ev, seat) with Some s => bool_decide (s.(s_hold_id) = Some hold) | None => false end.

(** ** capacity_queue_state *)

Record queue_state : Type := QueueState {
  qs_unpublished_outbox : Z;
  qs_pending_refresh : Z;
  qs_dead_letters : Z;
  qs_active_holds : Z;
  qs_overdue_holds : Z;
  qs_pending_orders : Z;
}.

Definition capacity_queue_state (shows : list uuid) (now : Z) (d : db) : queue_state :=
  let fixture_holds := filter (fun h => h.(h_event_id) ∈ shows) (map_to_list d.(holds)).*2 in
  QueueState
    (count_if (fun e => bool_decide (e.(ob_published_at) = None)) (map_to_list d.(outbox_events)).*2)
    (count_if (fun r => r.(rq_completed_generation) <? r.(rq_generation)) (map_to_list d.(seat_refresh_requests)).*2)
    (Z.of_nat (size d.(dead_letters)))
    (count_if active fixture_holds) (count_if (fun h => active h && (h.(h_expires_at) <? now)) fixture_holds)
    (count_if (fun o => bool_decide (o.(o_event_id) ∈ shows) && pending o) (map_to_list d.(orders)).*2).

Definition queue_state_pass (q : queue_state) : bool :=
  forallb (fun n => n =? 0) [q.(qs_unpublished_outbox); q.(qs_pending_refresh); q.(qs_dead_letters); q.(qs_active_holds);
                             q.(qs_overdue_holds); q.(qs_pending_orders)].

(** ** cloud_load_preflight *)

(** [now] is the script's clock, [db_now] the query's; the credentials and every show must outlast the
    run and three minutes of drain. *)
Definition load_preflight (secs now db_now credentials_expire : Z) (shows : list uuid) (d : db) : bool :=
  let deadline := now + seconds (secs + 180) in
  let found := filter (fun kr : uuid * event_row => kr.1 ∈ shows) (map_to_list d.(events)) in
  let open := count_if (fun kr : uuid * event_row => (kr.2.(ev_sale_starts) <? db_now) && (deadline <? kr.2.(ev_sale_ends))) found in
  (Z.of_nat (length found) =? open) && (open =? Z.of_nat (length shows)) && (deadline <? credentials_expire).
