(* ===== verification/AuditFacts.v ===== *)
(** * What the audits establish

    A run that passes the audit is durable: every acknowledged hold has its record, hold and order, linked
    and drained, and no two holds of the run ever overlapped on a seat.  The window query over the
    intervals is equivalent to pairwise disjointness, and acknowledged reservations never count as broken. *)

From Stdlib Require Import Ascii.
From S2P Require Import Prelude Domain Schema World Sql Service Invariant System Example Contracts Durable LoadAudit.

#[local] Open Scope Z_scope.

(** ** LIKE *)

Definition plain_char (c : ascii) : Prop := c <> "%"%char /\ c <> "_"%char /\ c <> "\"%char.

Fixpoint plain (s : string) : Prop :=
  match s with EmptyString => True | String.String c s' => plain_char c /\ plain s' end.

Lemma like_any s : like "%" s = true.
Proof. destruct s; [done|]. simpl. by induction s. Qed.

(** A run's pattern selects the keys that start with its id and a dash. *)
Lemma like_prefix p s : plain p -> like (p +:+ "%") s = true <-> exists t, s = p +:+ t.
Proof.
  revert s. induction p as [|c p IH]; intros s Hp.
  - split; [by exists s|]. intros _. apply like_any.
  - destruct Hp as [(H1 & H2 & H3) Hp]. 
    change (String.String c p +:+ "%") with (String.String c (p +:+ "%")). cbn [like].
    rewrite !bool_decide_eq_false_2 by done. destruct s as [|x s]; [split; [done|by intros [t ?]]|].
    rewrite andb_true_iff, bool_decide_eq_true, IH by done. split.
    + intros [-> [t ->]]. by exists t.
    + intros [t [= -> ->]]. split; [done|]. by exists t.
Qed.

(** ** Counts *)

Lemma count_if_zero {A} (P : A -> bool) l : count_if P l = 0 <-> forall x, x ∈ l -> P x = false.
Proof.
  unfold count_if. split.
  - intros H x Hx. destruct (P x) eqn:E; [|done]. exfalso.
    assert (Hin : x ∈ filter (fun x => P x) l) by (apply list_elem_of_filter; by rewrite E).
    destruct (filter _ l); [by apply not_elem_of_nil in Hin|simpl in H; lia].
  - intros H. destruct (filter (fun x => P x) l) as [|x l'] eqn:E; [done|]. exfalso.
    assert (Hx : x ∈ filter (fun x => P x) l) by (rewrite E; apply list_elem_of_here).
    apply list_elem_of_filter in Hx as [HP Hx]. by rewrite H in HP.
Qed.

Lemma count_if_ext {A} (P Q : A -> bool) l : (forall x, x ∈ l -> P x = Q x) -> count_if P l = count_if Q l.
Proof.
  unfold count_if. intros H. do 2 f_equal. induction l as [|x l IH]; [done|].
  rewrite !filter_cons, IH by (intros; apply H; by apply list_elem_of_further).
  rewrite (H x) by apply list_elem_of_here. by destruct (Q x).
Qed.

Lemma NoDup_of_length {A} `{EqDecision A} (l : list A) : length (remove_dups l) = length l -> NoDup l.
Proof.
  induction l as [|x l IH]; simpl; intros H; [constructor|].
  pose proof (length_remove_dups_le l). case_decide; simpl in H; [lia|]. constructor; [done|]. apply IH. lia.
Qed.

Lemma count_distinct_full {A} (f : A -> option uuid) l :
  count_distinct f l = Z.of_nat (length l) -> NoDup (omap f l) /\ forall x, x ∈ l -> is_Some (f x).
Proof.
  unfold count_distinct. intros H. pose proof (length_remove_dups_le (omap f l)). pose proof (length_omap_le f l).
  split; [apply NoDup_of_length; lia|]. apply length_omap_all. lia.
Qed.

(** ** Intervals *)

Definition disjoint (a b : interval) : Prop := a.(iv_expires) <= b.(iv_created) \/ b.(iv_expires) <= a.(iv_created).

Lemma overlapping_nonneg prior l : 0 <= overlapping prior l.
Proof. revert prior. induction l as [|i l IH]; intros prior; simpl; [done|]. specialize (IH (Some (match prior with Some m => Z.max m (iv_expires i) | None => iv_expires i end))). destruct prior; [destruct (_ <? _)|]; lia. Qed.

(** The running maximum finds an overlap exactly when some earlier row ends after a later one starts. *)
Lemma overlapping_zero prior l :
  overlapping prior l = 0 <->
  (forall m i, prior = Some m -> i ∈ l -> m <= i.(iv_created)) /\ StronglySorted (fun a b => a.(iv_expires) <= b.(iv_created)) l.
Proof.
  revert prior. induction l as [|i l IH]; intros prior; cbn [overlapping].
  { split; [|done]. intros _. split; [by intros m i _ ?%not_elem_of_nil|constructor]. }
  set (next := match prior with Some m => Z.max m (iv_expires i) | None => iv_expires i end).
  assert (Hsplit : forall x, (match prior with Some m => if iv_created i <? m then 1 else 0 | None => 0 end) + x = 0 -> 0 <= x ->
            x = 0 /\ forall m, prior = Some m -> m <= iv_created i).
  { intros x Hx Hn. destruct prior as [m|]; [|split; [lia|done]]. destruct (Z.ltb_spec (iv_created i) m); [lia|].
    split; [lia|]. by intros m' [= <-]. }
  split.
  - intros [H0 Hi]%Hsplit; [|apply overlapping_nonneg]. apply IH in H0 as [Hnext Hs]. split.
    + intros m j Hm [->|Hj]%elem_of_cons; [by apply Hi|]. specialize (Hnext next j eq_refl Hj). unfold next in Hnext. rewrite Hm in Hnext. lia.
    + constructor; [done|]. apply Forall_forall. intros j Hj. specialize (Hnext next j eq_refl Hj). unfold next in Hnext. destruct prior; lia.
  - intros [Hp [Hs Hf]%StronglySorted_inv]. rewrite Forall_forall in Hf.
    assert (overlapping (Some next) l = 0) as ->.
    { apply IH. split; [|done]. intros m j [= <-] Hj. specialize (Hf j Hj). unfold next. destruct prior as [m|]; [|done].
      specialize (Hp m j eq_refl (list_elem_of_further _ _ _ Hj)). lia. }
    destruct prior as [m|]; [|done]. specialize (Hp m i eq_refl (list_elem_of_here _ _)). destruct (Z.ltb_spec (iv_created i) m); lia.
Qed.

#[global] Instance earlier_total : Total earlier.
Proof. intros a b. unfold earlier. lia. Qed.
#[global] Instance earlier_trans : Transitive earlier.
Proof. intros a b c. unfold earlier. lia. Qed.

Lemma sorted_pairwise {A} (R : relation A) l a b : StronglySorted R l -> a ∈ l -> b ∈ l -> a <> b -> R a b \/ R b a.
Proof.
  induction 1 as [|x l Hs IH Hf]; [by intros ?%not_elem_of_nil|]. rewrite Forall_forall in Hf.
  intros [->|Ha]%elem_of_cons [->|Hb]%elem_of_cons Hne; [done|left; by apply Hf|right; by apply Hf|by apply IH].
Qed.

Lemma sorted_disjoint l :
  NoDup l -> StronglySorted earlier l -> (forall i, i ∈ l -> i.(iv_created) < i.(iv_expires)) ->
  (forall a b, a ∈ l -> b ∈ l -> a <> b -> disjoint a b) -> StronglySorted (fun a b => a.(iv_expires) <= b.(iv_created)) l.
Proof.
  intros Hnd Hs Hpos Hd. induction Hs as [|x l Hs IH Hf]; [constructor|]. apply NoDup_cons in Hnd as [Hx Hnd].
  constructor; [apply IH; [done| |]; intros; first [apply Hpos|apply Hd]; try done; by apply list_elem_of_further|].
  rewrite Forall_forall in Hf |- *. intros y Hy.
  destruct (Hd x y) as [?|?]; [apply list_elem_of_here|by apply list_elem_of_further|by intros ->|done|].
  specialize (Hf y Hy). specialize (Hpos y (list_elem_of_further _ _ _ Hy)). unfold earlier in Hf. lia.
Qed.

Lemma elem_of_partition rows k i : i ∈ partition rows k <-> i ∈ rows /\ seat_of i = k.
Proof. unfold partition. rewrite merge_sort_Permutation, list_elem_of_filter. naive_solver. Qed.

Lemma overlaps_zero rows : overlaps rows = 0 <-> forall i, i ∈ rows -> overlapping None (partition rows (seat_of i)) = 0.
Proof.
  unfold overlaps. transitivity (forall k, k ∈ remove_dups (seat_of <$> rows) -> overlapping None (partition rows k) = 0).
  - generalize (remove_dups (seat_of <$> rows)) as ks. induction ks as [|k ks IH]; simpl.
    + split; [by intros _ k ?%not_elem_of_nil|done].
    + assert (0 <= foldr (fun k n => overlapping None (partition rows k) + n) 0 ks).
      { clear. induction ks as [|k ks IH]; simpl; [done|]. pose proof (overlapping_nonneg None (partition rows k)). lia. }
      pose proof (overlapping_nonneg None (partition rows k)). split.
      * intros H2 k' [->|Hk]%elem_of_cons; [lia|]. apply IH; [lia|done].
      * intros Hall. rewrite (Hall k) by apply list_elem_of_here. rewrite (proj2 IH); [done|].
        intros k' Hk. apply Hall. by apply list_elem_of_further.
  - setoid_rewrite elem_of_remove_dups. setoid_rewrite list_elem_of_fmap. naive_solver.
Qed.

(** The window query of the audit counts no overlap exactly when the intervals of each seat are pairwise
    disjoint. *)
Theorem overlaps_iff_disjoint rows :
  NoDup rows -> (forall i, i ∈ rows -> i.(iv_created) < i.(iv_expires)) ->
  overlaps rows = 0 <-> forall a b, a ∈ rows -> b ∈ rows -> a <> b -> seat_of a = seat_of b -> disjoint a b.
Proof.
  intros Hnd Hpos. rewrite overlaps_zero. setoid_rewrite overlapping_zero. split.
  - intros H a b Ha Hb Hne Hs. destruct (H b Hb) as [_ Hsorted].
    by apply (sorted_pairwise _ _ a b Hsorted); try apply elem_of_partition.
  - intros H i Hi. split; [done|]. apply sorted_disjoint.
    + unfold partition. rewrite merge_sort_Permutation. by apply NoDup_filter.
    + apply (StronglySorted_merge_sort earlier).
    + intros j [Hj _]%elem_of_partition. by apply Hpos.
    + intros a b [Ha Hka]%elem_of_partition [Hb Hkb]%elem_of_partition Hne. apply H; congruence.
Qed.

(** ** The verdict *)

(** The record is linked to a hold and an order of its actor, and both are settled. *)
Definition drained (j : joined) : Prop :=
  exists h hr o orow, j.(j_hold) = Some (h, hr) /\ j.(j_order) = Some (o, orow) /\ orow.(o_hold_id) = h
    /\ hr.(h_actor) = j.(j_actor) /\ orow.(o_actor) = j.(j_actor) /\ hr.(h_status) <> H_ACTIVE /\ orow.(o_status) <> O_PENDING.

Lemma not_broken j : broken j = false -> exists h hr o orow, j.(j_hold) = Some (h, hr) /\ j.(j_order) = Some (o, orow)
  /\ orow.(o_hold_id) = h /\ hr.(h_actor) = j.(j_actor) /\ orow.(o_actor) = j.(j_actor).
Proof.
  unfold broken. destruct (j_hold j) as [[h hr]|], (j_order j) as [[o orow]|]; try done. intros Hb. bool_hyps. eauto 10.
Qed.

Lemma run_passed_sound a run_id now d :
  run_passed a (run_query run_id now d) = true ->
  let rows := records [run_pattern run_id] d in
  Z.of_nat (length rows) = ac_total a /\ (forall j, j ∈ rows -> drained j)
  /\ NoDup (omap (fun j => fst <$> j.(j_hold)) rows) /\ NoDup (omap (fun j => fst <$> j.(j_order)) rows).
Proof.
  unfold run_passed, run_query. simpl. intros H. bool_hyps.
  repeat match goal with H : count_if _ _ = 0 |- _ => rewrite count_if_zero in H end.
  match goal with H1 : Z.of_nat _ = ac_total a, H2 : count_distinct (fun j => fst <$> j_hold j) _ = _, H3 : count_distinct _ _ = ac_total a |- _ =>
    rewrite <-H1 in H2, H3; apply count_distinct_full in H2 as [? _], H3 as [? _] end.
  split_and!; [done| |done|done]. intros j Hj.
  destruct (not_broken j) as (h & hr & o & orow & Hh & Ho & Hid & Ha & Hb); [by eauto|].
  exists h, hr, o, orow. split_and!; try done.
  - intros Hs. match goal with H : forall x, x ∈ _ -> hold_is active x = false |- _ => specialize (H j Hj); unfold hold_is, active in H; rewrite Hh, Hs in H end. done.
  - intros Hs. match goal with H : forall x, x ∈ _ -> order_is pending x = false |- _ => specialize (H j Hj); unfold order_is, pending in H; rewrite Ho, Hs in H end. done.
Qed.

Lemma stream_totals_nonneg scanned r : 0 <= (stream_totals scanned r).1 /\ 0 <= (stream_totals scanned r).2.
Proof.
  induction scanned as [|ev l [IH1 IH2]]; simpl; [done|]. destruct (r_streams r !! ev) as [s|]; [|done]. simpl.
  destruct (st_group s); lia.
Qed.

Lemma stream_totals_empty scanned r ev s :
  (stream_totals scanned r).1 = 0 -> ev ∈ scanned -> r.(r_streams) !! ev = Some s -> s.(st_entries) = [].
Proof.
  induction scanned as [|ev' l IH]; [by intros _ ?%not_elem_of_nil|]. simpl. pose proof (stream_totals_nonneg l r) as [Hn _].
  intros Ht [->|Hin]%elem_of_cons Hs.
  - rewrite Hs in Ht. simpl in Ht. destruct (st_entries s); [done|]. simpl in Ht. lia.
  - destruct (r_streams r !! ev') as [s'|]; [|by apply IH]. simpl in Ht. apply IH; [lia|done|done].
Qed.

Lemma sorted_disjoint_pairs rows a b :
  overlaps rows = 0 -> a ∈ rows -> b ∈ rows -> a <> b -> seat_of a = seat_of b -> disjoint a b.
Proof.
  rewrite overlaps_zero. intros H Ha Hb Hne Hs. destruct (proj1 (overlapping_zero _ _) (H b Hb)) as [_ Hsorted].
  by apply (sorted_pairwise _ _ a b Hsorted); try apply elem_of_partition.
Qed.

(** C38: when the post-load audit passes, every run has exactly as many idempotency records as the load
    generator counted acknowledgements, each linked to a hold and an order of its own, of its actor and
    of each other, neither of them active or pending any more; no two audited holds of one seat overlap
    in time; and no scanned stream has an entry left. *)
Theorem audit_sound created results now scanned d r v :
  verify_cloud_holds created results now scanned d r = Some v -> v.(vd_pass) = true ->
  (forall run_id a, runs_of results !! run_id = Some a ->
     let rows := records [run_pattern run_id] d in
     Z.of_nat (length rows) = ac_total a /\ (forall j, j ∈ rows -> drained j)
     /\ NoDup (omap (fun j => fst <$> j.(j_hold)) rows) /\ NoDup (omap (fun j => fst <$> j.(j_order)) rows))
  /\ (let rows := intervals created (run_pattern <$> (map_to_list (runs_of results)).*1) d in
      forall a b, a ∈ rows -> b ∈ rows -> a <> b -> seat_of a = seat_of b -> disjoint a b)
  /\ (forall ev s, ev ∈ scanned -> r.(r_streams) !! ev = Some s -> s.(st_entries) = []).
Proof.
  unfold verify_cloud_holds. case_bool_decide; [done|]. intros [= <-]. simpl. intros Hp. bool_hyps. split_and!.
  - intros run_id a Ha. apply (run_passed_sound a run_id (now run_id)).
    match goal with H : forallb snd _ = true |- _ => rewrite forallb_forall in H; rename H into Hall end.
    apply (Hall (run_id, a, run_query run_id (now run_id) d, run_passed a (run_query run_id (now run_id) d))).
    apply list_elem_of_In, list_elem_of_fmap. exists (run_id, a). by rewrite elem_of_map_to_list.
  - intros a b. by apply sorted_disjoint_pairs.
  - intros ev s. by apply stream_totals_empty.
Qed.

(** The demonstration's environment from a given second on. *)
Definition env_at (start : Z) : Env := {|
  e_rng := e_rng (Env := demo_env); e_clock := fun i => seconds start + Z.of_nat i; e_mono := e_mono (Env := demo_env);
  e_busy := fun _ _ => false; e_pool := fun _ => None; e_begin := fun _ => None; e_rollback := fun _ => None; e_putconn := fun _ => None; e_commit := fun _ => NoFault;
  e_redis := fun _ => NoFault; e_digest := e_digest (Env := demo_env); e_sha256 := fun s => s;
|}.

Definition use_at (start : Z) (u : use_case) (w : world) : world := (run_use_case (S := api_store (E := env_at start) demo) u w).1.

(** Alice's hold under a key of the run expires unpaid; Bob then takes one of the seats, and his expires too. *)
Definition audited_world : world := Eval vm_compute in
  use_at 4000 (UExpireBatch 10) (use_at 3000 (UReserve "bob" ev1 ["A002"] "r1-1")
    (use_at 2000 (UExpireBatch 10) (use_at 1000 (UReserve "alice" ev1 ["A001"; "A002"] "r1-0") world0))).

Definition run_results : list worker_result := [WorkerResult "r1" {[ ("hold", "201") := 2; ("hold", "409") := 5 ]}].

(** Alice's order is the older one. *)
Definition created_at (o : uuid) : Z := if bool_decide (o = 10%positive) then seconds 1000 else seconds 3000.

Definition audit_verdict : option verdict :=
  verify_cloud_holds created_at run_results (fun _ => seconds 4001) [ev1] audited_world.(w_db) audited_world.(w_redis).

Lemma audit_sound_witness :
  exists v, audit_verdict = Some v /\ Z.of_nat (length (records [run_pattern "r1"] audited_world.(w_db))) = 2.
Proof.
  destruct audit_verdict as [v|] eqn:Hv; [|vm_compute in Hv; discriminate Hv]. exists v. split; [reflexivity|].
  assert (Hp : v.(vd_pass) = true) by (vm_compute in Hv; injection Hv as <-; reflexivity).
  destruct (audit_sound created_at run_results (fun _ => seconds 4001) [ev1] _ _ v Hv Hp) as [Hruns _].
  by apply (Hruns "r1" (Acks 2 0)).
Defined.

(** ** Acknowledged reservations pass *)

Lemma elem_of_records patterns d j :
  j ∈ records patterns d <-> exists actor op key row, d.(idempotency_records) !! (actor, op, key) = Some row
    /\ selected patterns (actor, op, key) = true
    /\ j = Joined actor key (lookup_row d.(holds) (response_hold row.(id_response))) (lookup_row d.(orders) (response_order row.(id_response))).
Proof.
  unfold records. rewrite list_elem_of_fmap. split.
  - intros ([[[actor op] key] row] & -> & [Hs Hin%elem_of_map_to_list]%list_elem_of_filter). exists actor, op, key, row.
    split_and!; [done|by apply Is_true_true|done].
  - intros (actor & op & key & row & Hin & Hs & ->). exists ((actor, op, key), row). split; [done|].
    apply list_elem_of_filter. split; [by apply Is_true_true|]. by apply elem_of_map_to_list.
Qed.

Lemma acknowledged_not_broken actor key doc hash d :
  acknowledged actor key doc d -> d.(idempotency_records) !! (actor, "hold", key) = Some (IdemRow hash (Some (RHold doc))) ->
  broken (Joined actor key (lookup_row d.(holds) (Some doc.(hd_hold_id))) (lookup_row d.(orders) (Some doc.(hd_order_id)))) = false.
Proof.
  intros [_ (h & Hh & Ha & _) (o & Ho & Hoa & Hoh & _) _] _. unfold broken, lookup_row. simpl. rewrite Hh, Ho. simpl.
  by rewrite !bool_decide_eq_true_2.
Qed.

(** A run whose records are all acknowledged has no broken link in the audit, and in a consistent
    database as many active holds as pending orders. *)
Theorem acknowledged_run_links run_id now d :
  inv d ->
  (forall actor key row, d.(idempotency_records) !! (actor, "hold", key) = Some row -> like (run_pattern run_id) key = true ->
     exists doc, acknowledged actor key doc d) ->
  (run_query run_id now d).(rr_broken) = 0 /\ (run_query run_id now d).(rr_active) = (run_query run_id now d).(rr_pending).
Proof.
  intros [[Hc _ _ _] _] Hall. set (rows := records [run_pattern run_id] d).
  assert (Hok : forall j, j ∈ rows -> broken j = false).
  { intros j (actor & op & key & row & Hrow & Hsel & ->)%elem_of_records. unfold selected in Hsel. simpl in Hsel.
    bool_hyps. subst op. match goal with H : (_ || false) = true |- _ => rewrite orb_false_r in H; rename H into Hlike end.
    destruct (Hall _ _ _ Hrow Hlike) as [doc Hack]. destruct (ak_record _ _ _ _ Hack) as [hash Hrec].
    rewrite Hrow in Hrec. injection Hrec as ->. by apply (acknowledged_not_broken actor key doc hash). }
  split; [by apply count_if_zero|]. unfold run_query. simpl. fold rows. apply count_if_ext. intros j Hj.
  destruct (not_broken j (Hok j Hj)) as (h & hr & o & orow & Hjh & Hjo & Hid & _).
  unfold hold_is, order_is, active, pending. rewrite Hjh, Hjo.
  apply elem_of_records in Hj as (actor & op & key & row & _ & _ & ->). simpl in *.
  assert (Horow : d.(orders) !! o = Some orow).
  { unfold lookup_row in Hjo. destruct (response_order _) as [o'|]; [|done]. destruct (orders d !! o') eqn:E; simplify_eq/=. done. }
  assert (Hhrow : d.(holds) !! h = Some hr).
  { unfold lookup_row in Hjh. destruct (response_hold _) as [h'|]; [|done]. destruct (holds d !! h') eqn:E; simplify_eq/=. done. }
  destruct (ic_order_hold _ Hc _ _ Horow) as (hr' & Hhr' & _ & _ & Hiff & _). rewrite Hid, Hhrow in Hhr'. injection Hhr' as <-.
  by apply bool_decide_ext.
Qed.

(** ** The other audits *)

Lemma count_one {A} (P : A -> bool) x : count_if P [x] = 1 -> P x = true.
Proof. unfold count_if. rewrite filter_cons. case_decide as H; [by apply Is_true_true in H|done]. Qed.

(** A wave that passes left one record, and the seat is held for the acknowledged hold, which is active
    and whose order lists the seat. *)
Theorem hot_seat_sound run_id ev seat hold now d :
  inv d -> one_durable_owner_pass run_id ev seat hold now d = true ->
  exists j hr o orow it, records [run_pattern run_id] d = [j] /\ j.(j_hold) = Some (hold, hr) /\ hr.(h_actor) = j.(j_actor)
    /\ hr.(h_status) = H_ACTIVE /\ d.(orders) !! o = Some orow /\ orow.(o_hold_id) = hold
    /\ d.(order_items) !! (o, seat) = Some it /\ it.(i_event_id) = ev.
Proof.
  intros [[Hc _ _ _] _]. unfold one_durable_owner_pass. intros H. bool_hyps.
  destruct (records [run_pattern run_id] d) as [|j [|j' l]] eqn:Hrows; simpl in *; try lia.
  match goal with H : count_if _ [j] = 1 |- _ => apply count_one in H as Hj end. unfold owner_record in Hj.
  destruct (j_hold j) as [[h hr]|] eqn:Hh, (j_order j) as [[o1 or1]|]; try done. bool_hyps. subst h.
  destruct (event_seats d !! (ev, seat)) as [s|] eqn:Hs; [|done]. bool_hyps.
  destruct (ic_seat_hold _ Hc _ _ _ Hs ltac:(eassumption)) as (hr' & o & orow & it & Hhr & Hact & _ & Ho & Hoh & Hit & Hev).
  assert (hr' = hr) as ->.
  { assert (Hin : j ∈ records [run_pattern run_id] d) by (rewrite Hrows; apply list_elem_of_here).
    apply elem_of_records in Hin as (actor & op & key & row & _ & _ & ->). simpl in Hh. unfold lookup_row in Hh.
    destruct (response_hold _) as [h'|]; [|done]. destruct (holds d !! h') eqn:E; simplify_eq/=. done. }
  exists j, hr, o, orow, it. by split_and!.
Qed.

(** When the preflight passes, the shows are distinct, all of them exist, are on sale, and stay so until
    the load and its drain are over; and so do the credentials. *)
Theorem preflight_sound secs now db_now credentials shows d :
  load_preflight secs now db_now credentials shows d = true ->
  let deadline := now + seconds (secs + 180) in
  NoDup shows /\ deadline < credentials
  /\ forall ev, ev ∈ shows -> exists r, d.(events) !! ev = Some r /\ r.(ev_sale_starts) < db_now /\ deadline < r.(ev_sale_ends).
Proof.
  unfold load_preflight. set (deadline := now + seconds (secs + 180)).
  set (found := filter (fun kr : uuid * event_row => kr.1 ∈ shows) (map_to_list (events d))).
  set (open := fun kr : uuid * event_row => (ev_sale_starts kr.2 <? db_now) && (deadline <? ev_sale_ends kr.2)).
  intros H. bool_hyps. cbv zeta.
  assert (Hnd : NoDup found.*1) 
    by (eapply sublist_NoDup; [apply (NoDup_fst_map_to_list (events d))|apply fmap_sublist, sublist_filter]).
  assert (Hsub : found.*1 ⊆+ shows).
  { apply NoDup_submseteq; [done|]. intros ev ([ev' r] & -> & [Hin _]%list_elem_of_filter)%list_elem_of_fmap. done. }
  assert (Hperm : found.*1 ≡ₚ shows) by (apply submseteq_length_Permutation; [done|rewrite length_fmap; lia]).
  split_and!; [by rewrite <-Hperm|done|]. intros ev Hev. rewrite <-Hperm in Hev.
  apply list_elem_of_fmap in Hev as ([ev' r] & -> & Hin). simpl.
  assert (Hopen : open (ev', r) = true).
  { destruct (open (ev', r)) eqn:E; [done|]. exfalso. apply list_elem_of_split in Hin as (l1 & l2 & Hl).
    match goal with H : Z.of_nat (length found) = count_if open found |- _ => rename H into Hcount end.
    rewrite Hl in Hcount. unfold count_if in Hcount. rewrite filter_app, filter_cons_False in Hcount by (intros Hx%Is_true_true; congruence).
    rewrite !length_app in Hcount. simpl in Hcount.
    pose proof (sublist_length _ _ (sublist_filter (fun x => open x) l1)). pose proof (sublist_length _ _ (sublist_filter (fun x => open x) l2)). lia. }
  apply list_elem_of_filter in Hin as [_ Hin%elem_of_map_to_list]. unfold open in Hopen. simpl in Hopen. bool_hyps. by exists r.
Qed.

(** The queue state passes exactly when nothing is left to publish, refresh or look at, and the fixture
    has no active hold and no pending order. *)
Theorem queue_state_pass_iff shows now d :
  queue_state_pass (capacity_queue_state shows now d) = true <->
  (forall id e, d.(outbox_events) !! id = Some e -> e.(ob_published_at) <> None)
  /\ (forall ev r, d.(seat_refresh_requests) !! ev = Some r -> r.(rq_generation) <= r.(rq_completed_generation))
  /\ d.(dead_letters) = ∅
  /\ (forall h r, d.(holds) !! h = Some r -> r.(h_event_id) ∈ shows -> r.(h_status) <> H_ACTIVE)
  /\ (forall o r, d.(orders) !! o = Some r -> r.(o_event_id) ∈ shows -> r.(o_status) <> O_PENDING).
Proof.
  assert (Hrows : forall A (m : gmap uuid A) x, x ∈ (map_to_list m).*2 <-> exists k, m !! k = Some x).
  { intros A m x. rewrite list_elem_of_fmap. split; [intros ([k y] & -> & Hin%elem_of_map_to_list); by exists k|].
    intros [k Hk]. exists (k, x). by rewrite elem_of_map_to_list. }
  unfold queue_state_pass. simpl. rewrite !andb_true_iff, !Z.eqb_eq, !count_if_zero.
  setoid_rewrite list_elem_of_filter. setoid_rewrite Hrows. setoid_rewrite bool_decide_eq_false. setoid_rewrite Z.ltb_ge.
  split.
  - intros (H1 & H2 & H3 & H4 & _ & H6 & _). split_and!; [by eauto|by eauto| | |].
    + apply map_size_empty_iff. lia.
    + intros h r Hh Hs. exact (H4 r (conj Hs (ex_intro _ h Hh))).
    + intros o r Ho Hs Hp. specialize (H6 r (ex_intro _ o Ho)). unfold pending in H6. by rewrite !bool_decide_eq_true_2 in H6.
  - intros (H1 & H2 & H3 & H4 & H5). rewrite H3, map_size_empty. split_and!; try done.
    + intros e [id He]. by eapply H1.
    + intros r [ev Hr]. by eapply H2.
    + intros r [Hs [h Hh]]. by eapply H4.
    + intros r [Hs [h Hh]]. unfold active. by rewrite bool_decide_eq_false_2 by (by eapply H4).
    + intros r [o Ho]. apply andb_false_iff. destruct (decide (o_event_id r ∈ shows)); [right|left; by apply bool_decide_eq_false].
      unfold pending. apply bool_decide_eq_false. by eapply H5.
Qed.
