(* ===== verification/OpenLoop.v ===== *)
(** * The open loop of the probes

    [scripts/capacity_test.py] and [scripts/seatmap_load.py] dispatch their work alike: one item per arrival time, an item
    dropped when the loop wakes up too late or too many requests are in flight, and everything awaited at the
    end.  [finish i] is the effect of the i-th item when its request completes; which requests complete while
    the loop sleeps, and how late it wakes up, is [wakeups]. *)

From S2P Require Import Prelude LoadGenerator.

#[local] Open Scope Z_scope.

Record loop (S : Type) : Type := Loop {
  lp_state : S;
  lp_pending : list nat;
  lp_tasks : list nat;
  lp_dropped : nat;
  lp_lags : list Z;
}.
Arguments Loop {S} _ _ _ _ _.
Arguments lp_state {S} _.
Arguments lp_pending {S} _.
Arguments lp_tasks {S} _.
Arguments lp_dropped {S} _.
Arguments lp_lags {S} _.

Section open_loop.
Context {S : Type} (finish : nat -> S -> S) (rate : Z) (inflight : nat) (wakeups : nat -> wakeup).

(** The done callback: [pending.discard]. *)
Definition complete_one (p : loop S) (i : nat) : loop S :=
  if bool_decide (i ∈ p.(lp_pending))
  then Loop (finish i p.(lp_state)) (filter (fun j => j <> i) p.(lp_pending)) p.(lp_tasks) p.(lp_dropped) p.(lp_lags)
  else p.

Definition complete_all (l : list nat) (p : loop S) : loop S := foldl complete_one p l.

(** The body of the [for] loop. *)
Definition arrive_at (p : loop S) (index : nat) : loop S :=
  let u := wakeups index in
  let q := complete_all u.(wu_completed) p in
  let lags := q.(lp_lags) ++ [u.(wu_late)] in
  if too_late rate u.(wu_late) || (inflight <=? length q.(lp_pending))%nat
  then Loop q.(lp_state) q.(lp_pending) q.(lp_tasks) (1 + q.(lp_dropped)) lags
  else Loop q.(lp_state) (q.(lp_pending) ++ [index]) (q.(lp_tasks) ++ [index]) q.(lp_dropped) lags.

(** The loop over [range(total)], then [gather] in the order in which the remaining requests complete. *)
Definition open_loop (total : nat) (s0 : S) (rest : list nat -> list nat) : loop S :=
  let p := foldl arrive_at (Loop s0 [] [] 0 []) (seq 0 total) in
  complete_all (rest p.(lp_pending)) p.

(** ** What the loop does *)

(** The completions so far, in their order. *)
Record looping (n : nat) (s0 : S) (order : list nat) (p : loop S) : Prop := Looping {
  lo_state : p.(lp_state) = foldl (fun s i => finish i s) s0 order;
  lo_tasks : order ++ p.(lp_pending) ≡ₚ p.(lp_tasks);
  lo_nodup : NoDup p.(lp_tasks);
  lo_range : forall i, i ∈ p.(lp_tasks) -> (i < n)%nat;
  lo_count : (length p.(lp_tasks) + p.(lp_dropped) = n)%nat;
  lo_inflight : (length p.(lp_pending) <= inflight)%nat;
  lo_lags : length p.(lp_lags) = n;
}.

Lemma filter_out_one (i : nat) l : NoDup l -> i ∈ l -> l ≡ₚ i :: filter (fun j => j <> i) l.
Proof.
  intros Hnd Hin. apply NoDup_Permutation; [done| |].
  - constructor; [|by apply NoDup_filter]. intros [? _]%list_elem_of_filter. done.
  - intros j. rewrite elem_of_cons, list_elem_of_filter. destruct (decide (j = i)) as [->|]; intuition.
Qed.

Lemma complete_one_looping n s0 order p i : looping n s0 order p -> exists order',
  looping n s0 order' (complete_one p i) /\ i ∉ (complete_one p i).(lp_pending)
  /\ (forall j, j ∈ (complete_one p i).(lp_pending) -> j ∈ p.(lp_pending)).
Proof.
  intros H. destruct H as [Hs Ht Hnd Hr Hc Hi Hl]. unfold complete_one. case_bool_decide as Hin; [|by exists order].
  exists (order ++ [i]).
  assert (NoDup (lp_pending p)) as Hndp by (rewrite <-Ht in Hnd; by apply NoDup_app in Hnd as (_ & _ & ?)).
  pose proof (filter_out_one i _ Hndp Hin) as Hp. split_and!.
  - split; simpl; try done.
    + rewrite foldl_app, Hs. done.
    + rewrite <-app_assoc. simpl. rewrite <-Hp. done.
    + apply Permutation_length in Hp. simpl in Hp. lia.
  - simpl. intros [? _]%list_elem_of_filter. done.
  - simpl. by intros j [_ ?]%list_elem_of_filter.
Qed.

Lemma complete_all_looping n s0 l order p : looping n s0 order p ->
  exists order', looping n s0 order' (complete_all l p) /\ (forall j, j ∈ (complete_all l p).(lp_pending) -> j ∈ p.(lp_pending) /\ j ∉ l).
Proof.
  unfold complete_all. revert order p. induction l as [|i l IH]; intros order p H; simpl.
  { exists order. split; [done|]. intros j Hj. split; [done|apply not_elem_of_nil]. }
  destruct (complete_one_looping _ _ _ _ i H) as (o1 & H1 & Hi & Hsub). destruct (IH _ _ H1) as (o2 & H2 & Hp). exists o2. split; [done|].
  intros j [Hj Hjl]%Hp. split; [auto|]. intros [->|?]%elem_of_cons; done.
Qed.

Lemma arrive_looping n s0 order p : looping n s0 order p -> exists order', looping (1 + n) s0 order' (arrive_at p n).
Proof.
  intros H. unfold arrive_at. destruct (complete_all_looping _ _ (wakeups n).(wu_completed) _ _ H) as (o & H1 & _).
  destruct H1 as [Hs Ht Hnd Hr Hc Hi Hl]. exists o. destruct (_ || _) eqn:Hdrop.
  - split; simpl; try done; [by intros i ?%Hr; lia|lia|rewrite length_app; simpl; lia].
  - apply orb_false_iff in Hdrop as [_ Hlt%Nat.leb_gt]. split; simpl; try done.
    + by rewrite app_assoc, Ht.
    + apply NoDup_app. split; [done|]. split; [|apply NoDup_singleton]. intros i Hin%Hr ->%list_elem_of_singleton. lia.
    + intros i [?%Hr| ->%list_elem_of_singleton]%elem_of_app; lia.
    + rewrite length_app. simpl. lia.
    + rewrite length_app. simpl. lia.
    + rewrite length_app. simpl. lia.
Qed.

Lemma loop_reaches n s0 : exists order, looping n s0 order (foldl arrive_at (Loop s0 [] [] 0 []) (seq 0 n)).
Proof.
  induction n as [|n [o IH]].
  - exists []. split; simpl; try done; [constructor|by intros i ?%not_elem_of_nil|lia].
  - rewrite seq_S, foldl_app. simpl. by eapply arrive_looping.
Qed.

(** Every arrival is dropped or becomes a task; every task completes once, in some order, and nothing stays in
    flight, when the [gather] awaits all that was pending. *)
Lemma open_loop_facts total s0 rest :
  (forall l, rest l ≡ₚ l) -> let p := open_loop total s0 rest in
  p.(lp_pending) = [] /\ NoDup p.(lp_tasks) /\ (forall i, i ∈ p.(lp_tasks) -> (i < total)%nat)
  /\ (length p.(lp_tasks) + p.(lp_dropped) = total)%nat /\ length p.(lp_lags) = total
  /\ exists order, order ≡ₚ p.(lp_tasks) /\ p.(lp_state) = foldl (fun s i => finish i s) s0 order.
Proof.
  intros Hrest p. destruct (loop_reaches total s0) as [o H]. unfold p, open_loop. set (q := foldl _ _ _) in *.
  destruct (complete_all_looping _ _ (rest q.(lp_pending)) _ _ H) as (o' & [Hs Ht Hnd Hr Hc _ Hl] & Hp).
  assert (lp_pending (complete_all (rest (lp_pending q)) q) = []) as Hnone.
  { apply elem_of_nil_inv. intros j [Hj Hnj]%Hp. apply Hnj. by rewrite Hrest. }
  rewrite Hnone, app_nil_r in Ht. split_and!; try done. by exists o'.
Qed.

(** At every arrival at most [inflight] requests are in flight. *)
Lemma open_loop_bounded n s0 : (length (foldl arrive_at (Loop s0 [] [] 0 []) (seq 0 n)).(lp_pending) <= inflight)%nat.
Proof.
  by destruct (loop_reaches n s0) as [o []].
Qed.
End open_loop.
