(* ===== verification/CapacityProbe.v ===== *)
(** * The local capacity probes

    [scripts/capacity_test.py]: customers arrive at a constant rate at a new event, hold a seat and, in the checkout
    profile, pay; then the probe waits until the workers have drained what they caused and judges the
    database.  [scripts/load_test.py]: many holds of one seat through a bounded number of clients.  Answers, times
    and the database as the probe finds it at each look are parameters; measured times are nanoseconds. *)

From stdpp Require Import pretty.
From S2P Require Import Prelude Domain Schema World Observability Postgres Sql Config.
From S2P Require Import Cache Cli Fixtures LoadGenerator LoadAudit OpenLoop.

#[local] Open Scope Z_scope.

Inductive profile : Type := Hot | Spread | Checkout.

#[global] Instance profile_eq_dec : EqDecision profile.
Proof. solve_decision. Defined.

Record probe_args : Type := ProbeArgs {
  pa_profile : profile;
  pa_rate : Z;
  pa_seconds : Z;
  pa_inflight : Z;
  pa_drain : Z;
  pa_seats : Z;
  pa_wait_projection : bool;
}.

Definition probe_args_ok (a : probe_args) : bool :=
  (1 <=? a.(pa_rate)) && (1 <=? a.(pa_seconds)) && (1 <=? a.(pa_inflight)) && (1 <=? a.(pa_drain)) && (a.(pa_rate) * a.(pa_seconds) <=? 100000).

Definition probe_total (a : probe_args) : Z := a.(pa_rate) * a.(pa_seconds).
Definition inventory (a : probe_args) : Z := if bool_decide (a.(pa_profile) = Hot) then 1 else Z.max (probe_total a) a.(pa_seats).

(** ** The fixture *)

Section fixture.
Context `{E : Env} (settings : Settings).

(** A new event on sale for a day around now, with its seats. *)
Definition probe_event (title : string) (event : uuid) (seats : Z) : W unit :=
  now ← clock_timestamp;
  now2 ← clock_timestamp;
  _ ← copy_event (event, EventRow title "THB" (now - seconds 86400) (now2 + seconds 86400));
  for_each (seqZ 0 seats) (fun i => copy_seat ((event, seat_name i), 100)).

(** [ready] is the readiness request, [dsn] whether [TEST_DATABASE_URL] is set. *)
Definition probe_setup (a : probe_args) (ready : outcome unit) (dsn : bool) : W uuid :=
  _ ← raise_if (bool_decide (settings.(environment) <> "development")) (PyError "RuntimeError" "Development fixtures and simulated payments only");
  _ ← raise_if (bool_decide (a.(pa_profile) = Hot) && (settings.(hold_seconds) <=? a.(pa_seconds) + 10))
        (PyError "ValueError" "Hot run plus request timeout must finish before the hold TTL");
  _ ← (match ready with Ok _ => mret tt | Raise e => raise e end);
  event ← uuid4;
  _ ← raise_if (negb dsn) (PyError "KeyError" "TEST_DATABASE_URL");
  _ ← raise_if (negb ((1 <=? a.(pa_seats)) && (a.(pa_seats) <=? 100000))) (PyError "ValueError" "Inventory must be between 1 and 100000 seats");
  _ ← psycopg_connect (probe_event "Capacity probe" event (inventory a));
  mret event.
End fixture.

(** ** Journeys *)

(** [f"S{0 if args.profile == 'hot' else index}"] *)
Definition journey_seat (a : probe_args) (index : nat) : string := seat_name (if bool_decide (a.(pa_profile) = Hot) then 0 else Z.of_nat index).

(** What a journey meets: the answers with their times, and [held.json()['order_id']]. *)
Record journey_io : Type := JourneyIo {
  jo_hold : reply;
  jo_hold_ns : Z;
  jo_order : outcome string;
  jo_payment : reply;
  jo_payment_ns : Z;
}.

(** The counters; [pt_failed] is the exception that [gather] raises. *)
Record probe_tally : Type := ProbeTally {
  pt_statuses : gmap (string * string) nat;
  pt_latency : gmap (string * string) (list Z);
  pt_accepted : nat;
  pt_failed : option exn;
}.
Definition empty_tally : probe_tally := ProbeTally ∅ ∅ 0 None.

Definition reply_status (r : reply) : string := match r with Got h => pretty h.(ha_status) | HTTPError _ => "transport_error" end.
Definition has_code (r : reply) (status : Z) : bool := match r with Got h => h.(ha_status) =? status | HTTPError _ => false end.

Definition status_of (t : probe_tally) (op status : string) : nat := default O (t.(pt_statuses) !! (op, status)).

Definition post (op : string) (r : reply) (ns : Z) (t : probe_tally) : probe_tally :=
  let k := (op, reply_status r) in
  ProbeTally (<[k := S (default O (t.(pt_statuses) !! k))]> t.(pt_statuses)) (<[k := default [] (t.(pt_latency) !! k) ++ [ns]]> t.(pt_latency))
    t.(pt_accepted) t.(pt_failed).

Definition raised (e : exn) (t : probe_tally) : probe_tally :=
  ProbeTally t.(pt_statuses) t.(pt_latency) t.(pt_accepted) (match t.(pt_failed) with None => Some e | f => f end).

Definition journey (a : probe_args) (io : journey_io) (t : probe_tally) : probe_tally :=
  let t1 := post "hold" io.(jo_hold) io.(jo_hold_ns) t in
  if bool_decide (a.(pa_profile) = Checkout) && has_code io.(jo_hold) 201 then
    match io.(jo_order) with
    | Raise e => raised e t1
    | Ok _ =>
        let t2 := post "payment" io.(jo_payment) io.(jo_payment_ns) t1 in
        if has_code io.(jo_payment) 202 then ProbeTally t2.(pt_statuses) t2.(pt_latency) (S t2.(pt_accepted)) t2.(pt_failed) else t2
    end
  else t1.

Definition probe_loop (a : probe_args) (io : nat -> journey_io) (wakeups : nat -> wakeup) (rest : list nat -> list nat) : loop probe_tally :=
  open_loop (fun i => journey a (io i)) a.(pa_rate) (Z.to_nat a.(pa_inflight)) wakeups (Z.to_nat (probe_total a)) empty_tally rest.

(** ** The drain *)

Definition orders_in (event : uuid) (status : order_status) (d : db) : nat :=
  length (filter (fun o => o.(o_event_id) = event /\ o.(o_status) = status) (map_to_list d.(orders)).*2).
Definition holds_in (event : uuid) (d : db) : nat := length (filter (fun h => h.(h_event_id) = event) (map_to_list d.(holds)).*2).
Definition booked_seats (event : uuid) (d : db) : list string :=
  b_seat_id <$> filter (fun b => b.(b_event_id) = event) (map_to_list d.(bookings)).*2.
(** [GROUP BY seat_id HAVING count( * )>1] *)
Definition duplicate_seats (event : uuid) (d : db) : nat :=
  let l := booked_seats event d in length (filter (fun s => (1 < length (filter (fun x => x = s) l))%nat) (remove_dups l)).
Definition tickets_in (event : uuid) (d : db) : nat :=
  length (filter (fun t => match d.(bookings) !! t.(t_booking_id) with Some b => bool_decide (b.(b_event_id) = event) | None => false end = true)
            (map_to_list d.(tickets)).*2).
(** The payments of the orders of the event. *)
Definition payments_in (event : uuid) (d : db) : list payment_row :=
  filter (fun p => match d.(orders) !! p.(p_order_id) with Some o => bool_decide (o.(o_event_id) = event) | None => false end = true)
    (map_to_list d.(payment_attempts)).*2.
Definition remaining_deliveries (event : uuid) (d : db) : Z :=
  foldr (fun p n => Z.max (p.(p_target_deliveries) - p.(p_deliveries)) 0 + n) 0 (payments_in event d).

(** The parts of [observe] that the drain waits for. *)
Definition not_consumed (event : uuid) (d : db) : nat :=
  length (filter (fun ke : uuid * outbox_row =>
      match d.(orders) !! ke.2.(ob_aggregate_id) with Some o => bool_decide (o.(o_event_id) = event) | None => false end = true
      /\ ke.1 ∉ d.(consumer_inbox)) (map_to_list d.(outbox_events))).
Definition refresh_pending (event : uuid) (d : db) : Z :=
  match d.(seat_refresh_requests) !! event with
  | Some r => if r.(rq_completed_generation) <? r.(rq_generation) then r.(rq_generation) - r.(rq_completed_generation) else 0
  | None => 0
  end.
Definition sql_version (event : uuid) (d : db) : Z :=
  foldr (fun s n => s.(s_version) + n) 0 (filter (fun ks : (uuid * string) * seat_row => ks.1.1 = event) (map_to_list d.(event_seats))).*2.

(** A look at the stores: the answer of Redis is missing when it raises. *)
Record view : Type := View { vw_db : db; vw_redis : option redis; vw_now : Z; vw_mono : Z }.

Definition cached_version (event : uuid) (v : view) : option Z :=
  match v.(vw_redis) with Some r => (purge v.(vw_now) r).(r_seatmaps) !! event ≫= sh_version | None => None end.
Definition version_lag (event : uuid) (v : view) : option Z :=
  (fun c => Z.max 0 (sql_version event v.(vw_db) - c)) <$> cached_version event v.

Definition delivery_done (a : probe_args) (event : uuid) (accepted : nat) (v : view) : bool :=
  negb (bool_decide (a.(pa_profile) = Checkout))
  || (Nat.eqb (orders_in event O_FULFILLED v.(vw_db)) accepted && (remaining_deliveries event v.(vw_db) =? 0)).
Definition projection_done (a : probe_args) (event : uuid) (v : view) : bool :=
  negb a.(pa_wait_projection)
  || (Nat.eqb (not_consumed event v.(vw_db)) 0 && (refresh_pending event v.(vw_db) =? 0) && bool_decide (version_lag event v = Some 0)).

(** The loop ends when everything is done or the time is up; with the last look. *)
Fixpoint drain (fuel : nat) (a : probe_args) (event : uuid) (accepted : nat) (views : nat -> view) (started : Z) (turn : nat) : option view :=
  match fuel with
  | O => None
  | S fuel' =>
      let v := views turn in
      if delivery_done a event accepted v && projection_done a event v then Some v
      else if seconds a.(pa_drain) <=? v.(vw_mono) - started then Some v
      else drain fuel' a event accepted views started (S turn)
  end.

(** A turn sleeps half a second. *)
Definition drain_fuel (a : probe_args) : nat := Z.to_nat (2 * a.(pa_drain) + 1).

(** ** The verdict *)

Definition allowed (op status : string) : bool :=
  bool_decide (status ∈ (if bool_decide (op = "hold") then ["201"; "409"; "429"; "503"] else ["202"; "409"; "429"; "503"])).
Definition unexpected_answers (t : probe_tally) : nat :=
  foldr (fun kn n => (if allowed kn.1.1 kn.1.2 then n else kn.2 + n)%nat) O (map_to_list t.(pt_statuses)).

Definition probe_correct (a : probe_args) (event : uuid) (t : probe_tally) (d : db) : bool :=
  let wins := status_of t "hold" "201" in
  Nat.eqb (duplicate_seats event d) 0 && Nat.eqb (holds_in event d) wins && (1 <=? wins)%nat && Nat.eqb (unexpected_answers t) 0
  && (negb (bool_decide (a.(pa_profile) = Hot)) || Nat.eqb wins 1)
  && (negb (bool_decide (a.(pa_profile) = Checkout))
      || (Nat.eqb (orders_in event O_FULFILLED d) t.(pt_accepted) && Nat.eqb t.(pt_accepted) (tickets_in event d)
          && (1 <=? t.(pt_accepted))%nat && (remaining_deliveries event d =? 0))).

(** The last look and the exit code. *)
Definition capacity_test (a : probe_args) (event : uuid) (p : loop probe_tally) (views : nat -> view) (started : Z) : outcome (view * Z) :=
  let t := p.(lp_state) in
  match t.(pt_failed), drain (drain_fuel a) a event t.(pt_accepted) views started 0 with
  | Some e, _ => Raise e
  | None, None => Raise (PyError "OutOfFuel" "")
  | None, Some v => Ok (v, if probe_correct a event t v.(vw_db) && projection_done a event v then 0 else 1)
  end.

(** ** load_test *)

Record hold_load_args : Type := HoldLoadArgs { hl_attempts : Z; hl_concurrency : Z; hl_client_pools : Z }.

Definition hold_load_ok (a : hold_load_args) : bool := (1 <=? a.(hl_attempts)) && (1 <=? a.(hl_concurrency)) && (1 <=? a.(hl_client_pools)).
Definition client_count (a : hold_load_args) : nat := Z.to_nat (Z.min a.(hl_client_pools) a.(hl_concurrency)).
Definition client_of (a : hold_load_args) (index : nat) : nat := (index mod client_count a)%nat.

(** The status, 0 for a transport error, and the measured times. *)
Record attempt_row : Type := AttemptRow { at_status : Z; at_ns : Z; at_server : option Z }.

Definition load_attempt (r : reply) (ns : Z) (server : option Z) : attempt_row :=
  match r with Got h => AttemptRow h.(ha_status) ns server | HTTPError _ => AttemptRow 0 ns None end.

(** [sorted(l)[min(len(l) - 1, int(len(l) * 0.95))]] *)
Definition load_p95 (l : list Z) : option Z :=
  let n := Z.of_nat (length l) in sort_values l !! Z.to_nat (Z.min (n - 1) (round53 (n * p95.(dy_mantissa)) / 2 ^ p95.(dy_shift))).

Record load_report : Type := LoadReport { ld_p95 : option Z; ld_conflict_p95 : option Z; ld_server_p95 : option Z; ld_server_conflict_p95 : option Z }.

Definition load_times (rows : list attempt_row) : load_report :=
  let conflicts := filter (fun r => r.(at_status) = 409) rows in
  LoadReport (load_p95 (at_ns <$> rows)) (load_p95 (at_ns <$> conflicts)) (load_p95 (omap at_server rows)) (load_p95 (omap at_server conflicts)).

(** The two assertions. *)
Definition load_test (a : hold_load_args) (replies : nat -> reply) (times : nat -> Z * option Z) : outcome load_report :=
  if negb (hold_load_ok a) then Raise (PyError "SystemExit" "attempts, concurrency and client-pools must be positive")
  else
    let rows := (fun i => load_attempt (replies i) (times i).1 (times i).2) <$> seq 0 (Z.to_nat a.(hl_attempts)) in
    if negb (Nat.eqb (length (filter (fun r => r.(at_status) = 201) rows)) 1) then Raise (PyError "AssertionError" "Expected one winner")
    else if negb (forallb (fun r => bool_decide (r.(at_status) ∈ [201; 409; 429; 503])) rows) then Raise (PyError "AssertionError" "Unexpected HTTP errors")
    else Ok (load_times rows).
