(* ===== verification/CapacityProbeFacts.v ===== *)
(** * What a passing capacity probe shows

    Every arrival is accounted for, the drain ends, and a run that exits with 0 saw as many holds in the database as it was
    granted and, in the checkout profile, a ticket for every accepted payment; the duplicate check
    cannot fail on a database the system reaches. *)

From stdpp Require Import pretty.
From S2P Require Import Prelude Domain Schema World Observability Postgres Sql Config.
From S2P Require Import Cache Cli Fixtures Invariant System LoadGenerator LoadAudit OpenLoop CapacityProbe Example.

#[local] Open Scope Z_scope.

(** ** Accounting *)

(** All answers to an operation. *)
Definition answered (op : string) (t : probe_tally) : nat :=
  map_fold (fun k n acc => (if bool_decide (k.1 = op) then n + acc else acc)%nat) O t.(pt_statuses).

Lemma answered_post op op' r ns t : answered op (post op' r ns t) = (answered op t + if bool_decide (op' = op) then 1 else 0)%nat.
Proof.
  unfold answered, post. cbn [pt_statuses]. set (k := (op', reply_status r)). set (f := fun (k : string * string) (n acc : nat) => _).
  assert (forall m : gmap (string * string) nat, forall i n, m !! i = None -> map_fold f O (<[i := n]> m) = f i n (map_fold f O m)) as Hins.
  { intros m i n Hi. apply map_fold_insert_L; [|done]. intros j1 j2 z1 z2 y _ _ _. unfold f. repeat case_bool_decide; lia. }
  rewrite <-(insert_delete_eq (pt_statuses t) k) at 1. rewrite Hins by apply lookup_delete_eq.
  destruct (pt_statuses t !! k) as [n|] eqn:Hk.
  - rewrite <-(insert_delete_id (pt_statuses t) k n Hk) at 2. rewrite Hins by apply lookup_delete_eq. unfold f at 1 3, k. simpl. case_bool_decide; lia.
  - rewrite delete_id by done. unfold f at 1, k. simpl. case_bool_decide; lia.
Qed.

Lemma status_post op st op' r ns t : status_of (post op' r ns t) op st = (status_of t op st + if bool_decide ((op', reply_status r) = (op, st)) then 1 else 0)%nat.
Proof.
  unfold status_of, post. cbn [pt_statuses]. case_bool_decide as Hk.
  - rewrite Hk, lookup_insert_eq. simpl. lia.
  - rewrite lookup_insert_ne by done. lia.
Qed.

(** A journey asks for one hold; its payment counts as accepted exactly when it is answered 202. *)
Lemma journey_counts a io t :
  answered "hold" (journey a io t) = S (answered "hold" t)
  /\ (status_of t "payment" "202" = t.(pt_accepted) -> status_of (journey a io t) "payment" "202" = (journey a io t).(pt_accepted)).
Proof.
  assert (forall r, has_code r 202 = true <-> reply_status r = "202") as H202.
  { intros [h|type]; simpl; [|done]. rewrite Z.eqb_eq. split; [by intros ->|]. intros Hp. by apply (inj pretty). }
  assert (forall t1 t2, t1.(pt_statuses) = t2.(pt_statuses) -> answered "hold" t1 = answered "hold" t2 /\ status_of t1 "payment" "202" = status_of t2 "payment" "202") as Hsame.
  { intros t1 t2 Heq. unfold answered, status_of. by rewrite Heq. }
  unfold journey. destruct (_ && has_code _ 201); [destruct (jo_order io) as [o|e]|].
  - set (t2 := post "payment" _ _ _). assert (answered "hold" t2 = S (answered "hold" t)
      /\ status_of t2 "payment" "202" = (status_of t "payment" "202" + if has_code (jo_payment io) 202 then 1 else 0)%nat) as [H1 H2].
    { unfold t2. rewrite !answered_post, !status_post. specialize (H202 (jo_payment io)). destruct (has_code (jo_payment io) 202).
      - rewrite (proj1 H202) by done. repeat case_bool_decide; simplify_eq/=; lia.
      - destruct (decide (reply_status (jo_payment io) = "202")) as [Hr|Hr]; [by apply H202 in Hr|]. repeat case_bool_decide; simplify_eq/=; lia. }
    assert (pt_accepted t2 = pt_accepted t) as Ha by done. destruct (has_code (jo_payment io) 202).
    + destruct (Hsame (ProbeTally (pt_statuses t2) (pt_latency t2) (S (pt_accepted t2)) (pt_failed t2)) t2 eq_refl) as [-> ->]. cbn [pt_accepted]. lia.
    + lia.
  - destruct (Hsame (raised e (post "hold" (jo_hold io) (jo_hold_ns io) t)) (post "hold" (jo_hold io) (jo_hold_ns io) t) eq_refl) as [-> ->].
    rewrite answered_post, status_post. cbn [raised post pt_accepted]. repeat case_bool_decide; simplify_eq/=; lia.
  - rewrite answered_post, status_post. cbn [post pt_accepted]. repeat case_bool_decide; simplify_eq/=; lia.
Qed.

Lemma journeys_count a (io : nat -> journey_io) order t :
  status_of t "payment" "202" = t.(pt_accepted) ->
  let t' := foldl (fun t i => journey a (io i) t) t order in
  answered "hold" t' = (length order + answered "hold" t)%nat /\ status_of t' "payment" "202" = t'.(pt_accepted).
Proof.
  revert t. induction order as [|i order IH]; intros t Ht; [done|]. simpl. destruct (journey_counts a (io i) t) as [H1 H2].
  destruct (IH (journey a (io i) t) (H2 Ht)) as [-> ?]. split; [lia|done].
Qed.

(** Every scheduled journey was dropped or asked for its one hold, and the accepted payments are those answered 202. *)
Lemma probe_accounting a io wakeups rest :
  (forall l, rest l ≡ₚ l) -> let p := probe_loop a io wakeups rest in
  (answered "hold" p.(lp_state) + p.(lp_dropped) = Z.to_nat (probe_total a))%nat
  /\ status_of p.(lp_state) "payment" "202" = p.(lp_state).(pt_accepted).
Proof.
  intros Hrest p. destruct (open_loop_facts (fun i => journey a (io i)) a.(pa_rate) (Z.to_nat a.(pa_inflight)) wakeups
    (Z.to_nat (probe_total a)) empty_tally rest Hrest) as (_ & _ & _ & Hc & _ & order & Hperm & Hs).
  fold (probe_loop a io wakeups rest) p in Hc, Hperm, Hs. destruct (journeys_count a io order empty_tally eq_refl) as [Ha Hp].
  apply Permutation_length in Hperm. rewrite Hs, Ha. split; [|done]. change (answered "hold" empty_tally) with O. lia.
Qed.

(** ** The drain ends *)

Lemma drain_ends a event accepted views started fuel turn :
  (forall n, (views n).(vw_mono) + milliseconds 500 <= (views (S n)).(vw_mono)) -> (1 <= fuel)%nat ->
  seconds a.(pa_drain) - ((views turn).(vw_mono) - started) <= Z.of_nat (fuel - 1) * milliseconds 500 ->
  is_Some (drain fuel a event accepted views started turn).
Proof.
  intros Hm. revert turn. induction fuel as [|fuel IH]; intros turn Hf Hd; [lia|]. cbn [drain]. destruct (_ && _); [eauto|].
  destruct (_ <=? _) eqn:Hle; [eauto|]. apply Z.leb_gt in Hle. unfold milliseconds, us_per_ms in *.
  destruct fuel as [|fuel]; [lia|]. apply IH; [lia|]. specialize (Hm turn). lia.
Qed.

Lemma drain_last a event accepted views started fuel turn v :
  drain fuel a event accepted views started turn = Some v -> exists n, v = views n.
Proof.
  revert turn. induction fuel as [|fuel IH]; intros turn; cbn [drain]; [done|].
  destruct (_ && _); [intros [= <-]; eauto|]. destruct (_ <=? _); [intros [= <-]; eauto|apply IH].
Qed.

(** ** No duplicates *)

Lemma booked_seats_NoDup event d : inv_core d -> NoDup (booked_seats event d).
Proof.
  intros Hc. unfold booked_seats. assert (forall l, (forall b r, (b, r) ∈ l -> d.(bookings) !! b = Some r) -> NoDup l.*1 ->
    NoDup (b_seat_id <$> filter (fun b => b_event_id b = event) l.*2)) as H.
  { intros l. induction l as [|[b r] l IH]; intros Hl Hnd; [constructor|]. csimpl in *. apply NoDup_cons in Hnd as [Hb Hnd].
    rewrite filter_cons. case_decide as He; [|apply IH; [intros; apply Hl; by right|done]]. csimpl.
    apply NoDup_cons. split; [|apply IH; [intros; apply Hl; by right|done]]. intros (r' & Hs & Hin)%list_elem_of_fmap.
    apply list_elem_of_filter in Hin as [He' Hin]. apply list_elem_of_fmap in Hin as ([b' r''] & Hr & Hin). simpl in Hr. subst r''.
    assert (b = b') as ->.
    { eapply (ic_booking_unique _ Hc); [apply Hl; by left|apply Hl; by right|congruence|done]. }
    apply Hb. apply list_elem_of_fmap. by exists (b', r'). }
  apply H; [|apply NoDup_fst_map_to_list]. intros b r. by rewrite elem_of_map_to_list.
Qed.

Lemma duplicate_seats_none event d : inv_core d -> duplicate_seats event d = O.
Proof.
  intros Hc%(booked_seats_NoDup event). unfold duplicate_seats. set (l := booked_seats event d) in *.
  assert (filter (fun s => (1 < length (filter (fun x => x = s) l))%nat) (remove_dups l) = []) as ->; [|done].
  apply elem_of_nil_inv. intros s [Hs _]%list_elem_of_filter. apply Nat.lt_nge in Hs. apply Hs.
  assert (NoDup (filter (fun x => x = s) l)) as Hnd by (by apply NoDup_filter).
  destruct (filter (fun x => x = s) l) as [|x [|y r]] eqn:Hf; simpl; [lia|lia|]. exfalso.
  assert (x = s /\ y = s) as [-> ->].
  { split; [assert (x ∈ filter (fun x => x = s) l) as [? _]%list_elem_of_filter by (rewrite Hf; by left)
           |assert (y ∈ filter (fun x => x = s) l) as [? _]%list_elem_of_filter by (rewrite Hf; right; by left)]; done. }
  apply NoDup_cons in Hnd as [Hn _]. apply Hn. by left.
Qed.

(** ** The queries of the drain *)

Lemma remaining_none event d :
  remaining_deliveries event d = 0 -> forall p, p ∈ payments_in event d -> p.(p_target_deliveries) <= p.(p_deliveries).
Proof.
  unfold remaining_deliveries. generalize (payments_in event d). intros l.
  assert (forall l, 0 <= foldr (fun p n => Z.max (p_target_deliveries p - p_deliveries p) 0 + n) 0 l) as Hnn.
  { intros l'. induction l' as [|p l' IH]; simpl; lia. }
  induction l as [|p l IH]; [by intros _ p ?%not_elem_of_nil|]. simpl. specialize (Hnn l). intros H0 q [->|Hin]%elem_of_cons; [lia|]. apply IH; [lia|done].
Qed.

Lemma all_consumed event d e r o :
  not_consumed event d = O -> d.(outbox_events) !! e = Some r -> d.(orders) !! r.(ob_aggregate_id) = Some o -> o.(o_event_id) = event -> e ∈ d.(consumer_inbox).
Proof.
  intros Hn He Ho Hev. apply nil_length_inv in Hn. destruct (decide (e ∈ d.(consumer_inbox))) as [|Hne]; [done|]. exfalso.
  assert ((e, r) ∈ ([] : list (uuid * outbox_row))) as []%not_elem_of_nil. rewrite <-Hn. apply list_elem_of_filter. split; [|by apply elem_of_map_to_list].
  simpl. rewrite Ho. split; [by apply bool_decide_eq_true_2|done].
Qed.

Lemma lag_none event v : version_lag event v = Some 0 -> exists c, cached_version event v = Some c /\ sql_version event v.(vw_db) <= c.
Proof. unfold version_lag. destruct (cached_version event v) as [c|]; [|done]. intros [= Hc]. exists c. split; [done|lia]. Qed.

(** ** The verdict *)

(** What the database shows after a passing run of the checkout profile. *)
Record paid_for (event : uuid) (accepted : nat) (d : db) : Prop := PaidFor {
  pf_fulfilled : orders_in event O_FULFILLED d = accepted;
  pf_tickets : tickets_in event d = accepted;
  pf_some : (1 <= accepted)%nat;
  pf_delivered : forall p, p ∈ payments_in event d -> p.(p_target_deliveries) <= p.(p_deliveries);
}.

(** The projection has caught up. *)
Record projected (event : uuid) (v : view) : Prop := Projected {
  pj_consumed : forall e r o, v.(vw_db).(outbox_events) !! e = Some r -> v.(vw_db).(orders) !! r.(ob_aggregate_id) = Some o ->
    o.(o_event_id) = event -> e ∈ v.(vw_db).(consumer_inbox);
  pj_refreshed : refresh_pending event v.(vw_db) = 0;
  pj_cached : exists c, cached_version event v = Some c /\ sql_version event v.(vw_db) <= c;
}.

(** A run that exits with 0: every scheduled journey was dropped or asked for its hold; the event has as many holds as were
    answered 201, at least one and exactly one in the hot profile; in the checkout profile every accepted
    payment ended in a fulfilled order, with as many tickets, and was delivered as often as asked;
    and the projection has caught up when that was asked for. *)
Theorem capacity_probe_sound a event io wakeups rest views started v code :
  (forall l, rest l ≡ₚ l) -> let p := probe_loop a io wakeups rest in let t := p.(lp_state) in
  capacity_test a event p views started = Ok (v, code) -> code = 0 ->
  (answered "hold" t + p.(lp_dropped) = Z.to_nat (probe_total a))%nat
  /\ holds_in event v.(vw_db) = status_of t "hold" "201" /\ (1 <= status_of t "hold" "201")%nat
  /\ (a.(pa_profile) = Hot -> status_of t "hold" "201" = 1%nat)
  /\ (a.(pa_profile) = Checkout -> paid_for event (status_of t "payment" "202") v.(vw_db))
  /\ (a.(pa_wait_projection) = true -> projected event v).
Proof.
  intros Hrest p t Hrun Hcode. destruct (probe_accounting a io wakeups rest Hrest) as [Hacc Hpaid]. fold p in Hacc, Hpaid. fold t in Hacc, Hpaid.
  unfold capacity_test in Hrun. fold t in Hrun. destruct (pt_failed t); [done|]. destruct (drain _ _ _ _ _ _ _) as [v'|]; [|done].
  injection Hrun as <- Hc. destruct (probe_correct a event t (vw_db v') && projection_done a event v') eqn:Hv; [|subst; done].
  apply andb_true_iff in Hv as [Hcor Hproj]. unfold probe_correct in Hcor. rewrite !andb_true_iff in Hcor. destruct Hcor as [[[[[_ Hh] Hw] _] Hhot] Hchk].
  apply Nat.eqb_eq in Hh. apply Nat.leb_le in Hw. split_and!; try done.
  - intros Hp. rewrite Hp in Hhot. by apply Nat.eqb_eq in Hhot.
  - intros Hp. rewrite Hp in Hchk. change (negb (bool_decide (Checkout = Checkout))) with false in Hchk. cbn [orb] in Hchk. rewrite !andb_true_iff in Hchk. destruct Hchk as [[[Hf Ht] Hs] Hr].
    apply Nat.eqb_eq in Hf, Ht. apply Nat.leb_le in Hs. apply Z.eqb_eq in Hr. rewrite Hpaid. split; [done|done|done|by apply remaining_none].
  - intros Hp. unfold projection_done in Hproj. rewrite Hp in Hproj. cbn [negb orb] in Hproj. rewrite !andb_true_iff in Hproj. destruct Hproj as [[Hn Hr] Hl].
    apply Nat.eqb_eq in Hn. apply Z.eqb_eq in Hr. apply bool_decide_eq_true in Hl. split; [|done|by apply lag_none].
    intros e r o. by apply all_consumed.
Qed.

(** On the databases the system reaches, the duplicate check always passes. *)
Lemma probe_duplicates dp w event : reachable dp w -> duplicate_seats event w.(w_db) = O.
Proof. intros [[Hc _ _ _] _]%reachable_invariant. by apply duplicate_seats_none. Qed.

(** ** load_test *)

(** The run that succeeds saw one winner and only known answers. *)
Lemma load_test_one_winner a replies times report :
  load_test a replies times = Ok report ->
  let rows := (fun i => load_attempt (replies i) (times i).1 (times i).2) <$> seq 0 (Z.to_nat a.(hl_attempts)) in
  length (filter (fun r => r.(at_status) = 201) rows) = 1%nat /\ Forall (fun r => r.(at_status) ∈ [201; 409; 429; 503]) rows.
Proof.
  unfold load_test. destruct (negb (hold_load_ok a)); [done|]. destruct (negb (Nat.eqb _ 1)) eqn:H1; [done|]. destruct (negb (forallb _ _)) eqn:H2; [done|].
  intros _. apply negb_false_iff, Nat.eqb_eq in H1. apply negb_false_iff in H2. split; [done|]. apply Forall_forall. intros r Hr.
  rewrite forallb_forall in H2. specialize (H2 r (proj1 (list_elem_of_In _ _) Hr)). by apply bool_decide_eq_true in H2.
Qed.

(** Clients are used in turn, and there is one at least. *)
Lemma client_in_range a index : hold_load_ok a = true -> (client_of a index < client_count a)%nat.
Proof.
  unfold hold_load_ok, client_of, client_count. rewrite !andb_true_iff, !Z.leb_le. intros. apply Nat.mod_upper_bound. lia.
Qed.
