(* ===== verification/SeatmapLoad.v ===== *)
(** * The read-heavy probe

    [scripts/seatmap_load.py]: for each rate, waves of 95% seat-map reads and 5% holds over a fixed set of shows of 300 seats,
    with plain or conditional reads.  Answers, draws and times are parameters, and so are the
    observer's samples.  Measured times are nanoseconds. *)

From stdpp Require Import pretty.
From S2P Require Import Prelude Domain Schema World Observability Postgres Sql Config.
From S2P Require Import Cache Workers Cli Fixtures LoadGenerator OpenLoop CapacityProbe.

#[local] Open Scope Z_scope.

Inductive read_mode : Type := Legacy | Conditional.

#[global] Instance read_mode_eq_dec : EqDecision read_mode.
Proof. solve_decision. Defined.

Record seatmap_args : Type := SeatmapArgs {
  ma_rates : list Z;
  ma_seconds : Z;
  ma_shows : Z;
  ma_viewers : Z;
  ma_inflight : Z;
  ma_modes : option (list read_mode);
}.

Definition sum_rates (l : list Z) : Z := foldr Z.add 0 l.

Definition seatmap_args_ok (a : seatmap_args) : bool :=
  forallb (fun r => 1 <=? r) a.(ma_rates) && (1 <=? a.(ma_seconds)) && (1 <=? a.(ma_shows)) && (1 <=? a.(ma_viewers)) && (1 <=? a.(ma_inflight))
  && (a.(ma_shows) <=? 2000) && (sum_rates a.(ma_rates) * a.(ma_seconds) * 2 <=? 100000).

(** [args.rates.index(rate)]: of the first equal rate. *)
Fixpoint index_of (rate : Z) (l : list Z) : nat :=
  match l with [] => O | r :: rest => if r =? rate then O else S (index_of rate rest) end.

Definition modes_for (a : seatmap_args) (rate : Z) : list read_mode :=
  match a.(ma_modes) with
  | Some (m :: l) => m :: l
  | _ => if Nat.even (index_of rate a.(ma_rates)) then [Legacy; Conditional] else [Conditional; Legacy]
  end.

(** The waves, in order. *)
Definition waves (a : seatmap_args) : list (Z * read_mode) := a.(ma_rates) ≫= (fun rate => (fun m => (rate, m)) <$> modes_for a rate).

(** ** The fixture *)

Section fixture.
Context `{E : Env} (settings : Settings).

(** [dsn]: [TEST_DATABASE_URL] and [TEST_REDIS_URL] are set. *)
Definition seatmap_setup (a : seatmap_args) (dsn : bool) : W (list uuid) :=
  _ ← raise_if (bool_decide (settings.(environment) <> "development")) (PyError "RuntimeError" "Development fixtures only");
  _ ← raise_if (negb dsn) (PyError "KeyError" "TEST_DATABASE_URL");
  shows ← uuid4s (Z.to_nat a.(ma_shows));
  _ ← psycopg_connect (for_each shows (fun event => probe_event "Read-heavy probe" event 300));
  mret shows.
End fixture.

(** ** The work of a wave *)

Record work_item : Type := WorkItem { wi_viewer : nat; wi_event : uuid; wi_seat : option string }.
Definition wi_write (it : work_item) : bool := bool_decide (is_Some it.(wi_seat)).

Section wave.
Context (a : seatmap_args) (shows : list uuid).

(** [shows[viewer % args.shows]] *)
Definition show_of (viewer : nat) : outcome uuid :=
  match shows !! (viewer mod Z.to_nat a.(ma_shows))%nat with Some e => Ok e | None => Raise (PyError "IndexError" "list index out of range") end.

(** Every twentieth request is a hold of the next seat of its show.  [next] is [next_seat]; [draw] the viewers the
    seeded generator draws. *)
Fixpoint build (draw : nat -> nat) (index n : nat) (next : gmap uuid Z) : outcome (list work_item * gmap uuid Z) :=
  match n with
  | O => Ok ([], next)
  | S n' =>
      let viewer := draw index in
      match show_of viewer with
      | Raise e => Raise e
      | Ok event =>
          if Nat.eqb (index mod 20) 0 then
            let k := default 0 (next !! event) in
            if 300 <? k + 1 then Raise (PyError "ValueError" "Probe exhausted unique inventory; use more shows")
            else match build draw (S index) n' (<[event := k + 1]> next) with
                 | Raise e => Raise e
                 | Ok (l, next') => Ok (WorkItem viewer event (Some (seat_name k)) :: l, next')
                 end
          else match build draw (S index) n' next with
               | Raise e => Raise e
               | Ok (l, next') => Ok (WorkItem viewer event None :: l, next')
               end
      end
  end.

Record read_state : Type := ReadState {
  rd_statuses : gmap (string * string) nat;
  rd_times : gmap (string * string) (list Z);
  rd_bytes : Z;
  rd_read_bytes : Z;
  rd_validators : gmap nat string;
  rd_failed : option exn;
}.

(** The validators of the viewers, from the tags of the shows read before the wave. *)
Definition first_validators (tags : uuid -> string) : gmap nat string :=
  list_to_map (omap (fun v => match show_of v with Ok e => Some (v, tags e) | Raise _ => None end) (seq 0 (Z.to_nat a.(ma_viewers)))).

Definition start_state (tags : uuid -> string) : read_state := ReadState ∅ ∅ 0 0 (first_validators tags) None.

(** The path and the validator of a read. *)
Definition read_of (mode : read_mode) (it : work_item) (st : read_state) : string * option string :=
  match mode with Legacy => ("seats", None) | Conditional => ("availability", st.(rd_validators) !! it.(wi_viewer)) end.

(** The counters of an answered or failed request. *)
Definition counted (op status : string) (ns bytes read_bytes : Z) (validators : gmap nat string) (st : read_state) : read_state :=
  let k := (op, status) in
  ReadState (<[k := S (default O (st.(rd_statuses) !! k))]> st.(rd_statuses)) (<[k := default [] (st.(rd_times) !! k) ++ [ns]]> st.(rd_times))
    (st.(rd_bytes) + bytes) (st.(rd_read_bytes) + read_bytes) validators st.(rd_failed).

Definition read_raised (e : exn) (st : read_state) : read_state :=
  ReadState st.(rd_statuses) st.(rd_times) st.(rd_bytes) st.(rd_read_bytes) st.(rd_validators) (match st.(rd_failed) with None => Some e | f => f end).

Definition request (mode : read_mode) (it : work_item) (r : reply) (ns : Z) (st : read_state) : read_state :=
  let op := if wi_write it then "hold" else "read" in
  match r with
  | HTTPError _ => counted op "transport_error" ns 0 0 st.(rd_validators) st
  | Got h =>
      let status := pretty h.(ha_status) in
      if wi_write it then counted op status ns h.(ha_length) 0 st.(rd_validators) st
      else if (h.(ha_status) =? 200) && bool_decide (mode = Conditional) then
        match h.(ha_etag) with
        | None => read_raised (PyError "KeyError" "etag") st
        | Some tag => counted op status ns h.(ha_length) h.(ha_length) (<[it.(wi_viewer) := tag]> st.(rd_validators)) st
        end
      else counted op status ns h.(ha_length) h.(ha_length) st.(rd_validators) st
  end.

Definition wave_loop (rate : Z) (mode : read_mode) (work : list work_item) (tags : uuid -> string) (io : nat -> reply * Z)
    (wakeups : nat -> wakeup) (rest : list nat -> list nat) : loop read_state :=
  open_loop (fun i st => match work !! i with Some it => request mode it (io i).1 (io i).2 st | None => st end)
    rate (Z.to_nat a.(ma_inflight)) wakeups (length work) (start_state tags) rest.

(** ** The gate *)

Definition read_times (st : read_state) : list Z := concat (omap (fun kv => if bool_decide (kv.1.1 = "read") then Some kv.2 else None) (map_to_list st.(rd_times))).

Definition read_gate (p : loop read_state) : bool :=
  Nat.eqb p.(lp_dropped) 0 && within_ms (percentile (read_times p.(lp_state)) p95) 150
  && forallb (fun kn => negb (bool_decide (kn.1.1 = "read")) || bool_decide (kn.1.2 ∈ ["200"; "304"])) (map_to_list p.(lp_state).(rd_statuses))
  && forallb (fun kn => negb (bool_decide (kn.1.1 = "hold")) || bool_decide (kn.1.2 = "201")) (map_to_list p.(lp_state).(rd_statuses)).

(** What a wave meets: the draws, the tags read before it or the error of warming or reading them, the answers and the times. *)
Record wave_io : Type := WaveIo {
  wo_draw : nat -> nat;
  wo_tags : outcome (uuid -> string);
  wo_answers : nat -> reply * Z;
  wo_wakeups : nat -> wakeup;
  wo_rest : list nat -> list nat;
}.

Record wave_result : Type := WaveResult { wr_mode : read_mode; wr_rate : Z; wr_work : list work_item; wr_loop : loop read_state; wr_gate : bool }.

Definition run_wave (rate : Z) (mode : read_mode) (io : wave_io) (next : gmap uuid Z) : outcome (wave_result * gmap uuid Z) :=
  match io.(wo_tags) with
  | Raise e => Raise e
  | Ok tags =>
      match build io.(wo_draw) 0 (Z.to_nat (rate * a.(ma_seconds))) next with
      | Raise e => Raise e
      | Ok (work, next') =>
          let p := wave_loop rate mode work tags io.(wo_answers) io.(wo_wakeups) io.(wo_rest) in
          match p.(lp_state).(rd_failed) with
          | Some e => Raise e
          | None => Ok (WaveResult mode rate work p (read_gate p), next')
          end
      end
  end.

(** The results written before an exception ends the run are kept. *)
Fixpoint run_waves (l : list (Z * read_mode)) (io : nat -> wave_io) (i : nat) (next : gmap uuid Z) : list wave_result * option exn :=
  match l with
  | [] => ([], None)
  | (rate, mode) :: rest =>
      match run_wave rate mode (io i) next with
      | Raise e => ([], Some e)
      | Ok (r, next') => let '(rs, e) := run_waves rest io (S i) next' in (r :: rs, e)
      end
  end.

Definition seatmap_load (io : nat -> wave_io) : list wave_result * option exn := run_waves (waves a) io 0 ∅.
End wave.

(** ** The observer *)

(** A sample of the stores with its metrics or the error of the query, or the error of sampling. *)
Inductive observation (S P : Type) : Type := Observed (sample : S) (metrics : P + string) | ObserverFailed (error : string).
Arguments Observed {S P} _ _.
Arguments ObserverFailed {S P} _.

(** A turn of [monitor], with the milliseconds it waits at most before the next one. *)
Definition monitor_turn {S P} (sampled : outcome S) (queried : outcome P) (name : exn -> string) (samples : list (observation S P)) : list (observation S P) * Z :=
  match sampled with
  | Raise e => (samples ++ [ObserverFailed (name e)], 0)
  | Ok s => (samples ++ [Observed s (match queried with Ok m => inl m | Raise e => inr (name e) end)], 2000)
  end.

(** [n] turns from one sample to the next, and the time they wait together. *)
Fixpoint monitor_turns {S P} (n : nat) (sampled : nat -> outcome S) (queried : nat -> outcome P) (name : exn -> string) (samples : list (observation S P)) (waited : Z)
    : list (observation S P) * Z :=
  match n with
  | O => (samples, waited)
  | Datatypes.S n' =>
      let '(samples', w) := monitor_turn (sampled O) (queried O) name samples in
      monitor_turns n' (fun i => sampled (Datatypes.S i)) (fun i => queried (Datatypes.S i)) name samples' (waited + w)
  end.
