(* ===== verification/SeatmapFacts.v ===== *)
(** * What the read-heavy probe shows

    Its holds never ask twice for a seat, and only for seats of its fixture; a wave whose gate passes was dispatched whole, every
    read was answered 200 or 304 and every hold 201. *)

From stdpp Require Import pretty.
From S2P Require Import Prelude Domain Schema World Observability Postgres Sql Config.
From S2P Require Import Cache Workers Cli Fixtures LoadGenerator LoadFacts OpenLoop CapacityProbe SeatmapLoad.

#[local] Open Scope Z_scope.

(** The seats a list of work asks to hold. *)
Definition held_seats (l : list work_item) : list (uuid * string) := omap (fun it => (fun s => (it.(wi_event), s)) <$> it.(wi_seat)) l.

Lemma held_seats_app l l' : held_seats (l ++ l') = held_seats l ++ held_seats l'.
Proof. apply omap_app. Qed.

Definition next_of (next : gmap uuid Z) (e : uuid) : Z := default 0 (next !! e).

Lemma next_of_insert next e v e' : next_of (<[e := v]> next) e' = if decide (e = e') then v else next_of next e'.
Proof. unfold next_of. case_decide as He; [subst; by rewrite lookup_insert_eq|by rewrite lookup_insert_ne]. Qed.

Section facts.
Context (a : seatmap_args) (shows : list uuid).

(** The seats between two states of the counters, each at most once. *)
Record allotted (next next' : gmap uuid Z) (l : list (uuid * string)) : Prop := Allotted {
  al_grows : forall e, next_of next e <= next_of next' e;
  al_nodup : NoDup l;
  al_seat : forall e s, (e, s) ∈ l -> e ∈ shows /\ exists k, s = seat_name k /\ next_of next e <= k < next_of next' e /\ k < 300;
}.

Lemma allotted_nil next : allotted next next [].
Proof. split; [done|constructor|by intros e s ?%not_elem_of_nil]. Qed.

Lemma allotted_app next next1 next2 l l' : allotted next next1 l -> allotted next1 next2 l' -> allotted next next2 (l ++ l').
Proof.
  intros [Hg Hn Hs] [Hg' Hn' Hs']. split.
  - intros e. specialize (Hg e). specialize (Hg' e). lia.
  - apply NoDup_app. split_and!; [done| |done]. intros [e s] Hin Hin'. destruct (Hs _ _ Hin) as (_ & k & -> & Hk & _).
    destruct (Hs' _ _ Hin') as (_ & k' & Heq & Hk' & _). apply (inj (String.append "S")), (inj pretty) in Heq. lia.
  - intros e s [Hin|Hin]%elem_of_app.
    + destruct (Hs _ _ Hin) as (? & k & -> & Hk & ?). split; [done|]. exists k. specialize (Hg' e). split_and!; [done|lia|lia|done].
    + destruct (Hs' _ _ Hin) as (? & k & -> & Hk & ?). split; [done|]. exists k. specialize (Hg e). split_and!; [done|lia|lia|done].
Qed.

Lemma build_allotted draw index n next l next' : build a shows draw index n next = Ok (l, next') -> length l = n /\ allotted next next' (held_seats l).
Proof.
  revert index next l next'. induction n as [|n IH]; intros index next l next'; simpl; [intros [= <- <-]; split; [done|apply allotted_nil]|].
  unfold show_of. destruct (shows !! _) as [event|] eqn:Hshow; [|done]. destruct (Nat.eqb _ 0).
  - destruct (300 <? _) eqn:Hfull; [done|]. apply Z.ltb_ge in Hfull. destruct (build _ _ _ _ n _) as [[l' next1]|] eqn:Hb; [|done]. intros [= <- <-].
    destruct (IH _ _ _ _ Hb) as [Hl Hal]. split; [simpl; congruence|].
    apply (allotted_app next (<[event := default 0 (next !! event) + 1]> next) next1 [(event, seat_name (default 0 (next !! event)))] (held_seats l')); [|done].
    fold (next_of next event) in *. split.
    + intros e. rewrite next_of_insert. case_decide; [subst; lia|lia].
    + apply NoDup_singleton.
    + intros e s [= -> ->]%list_elem_of_singleton. split; [by eapply list_elem_of_lookup_2|]. exists (next_of next event). rewrite next_of_insert, decide_True by done.
      split_and!; [done|lia|lia|lia].
  - destruct (build _ _ _ _ n _) as [[l' next1]|] eqn:Hb; [|done]. intros [= <- <-]. destruct (IH _ _ _ _ Hb) as [Hl Hal]. split; [simpl; congruence|done].
Qed.

Lemma run_waves_allotted l io i next rs e : run_waves a shows l io i next = (rs, e) -> exists next', allotted next next' (held_seats (rs ≫= wr_work)).
Proof.
  revert i next rs e. induction l as [|[rate mode] l IH]; intros i next rs e; simpl; [intros [= <- _]; exists next; apply allotted_nil|].
  destruct (run_wave a shows rate mode (io i) next) as [[r next1]|] eqn:Hr; [|intros [= <- _]; exists next; apply allotted_nil].
  destruct (run_waves a shows l io (S i) next1) as [rs' e'] eqn:Hrs. intros [= <- _]. destruct (IH _ _ _ _ Hrs) as [next' Hal]. exists next'.
  csimpl. rewrite held_seats_app. eapply allotted_app; [|exact Hal]. unfold run_wave in Hr. destruct (wo_tags _); [|done].
  destruct (build _ _ _ _ _ _) as [[work n1]|] eqn:Hb; [|done]. destruct (rd_failed _); [done|]. injection Hr as <- <-. by eapply build_allotted.
Qed.

(** Over all waves of a run, no seat is asked for twice, and every seat asked for is one of the 300 of a show of the fixture. *)
Theorem seatmap_holds_distinct io rs e :
  seatmap_load a shows io = (rs, e) ->
  NoDup (held_seats (rs ≫= wr_work))
  /\ forall ev s, (ev, s) ∈ held_seats (rs ≫= wr_work) -> ev ∈ shows /\ exists k, s = seat_name k /\ 0 <= k < 300.
Proof.
  intros [next' [_ Hn Hs]]%run_waves_allotted. split; [done|]. intros ev s Hin. destruct (Hs _ _ Hin) as (? & k & -> & Hk & ?).
  split; [done|]. exists k. unfold next_of at 1 in Hk. rewrite lookup_empty in Hk. simpl in Hk. split; [done|lia].
Qed.
End facts.

(** ** The gate *)

(** An answer under which a request is counted. *)
Definition counted_as (it : work_item) (r : reply) : string * string := (if wi_write it then "hold" else "read", reply_status r).

Lemma request_counted mode it r ns st :
  let st' := request mode it r ns st in
  (forall k, is_Some (st.(rd_statuses) !! k) -> is_Some (st'.(rd_statuses) !! k))
  /\ (st'.(rd_failed) = None -> st.(rd_failed) = None /\ is_Some (st'.(rd_statuses) !! counted_as it r)).
Proof.
  assert (forall op status ns bytes rb vs, let st' := counted op status ns bytes rb vs st in
    (forall k, is_Some (st.(rd_statuses) !! k) -> is_Some (st'.(rd_statuses) !! k))
    /\ (st'.(rd_failed) = None -> st.(rd_failed) = None /\ is_Some (st'.(rd_statuses) !! (op, status)))) as Hc.
  { intros op status ns' bytes rb vs. cbn [counted rd_statuses rd_failed]. split.
    - intros k Hk. rewrite lookup_insert_is_Some. destruct (decide ((op, status) = k)); auto.
    - intros Hf. split; [done|]. rewrite lookup_insert_eq. eauto. }
  unfold request, counted_as. destruct r as [h|type]; [|apply Hc]. destruct (wi_write it); [apply Hc|]. destruct (_ && _); [|apply Hc].
  destruct (ha_etag h); [apply Hc|]. split; [done|]. cbn [read_raised rd_failed]. by destruct (rd_failed st).
Qed.

Lemma requests_counted mode (work : list work_item) (io : nat -> reply * Z) order st :
  let st' := foldl (fun st i => match work !! i with Some it => request mode it (io i).1 (io i).2 st | None => st end) st order in
  st'.(rd_failed) = None ->
  (forall k, is_Some (st.(rd_statuses) !! k) -> is_Some (st'.(rd_statuses) !! k))
  /\ forall i it, i ∈ order -> work !! i = Some it -> is_Some (st'.(rd_statuses) !! counted_as it (io i).1).
Proof.
  revert st. induction order as [|j order IH]; intros st; simpl; intros Hf; [by split; [|intros i it ?%not_elem_of_nil]|].
  destruct (IH _ Hf) as [Hk Hin]. assert (forall st, (foldl (fun st i => match work !! i with Some it => request mode it (io i).1 (io i).2 st | None => st end) st order).(rd_failed) = None
    -> st.(rd_failed) = None) as Hback.
  { clear. induction order as [|j order IH]; intros st; simpl; [done|]. intros Hf%IH. destruct (work !! j) as [it|]; [|done]. by apply request_counted in Hf as [? _]. }
  apply Hback in Hf. destruct (work !! j) as [it|] eqn:Hj.
  - destruct (request_counted mode it (io j).1 (io j).2 st) as [Hm Hc]. split; [auto|].
    intros i it' [->|Hi]%elem_of_cons Hit; [|by apply Hin]. assert (it' = it) as -> by congruence. by apply Hk, Hc.
  - split; [done|]. intros i it' [->|Hi]%elem_of_cons Hit; [congruence|by apply Hin].
Qed.

(** A wave whose gate passes was dispatched whole; each of its reads was answered 200 or 304, each of its holds 201, and at
    least 95% of the reads within 150 ms. *)
Theorem read_gate_sound a shows rate mode io next r next' :
  (forall l, io.(wo_rest) l ≡ₚ l) -> run_wave a shows rate mode io next = Ok (r, next') -> r.(wr_gate) = true ->
  r.(wr_loop).(lp_dropped) = O /\ within_ms (percentile (read_times r.(wr_loop).(lp_state)) p95) 150 = true
  /\ forall i it, r.(wr_work) !! i = Some it ->
       if wi_write it then reply_status (io.(wo_answers) i).1 = "201" else reply_status (io.(wo_answers) i).1 ∈ ["200"; "304"].
Proof.
  intros Hrest Hrun Hgate. unfold run_wave in Hrun. destruct (wo_tags io) as [tags|]; [|done].
  destruct (build _ _ _ _ _ _) as [[work n1]|]; [|done]. set (p := wave_loop _ _ _ _ _ _ _ _ _) in Hrun.
  destruct (rd_failed (lp_state p)) eqn:Hf; [done|]. injection Hrun as <- <-. cbn [wr_loop wr_work wr_gate] in *.
  unfold read_gate in Hgate. rewrite !andb_true_iff in Hgate. destruct Hgate as [[[Hd Hp] Hr] Hh]. apply Nat.eqb_eq in Hd. split_and!; [done|done|].
  destruct (open_loop_facts (fun i st => match work !! i with Some it => request mode it (wo_answers io i).1 (wo_answers io i).2 st | None => st end)
    rate (Z.to_nat a.(ma_inflight)) (wo_wakeups io) (length work) (start_state a shows tags) (wo_rest io) Hrest) as (_ & Hnd & Hlt & Hc & _ & order & Hperm & Hs).
  fold (wave_loop a shows rate mode work tags (wo_answers io) (wo_wakeups io) (wo_rest io)) in Hnd, Hlt, Hc, Hperm, Hs. fold p in Hnd, Hlt, Hc, Hperm, Hs.
  assert (forall i, (i < length work)%nat -> i ∈ lp_tasks p) as Hall.
  { intros i Hi. assert (lp_tasks p ≡ₚ seq 0 (length work)) as ->; [|apply elem_of_seq; lia].
    apply submseteq_length_Permutation; [|rewrite length_seq; lia]. apply NoDup_submseteq; [done|]. intros j ?%Hlt. apply elem_of_seq. lia. }
  intros i it Hit. rewrite Hs in Hf. destruct (requests_counted mode work (wo_answers io) order _ Hf) as [_ Hin]. rewrite <-Hs in Hin.
  destruct (Hin i it) as [n Hn]; [rewrite Hperm; apply Hall; by eapply lookup_lt_Some|done|].
  apply elem_of_map_to_list, list_elem_of_In in Hn. rewrite forallb_forall in Hr, Hh. specialize (Hr _ Hn). specialize (Hh _ Hn).
  unfold counted_as in Hr, Hh. simpl in Hr, Hh. destruct (wi_write it); simpl in Hr, Hh; [by apply bool_decide_eq_true in Hh|by apply bool_decide_eq_true in Hr].
Qed.

(** ** The bound on the schedule *)

Definition scheduled (a : seatmap_args) : Z := foldr (fun rm n => rm.1 * a.(ma_seconds) + n) 0 (waves a).

Lemma scheduled_rates a n : (forall rate, rate ∈ a.(ma_rates) -> Z.of_nat (length (modes_for a rate)) = n) -> scheduled a = sum_rates a.(ma_rates) * a.(ma_seconds) * n.
Proof.
  unfold scheduled, waves. intros Hm. assert (forall l, (forall rate, rate ∈ l -> Z.of_nat (length (modes_for a rate)) = n) ->
    foldr (fun rm n => rm.1 * a.(ma_seconds) + n) 0 (l ≫= (fun rate => (fun m => (rate, m)) <$> modes_for a rate)) = sum_rates l * a.(ma_seconds) * n) as H; [|by apply H].
  clear Hm. intros l. induction l as [|rate l IH]; intros Hl; [done|]. csimpl. rewrite foldr_app, IH by (intros; apply Hl; by right).
  specialize (Hl rate (list_elem_of_here _ _)). rewrite <-Hl. generalize (modes_for a rate). intros ms.
  assert (forall z, foldr (fun rm n => rm.1 * a.(ma_seconds) + n) z ((fun m : read_mode => (rate, m)) <$> ms) = rate * a.(ma_seconds) * Z.of_nat (length ms) + z) as ->.
  { intros z. induction ms as [|m ms IHm]; [simpl; lia|]. csimpl. rewrite IHm. lia. }
  cbn [sum_rates foldr]. fold (sum_rates l). nia.
Qed.

(** With the default modes, accepted arguments schedule at most 100000 requests. *)
Lemma scheduled_bounded a : seatmap_args_ok a = true -> a.(ma_modes) = None -> scheduled a <= 100000.
Proof.
  intros Hok Hm. rewrite (scheduled_rates a 2).
  - unfold seatmap_args_ok in Hok. rewrite !andb_true_iff, !Z.leb_le in Hok. lia.
  - intros rate _. unfold modes_for. rewrite Hm. by destruct (Nat.even _).
Qed.

(** Modes given more than twice are not counted: these arguments are accepted and schedule 150000 requests. *)
Lemma scheduled_unbounded : exists a, seatmap_args_ok a = true /\ scheduled a = 150000.
Proof. exists (SeatmapArgs [500] 100 100 1000 64 (Some [Legacy; Legacy; Legacy])). by split; vm_compute. Qed.

(** ** The observer *)

Lemma monitor_turns_length {S P} n (sampled : nat -> outcome S) (queried : nat -> outcome P) name samples waited :
  length (monitor_turns n sampled queried name samples waited).1 = (length samples + n)%nat.
Proof.
  revert sampled queried samples waited. induction n as [| n IH]; intros sampled queried samples waited; simpl; [lia |].
  unfold monitor_turn. destruct (sampled O); rewrite IH, length_app; simpl; lia.
Qed.

(** While the database is reachable, a turn waits two seconds for the end of the wave. *)
Lemma monitor_paced {S P} n (sampled : nat -> outcome S) (queried : nat -> outcome P) name samples waited :
  (forall i, (i < n)%nat -> exists s, sampled i = Ok s) -> (monitor_turns n sampled queried name samples waited).2 = waited + 2000 * Z.of_nat n.
Proof.
  revert sampled queried samples waited. induction n as [| n IH]; intros sampled queried samples waited H; simpl; [lia |].
  destruct (H O) as [s E]; [lia |]. unfold monitor_turn. rewrite E, IH; [lia |]. intros i Hi. apply (H (Datatypes.S i)). lia.
Qed.

(** A failing sample ends its turn without a pause: an observer that cannot sample spins, and keeps a row for each turn. *)
Lemma monitor_spins {S P} n e (queried : nat -> outcome P) name :
  let '(samples, waited) := monitor_turns n (fun _ => Raise e : outcome S) queried name [] 0 in length samples = n /\ waited = 0.
Proof.
  pose proof (monitor_turns_length n (fun _ => Raise e : outcome S) queried name [] 0) as L.
  assert (W : forall (q : nat -> outcome P) samples w, (monitor_turns n (fun _ => Raise e : outcome S) q name samples w).2 = w).
  { clear L. induction n as [| n IH]; intros q samples w; simpl; [done |]. rewrite IH. lia. }
  specialize (W queried [] 0). by destruct (monitor_turns _ _ _ _ _ _).
Qed.
