(* ===== verification/MetricReports.v ===== *)
(** * Reports from scraped metrics

    [scripts/summarize_capacity.py] and [scripts/summarize_seatmap_load.py]: differences of Prometheus series between two scrapes, and
    the 95th percentile of a histogram estimated from its buckets.  A series is named by its labels; values are
    integers in one unit, as counts are (a sum of seconds in microseconds); a bucket bound is [None] for [+Inf]. *)

From stdpp Require Import pretty.
From S2P Require Import Prelude LoadGenerator LoadFacts.

#[local] Open Scope Z_scope.

Abbreviation labels := (gmap string string) (only parsing).
Abbreviation bound := (option Z) (only parsing).

(** [float(key["le"])]: [None] when it is not a number. *)
Definition bound_parser : Type := string -> option bound.

(** Bounds in increasing order, [+Inf] last. *)
Definition bound_le (x y : bound) : Prop := match y with None => True | Some b => match x with Some a => a <= b | None => False end end.

#[global] Instance bound_le_dec x y : Decision (bound_le x y).
Proof. destruct x, y; simpl; apply _. Defined.

Definition bucket_le (x y : bound * Z) : Prop := bound_le x.1 y.1.

#[global] Instance bucket_le_dec x y : Decision (bucket_le x y).
Proof. unfold bucket_le. apply _. Defined.

(** [sorted(buckets.items())] of distinct bounds. *)
Definition sorted_buckets (m : gmap bound Z) : list (bound * Z) := merge_sort bucket_le (map_to_list m).

(** [value >= count * 0.95] in binary64. *)
Definition reaches_p95 (count value : Z) : bool := round53 (count * p95.(dy_mantissa)) <=? value * 2 ^ p95.(dy_shift).

Definition named_with (name : string) (wanted : list (string * string)) (key : labels) : bool :=
  bool_decide (key !! "__name__" = Some name) && forallb (fun kv => bool_decide (key !! kv.1 = Some kv.2)) wanted.

(** ** summarize_capacity *)

(** A later row of the same series replaces an earlier one. *)
Definition series (rows : list (labels * Z)) : gmap labels Z := foldl (fun m kv => <[kv.1 := kv.2]> m) ∅ rows.

(** A series that went back is left out. *)
Definition deltas (start fin : gmap labels Z) : list (labels * Z) :=
  omap (fun kv => let v0 := default 0 (start !! kv.1) in if v0 <=? kv.2 then Some (kv.1, kv.2 - v0) else None) (map_to_list fin).

Definition metric_total (delta : list (labels * Z)) (name : string) (wanted : list (string * string)) : Z :=
  foldr (fun kv n => if named_with name wanted kv.1 then kv.2 + n else n) 0 delta.

Section capacity.
Context (parse : bound_parser).

(** The buckets of a histogram, summed over its series; a bucket without a bound raises. *)
Definition bucket_totals (delta : list (labels * Z)) (prefix : string) (wanted : list (string * string)) : outcome (gmap bound Z) :=
  foldl (fun acc kv =>
    match acc with
    | Raise e => Raise e
    | Ok m =>
        if named_with (prefix +:+ "_bucket") wanted kv.1 then
          match kv.1 !! "le" with
          | None => Raise (PyError "KeyError" "le")
          | Some text => match parse text with
                         | None => Raise (PyError "ValueError" "could not convert string to float")
                         | Some b => Ok (<[b := default 0 (m !! b) + kv.2]> m)
                         end
          end
        else Ok m
    end) (Ok ∅) delta.

Definition first_reaching (count : Z) (l : list (bound * Z)) : option bound := fst <$> head (filter (fun bv => reaches_p95 count bv.2 = true) l).

(** The first bound whose cumulative count reaches 95% of all. *)
Definition upper_p95 (delta : list (labels * Z)) (prefix : string) (wanted : list (string * string)) : outcome (option bound) :=
  let count := metric_total delta (prefix +:+ "_count") wanted in
  if count =? 0 then Ok None
  else match bucket_totals delta prefix wanted with
       | Raise e => Raise e
       | Ok m => Ok (first_reaching count (sorted_buckets m))
       end.

(** [max(.., default=None)] over the samples of a gauge. *)
Definition max_of (l : list Z) : option Z := match l with [] => None | x :: r => Some (foldr Z.max x r) end.
Definition gauge_maximum (rows : list (labels * Z)) (name : string) (wanted : list (string * string)) : option Z :=
  max_of (omap (fun kv => if named_with name wanted kv.1 then Some kv.2 else None) rows).

(** The figures computed from the scrapes and the samples of a run. *)
Record capacity_summary : Type := CapacitySummary {
  cy_max_connections : option Z;
  cy_max_lock_waiters : option Z;
  cy_max_oldest_wait : option Z;
  cy_pool_size : option Z;
  cy_pool_acquiring : option Z;
  cy_pool_in_use : option Z;
  cy_query_count : Z;
  cy_query_mean : option (Z * Z);
  cy_query_p95 : option bound;
  cy_transaction_p95 : option bound;
  cy_pool_p95 : option bound;
  cy_pool_errors : Z;
  cy_lock_errors : Z;
  cy_full_rows : Z;
  cy_patch_rows : Z;
  cy_busy : list (string * Z);
}.

Definition OPERATIONS : list string := ["snapshot"; "refresh_one"; "publish_batch"; "consume_event"; "simulate_one"].

(** [activity]: connections, lock waiters and oldest wait of the samples; [gauges]: the rows of their metrics; a mean is a fraction. *)
Definition capacity_summarize (start_rows end_rows : list (labels * Z)) (activity : list (Z * Z * Z)) (gauges : list (labels * Z)) : outcome capacity_summary :=
  let delta := deltas (series start_rows) (series end_rows) in
  let count := metric_total delta "ticketing_db_query_seconds_count" [] in
  let api := [("job", "api")] in
  match upper_p95 delta "ticketing_db_query_seconds" api, upper_p95 delta "ticketing_db_transaction_seconds" api,
        upper_p95 delta "ticketing_db_pool_acquire_seconds" (api ++ [("outcome", "ok")]) with
  | Ok query, Ok tx, Ok pool =>
      Ok (CapacitySummary (max_of activity.*1.*1) (max_of activity.*1.*2) (max_of activity.*2)
        (gauge_maximum gauges "ticketing_db_pool_state" (api ++ [("state", "pool_size")]))
        (gauge_maximum gauges "ticketing_db_pool_acquiring" api) (gauge_maximum gauges "ticketing_db_pool_in_use" api)
        count (if count =? 0 then None else Some (metric_total delta "ticketing_db_query_seconds_sum" [], count)) query tx pool
        (metric_total delta "ticketing_db_pool_acquire_seconds_count" [("outcome", "error")]) (metric_total delta "ticketing_db_errors_total" [("type", "55P03")])
        (metric_total delta "ticketing_cache_rows_total" [("mode", "full")]) (metric_total delta "ticketing_cache_rows_total" [("mode", "patch")])
        ((fun op => (op, metric_total delta "ticketing_worker_busy_seconds_total" [("operation", op)])) <$> OPERATIONS))
  | Raise e, _, _ => Raise e
  | _, Raise e, _ => Raise e
  | _, _, Raise e => Raise e
  end.

(** ** summarize_seatmap_load *)

(** Rows that are not well formed, or whose value is not a number, are skipped. *)
Definition to_metric_map (rows : list (option (labels * option Z))) : gmap labels Z :=
  foldl (fun m row => match row with Some (key, Some v) => <[key := v]> m | _ => m end) ∅ rows.

(** A total that went back is missing. *)
Definition metric_delta (start fin : gmap labels Z) (name : string) (wanted : list (string * string)) : option Z :=
  let rows := filter (fun kv => named_with name wanted kv.1 = true) (map_to_list fin) in
  let d := foldr (fun kv n => kv.2 + n) 0 rows - foldr (fun kv n => default 0 (start !! kv.1) + n) 0 rows in
  if d <? 0 then None else Some d.

(** The buckets that grew, by bound; a bucket without a numeric bound is skipped. *)
Definition bucket_deltas (start fin : gmap labels Z) (prefix : string) (wanted : list (string * string)) : gmap bound Z :=
  foldl (fun m kv =>
    if named_with (prefix +:+ "_bucket") wanted kv.1 then
      match kv.1 !! "le" ≫= parse with
      | None => m
      | Some b => let d := kv.2 - default 0 (start !! kv.1) in if d <=? 0 then m else <[b := default 0 (m !! b) + d]> m
      end
    else m) ∅ (map_to_list fin).

(** The bound at which the running sum of the buckets reaches 95% of their sum. *)
Fixpoint cumulate (total cumulative : Z) (l : list (bound * Z)) : option Z :=
  match l with
  | [] => None
  | (b, v) :: rest => if reaches_p95 total (cumulative + v) then b else cumulate total (cumulative + v) rest
  end.

Definition bucket_sum (l : list (bound * Z)) : Z := foldr (fun bv n => bv.2 + n) 0 l.

Definition histogram_p95 (start fin : gmap labels Z) (prefix : string) (wanted : list (string * string)) : option Z :=
  let l := sorted_buckets (bucket_deltas start fin prefix wanted) in
  if bucket_sum l =? 0 then None else cumulate (bucket_sum l) 0 l.

Definition max_sample (samples : list (list (option (labels * option Z)))) (name : string) (wanted : list (string * string)) : option Z :=
  max_of (omap (fun row => match row with Some (key, Some v) => if named_with name wanted key then Some v else None | _ => None end) (concat samples)).

(** [(total * 1000.0 / count) if count else None]: a missing total raises. *)
Definition metric_mean (total count : option Z) : outcome (option (Z * Z)) :=
  match count with
  | None => Ok None
  | Some n => if n =? 0 then Ok None else match total with Some t => Ok (Some (t, n)) | None => Raise (PyError "TypeError" "") end
  end.

Record stage_metrics : Type := StageMetrics {
  sg_query_count : option Z;
  sg_query_mean : option (Z * Z);
  sg_query_p95 : option Z;
  sg_tx_count : option Z;
  sg_tx_mean : option (Z * Z);
  sg_tx_p95 : option Z;
  sg_pool_ok : option Z;
  sg_pool_errors : option Z;
  sg_pool_p95 : option Z;
  sg_lock_errors : list (string * option Z);
  sg_busy : list (string * option Z);
  sg_active : list (string * option Z);
  sg_full_rows : option Z;
  sg_patch_rows : option Z;
  sg_pool_state : list (string * option Z);
}.

(** [observations]: the metrics of each sample, [None] when it has no list of them.  Fewer than two give no figures. *)
Definition summarize_stage (observations : list (option (list (option (labels * option Z))))) : outcome (option stage_metrics) :=
  let samples := omap id observations in
  match to_metric_map <$> samples with
  | start :: (_ :: _) as maps =>
      let fin := default start (last maps) in
      let delta := metric_delta start fin in
      match metric_mean (delta "ticketing_db_query_seconds_sum" []) (delta "ticketing_db_query_seconds_count" []),
            metric_mean (delta "ticketing_db_transaction_seconds_sum" []) (delta "ticketing_db_transaction_seconds_count" []) with
      | Ok query_mean, Ok tx_mean =>
          Ok (Some (StageMetrics
            (delta "ticketing_db_query_seconds_count" []) query_mean (histogram_p95 start fin "ticketing_db_query_seconds" [])
            (delta "ticketing_db_transaction_seconds_count" []) tx_mean (histogram_p95 start fin "ticketing_db_transaction_seconds" [])
            (delta "ticketing_db_pool_acquire_seconds_count" [("outcome", "ok")]) (delta "ticketing_db_pool_acquire_seconds_count" [("outcome", "error")])
            (histogram_p95 start fin "ticketing_db_pool_acquire_seconds" [("outcome", "ok")])
            ((fun l => (l, delta "ticketing_db_errors_total" [("type", l)])) <$> ["55P03"; "40P01"; "deadlock"; "lock_not_available"])
            ((fun op => (op, delta "ticketing_worker_busy_seconds_total" [("operation", op)])) <$> OPERATIONS)
            ((fun op => (op, max_sample samples "ticketing_worker_active" [("operation", op)])) <$> OPERATIONS)
            (delta "ticketing_cache_rows_total" [("mode", "full")]) (delta "ticketing_cache_rows_total" [("mode", "patch")])
            ((fun k => (k, max_sample samples "ticketing_db_pool_state" [("state", k)])) <$> ["pool_size"; "pool_in_use"; "pool_acquiring"])))
      | Raise e, _ => Raise e
      | _, Raise e => Raise e
      end
  | _ => Ok None
  end.
End capacity.

(** * What the metric reports show

    [summarize_capacity.py] reads the buckets of a histogram as Prometheus exports them, already cumulative: the bound
    it reports is the least one under which 95% of the observations fall.  [summarize_seatmap_load.py] adds the same
    buckets up once more, so the sum it compares with is dominated by the [+Inf] bucket and the report is empty. *)

(** ** Sorted buckets *)

#[global] Instance bucket_le_total : Total bucket_le.
Proof. intros [[a |] u] [[b |] v]; unfold bucket_le; simpl; auto; lia. Qed.

#[global] Instance bucket_le_trans : Transitive bucket_le.
Proof. intros [[a |] u] [[b |] v] [[c |] w]; unfold bucket_le; simpl; auto; try lia; tauto. Qed.

Lemma sorted_buckets_perm m : sorted_buckets m ≡ₚ map_to_list m.
Proof. apply merge_sort_Permutation. Qed.

Lemma sorted_buckets_sorted m : StronglySorted bucket_le (sorted_buckets m).
Proof. apply (StronglySorted_merge_sort bucket_le). Qed.

Lemma elem_of_sorted_buckets m b v : (b, v) ∈ sorted_buckets m <-> m !! b = Some v.
Proof. rewrite sorted_buckets_perm. apply elem_of_map_to_list. Qed.

Lemma sorted_app_le (l1 l2 : list (option Z * Z)) x y : StronglySorted bucket_le (l1 ++ x :: l2) -> y ∈ l2 -> bucket_le x y.
Proof.
  intros S Y. induction l1 as [| z l1 IH]; simpl in S; apply StronglySorted_inv in S as [S F]; [| by apply IH].
  rewrite Forall_forall in F. by apply F.
Qed.

(** The [+Inf] bucket comes last. *)
Lemma sorted_buckets_inf m n : m !! None = Some n -> exists l, sorted_buckets m = l ++ [(None, n)] /\ Forall (fun bv => bv.1 <> None /\ m !! bv.1 = Some bv.2) l.
Proof.
  intros H. destruct (list_elem_of_split _ _ (proj2 (elem_of_sorted_buckets m None n) H)) as (l & l' & E).
  pose proof (sorted_buckets_sorted m) as S. pose proof (NoDup_fst_map_to_list m) as N.
  rewrite <- (sorted_buckets_perm m) in N. rewrite E in S, N. rewrite fmap_app, fmap_cons in N. simpl in N.
  apply NoDup_app in N as (_ & N1 & N2). apply NoDup_cons in N2 as [N2 _].
  destruct l' as [| [b v] l'].
  - exists l. split; [done |]. rewrite Forall_forall. intros [b v] I. split.
    + simpl. intros ->. apply (N1 None); [| by left]. apply list_elem_of_fmap. by exists (None, v).
    + apply elem_of_sorted_buckets. rewrite E. apply elem_of_app. by left.
  - destruct N2. assert (B : bucket_le (None, n) (b, v)) by (eapply sorted_app_le; [exact S | left]).
    destruct b; [destruct B | left].
Qed.

(** ** 95% of a count *)

(** The rounded test is the exact one, on the counts a run can reach. *)
Lemma reaches_p95_spec count v : 0 < count < 2 ^ 40 -> reaches_p95 count v = true -> 19 * count <= 20 * v.
Proof.
  unfold reaches_p95. intros H R. apply Z.leb_le in R. simpl in R.
  pose proof (round53_error (count * p95.(dy_mantissa)) ltac:(simpl; lia)) as E. simpl in E. lia.
Qed.

Lemma reaches_p95_all count : 0 < count -> reaches_p95 count count = true.
Proof.
  unfold reaches_p95. intros H. apply Z.leb_le. simpl.
  pose proof (round53_error (count * p95.(dy_mantissa)) ltac:(simpl; lia)) as E. simpl in E. lia.
Qed.

(** A part that is at most 18/19 of the whole does not reach it. *)
Lemma reaches_p95_small n part S : 0 < n -> part <= S -> 0 <= S <= 18 * n -> reaches_p95 (S + n) part = false.
Proof.
  unfold reaches_p95. intros H P Q. apply Z.leb_gt. simpl.
  pose proof (round53_error ((S + n) * p95.(dy_mantissa)) ltac:(simpl; lia)) as E. simpl in E. lia.
Qed.

(** ** summarize_capacity *)

Lemma first_reaching_least count l b : StronglySorted bucket_le l -> first_reaching count l = Some b ->
  exists v, (b, v) ∈ l /\ reaches_p95 count v = true /\ forall b' v', (b', v') ∈ l -> reaches_p95 count v' = true -> bound_le b b'.
Proof.
  unfold first_reaching. induction l as [| [b0 v0] l IH]; intros S E; [done |].
  apply StronglySorted_inv in S as [S F]. rewrite filter_cons in E. case_decide as D; simpl in *.
  - injection E as <-. exists v0. split_and!; [by left | done |]. intros b' v' [[= -> ->] | I]%elem_of_cons _.
    + by destruct b0; simpl.
    + rewrite Forall_forall in F. exact (F _ I).
  - destruct (IH S E) as (v & I & R & M). exists v. split_and!; [by right | done |].
    intros b' v' [[= -> ->] | I']%elem_of_cons R'; [done | by eapply M].
Qed.

Lemma first_reaching_some count l b v : (b, v) ∈ l -> reaches_p95 count v = true -> is_Some (first_reaching count l).
Proof.
  unfold first_reaching. intros I R. assert (F : (b, v) ∈ filter (fun bv : option Z * Z => reaches_p95 count bv.2 = true) l) by (by apply list_elem_of_filter).
  destruct (filter _ l) as [| x f]; [by apply elem_of_nil in F | by exists x.1].
Qed.

(** The bound reported covers 95% of the observations, every lower one fewer. *)
Theorem upper_p95_least parse delta prefix wanted b :
  0 < metric_total delta (prefix +:+ "_count") wanted < 2 ^ 40 -> upper_p95 parse delta prefix wanted = Ok (Some b) ->
  exists m v, bucket_totals parse delta prefix wanted = Ok m /\ m !! b = Some v /\
    19 * metric_total delta (prefix +:+ "_count") wanted <= 20 * v /\
    forall b' v', m !! b' = Some v' -> ~ bound_le b b' -> reaches_p95 (metric_total delta (prefix +:+ "_count") wanted) v' = false.
Proof.
  unfold upper_p95. set (n := metric_total _ _ _). intros H. rewrite (proj2 (Z.eqb_neq n 0)) by lia.
  destruct (bucket_totals _ _ _ _) as [m |]; [| done]. intros [= E].
  destruct (first_reaching_least n _ b (sorted_buckets_sorted m) E) as (v & I & R & M).
  exists m, v. split_and!; [done | by apply elem_of_sorted_buckets | by apply reaches_p95_spec |].
  intros b' v' L B. destruct (reaches_p95 n v') eqn:R'; [| done]. destruct B. eapply M; [| exact R']. by apply elem_of_sorted_buckets.
Qed.

(** A histogram whose [+Inf] bucket counts every observation has a bound to report. *)
Lemma upper_p95_some parse delta prefix wanted m :
  0 < metric_total delta (prefix +:+ "_count") wanted -> bucket_totals parse delta prefix wanted = Ok m ->
  m !! None = Some (metric_total delta (prefix +:+ "_count") wanted) -> exists b, upper_p95 parse delta prefix wanted = Ok (Some b).
Proof.
  unfold upper_p95. set (n := metric_total _ _ _). intros H -> L. rewrite (proj2 (Z.eqb_neq n 0)) by lia.
  destruct (first_reaching_some n (sorted_buckets m) None n) as [b ->]; [by apply elem_of_sorted_buckets | by apply reaches_p95_all | by exists b].
Qed.

(** ** summarize_seatmap_load *)

Lemma bucket_sum_app l1 l2 : bucket_sum (l1 ++ l2) = bucket_sum l1 + bucket_sum l2.
Proof. unfold bucket_sum. induction l1; simpl; [lia | rewrite IHl1; lia]. Qed.

Lemma bucket_sum_bounds n l : Forall (fun bv : option Z * Z => 0 <= bv.2 <= n) l -> 0 <= bucket_sum l <= n * Z.of_nat (length l).
Proof. unfold bucket_sum. induction 1; simpl; lia. Qed.

Lemma cumulate_skips total c l n : (forall part, part <= c + bucket_sum l -> reaches_p95 total part = false) ->
  Forall (fun bv => 0 <= bv.2) l -> cumulate total c (l ++ [(None, n)]) = None.
Proof.
  intros R F. revert c R. induction F as [| [b v] l H F IH]; intros c R; simpl in *; [by case_match |].
  assert (0 <= bucket_sum l) by (clear -F; unfold bucket_sum; induction F; simpl in *; lia).
  unfold bucket_sum in *. rewrite R by (simpl; lia). apply IH. intros part P. apply R. simpl. lia.
Qed.

(** The percentile of a cumulative histogram of at most nineteen buckets is never reported. *)
Lemma histogram_p95_never parse start fin prefix wanted n : let m := bucket_deltas parse start fin prefix wanted in
  m !! None = Some n -> map_Forall (fun _ v => 0 < v <= n) m -> (size m <= 19)%nat -> histogram_p95 parse start fin prefix wanted = None.
Proof.
  intros m L B K. unfold histogram_p95. fold m. destruct (sorted_buckets_inf m n L) as (l & E & F).
  assert (N : 0 < n) by (destruct (B _ _ L); done).
  assert (P : Forall (fun bv : option Z * Z => 0 <= bv.2 <= n) l).
  { eapply Forall_impl; [exact F |]. intros [b v] [_ Q]. specialize (B b v Q). simpl in *. lia. }
  assert (Z : (length l <= 18)%nat).
  { pose proof (Permutation_length (sorted_buckets_perm m)) as Q. rewrite length_map_to_list, E, length_app in Q. simpl in Q. lia. }
  pose proof (bucket_sum_bounds n l P) as S. rewrite E. case_match; [done |]. apply cumulate_skips.
  - intros part Q. rewrite bucket_sum_app. replace (bucket_sum [(None, n)]) with n by (unfold bucket_sum; simpl; lia).
    apply reaches_p95_small; [done | lia | nia].
  - eapply Forall_impl; [exact P |]. intros x ?. simpl in *. lia.
Qed.

(** A scrape of twenty queries, all within 5 ms: one report shows the bound, the other nothing. *)
Definition two_bounds : bound_parser := fun text => if bool_decide (text = "0.005") then Some (Some 5) else if bool_decide (text = "+Inf") then Some None else None.
Definition bucket_row (le : string) (n : Z) : gmap string string * Z := (<["le" := le]> {["__name__" := "q_bucket"]}, n).
Definition scraped : list (gmap string string * Z) := [bucket_row "0.005" 20; bucket_row "+Inf" 20; ({["__name__" := "q_count"]}, 20)].

Lemma reports_disagree : upper_p95 two_bounds (deltas ∅ (series scraped)) "q" [] = Ok (Some (Some 5)) /\ histogram_p95 two_bounds ∅ (series scraped) "q" [] = None.
Proof. by split; vm_compute. Qed.
