(* ===== verification/StageRuns.v ===== *)
(** * Load staircases

    [scripts/cloud_mixed_stages.py] raises the rate of the parallel load until a stage fails and selects the last rate
    that passed; [scripts/private_cloud_stages.py] does the same with one generator process.  A stage's child process is
    the runner of [ParallelLoad], or the generator of [LoadGenerator], in that stage's surroundings; the stages take
    their seats at different offsets of one fixture. *)

From S2P Require Import Prelude LoadGenerator ParallelLoad.

#[local] Open Scope Z_scope.

(** The exit code of a script that ended so. *)
Definition exit_code {A} (o : outcome A) : Z :=
  match o with Ok _ => 0 | Raise (PyError "SystemExit" "2") => 2 | Raise _ => 1 end.

(** ** cloud_mixed_stages *)

Record stage_row : Type := StageRow { sr_rate : Z; sr_seat_offset : Z; sr_exit_code : Z; sr_pass : bool }.

(** [report]: the stages that ran, and the rate selected. *)
Record mixed_report : Type := MixedReport { mx_stages : list stage_row; mx_selected_soak_rps : option Z }.

(** The command line of a stage: 300 seconds of mixed holds from four workers, which start 30 seconds later. *)
Definition mixed_args (rate offset : Z) : parallel_args := ParallelArgs rate 300 4 offset false true false false true 1 0 (seconds 30).

(** What a stage meets; [None] when it is not over after 420 seconds, and [subprocess.run] kills it. *)
Record stage_env : Type := StageEnv { se_now : Z; se_stale : nat -> bool; se_surroundings : nat -> surroundings; se_started : nat -> Z }.

Section mixed.
Context (canonical : string -> option string) (m : manifest) (env : Z -> option stage_env).

(** The child's exit code and the gate of its summary, when it wrote one. *)
Definition mixed_child (a : parallel_args) (e : stage_env) : Z * option bool :=
  let o := (parallel_run canonical a m e.(se_now) e.(se_stale) e.(se_surroundings) e.(se_started)).2 in
  (exit_code o, match o with Ok s => Some s.(sm_workload_gate_pass) | Raise _ => None end).

Definition run_stage (rate : Z) : M mixed_report bool :=
  offset ← gets (fun r => Z.of_nat (length r.(mx_stages)) * 40);
  e ← or_raise (env rate) (PyError "TimeoutExpired" "420 seconds");
  let '(code, gate) := mixed_child (mixed_args rate offset) e in
  let passed := (code =? 0) && bool_decide (gate = Some true) in
  _ ← modify (fun r => MixedReport (r.(mx_stages) ++ [StageRow rate offset code passed]) (if passed then Some rate else r.(mx_selected_soak_rps)));
  mret passed.

(** [for rate in rates: if not run(rate): break] *)
Fixpoint climb (rates : list Z) : M mixed_report unit :=
  match rates with
  | [] => mret tt
  | rate :: rest => passed ← run_stage rate; if (passed : bool) then climb rest else mret tt
  end.

(** [for rate in rates: if run(rate): break] *)
Fixpoint descend (rates : list Z) : M mixed_report unit :=
  match rates with
  | [] => mret tt
  | rate :: rest => passed ← run_stage rate; if (passed : bool) then mret tt else descend rest
  end.

Definition cloud_mixed_stages : M mixed_report unit :=
  _ ← climb [400; 500; 600; 800];
  selected ← gets mx_selected_soak_rps;
  _ ← (if bool_decide (selected = None) then descend [200; 100] else mret tt);
  selected ← gets mx_selected_soak_rps;
  raise_if (bool_decide (selected = None)) (PyError "SystemExit" "1").
End mixed.

(** ** private_cloud_stages *)

Definition PRIVATE_RATES : list Z := [100; 200; 400; 800; 1200; 1600].

(** [manifest["seat_offset"] = 10 + index * 40] *)
Definition stage_manifest (m : manifest) (index : nat) : manifest :=
  Manifest m.(mf_schema_version) m.(mf_environment) m.(mf_expires_at) m.(mf_origin) m.(mf_show_ids) m.(mf_viewer_tokens)
    m.(mf_hot_show_id) (10 + Z.of_nat index * 40) m.(mf_seats_per_show) m.(mf_hot_hold_show_id) m.(mf_hot_hold_seat).

Definition private_args (m : manifest) (rate : Z) : arguments := Arguments_ m.(mf_origin) rate 180 64 false false false false 1 0 None false.

Section private.
Context (canonical : string -> option string) (m : manifest) (su : nat -> surroundings) (started : nat -> Z).

Definition private_child (index : nat) (rate : Z) : Z :=
  (worker_process canonical (private_args m rate) (stage_manifest m index) (su index) (started index)).1.

(** The stages that ran, with the exit code of each: those below the start rate are passed over, and the first failure ends the run. *)
Fixpoint private_stages (start_rate : Z) (index : nat) (rates : list Z) : list (nat * Z * Z) :=
  match rates with
  | [] => []
  | rate :: rest =>
      if rate <? start_rate then private_stages start_rate (S index) rest
      else let code := private_child index rate in
           (index, rate, code) :: (if code =? 0 then private_stages start_rate (S index) rest else [])
  end.

Definition private_cloud_stages (start_rate : Z) : list (nat * Z * Z) := private_stages start_rate 0 PRIVATE_RATES.
End private.
