(* ===== verification/StageRunFacts.v ===== *)
(** * What the staircases show

    The rate a staircase selects is the highest that passed and lies below every rate that failed, and the stage run at
    it passed the gates of the load runner.  Stages keep out of each other's seats as long as no show gets more holds in
    a stage than the offsets are apart. *)

From S2P Require Import Prelude LoadGenerator LoadFacts ParallelLoad ParallelFacts StageRuns.

#[local] Open Scope Z_scope.

(** ** The selected rate *)

Section mixed.
Context (canonical : string -> option string) (m : manifest) (env : Z -> option stage_env).

(** The stage run at a rate passed: the runner exited with success. *)
Definition stage_passed (rate offset : Z) : Prop := exists e ls s, env rate = Some e /\
  parallel_run canonical (mixed_args rate offset) m e.(se_now) e.(se_stale) e.(se_surroundings) e.(se_started) = (ls, Ok s).

Lemma exit_code_zero {A} (o : outcome A) : exit_code o = 0 -> exists x, o = Ok x.
Proof. destruct o as [x | e]; [by exists x |]. simpl. by repeat case_match. Qed.

Lemma run_stage_inv rate r r' p : run_stage canonical m env rate r = (r', Ok p) ->
  exists code, r' = MixedReport (r.(mx_stages) ++ [StageRow rate (Z.of_nat (length r.(mx_stages)) * 40) code p]) (if p then Some rate else r.(mx_selected_soak_rps))
    /\ (p = true -> stage_passed rate (Z.of_nat (length r.(mx_stages)) * 40)).
Proof.
  unfold run_stage, stage_passed, mixed_child, mbind, M_bind, gets, or_raise, modify, mret, M_ret, raise. simpl.
  destruct (env rate) as [e |]; [| done]. destruct (parallel_run _ _ _ _ _ _ _) as [ls o] eqn:E. simpl.
  intros [= <- <-]. eexists. split; [reflexivity |]. intros [Z0%Z.eqb_eq _]%andb_prop.
  destruct (exit_code_zero o Z0) as [s ->]. exists e, ls, s. done.
Qed.

(** A report of the staircase: seats are taken 40 further up in every stage, a passing row is a stage that passed,
    and the selected rate separates the rates that passed from those that failed. *)
Record staircase (r : mixed_report) : Prop := Staircase {
  sc_offsets : sr_seat_offset <$> r.(mx_stages) = (fun i => Z.of_nat i * 40) <$> seq 0 (length r.(mx_stages));
  sc_passed : forall row, row ∈ r.(mx_stages) -> row.(sr_pass) = true -> stage_passed row.(sr_rate) row.(sr_seat_offset);
  sc_selected : forall rate, r.(mx_selected_soak_rps) = Some rate ->
    (exists row, row ∈ r.(mx_stages) /\ row.(sr_rate) = rate /\ row.(sr_pass) = true)
    /\ forall row, row ∈ r.(mx_stages) -> if row.(sr_pass) then row.(sr_rate) <= rate else rate < row.(sr_rate);
  sc_none : r.(mx_selected_soak_rps) = None -> forall row, row ∈ r.(mx_stages) -> row.(sr_pass) = false;
}.

(** A stage keeps a staircase one, when its rate is above those that passed and below those that failed. *)
Lemma run_stage_staircase rate r r' p : staircase r ->
  (forall row, row ∈ r.(mx_stages) -> if row.(sr_pass) then row.(sr_rate) < rate else rate < row.(sr_rate)) ->
  run_stage canonical m env rate r = (r', Ok p) ->
  staircase r' /\ (p = true -> r'.(mx_selected_soak_rps) = Some rate) /\ (p = false -> r'.(mx_selected_soak_rps) = r.(mx_selected_soak_rps))
  /\ exists row, row.(sr_rate) = rate /\ row.(sr_pass) = p /\ r'.(mx_stages) = r.(mx_stages) ++ [row].
Proof.
  intros [S1 S2 S3 S4] B (code & -> & P)%run_stage_inv. split; [| split; [by intros -> | split; [by intros -> |]]].
  2: { eexists. split_and!; [| | reflexivity]; done. }
  split; simpl.
  - rewrite fmap_app, S1, length_app, seq_app, fmap_app. done.
  - intros row [I | ->%list_elem_of_singleton]%elem_of_app Q; [by apply S2 | by apply P].
  - intros rate' E. destruct p; simplify_eq.
    + split; [eexists; split_and!; [by apply elem_of_app; right; left | done | done] |].
      intros row [I | ->%list_elem_of_singleton]%elem_of_app; simpl; [| lia]. specialize (B row I). case_match; lia.
    + destruct (S3 _ E) as [(row0 & I0 & R0 & P0) S3']. split; [exists row0; split_and!; [by apply elem_of_app; left | done | done] |].
      intros row [I | ->%list_elem_of_singleton]%elem_of_app; simpl; [by apply S3' |]. specialize (B row0 I0). rewrite P0 in B. lia.
  - intros E row [I | ->%list_elem_of_singleton]%elem_of_app; simpl; destruct p; try done. by apply S4.
Qed.

Lemma climb_staircase rates r r' : StronglySorted Z.lt rates -> staircase r ->
  (forall row, row ∈ r.(mx_stages) -> row.(sr_pass) = true /\ Forall (fun rate => row.(sr_rate) < rate) rates) ->
  climb canonical m env rates r = (r', Ok tt) ->
  staircase r' /\ (r'.(mx_selected_soak_rps) = None -> forall low, Forall (Z.lt low) rates -> forall row, row ∈ r'.(mx_stages) -> low < row.(sr_rate)).
Proof.
  revert r. induction rates as [| rate rates IH]; intros r S H B; simpl.
  { unfold mret, M_ret. intros [= <-]. split; [done |]. intros E low _ row I. destruct (B row I) as [P _]. by rewrite (sc_none _ H E row I) in P. }
  apply StronglySorted_inv in S as [S F]. unfold mbind, M_bind. destruct (run_stage _ _ _ _ r) as [r1 [p | e]] eqn:E; [| done].
  destruct (run_stage_staircase rate r r1 p H) as (H1 & Pt & Pf & row1 & R1 & P1 & L1); [| done |].
  { intros row I. destruct (B row I) as [-> Q]. by apply Forall_cons in Q as [? _]. }
  destruct p.
  - intros C. destruct (IH r1 S H1) as [H2 N2]; [| done |].
    { intros row. rewrite L1. intros [I | ->%list_elem_of_singleton]%elem_of_app.
      - destruct (B row I) as [-> Q]. by apply Forall_cons in Q as [_ ?].
      - rewrite P1, R1. done. }
    split; [done |]. intros E2 low Q. apply N2; [done |]. by apply Forall_cons in Q as [_ ?].
  - unfold mret, M_ret. intros [= <-]. split; [done |]. intros E2 low Q row. rewrite L1. apply Forall_cons in Q as [Q _].
    intros [I | ->%list_elem_of_singleton]%elem_of_app; [| lia]. rewrite (Pf eq_refl) in E2. destruct (B row I) as [P _]. by rewrite (sc_none _ H E2 row I) in P.
Qed.

Lemma descend_staircase rates r r' : StronglySorted (flip Z.lt) rates -> staircase r -> r.(mx_selected_soak_rps) = None ->
  (forall row, row ∈ r.(mx_stages) -> Forall (fun rate => rate < row.(sr_rate)) rates) -> descend canonical m env rates r = (r', Ok tt) -> staircase r'.
Proof.
  revert r. induction rates as [| rate rates IH]; intros r S H N B; simpl; [by intros [= <-] |].
  apply StronglySorted_inv in S as [S F]. unfold mbind, M_bind. destruct (run_stage _ _ _ _ r) as [r1 [p | e]] eqn:E; [| done].
  destruct (run_stage_staircase rate r r1 p H) as (H1 & Pt & Pf & row1 & R1 & P1 & L1); [| done |].
  { intros row I. rewrite (sc_none _ H N row I). by destruct (proj1 (Forall_cons _ _ _) (B row I)). }
  destruct p; [by intros [= <-] |]. apply IH; [done | done | by rewrite Pf |].
  intros row. rewrite L1. intros [I | ->%list_elem_of_singleton]%elem_of_app; [by destruct (proj1 (Forall_cons _ _ _) (B row I)) |]. by rewrite R1.
Qed.

Lemma empty_staircase : staircase (MixedReport [] None).
Proof. split; simpl; [done | by intros row I%elem_of_nil | done | by intros _ row I%elem_of_nil]. Qed.

(** A staircase that ends with success has selected a rate whose stage passed the gates of the load runner; every stage
    that passed ran at most at that rate, every stage that failed above it; and the stages' seats start 40 apart. *)
Theorem staircase_selects r : cloud_mixed_stages canonical m env (MixedReport [] None) = (r, Ok tt) ->
  exists rate row, r.(mx_selected_soak_rps) = Some rate /\ row ∈ r.(mx_stages) /\ row.(sr_rate) = rate /\ stage_passed rate row.(sr_seat_offset)
    /\ (forall row', row' ∈ r.(mx_stages) -> if row'.(sr_pass) then row'.(sr_rate) <= rate else rate < row'.(sr_rate))
    /\ sr_seat_offset <$> r.(mx_stages) = (fun i => Z.of_nat i * 40) <$> seq 0 (length r.(mx_stages)).
Proof.
  unfold cloud_mixed_stages, mbind, M_bind, gets. destruct (climb _ _ _ _ _) as [r1 [[] | e]] eqn:C; [| done].
  apply climb_staircase in C as [H1 N1]; [| repeat constructor; lia | exact empty_staircase | by intros row I%elem_of_nil].
  assert (Q : forall r2, staircase r2 -> (r2, Ok tt) = (r, Ok tt) -> r2.(mx_selected_soak_rps) <> None -> exists rate row,
    r.(mx_selected_soak_rps) = Some rate /\ row ∈ r.(mx_stages) /\ row.(sr_rate) = rate /\ stage_passed rate row.(sr_seat_offset)
    /\ (forall row', row' ∈ r.(mx_stages) -> if row'.(sr_pass) then row'.(sr_rate) <= rate else rate < row'.(sr_rate))
    /\ sr_seat_offset <$> r.(mx_stages) = (fun i => Z.of_nat i * 40) <$> seq 0 (length r.(mx_stages))).
  { intros r2 H [= <-] E. destruct (mx_selected_soak_rps r2) as [rate |] eqn:S; [| done].
    destruct (sc_selected _ H rate S) as [(row & I & R & P) B]. exists rate, row. split_and!; [done | done | done | | done | apply H].
    rewrite <- R. by apply H. }
  case_bool_decide as D.
  - destruct (descend _ _ _ _ r1) as [r2 [[] | e]] eqn:E; [| done].
    apply descend_staircase in E; [| repeat constructor; unfold flip; lia | done | done |].
    2: { intros row I. repeat constructor; eapply N1; try done; repeat constructor; lia. }
    unfold raise_if. case_bool_decide; [done |]. intros X. eapply Q; [exact E | exact X | done].
  - simpl. unfold raise_if. rewrite bool_decide_eq_false_2 by done. intros X. eapply Q; [exact H1 | exact X | done].
Qed.

(** Stages that end within their time make the script end, with the stages of 400, 200 and 100 requests a second failed
    when it fails. *)
Theorem staircase_fails r e : (forall rate, is_Some (env rate)) -> cloud_mixed_stages canonical m env (MixedReport [] None) = (r, Raise e) ->
  e = PyError "SystemExit" "1" /\ sr_rate <$> r.(mx_stages) = [400; 200; 100] /\ Forall (fun row => row.(sr_pass) = false) r.(mx_stages).
Proof.
  intros H. assert (T : forall rate s, exists r' p, run_stage canonical m env rate s = (r', Ok p)).
  { intros rate s. destruct (H rate) as [x E]. unfold run_stage, mbind, M_bind, gets, or_raise, modify, mret, M_ret. rewrite E. simpl. by do 2 eexists. }
  unfold cloud_mixed_stages. cbn [climb descend]. unfold mbind, M_bind, gets, mret, M_ret, raise_if.
  repeat match goal with |- context [run_stage ?c ?m ?v ?rate ?s] =>
    destruct (T rate s) as (? & [] & E); rewrite E; apply run_stage_inv in E as (? & -> & _); simpl end; try done.
  intros [= <- <-]. simpl. split_and!; [done | done | repeat constructor].
Qed.
End mixed.

(** ** Seats of different stages *)

(** The ordinary holds of a workload for one show. *)
Definition taken (show : string) (l : list item) : nat := length (filter (fun it => ordinary it /\ it.(i_show) = show) l).

Lemma taken_cons show it l : taken show (it :: l) = ((if decide (ordinary it /\ it.(i_show) = show) then 1 else 0) + taken show l)%nat.
Proof. unfold taken. rewrite filter_cons. by case_decide. Qed.

(** A show's seats are taken one after the other. *)
Lemma allocate_all_upper mf mixed draws focus index plan counts l :
  allocate_all mf mixed draws focus index plan counts = Ok l ->
  forall it, it ∈ l -> ordinary it -> it.(i_seat) < mf.(mf_seat_offset) + count_of counts it.(i_show) + Z.of_nat (taken it.(i_show) l).
Proof.
  revert index counts l. induction plan as [| [due phase] plan IH]; intros index counts l; simpl.
  { intros [= <-] it I. by apply elem_of_nil in I. }
  destruct (allocate _ _ _ _ _ _ _ _) as [[it0 counts'] | e] eqn:A; [| done].
  destruct (allocate_all _ _ _ _ _ _ _) as [l' | e] eqn:L; [| done]. intros [= <-] it I O.
  apply allocate_cases in A as [_ A]. rewrite taken_cons. apply elem_of_cons in I as [-> | I].
  - destruct A as [(_ & S & _) | (N & _)]; [| done]. rewrite decide_True by done. lia.
  - specialize (IH _ _ _ L it I O). destruct A as [(O0 & _ & _ & _ & C & _) | (N & -> & _)]; [| case_decide; lia].
    rewrite C in IH. unfold count_of in *. destruct (decide (i_show it0 = i_show it)) as [Q | Q].
    + rewrite Q, lookup_insert_eq in IH. rewrite decide_True by done. simpl in IH. lia.
    + rewrite lookup_insert_ne in IH by done. case_decide; lia.
Qed.

(** Two stages at offsets 40 apart share no seat, if the first takes at most 40 of any show. *)
Lemma offsets_apart mf1 mf2 mixed1 mixed2 draws1 draws2 focus1 focus2 plan1 plan2 l1 l2 it1 it2 :
  allocate_all mf1 mixed1 draws1 focus1 0 plan1 ∅ = Ok l1 -> allocate_all mf2 mixed2 draws2 focus2 0 plan2 ∅ = Ok l2 ->
  mf1.(mf_seat_offset) + 40 <= mf2.(mf_seat_offset) -> (taken it1.(i_show) l1 <= 40)%nat ->
  it1 ∈ l1 -> it2 ∈ l2 -> ordinary it1 -> ordinary it2 -> (it1.(i_show), it1.(i_seat)) <> (it2.(i_show), it2.(i_seat)).
Proof.
  intros A1 A2 B K I1 I2 O1 O2 [= _ E]. pose proof (allocate_all_upper _ _ _ _ _ _ _ _ A1 it1 I1 O1) as U.
  destruct (allocation_disjoint _ _ _ _ _ _ A2) as (_ & _ & D & _). destruct (D it2 I2 O2) as [D2 _].
  unfold count_of in U. rewrite lookup_empty in U. simpl in U. lia.
Qed.

(** The stages of a private staircase, in order of their place, with every one before the last passed. *)
Lemma private_stages_order canonical m su started start_rate index rates rows :
  private_stages canonical m su started start_rate index rates = rows ->
  StronglySorted (fun x y => (x.1.1 < y.1.1)%nat) rows /\ Forall (fun x => (index <= x.1.1)%nat) rows /\
  forall k x, rows !! k = Some x -> (S k < length rows)%nat -> x.2 = 0.
Proof.
  revert index rows. induction rates as [| rate rates IH]; intros index rows <-; simpl; [split_and!; [constructor | constructor | done] |].
  destruct (IH (S index) _ eq_refl) as (S1 & F1 & Z1). destruct (rate <? start_rate).
  { split_and!; [done | eapply Forall_impl; [exact F1 |]; simpl; lia | done]. }
  destruct (private_child _ _ _ _ _ _ =? 0) eqn:E.
  - split_and!; [by constructor; [| eapply Forall_impl; [exact F1 |]; simpl; lia] | constructor; [done | eapply Forall_impl; [exact F1 |]; simpl; lia] |].
    intros [| k] x; simpl; [intros [= <-] _; by apply Z.eqb_eq | intros H K; apply (Z1 k); [done | lia]].
  - split_and!; [repeat constructor | repeat constructor |]. intros [| k] x; simpl; [lia | done].
Qed.

(** Different stages of a private staircase never ask for the same seat, as long as no show gets more than 40 holds in
    a stage. *)
Theorem private_stages_disjoint m su i j rate_i rate_j li lj it1 it2 : (i < j)%nat ->
  allocate_all (stage_manifest m i) false (su i).(su_draws) (su i).(su_focus) 0 (arrival_plan rate_i 180 false) ∅ = Ok li ->
  allocate_all (stage_manifest m j) false (su j).(su_draws) (su j).(su_focus) 0 (arrival_plan rate_j 180 false) ∅ = Ok lj ->
  (taken it1.(i_show) li <= 40)%nat -> it1 ∈ li -> it2 ∈ lj -> ordinary it1 -> ordinary it2 ->
  (it1.(i_show), it1.(i_seat)) <> (it2.(i_show), it2.(i_seat)).
Proof. intros L Hi Hj. apply (offsets_apart _ _ _ _ _ _ _ _ _ _ _ _ _ _ Hi Hj). simpl. lia. Qed.
