(* ===== verification/Reports.v ===== *)
(** * Reports from structured logs

    [scripts/summarize_slow_db_phases.py], [extract_capacity_api_errors.py], [summarize_hold_diagnostics.py],
    [summarize_ingress.py], [summarize_drain_trace.py], [summarize_refresh_pipeline.py] and the parser of
    [kafka_lag_observe.py].  A line is what [json.loads] makes of it, [None] when it raises; numbers are in millionths
    and finite.  [str] of a value that is not a string is a parameter. *)

From S2P Require Import Prelude CapacityStage LoadGenerator.

#[local] Open Scope Z_scope.

(** ** Documents and bounded collections *)

(** [doc.get(key)] of a dictionary *)
Definition field (key : string) (doc : json) : json := match doc with JObj l => member key l | _ => JNull end.
Definition is_str (v : json) (s : string) : bool := match v with JStr t => bool_decide (t = s) | _ => false end.

(** [isinstance(v, (int, float))], which a boolean satisfies. *)
Definition number (v : json) : option Z := match v with JNum n => Some n | JBool b => Some (if b then 1000000 else 0) | _ => None end.

(** [v in names] of a frozenset: a list or a dictionary has no hash. *)
Definition in_names (v : json) (names : list string) : outcome bool :=
  match v with
  | JStr s => Ok (bool_decide (s ∈ names))
  | JArr _ | JObj _ => Raise (PyError "TypeError" "unhashable type")
  | _ => Ok false
  end.

(** [append] of a [deque(maxlen=limit)] *)
Definition push_last {A} (limit : nat) (x : A) (l : list A) : list A := drop (S (length l) - limit) (l ++ [x]).

(** [if len(l) < limit: l.append(x)] *)
Definition push_first {A} (limit : nat) (x : A) (l : list A) : list A := if (length l <? limit)%nat then l ++ [x] else l.

Fixpoint fold_rows {R S} (f : R -> S -> outcome S) (rows : list R) (s : S) : outcome S :=
  match rows with
  | [] => Ok s
  | row :: rest => obind (f row s) (fold_rows f rest)
  end.

(** ** summarize_slow_db_phases *)

Record slow_event : Type := SlowEvent { sv_time : option string; sv_phase : string; sv_outcome : string; sv_duration : Z }.

Record slow_report : Type := SlowReport {
  sl_counts : gmap string nat;
  sl_longest : gmap string slow_event;
  sl_latest : list slow_event;
  sl_malformed : nat;
}.

Definition slow_start : slow_report := SlowReport ∅ ∅ [] 0.

(** A line: of no interest, malformed, or an event. *)
Inductive slow_row : Type := Other | Malformed | Slow (e : slow_event).

Definition slow_row_of (line : option json) : outcome slow_row :=
  match line with
  | Some (JObj l) =>
      if is_str (member "event" l) "slow_db_phase" then
        let phase := member "phase" l in
        let result := member "outcome" l in
        obind (in_names phase ["commit"; "pool_return"]) (fun known_phase =>
        if negb known_phase then Ok Malformed
        else obind (in_names result ["ok"; "error"]) (fun known_outcome =>
        match phase, result, member "duration_ms" l with
        | JStr p, JStr o, JNum d =>
            if negb known_outcome || (d <? 100 * 1000000) then Ok Malformed
            else Ok (Slow (SlowEvent (match member "time" l with JStr t => Some t | _ => None end) p o d))
        | _, _, _ => Ok Malformed
        end))
      else Ok Other
  | _ => Ok Other
  end.

Definition count_slow (limit : nat) (r : slow_row) (s : slow_report) : slow_report :=
  match r with
  | Other => s
  | Malformed => SlowReport s.(sl_counts) s.(sl_longest) s.(sl_latest) (S s.(sl_malformed))
  | Slow e =>
      SlowReport (incr (e.(sv_phase) +:+ "|" +:+ e.(sv_outcome)) s.(sl_counts))
        (if default 0 (sv_duration <$> s.(sl_longest) !! e.(sv_phase)) <? e.(sv_duration) then <[e.(sv_phase) := e]> s.(sl_longest) else s.(sl_longest))
        (push_last limit e s.(sl_latest)) s.(sl_malformed)
  end.

Definition slow_db_phases (limit : nat) (lines : list (option json)) : outcome slow_report :=
  fold_rows (fun line s => obind (slow_row_of line) (fun r => Ok (count_slow limit r s))) lines slow_start.

(** The argument check of this script and the next. *)
Definition limit_ok (limit : Z) : bool := (1 <=? limit) && (limit <=? 100).

Section texts.
Context (py_str : json -> string).

(** ** extract_capacity_api_errors *)

Definition DB_FAILURE_TYPES : list string := ["PoolTimeout"; "TooManyRequests"; "OperationalError"; "QueryCanceled"].

(** [{key: record.get(key) for key in keys}] *)
Definition pick (keys : list string) (doc : json) : list (string * json) := (fun key => (key, field key doc)) <$> keys.

Record api_errors : Type := ApiErrors {
  ae_requests : nat;
  ae_codes : gmap string nat;
  ae_causes : gmap string nat;
  ae_examples : list (list (string * json) * option string);
}.

Definition api_error_line (limit : nat) (line : option json) (s : api_errors) : api_errors :=
  match line with
  | Some (JObj l) =>
      if is_str (member "message" l) "request" then
        let code := member "error_code" l in
        if truthy code then
          let cause := match member "db_failure_type" l with JStr c => if bool_decide (c ∈ DB_FAILURE_TYPES) then Some c else None | _ => None end in
          ApiErrors (S s.(ae_requests)) (incr (py_str code) s.(ae_codes)) (match cause with Some c => incr c s.(ae_causes) | None => s.(ae_causes) end)
            (push_last limit (pick ["time"; "request_id"; "route"; "status"; "error_code"; "duration_ms"] (JObj l), cause) s.(ae_examples))
        else ApiErrors (S s.(ae_requests)) s.(ae_codes) s.(ae_causes) s.(ae_examples)
      else s
  | _ => s
  end.

Definition capacity_api_errors (limit : nat) (lines : list (option json)) : api_errors :=
  foldl (fun s line => api_error_line limit line s) (ApiErrors 0 ∅ ∅ []) lines.

(** The script fails when it saw no request. *)
Definition api_errors_exit (s : api_errors) : Z := if (s.(ae_requests) =? 0)%nat then 1 else 0.

(** ** summarize_hold_diagnostics *)

Definition HOLD_PHASES : list string := ["dispatch"; "rate_limit"; "redis_enter"; "db_enter"; "database_body"; "db_exit"; "redis_exit"].

(** What is kept of a request: the picked fields and its known phases. *)
Record safe_row : Type := SafeRow { sf_fields : list (string * json); sf_timing : list (string * Z) }.

(** An entry of the heap: the duration, the number of the request, and the row.  Numbers differ, so rows are never compared. *)
Abbreviation slow_hold := (Z * nat * safe_row)%type (only parsing).

Definition hold_before (x y : slow_hold) : Prop := x.1.1 < y.1.1 \/ (x.1.1 = y.1.1 /\ (x.1.2 <= y.1.2)%nat).
#[global] Instance hold_before_dec x y : Decision (hold_before x y).
Proof. unfold hold_before. apply _. Defined.

(** [heappush], the heap listed from its least entry. *)
Fixpoint heap_push (x : slow_hold) (h : list slow_hold) : list slow_hold :=
  match h with
  | [] => [x]
  | y :: rest => if decide (hold_before x y) then x :: y :: rest else y :: heap_push x rest
  end.

(** The twenty slowest: the least entry is popped when there are more. *)
Definition push_slowest (x : slow_hold) (h : list slow_hold) : list slow_hold :=
  let h' := heap_push x h in
  if (20 <? length h')%nat then tail h' else h'.

Record hold_report : Type := HoldReport {
  hr_count : nat;
  hr_request_errors : gmap string nat;
  hr_read_errors : list (list (string * json));
  hr_statuses : gmap string nat;
  hr_codes : gmap string nat;
  hr_phases : gmap string (list Z);
  hr_rejected : list safe_row;
  hr_slowest : list slow_hold;
}.

Definition hold_start : hold_report := HoldReport 0 ∅ [] ∅ ∅ ∅ [] [].

(** [{k: v for k, v in timing.items() if k in PHASES and isinstance(v, (int, float))}] *)
Definition hold_timing (doc : json) : list (string * Z) :=
  match doc with
  | JObj l => omap (fun kv => if bool_decide (kv.1 ∈ HOLD_PHASES) then (fun n => (kv.1, n)) <$> number kv.2 else None) l
  | _ => []
  end.

(** The part of the loop for every request. *)
Definition count_request (row : json) (s : hold_report) : hold_report :=
  let code := field "error_code" row in
  HoldReport s.(hr_count)
    (if truthy code then incr (py_str code) s.(hr_request_errors) else s.(hr_request_errors))
    (if is_str (field "route" row) "/v1/events/{event_id}/availability" && truthy code
     then push_first 20 (pick ["time"; "request_id"; "status"; "error_code"; "duration_ms"] row) s.(hr_read_errors) else s.(hr_read_errors))
    s.(hr_statuses) s.(hr_codes) s.(hr_phases) s.(hr_rejected) s.(hr_slowest).

Definition safe_of (row : json) : safe_row :=
  SafeRow (pick ["time"; "request_id"; "status"; "duration_ms"; "error_code"; "hold_arrival_occupancy"; "hold_limit"] row) (hold_timing (field "hold_phase_ms" row)).

(** The part for holds only. *)
Definition count_hold (row : json) (s : hold_report) : hold_report :=
  let count := S s.(hr_count) in
  let status := py_str (field "status" row) in
  let code := field "error_code" row in
  let ok := bool_decide (status = "201") in
  let safe := safe_of row in
  HoldReport count s.(hr_request_errors) s.(hr_read_errors) (incr status s.(hr_statuses))
    (match code with JStr c => incr c s.(hr_codes) | _ => s.(hr_codes) end)
    (if ok then foldl (fun m kv => append kv.1 kv.2 m) s.(hr_phases) safe.(sf_timing) else s.(hr_phases))
    (if truthy code then push_first 100 safe s.(hr_rejected) else s.(hr_rejected))
    (match number (field "duration_ms" row) with
     | Some d => if ok then push_slowest (d, count, safe) s.(hr_slowest) else s.(hr_slowest)
     | None => s.(hr_slowest)
     end).

Definition hold_line (line : option json) (s : hold_report) : hold_report :=
  match line with
  | Some (JObj l) =>
      if is_str (member "message" l) "request" then
        let s := count_request (JObj l) s in
        if is_str (member "route" l) "/v1/holds" then count_hold (JObj l) s else s
      else s
  | _ => s
  end.

(** The sum, the percentiles and the maximum of the successful holds' times in a phase. *)
Record phase_summary : Type := PhaseSummary { ps_count : nat; ps_sum : Z; ps_p95 : option Z; ps_p99 : option Z; ps_max : option Z }.

Definition phase_summary_of (values : list Z) : phase_summary :=
  PhaseSummary (length values) (foldr Z.add 0 values) (percentile values p95) (percentile values p99) (last (sort_values values)).

Definition hold_diagnostics (lines : list (option json)) : hold_report * gmap string phase_summary * list safe_row :=
  let s := foldl (fun s line => hold_line line s) hold_start lines in
  (s, phase_summary_of <$> s.(hr_phases), snd <$> reverse s.(hr_slowest)).
End texts.

(** ** summarize_drain_trace and summarize_refresh_pipeline *)

(** A row of a trace: no dictionary, a failed sample, or its time and the counters it has,
    integers in the unit of each.  Observers stamp every sample. *)
Inductive trace_row : Type := NotDict | Failed | Sample (utc : string) (fields : gmap string Z).

Definition valid_samples (rows : list trace_row) : list (string * gmap string Z) :=
  omap (fun r => match r with Sample utc fields => Some (utc, fields) | _ => None end) rows.
Definition failed_samples (rows : list trace_row) : nat := length (omap (fun r => match r with Failed => Some tt | _ => None end) rows).

(** [[sample for sample in valid if name in sample]], with the value *)
Definition measured (name : string) (l : list (string * gmap string Z)) : list (string * Z) := omap (fun s => (fun v => (s.1, v)) <$> s.2 !! name) l.

(** [max(rows, key=..)]: the first of the greatest. *)
Fixpoint peak_from (best : string * Z) (l : list (string * Z)) : string * Z :=
  match l with
  | [] => best
  | x :: rest => peak_from (if best.2 <? x.2 then x else best) rest
  end.

(** [next((row for row in rows if row["utc"] > peak["utc"] and value == 0), None)] *)
Definition drained_after (peak : string * Z) (l : list (string * Z)) : option (string * Z) :=
  head (filter (fun x => x.2 = 0) (filter (fun x => String.ltb peak.1 x.1 = true) l)).

Section times.
Context (iso : string -> option Z).

(** [datetime.fromisoformat] *)
Definition fromisoformat (text : string) : outcome Z := match iso text with Some t => Ok t | None => Raise (PyError "ValueError" "Invalid isoformat string") end.

Definition drain_seconds (peak : string * Z) (l : list (string * Z)) : outcome (option Z) :=
  match drained_after peak l with
  | None => Ok None
  | Some d => obind (fromisoformat d.1) (fun t1 => obind (fromisoformat peak.1) (fun t0 => Ok (Some (t1 - t0))))
  end.

Definition DRAIN_FIELDS : list string :=
  ["overdue_active_holds"; "oldest_overdue_seconds"; "pending_refresh"; "oldest_refresh_seconds"; "unpublished_outbox"; "dead_letters"].

Record peak_report : Type := PeakReport { pk_max : Z; pk_utc : string; pk_last : Z }.

Definition peak_report_of (l : list (string * Z)) : option peak_report :=
  match l with
  | [] => None
  | x :: rest => let peak := peak_from x rest in Some (PeakReport peak.2 peak.1 (default x (last l)).2)
  end.

Record drain_report : Type := DrainReport {
  dp_samples : nat;
  dp_errors : nat;
  dp_first_utc : string;
  dp_last_utc : string;
  dp_fields : list (string * peak_report);
  dp_drain : option (option Z);
}.

Definition drain_trace (rows : list trace_row) : outcome drain_report :=
  let valid := valid_samples rows in
  match valid with
  | [] => Raise (PyError "ValueError" "No valid backend samples")
  | first :: _ =>
      let report drain := DrainReport (length valid) (failed_samples rows) first.1 (default first (last valid)).1
        (omap (fun name => (fun p => (name, p)) <$> peak_report_of (measured name valid)) DRAIN_FIELDS) drain in
      match measured "overdue_active_holds" valid with
      | [] => Ok (report None)
      | x :: rest => obind (drain_seconds (peak_from x rest) (x :: rest)) (fun d => Ok (report (Some d)))
      end
  end.

(** [_delta_rate]: the growth of a counter, and the time it took; fewer than two measurements give neither. *)
Definition delta_rate (l : list (string * gmap string Z)) (name : string) : outcome (option (Z * option Z)) :=
  match measured name l with
  | x :: y :: rest =>
      let z := default y (last (y :: rest)) in
      obind (fromisoformat z.1) (fun t1 => obind (fromisoformat x.1) (fun t0 =>
      Ok (Some (Z.max 0 (z.2 - x.2), if 0 <? t1 - t0 then Some (t1 - t0) else None))))
  | _ => Ok None
  end.

(** [int(row.get(name, 0))] *)
Definition get_zero (name : string) (s : string * gmap string Z) : Z := default 0 (s.2 !! name).
Definition with_zero (name : string) (l : list (string * gmap string Z)) : list (string * Z) := (fun s => (s.1, get_zero name s)) <$> l.
Definition max_zero (name : string) (x : string * gmap string Z) (l : list (string * gmap string Z)) : Z := foldr (fun s n => Z.max (get_zero name s) n) (get_zero name x) l.

Record pipeline_report : Type := PipelineReport {
  pl_backend_samples : nat;
  pl_backend_errors : nat;
  pl_kafka_samples : nat;
  pl_kafka_errors : nat;
  pl_lag : peak_report;
  pl_max_partition_lag : Z;
  pl_drain : option Z;
  pl_members : Z;
  pl_rates : list (string * option (Z * option Z));
  pl_pending_last : Z;
  pl_pending_max : Z;
  pl_oldest_refresh_max : Z;
}.

Fixpoint rates_of (l : list (string * gmap string Z)) (names : list string) : outcome (list (string * option (Z * option Z))) :=
  match names with
  | [] => Ok []
  | name :: rest => obind (delta_rate l name) (fun r => obind (rates_of l rest) (fun rs => Ok ((name, r) :: rs)))
  end.

Definition refresh_pipeline (backend_rows kafka_rows : list trace_row) : outcome pipeline_report :=
  let backend := valid_samples backend_rows in
  let kafka := valid_samples kafka_rows in
  match backend, kafka with
  | b :: bs, k :: ks =>
      let lag := with_zero "total_lag" kafka in
      let peak := peak_from (k.1, get_zero "total_lag" k) (with_zero "total_lag" ks) in
      obind (drain_seconds peak lag) (fun drain =>
      obind (rates_of backend ["refresh_generation_total"; "refresh_completed_generation_total"; "outbox_rows_inserted"; "consumer_inbox_rows_inserted"]) (fun rates =>
      Ok (PipelineReport (length backend) (length backend_rows - length backend) (length kafka) (length kafka_rows - length kafka)
        (PeakReport peak.2 peak.1 (get_zero "total_lag" (default k (last kafka))))
        (max_zero "max_partition_lag" k ks) drain (max_zero "members" k ks) rates
        (get_zero "pending_refresh" (default b (last backend))) (max_zero "pending_refresh" b bs) (max_zero "oldest_refresh_seconds" b bs))))
  | _, _ => Raise (PyError "ValueError" "Backend and Kafka traces both need valid samples")
  end.
End times.

(** ** kafka_lag_observe *)

(** Partitions of a consumer group. *)
Record partition : Type := Partition { pt_topic : string; pt_partition : Z; pt_current : Z; pt_end : Z; pt_lag : Z }.

Record lag_report : Type := LagReport { lg_total : Z; lg_max : Z; lg_assigned : nat; lg_members : nat; lg_partitions : list partition }.

Section describe.
Context (int_of : string -> option Z).

Definition cell_of (row : list string) (pos : nat) : option string := row !! pos.

(** [header.index(name)] *)
Definition header_index (header : list string) (name : string) : outcome nat :=
  match list_find (fun x => x = name) header with Some (i, _) => Ok i | None => Raise (PyError "ValueError" "is not in list") end.

Definition is_header (row : list string) : bool := bool_decide ("TOPIC" ∈ row /\ "PARTITION" ∈ row /\ "LAG" ∈ row).

Record columns : Type := Columns { co_topic : nat; co_partition : nat; co_current : nat; co_end : nat; co_lag : nat; co_member : nat }.

Definition columns_of (header : list string) : outcome columns :=
  obind (header_index header "TOPIC") (fun t => obind (header_index header "PARTITION") (fun p =>
  obind (header_index header "CURRENT-OFFSET") (fun c => obind (header_index header "LOG-END-OFFSET") (fun e =>
  obind (header_index header "LAG") (fun l => obind (header_index header "CONSUMER-ID") (fun m => Ok (Columns t p c e l m))))))).

(** A row of the table; one that is too short or has no numbers is skipped, one without a topic raises. *)
Definition partition_row (c : columns) (row : list string) (acc : list partition * gset string) : outcome (list partition * gset string) :=
  match cell_of row c.(co_current) ≫= int_of, cell_of row c.(co_end) ≫= int_of, cell_of row c.(co_lag) ≫= int_of,
        cell_of row c.(co_partition) ≫= int_of, cell_of row c.(co_member) with
  | Some current, Some fin, Some lag, Some part, Some member =>
      match cell_of row c.(co_topic) with
      | Some topic => Ok (acc.1 ++ [Partition topic part current fin lag], if bool_decide (member = "-") then acc.2 else {[member]} ∪ acc.2)
      | None => Raise (PyError "IndexError" "list index out of range")
      end
  | _, _, _, _, _ => Ok acc
  end.

(** [rows]: the words of each line that is not blank. *)
Definition parse_describe (rows : list (list string)) : outcome lag_report :=
  match list_find (fun row => is_header row = true) rows with
  | None => Raise (PyError "ValueError" "Consumer-group describe header not found")
  | Some (i, header) =>
      obind (columns_of header) (fun c =>
      obind (fold_rows (partition_row c) (drop (S i) rows) ([], ∅)) (fun acc =>
      match acc.1 with
      | [] => Raise (PyError "ValueError" "No assigned consumer-group partitions in describe output")
      | p :: rest => Ok (LagReport (foldr (fun q n => q.(pt_lag) + n) 0 acc.1) (foldr (fun q n => Z.max q.(pt_lag) n) p.(pt_lag) rest)
                           (length acc.1) (size acc.2) acc.1)
      end))
  end.
End describe.

(** [except (OSError, subprocess.SubprocessError, ValueError)] *)
Definition lag_catches : exn -> bool := instance_of (OSErrors ++ ["SubprocessError"; "CalledProcessError"; "TimeoutExpired"] ++ ValueErrors).

(** A sample of the observer: the parsed table, or the type of the error that [docker] or the parser raised. *)
Definition lag_sample (int_of : string -> option Z) (described : outcome (list (list string))) : outcome (lag_report + string) :=
  match obind described (parse_describe int_of) with
  | Ok r => Ok (inl r)
  | Raise e => if lag_catches e then Ok (inr (match e with PyError t _ => t | _ => "" end)) else Raise e
  end.
