(* ===== verification/ReportFacts.v ===== *)
(** * What the log reports show

    The reports keep bounded examples and count everything else: the last events of a log, the slowest twenty holds, the
    peak of a trace and the sample after which it was back at zero. *)

From S2P Require Import Prelude CapacityStage LoadGenerator LoadFacts Reports.

#[local] Open Scope Z_scope.

(** ** The last entries *)

Definition last_n {A} (n : nat) (l : list A) : list A := drop (length l - n) l.

Lemma push_last_n {A} n (x : A) l : push_last n x (last_n n l) = last_n n (l ++ [x]).
Proof.
  unfold push_last, last_n. rewrite length_drop, length_app. simpl.
  destruct (decide (length l <= n)%nat) as [L | L].
  - replace (length l - n)%nat with 0%nat by lia. rewrite drop_0. f_equal. lia.
  - replace (S (length l - (length l - n)) - n)%nat with 1%nat by lia.
    rewrite <- (drop_app_le l [x]) by lia. rewrite drop_drop. f_equal. lia.
Qed.

Lemma last_n_length {A} n (l : list A) : length (last_n n l) = Nat.min n (length l).
Proof. unfold last_n. rewrite length_drop. lia. Qed.

(** ** Slow database phases *)

Definition slow_events (rows : list slow_row) : list slow_event := omap (fun r => match r with Slow e => Some e | _ => None end) rows.
Definition malformed_rows (rows : list slow_row) : nat := length (omap (fun r => match r with Malformed => Some tt | _ => None end) rows).

(** The rows of a log, or the exception that reading it raised. *)
Fixpoint rows_of (lines : list (option json)) : outcome (list slow_row) :=
  match lines with
  | [] => Ok []
  | line :: rest => obind (slow_row_of line) (fun r => obind (rows_of rest) (fun rs => Ok (r :: rs)))
  end.

Lemma slow_db_phases_rows limit lines s : fold_rows (fun line s => obind (slow_row_of line) (fun r => Ok (count_slow limit r s))) lines s =
  obind (rows_of lines) (fun rows => Ok (foldl (fun s r => count_slow limit r s) s rows)).
Proof.
  revert s. induction lines as [| line lines IH]; intros s; simpl; [done |].
  destruct (slow_row_of line) as [r | e]; simpl; [| done]. rewrite IH. by destruct (rows_of lines).
Qed.

(** The longest events per phase: one of the events, and none of its phase is longer. *)
Definition longest_of (events : list slow_event) (m : gmap string slow_event) : Prop :=
  (forall p e, m !! p = Some e -> e ∈ events /\ e.(sv_phase) = p) /\
  (forall e, e ∈ events -> exists e', m !! e.(sv_phase) = Some e' /\ e.(sv_duration) <= e'.(sv_duration)).

Lemma longest_of_step events m e : 0 < e.(sv_duration) -> longest_of events m ->
  longest_of (events ++ [e]) (if default 0 (sv_duration <$> m !! e.(sv_phase)) <? e.(sv_duration) then <[e.(sv_phase) := e]> m else m).
Proof.
  intros P [L1 L2]. destruct (_ <? _) eqn:E.
  - split.
    + intros p x. destruct (decide (p = sv_phase e)) as [-> | N]; [rewrite lookup_insert_eq | rewrite lookup_insert_ne by done].
      * intros [= <-]. split; [by apply elem_of_app; right; left | done].
      * intros H. destruct (L1 p x H) as [I Q]. split; [by apply elem_of_app; left | done].
    + intros x [I | ->%list_elem_of_singleton]%elem_of_app; [| exists e; by rewrite lookup_insert_eq].
      destruct (L2 x I) as (y & Y & D). destruct (decide (sv_phase x = sv_phase e)) as [Q | N].
      * exists e. rewrite Q, lookup_insert_eq. split; [done |]. rewrite <- Q, Y in E. simpl in E. lia.
      * exists y. by rewrite lookup_insert_ne.
  - split.
    + intros p x H. destruct (L1 p x H) as [I Q]. split; [by apply elem_of_app; left | done].
    + intros x [I | ->%list_elem_of_singleton]%elem_of_app; [by apply L2 |].
      destruct (m !! sv_phase e) as [y |] eqn:Y; simpl in E; [| lia]. exists y. split; [done | lia].
Qed.

Lemma slow_row_positive line e : slow_row_of line = Ok (Slow e) -> 100 * 1000000 <= e.(sv_duration).
Proof.
  unfold slow_row_of, obind. repeat case_match; intros; simplify_eq; simpl; bool_hyps; try lia.
  all: match goal with H : _ || _ = false |- _ => apply orb_false_iff in H as [_ H]; lia end.
Qed.

Lemma rows_positive lines rows : rows_of lines = Ok rows -> Forall (fun e => 100 * 1000000 <= e.(sv_duration)) (slow_events rows).
Proof.
  revert rows. induction lines as [| line lines IH]; intros rows; simpl; [intros [= <-]; constructor |].
  destruct (slow_row_of line) as [r | e] eqn:E; [| done]. destruct (rows_of lines) as [rs | e]; [| done]. intros [= <-].
  unfold slow_events. simpl. destruct r; try by apply IH. constructor; [by eapply slow_row_positive | by apply IH].
Qed.

Lemma count_slow_fold limit rows : Forall (fun e => 0 < e.(sv_duration)) (slow_events rows) ->
  let s := foldl (fun s r => count_slow limit r s) slow_start rows in
  s.(sl_latest) = last_n limit (slow_events rows) /\ s.(sl_malformed) = malformed_rows rows /\
  counter_total s.(sl_counts) = length (slow_events rows) /\ longest_of (slow_events rows) s.(sl_longest).
Proof.
  induction rows as [| r rows IH] using rev_ind; intros F; simpl.
  { split_and!; [done | done | done |]. split; [done | by intros e I%elem_of_nil]. }
  unfold slow_events, malformed_rows in *. rewrite !omap_app in *. rewrite foldl_app. simpl.
  apply Forall_app in F as [F1 F2]. destruct (IH F1) as (A & B & C & D). clear IH.
  destruct r as [| | e]; simpl in *; rewrite ?app_nil_r, ?length_app; simpl.
  - split_and!; [done | lia | lia | done].
  - split_and!; [done | lia | lia | done].
  - split_and!; [by rewrite A, push_last_n | lia | rewrite counter_total_incr; lia |].
    apply longest_of_step; [exact (Forall_inv F2) | exact D].
Qed.

(** The report of the slow phases: the last events in order, at most as many as asked for; every event counted, every
    malformed one counted apart; and for each phase an event that none of that phase outlasts. *)
Theorem slow_db_phases_spec limit lines s : slow_db_phases limit lines = Ok s -> exists rows, rows_of lines = Ok rows /\
  s.(sl_latest) = last_n limit (slow_events rows) /\ s.(sl_malformed) = malformed_rows rows /\
  counter_total s.(sl_counts) = length (slow_events rows) /\ longest_of (slow_events rows) s.(sl_longest).
Proof.
  unfold slow_db_phases. rewrite slow_db_phases_rows. destruct (rows_of lines) as [rows | e] eqn:R; [| done]. intros [= <-].
  exists rows. split; [done |]. apply count_slow_fold. eapply Forall_impl; [by eapply rows_positive |]. intros e ?. simpl in *. lia.
Qed.

(** ** The slowest holds *)

#[global] Instance hold_before_trans : Transitive hold_before.
Proof. intros x y z [? | [? ?]] [? | [? ?]]; unfold hold_before; lia. Qed.

Lemma hold_before_total x y : hold_before x y \/ hold_before y x.
Proof. unfold hold_before. lia. Qed.

Lemma heap_push_perm x h : heap_push x h ≡ₚ x :: h.
Proof. induction h as [| y h IH]; simpl; [done |]. case_decide; [done |]. rewrite IH. apply Permutation_swap. Qed.

Lemma heap_push_sorted x h : StronglySorted hold_before h -> StronglySorted hold_before (heap_push x h).
Proof.
  induction 1 as [| y h S IH F]; simpl; [repeat constructor |]. case_decide as D.
  - constructor; [by constructor |]. constructor; [done |]. eapply Forall_impl; [exact F |]. intros z Z. by transitivity y.
  - constructor; [done |]. rewrite heap_push_perm. constructor; [by destruct (hold_before_total x y) | done].
Qed.

(** The heap holds the greatest entries of those pushed: what was dropped comes before all of it. *)
Definition slowest_of (all h : list (Z * nat * safe_row)) : Prop :=
  StronglySorted hold_before h /\ length h = Nat.min 20 (length all) /\
  exists dropped, all ≡ₚ h ++ dropped /\ forall d x, d ∈ dropped -> x ∈ h -> hold_before d x.

Lemma push_slowest_spec all h x : slowest_of all h -> slowest_of (all ++ [x]) (push_slowest x h).
Proof.
  intros (S & L & dropped & P & B). unfold push_slowest, slowest_of.
  pose proof (heap_push_perm x h) as Q. pose proof (heap_push_sorted x h S) as S'.
  pose proof (Permutation_length Q) as LQ. simpl in LQ. pose proof (Permutation_length P) as LP. rewrite length_app in LP.
  rewrite length_app. cbn [length]. destruct (20 <? length (heap_push x h))%nat eqn:K.
  - apply Nat.ltb_lt in K. destruct (heap_push x h) as [| y h'] eqn:E; [done |]. cbn [length tail] in *.
    apply StronglySorted_inv in S' as [S' F]. rewrite Forall_forall in F.
    split_and!; [done | lia |]. exists (y :: dropped). split.
    { rewrite P. etransitivity; [| apply Permutation_middle]. rewrite <- (app_assoc h), (Permutation_app_comm dropped), app_assoc.
      change (y :: h' ++ dropped) with ((y :: h') ++ dropped). rewrite Q. apply Permutation_app_tail. by rewrite Permutation_app_comm. }
    intros d z [-> | I]%elem_of_cons Z; [by apply F |].
    assert (Y : y ∈ x :: h) by (rewrite <- Q; by left). apply elem_of_cons in Y as [-> | Y].
    + apply B; [done |]. apply Permutation_cons_inv in Q. by rewrite <- Q.
    + transitivity y; [by apply B | by apply F].
  - apply Nat.ltb_ge in K. assert (D : dropped = []) by (apply length_zero_iff_nil; lia). subst dropped. rewrite app_nil_r in P.
    split_and!; [done | lia |]. exists []. split; [| by intros d z I%elem_of_nil].
    by rewrite app_nil_r, Q, P, (Permutation_app_comm h [x]).
Qed.

Section diagnostics.
Context (py_str : json -> string).

Definition is_hold (line : option json) : option json :=
  match line with
  | Some (JObj l) => if is_str (member "message" l) "request" && is_str (member "route" l) "/v1/holds" then Some (JObj l) else None
  | _ => None
  end.

(** The successful holds with a duration, each numbered by its place among the holds after the first [n]. *)
Fixpoint timed_holds (n : nat) (lines : list (option json)) : list (Z * nat * safe_row) :=
  match lines with
  | [] => []
  | line :: rest =>
      match is_hold line with
      | Some row =>
          match number (field "duration_ms" row) with
          | Some d => if bool_decide (py_str (field "status" row) = "201") then [(d, S n, safe_of row)] else []
          | None => []
          end ++ timed_holds (S n) rest
      | None => timed_holds n rest
      end
  end.

Lemma timed_holds_app n l1 l2 : timed_holds n (l1 ++ l2) = timed_holds n l1 ++ timed_holds (n + length (omap is_hold l1)) l2.
Proof.
  revert n. induction l1 as [| line l1 IH]; intros n; simpl; [by rewrite Nat.add_0_r |].
  destruct (is_hold line) as [row |] eqn:E; simpl; rewrite IH; [| done]. by rewrite Nat.add_succ_r, app_assoc.
Qed.

Lemma push_first_bound {A} n (x : A) l : (length l <= n)%nat -> (length (push_first n x l) <= n)%nat.
Proof. unfold push_first. case_match eqn:E; rewrite ?length_app; simpl; [apply Nat.ltb_lt in E |]; lia. Qed.

(** The diagnostics of the holds count each of them once, list at most 20 failed reads and 100 rejected holds, and the
    slowest twenty of the successful ones: none of the others took longer. *)
Theorem hold_diagnostics_spec lines : let s := (hold_diagnostics py_str lines).1.1 in
  s.(hr_count) = length (omap is_hold lines) /\ counter_total s.(hr_statuses) = s.(hr_count) /\
  (length s.(hr_read_errors) <= 20)%nat /\ (length s.(hr_rejected) <= 100)%nat /\ slowest_of (timed_holds 0 lines) s.(hr_slowest).
Proof.
  unfold hold_diagnostics. cbn [fst]. induction lines as [| line lines IH] using rev_ind.
  { split_and!; simpl; try done; try lia. split; [constructor |]. split; [done |]. by exists []; split; [| intros d x I%elem_of_nil]. }
  rewrite foldl_app, omap_app, length_app, timed_holds_app. destruct IH as (A & B & C & D & E).
  set (s := foldl _ _ _) in *. rewrite <- A. cbn [foldl]. unfold hold_line. cbn [omap timed_holds list_omap]. unfold is_hold.
  destruct line as [[| | | | | l] |]; cbn [length]; rewrite ?app_nil_r; try (split_and!; [lia | done..]).
  destruct (is_str (member "message" l) "request"); cbn [andb length]; rewrite ?app_nil_r; [| split_and!; [lia | done..]].
  assert (C' : (length (hr_read_errors (count_request py_str (JObj l) s)) <= 20)%nat).
  { unfold count_request. cbn [hr_read_errors]. case_match; [by apply push_first_bound | done]. }
  destruct (is_str (member "route" l) "/v1/holds"); cbn [length]; rewrite ?app_nil_r; [| split_and!; [cbn; lia | done | done | done | done]].
  unfold count_hold. cbn [hr_count hr_statuses hr_read_errors hr_rejected hr_slowest]. split_and!.
  - cbn. lia.
  - rewrite counter_total_incr. cbn. by rewrite B.
  - done.
  - case_match; [by apply push_first_bound | done].
  - change (hr_count (count_request py_str (JObj l) s)) with (hr_count s). change (hr_slowest (count_request py_str (JObj l) s)) with (hr_slowest s).
    cbn [Nat.add]. destruct (number _); [| by rewrite app_nil_r]. case_bool_decide; rewrite ?app_nil_r; [by apply push_slowest_spec | done].
Qed.
End diagnostics.

(** ** API errors *)

Definition is_request (line : option json) : option json :=
  match line with Some (JObj l) => if is_str (member "message" l) "request" then Some (JObj l) else None | _ => None end.
Definition is_error (line : option json) : option json :=
  match is_request line with Some row => if truthy (field "error_code" row) then Some row else None | None => None end.

(** The report of the API's errors counts every request and every error, and shows the last errors in order. *)
Theorem capacity_api_errors_spec py_str limit lines : let s := capacity_api_errors py_str limit lines in
  s.(ae_requests) = length (omap is_request lines) /\ counter_total s.(ae_codes) = length (omap is_error lines) /\
  s.(ae_examples).*1 = last_n limit (pick ["time"; "request_id"; "route"; "status"; "error_code"; "duration_ms"] <$> omap is_error lines) /\
  (api_errors_exit s = 0 <-> omap is_request lines <> []).
Proof.
  set (f := pick _). intros s. enough (H : s.(ae_requests) = length (omap is_request lines) /\ counter_total s.(ae_codes) = length (omap is_error lines)
    /\ exists all, s.(ae_examples) = last_n limit all /\ all.*1 = f <$> omap is_error lines).
  { destruct H as (A & B & all & C & D). split_and!; [done | done | |].
    - rewrite C. unfold last_n. by rewrite fmap_drop, <- D, length_fmap.
    - unfold api_errors_exit. rewrite A. destruct (omap is_request lines); simpl; split; done. }
  subst s. unfold capacity_api_errors. induction lines as [| line lines IH] using rev_ind.
  { split_and!; [done | done |]. by exists []. }
  rewrite foldl_app, !omap_app, !length_app. cbn [foldl]. destruct IH as (A & B & all & C & D). set (s := foldl _ _ _) in *.
  rewrite <- A, <- B. unfold api_error_line. cbn [omap list_omap]. unfold is_error, is_request in *.
  assert (K : (ae_requests s = ae_requests s + 0)%nat /\ (counter_total (ae_codes s) = counter_total (ae_codes s) + 0)%nat) by lia.
  destruct line as [[| | | | | l] |]; cbn [length]; rewrite ?app_nil_r; try (destruct K; split_and!; [done | done | by exists all]).
  destruct (is_str (member "message" l) "request"); cbn [length]; rewrite ?app_nil_r; [| destruct K; split_and!; [done | done | by exists all]].
  change (field "error_code" (JObj l)) with (member "error_code" l). destruct (truthy (member "error_code" l)); cbn [length ae_requests ae_codes ae_examples]; rewrite ?app_nil_r.
  - rewrite counter_total_incr. split_and!; [lia | lia |]. eexists (all ++ [_]). rewrite C, push_last_n. split; [reflexivity |]. rewrite !fmap_app, D. done.
  - split_and!; [lia | lia | by exists all].
Qed.

(** ** Traces *)

Lemma peak_from_spec best l : peak_from best l ∈ best :: l /\ forall x, x ∈ best :: l -> x.2 <= (peak_from best l).2.
Proof.
  revert best. induction l as [| y l IH]; intros best; simpl; [by split; [left | intros x ->%list_elem_of_singleton] |].
  destruct (IH (if best.2 <? y.2 then y else best)) as [I M]. split.
  - apply elem_of_cons in I as [-> | I]; [case_match; [by right; left | by left] | by do 2 right].
  - intros x [-> | [-> | X]%elem_of_cons]%elem_of_cons; [| | by apply M; right];
      (etransitivity; [| apply M; by left]); case_match eqn:E; lia.
Qed.

(** The reported drain is the time from the greatest sample to a later one at zero. *)
Theorem drain_trace_sound iso rows r d : drain_trace iso rows = Ok r -> r.(dp_drain) = Some (Some d) ->
  let l := measured "overdue_active_holds" (valid_samples rows) in
  exists peak zero t0 t1, peak ∈ l /\ (forall x, x ∈ l -> x.2 <= peak.2) /\ zero ∈ l /\ zero.2 = 0 /\ String.ltb peak.1 zero.1 = true /\
    iso peak.1 = Some t0 /\ iso zero.1 = Some t1 /\ d = t1 - t0.
Proof.
  unfold drain_trace. destruct (valid_samples rows) as [| first valid]; [done |]. destruct (measured _ _) as [| x l] eqn:E; [by intros [= <-] |].
  unfold drain_seconds. destruct (drained_after _ _) as [zero |] eqn:Z; [| by intros [= <-]].
  unfold fromisoformat. destruct (iso zero.1) as [t1 |] eqn:I1; [| done]. simpl. destruct (iso (peak_from x l).1) as [t0 |] eqn:I0; [| done].
  intros [= <-] [= <-]. destruct (peak_from_spec x l) as [P M]. exists (peak_from x l), zero, t0, t1.
  unfold drained_after in Z. apply head_Some_elem_of in Z. apply list_elem_of_filter in Z as [Z0 [Z1 Z2]%list_elem_of_filter]. split_and!; done.
Qed.

(** ** Consumer lag *)

(** The total is between the greatest lag and that many times the partitions; it is zero exactly when every partition is. *)
Lemma describe_lag int_of rows r : parse_describe int_of rows = Ok r -> Forall (fun p => 0 <= p.(pt_lag)) r.(lg_partitions) ->
  r.(lg_max) <= r.(lg_total) <= r.(lg_max) * Z.of_nat r.(lg_assigned) /\ (r.(lg_total) = 0 <-> Forall (fun p => p.(pt_lag) = 0) r.(lg_partitions)).
Proof.
  unfold parse_describe. destruct (list_find _ _) as [[i header] |]; [| done]. destruct (columns_of header) as [c | e]; [| done]. simpl.
  destruct (fold_rows _ _ _) as [[[| p l] ms] | e]; [done | | done]. intros [= <-]. simpl. intros [P F]%Forall_cons.
  assert (H : let s := foldr (fun q n => pt_lag q + n) 0 l in let mx := foldr (fun q n => Z.max (pt_lag q) n) (pt_lag p) l in
    0 <= s /\ pt_lag p <= mx <= pt_lag p + s /\ s <= mx * Z.of_nat (length l) /\ (s = 0 <-> Forall (fun q => pt_lag q = 0) l)).
  { induction F as [| q l Q F IH]; simpl; [split_and!; try lia; by split |]. destruct IH as (A & B & C & D). split_and!; [lia | lia | lia | nia |].
    rewrite Forall_cons, <- D. lia. }
  destruct H as (A & B & C & D). split; [nia |]. rewrite Forall_cons, <- D. lia.
Qed.

(** A phase that is a list is not counted as malformed: the report ends with an exception. *)
Lemma slow_phase_unhashable limit l l' : is_str (member "event" l) "slow_db_phase" = true -> member "phase" l = JArr l' ->
  forall lines, slow_db_phases limit (Some (JObj l) :: lines) = Raise (PyError "TypeError" "unhashable type").
Proof. intros E P lines. unfold slow_db_phases. simpl. by rewrite E, P. Qed.
