(* ===== verification/WalProbe.v ===== *)
(** * The commit probes

    [scripts/wal_path_probe.py] commits the same inserts over two paths to the database and compares them;
    [scripts/wal_pid_probe.py] samples what the backends wait for while they commit.  Both create a table of their own and
    drop it at the end.  Answers of the database and measured times, in microseconds, are parameters; a statement that
    raises may have taken effect. *)

From S2P Require Import Prelude CapacityStage LoadGenerator.

#[local] Open Scope Z_scope.

(** [psycopg.Error] *)
Definition psycopg_error (e : exn) : bool := match e with DbError _ | OperationalError => true | _ => false end.

(** [except (psycopg.Error, RuntimeError, OSError, ValueError)] *)
Definition probe_catches (e : exn) : bool := psycopg_error e || instance_of (RuntimeErrors ++ OSErrors ++ ValueErrors) e.

(** A statement: its outcome, and whether it took effect although it raised. *)
Record statement (A : Type) : Type := Statement { sm_result : outcome A; sm_applied : bool }.
Arguments Statement {A} _ _.
Arguments sm_result {A} _.
Arguments sm_applied {A} _.

Definition took_effect {A} (s : statement A) : bool := match s.(sm_result) with Ok _ => true | Raise _ => s.(sm_applied) end.

(** The probe's table, the rows committed to it, the connections that are open, and the fields of the report that decide. *)
Record wal_state : Type := WalState {
  wl_table : bool;
  wl_rows : list Z;
  wl_open : nat;
  wl_created : bool;
  wl_error : option exn;
  wl_cleanup_pass : bool;
  wl_cleanup_error : option exn;
}.

Definition wal_start : wal_state := WalState false [] 0 false None false None.

Definition set_table (b : bool) (s : wal_state) : wal_state :=
  WalState b s.(wl_rows) s.(wl_open) s.(wl_created) s.(wl_error) s.(wl_cleanup_pass) s.(wl_cleanup_error).
Definition add_row (item : Z) (s : wal_state) : wal_state :=
  WalState s.(wl_table) (s.(wl_rows) ++ [item]) s.(wl_open) s.(wl_created) s.(wl_error) s.(wl_cleanup_pass) s.(wl_cleanup_error).
Definition set_open (n : nat) (s : wal_state) : wal_state :=
  WalState s.(wl_table) s.(wl_rows) n s.(wl_created) s.(wl_error) s.(wl_cleanup_pass) s.(wl_cleanup_error).
Definition set_created (s : wal_state) : wal_state :=
  WalState s.(wl_table) s.(wl_rows) s.(wl_open) true s.(wl_error) s.(wl_cleanup_pass) s.(wl_cleanup_error).
Definition set_error (e : exn) (s : wal_state) : wal_state :=
  WalState s.(wl_table) s.(wl_rows) s.(wl_open) s.(wl_created) (Some e) s.(wl_cleanup_pass) s.(wl_cleanup_error).
Definition set_cleanup (pass : bool) (e : option exn) (s : wal_state) : wal_state :=
  WalState s.(wl_table) s.(wl_rows) s.(wl_open) s.(wl_created) s.(wl_error) pass e.

Definition of_outcome {A} (o : outcome A) : M wal_state A := match o with Ok x => mret x | Raise e => raise e end.

Record wal_args : Type := WalArgs { wa_rate : Z; wa_seconds : Z; wa_workers : Z }.

Definition wal_args_ok (a : wal_args) : bool :=
  (1 <=? a.(wa_rate)) && (a.(wa_rate) <=? 50) && (30 <=? a.(wa_seconds)) && (a.(wa_seconds) <=? 180) && (1 <=? a.(wa_workers)) && (a.(wa_workers) <=? 16).

Definition wal_total (a : wal_args) : nat := Z.to_nat (a.(wa_rate) * a.(wa_seconds)).

(** ** One insert *)

(** How late it starts, how long it waits for a connection ([None]: five seconds in vain), and the statements. *)
Record insert_io : Type := InsertIo { ii_lag : Z; ii_wait : option Z; ii_pid : Z; ii_sql : outcome Z; ii_commit : statement Z; ii_window : Z * Z }.

(** The keys a row may lack are options. *)
Record insert_row : Type := InsertRow {
  ir_success : bool;
  ir_lag : Z;
  ir_wait : option Z;
  ir_sql : option Z;
  ir_commit : option Z;
  ir_error : option exn;
  ir_pid : option Z;
  ir_window : option (Z * Z);
}.

(** The table must exist, and its key is unique. *)
Definition insert_result (item : Z) (io : insert_io) (s : wal_state) : outcome Z :=
  if negb s.(wl_table) then Raise (DbError "42P01")
  else if bool_decide (item ∈ s.(wl_rows)) then Raise (DbError "23505")
  else io.(ii_sql).

(** The connection goes back to the queue whatever happens. *)
Definition insert_once (item : Z) (io : insert_io) : M wal_state insert_row :=
  let failed e sql := InsertRow false io.(ii_lag) io.(ii_wait) sql None (Some e) (Some io.(ii_pid)) None in
  match io.(ii_wait) with
  | None => mret (InsertRow false io.(ii_lag) None None None (Some (PyError "Empty" "")) None None)
  | Some wait =>
      result ← gets (insert_result item io);
      match result with
      | Raise e => if psycopg_error e then mret (failed e None) else raise e
      | Ok sql =>
          _ ← modify (if took_effect io.(ii_commit) then add_row item else id);
          match io.(ii_commit).(sm_result) with
          | Raise e => if psycopg_error e then mret (failed e (Some sql)) else raise e
          | Ok commit => mret (InsertRow true io.(ii_lag) (Some wait) (Some sql) (Some commit) None (Some io.(ii_pid)) (Some io.(ii_window)))
          end
      end
  end.

(** The futures, in the order of their numbers: every one runs, whatever the others raise. *)
Fixpoint insert_all (first : Z) (ios : nat -> insert_io) (k n : nat) (s : wal_state) : wal_state * list (outcome insert_row) :=
  match n with
  | O => (s, [])
  | S n' =>
      let '(s1, row) := insert_once (first + Z.of_nat k) (ios k) s in
      let '(s2, rows) := insert_all first ios (S k) n' s1 in
      (s2, row :: rows)
  end.

(** [[future.result() for future in futures]] *)
Fixpoint results_of {A} (l : list (outcome A)) : outcome (list A) :=
  match l with
  | [] => Ok []
  | o :: rest => obind o (fun x => obind (results_of rest) (fun xs => Ok (x :: xs)))
  end.

Definition inserts (first : Z) (ios : nat -> insert_io) (n : nat) : M wal_state (list insert_row) :=
  fun s => let '(s', rows) := insert_all first ios 0 n s in (s', results_of rows).

(** [for _ in range(workers): pool.put(psycopg.connect(..))]: [refused] is the error after some connections were made. *)
Definition connect_all (workers : Z) (refused : option (nat * exn)) : M wal_state unit :=
  match refused with
  | Some (made, e) => _ ← modify (set_open made); raise e
  | None => modify (set_open (Z.to_nat workers))
  end.

(** [while not connections.empty(): connections.get_nowait().close()] *)
Definition close_all : M wal_state unit := modify (set_open 0).

(** ** wal_path_probe *)

Inductive wal_path : Type := Direct | Pooled.
#[global] Instance wal_path_eq_dec : EqDecision wal_path.
Proof. solve_decision. Defined.

Definition BLOCK_ORDER : list wal_path := [Direct; Pooled; Pooled; Direct].

Record block_summary : Type := BlockSummary {
  bs_path : wal_path;
  bs_scheduled : nat;
  bs_completed : nat;
  bs_errors : nat;
  bs_commit_p50 : option Z;
  bs_commit_p95 : option Z;
  bs_commit_p99 : option Z;
  bs_commit_max : option Z;
  bs_commit_over_100 : nat;
  bs_sql_p95 : option Z;
  bs_max_lag : Z;
  bs_max_wait : Z;
  bs_matched_rate : bool;
}.

Definition p50 : dyadic := Dyadic 1 1.

Definition max_or_zero (l : list Z) : Z := match l with [] => 0 | x :: rest => foldr Z.max x rest end.

(** A row without [connection_wait_ms] raises. *)
Definition summarize_block (path : wal_path) (rows : list insert_row) : outcome block_summary :=
  let ok := filter (fun r => r.(ir_success) = true) rows in
  let commits := omap ir_commit ok in
  let sqls := omap ir_sql ok in
  let lag := max_or_zero (ir_lag <$> rows) in
  if forallb (fun r => bool_decide (is_Some r.(ir_wait))) rows then
    Ok (BlockSummary path (length rows) (length ok) (length rows - length ok) (percentile commits p50) (percentile commits p95) (percentile commits p99)
      (last (sort_values commits)) (length (filter (fun v => milliseconds 100 < v) commits)) (percentile sqls p95) lag (max_or_zero (omap ir_wait rows)) (lag <? milliseconds 100))
  else Raise (PyError "KeyError" "connection_wait_ms").

Record block_io : Type := BlockIo { bk_refused : option (nat * exn); bk_items : nat -> insert_io; bk_written : outcome unit }.

Definition run_block (a : wal_args) (block : nat) (path : wal_path) (io : block_io) : M wal_state block_summary :=
  finally
    (_ ← connect_all a.(wa_workers) io.(bk_refused);
     rows ← inserts (Z.of_nat block * a.(wa_rate) * a.(wa_seconds)) io.(bk_items) (wal_total a);
     _ ← of_outcome io.(bk_written);
     of_outcome (summarize_block path rows))
    close_all.

(** The strict completion gate. *)
Definition block_passes (a : wal_args) (b : block_summary) : bool :=
  (b.(bs_errors) =? 0)%nat && b.(bs_matched_rate) && (Z.of_nat b.(bs_completed) =? a.(wa_rate) * a.(wa_seconds)).

(** The blocks whose summaries were kept before an exception. *)
Fixpoint run_blocks (a : wal_args) (block : nat) (paths : list wal_path) (io : nat -> block_io) (s : wal_state) : wal_state * (list block_summary * option exn) :=
  match paths with
  | [] => (s, ([], None))
  | path :: rest =>
      match run_block a block path (io block) s with
      | (s1, Raise e) => (s1, ([], Some e))
      | (s1, Ok b) =>
          if block_passes a b then
            let '(s2, (bs, e)) := run_blocks a (S block) rest io s1 in (s2, (b :: bs, e))
          else (s1, ([b], Some (PyError "RuntimeError" "Probe block failed strict completion gate")))
      end
  end.

(** What [check_path] reads on a path. *)
Record path_info : Type := PathInfo { pi_user : string; pi_database : string; pi_synchronous_commit : string; pi_fsync : string; pi_read_only : string }.
#[global] Instance path_info_eq_dec : EqDecision path_info.
Proof. solve_decision. Defined.

Definition durable (i : path_info) : bool := bool_decide (i.(pi_synchronous_commit) = "on" /\ i.(pi_fsync) = "on" /\ i.(pi_read_only) = "off").
Definition paths_match (direct pooled : path_info) : bool := bool_decide (direct = pooled) && durable direct.

(** [--preflight] *)
Definition path_preflight (checked : outcome (path_info * path_info)) : outcome Z := obind checked (fun i => Ok (if paths_match i.1 i.2 then 0 else 1)).

Record path_io : Type := PathIo {
  po_check : outcome (path_info * path_info);
  po_create : statement unit;
  po_raw : outcome unit;
  po_blocks : nat -> block_io;
  po_drop : statement unit;
}.

(** The [try]: the summaries, and the exception that ended it. *)
Definition path_body (a : wal_args) (io : path_io) (s : wal_state) : wal_state * (list block_summary * option exn) :=
  match io.(po_check) with
  | Raise e => (s, ([], Some e))
  | Ok (direct, pooled) =>
      if paths_match direct pooled then
        let s1 := set_table (took_effect io.(po_create)) s in
        match io.(po_create).(sm_result) with
        | Raise e => (s1, ([], Some e))
        | Ok _ =>
            let s2 := set_created s1 in
            match io.(po_raw) with
            | Raise e => (s2, ([], Some e))
            | Ok _ => run_blocks a 0 BLOCK_ORDER io.(po_blocks) s2
            end
        end
      else (s, ([], Some (PyError "RuntimeError" "Database authority or durability settings differ")))
  end.

(** The part of the [finally] that drops the table: an error other than the database's escapes. *)
Definition drop_table (drop : statement unit) : M wal_state unit := fun s =>
  if s.(wl_created) then
    let s1 := set_table (s.(wl_table) && negb (took_effect drop)) s in
    match drop.(sm_result) with
    | Ok _ => (set_cleanup true None s1, Ok tt)
    | Raise e => if psycopg_error e then (set_cleanup s1.(wl_cleanup_pass) (Some e) s1, Ok tt) else (s1, Raise e)
    end
  else (set_cleanup true None s, Ok tt).

(** The exit code, or the exception that leaves the script. *)
Definition wal_path_probe (a : wal_args) (io : path_io) : wal_state * (list block_summary * outcome Z) :=
  let '(s1, (blocks, failed)) := path_body a io wal_start in
  let '(s2, escaped) := match failed with Some e => if probe_catches e then (set_error e s1, None) else (s1, Some e) | None => (s1, None) end in
  match drop_table io.(po_drop) s2 with
  | (s3, Raise e) => (s3, (blocks, Raise e))
  | (s3, Ok _) =>
      (s3, (blocks, match escaped with
                    | Some e => Raise e
                    | None => Ok (if (length blocks =? length BLOCK_ORDER)%nat && s3.(wl_cleanup_pass) && bool_decide (s3.(wl_error) = None) then 0 else 1)
                    end))
  end.

(** ** wal_pid_probe *)

(** A sample of the observer: when, and the backends with what they wait for. *)
Record wait_sample : Type := WaitSample { wt_at : Z; wt_states : list (Z * option string) }.

(** [by_pid.get(pid, [])] *)
Definition waits_of (pid : Z) (samples : list wait_sample) : list (Z * option string) :=
  samples ≫= fun w => (fun st => (w.(wt_at), st.2)) <$> filter (fun st : Z * option string => st.1 = pid) w.(wt_states).

Definition slow_commits (rows : list insert_row) : list insert_row :=
  filter (fun r => (r.(ir_success) && match r.(ir_commit) with Some c => milliseconds 100 <? c | None => false end) = true) rows.

(** The events a backend was seen waiting for during its commit; the set of a comprehension. *)
Definition events_of (row : insert_row) (samples : list wait_sample) : gset string :=
  match row.(ir_pid), row.(ir_window) with
  | Some pid, Some (from, till) =>
      list_to_set (omap (fun w => match w.2 with
                                  | Some e => if (from <=? w.1) && (w.1 <=? till) && negb (bool_decide (e = "")) then Some e else None
                                  | None => None
                                  end) (waits_of pid samples))
  | _, _ => ∅
  end.

Section correlate.
Context (label : gset string -> string).

(** [correlate]: [label] joins the sorted names. *)
Definition correlate (rows : list insert_row) (samples : list wait_sample) : nat * gmap string nat :=
  let slow := slow_commits rows in
  (length slow, foldl (fun counts row =>
    let events := events_of row samples in
    incr (if bool_decide (events = ∅) then "not_sampled_or_not_waiting" else label events) counts) ∅ slow).
End correlate.

(** The status of the observer thread. *)
Record observer_status : Type := ObserverStatus { os_error : option string; os_samples : Z; os_query_errors : nat; os_alive : bool }.

Record pid_io : Type := PidIo {
  di_create : statement unit;
  di_refused : option (nat * exn);
  di_items : nat -> insert_io;
  di_observer : observer_status;
  di_written : outcome unit;
  di_samples : outcome (list wait_sample);
  di_drop : statement unit;
}.

(** The strict gate; [samples < expected * 0.8] with exact rationals. *)
Definition pid_gate (a : wal_args) (interval_ms : Z) (rows : list insert_row) (o : observer_status) : bool :=
  let completed := length (filter (fun r => r.(ir_success) = true) rows) in
  (length rows =? completed)%nat && (Z.of_nat completed =? a.(wa_rate) * a.(wa_seconds)) && (max_or_zero (ir_lag <$> rows) <? milliseconds 100)
  && bool_decide (o.(os_error) = None) && negb o.(os_alive) && (o.(os_query_errors) =? 0)%nat
  && (4 * (a.(wa_seconds) * 1000) <=? 5 * interval_ms * o.(os_samples)).

Definition pid_body (a : wal_args) (interval_ms : Z) (io : pid_io) : M wal_state (list insert_row) :=
  _ ← modify (set_table (took_effect io.(di_create)));
  _ ← of_outcome io.(di_create).(sm_result);
  _ ← modify set_created;
  _ ← connect_all a.(wa_workers) io.(di_refused);
  rows ← inserts 0 io.(di_items) (wal_total a);
  _ ← of_outcome io.(di_written);
  _ ← of_outcome io.(di_samples);
  _ ← modify (fun s => if pid_gate a interval_ms rows io.(di_observer) then s else set_error (PyError "StrictGateFailed" "") s);
  mret rows.

(** [run], with the exit code of [main]. *)
Definition wal_pid_probe (a : wal_args) (interval_ms : Z) (io : pid_io) : wal_state * (list insert_row * outcome Z) :=
  let '(s1, r) := pid_body a interval_ms io wal_start in
  let '(s2, escaped) := match r with Raise e => if probe_catches e then (set_error e s1, None) else (s1, Some e) | Ok _ => (s1, None) end in
  let rows := match r with Ok rows => rows | Raise _ => [] end in
  match (_ ← close_all; drop_table io.(di_drop)) s2 with
  | (s3, Raise e) => (s3, (rows, Raise e))
  | (s3, Ok _) => (s3, (rows, match escaped with Some e => Raise e | None => Ok (if s3.(wl_cleanup_pass) && bool_decide (s3.(wl_error) = None) then 0 else 1) end))
  end.
