(* ===== verification/WalFacts.v ===== *)
(** * What the commit probes show

    A probe that succeeds committed every scheduled insert once, over both paths, and dropped its table; whatever fails,
    its connections are closed, and the table is dropped unless the report says that it was not, or the statement that
    created it raised after it had taken effect. *)

From S2P Require Import Prelude CapacityStage LoadGenerator LoadFacts WalProbe.

#[local] Open Scope Z_scope.

(** ** Inserts *)

(** Only rows are added. *)
Definition only_rows (s s' : wal_state) (l : list Z) : Prop := s' = WalState s.(wl_table) (s.(wl_rows) ++ l) s.(wl_open) s.(wl_created) s.(wl_error) s.(wl_cleanup_pass) s.(wl_cleanup_error).

Lemma only_rows_refl s : only_rows s s [].
Proof. unfold only_rows. rewrite app_nil_r. by destruct s. Qed.

Lemma only_rows_app s1 s2 s3 l1 l2 : only_rows s1 s2 l1 -> only_rows s2 s3 l2 -> only_rows s1 s3 (l1 ++ l2).
Proof. unfold only_rows. intros -> ->. simpl. by rewrite app_assoc. Qed.

Lemma insert_once_facts item io s s' r : insert_once item io s = (s', r) ->
  exists l, only_rows s s' l /\ forall row, r = Ok row -> row.(ir_success) = true -> l = [item].
Proof.
  unfold insert_once, mbind, M_bind, gets, modify, mret, M_ret, raise. destruct (ii_wait io) as [wait |].
  2: { intros [= <- <-]. exists []. split; [apply only_rows_refl |]. by intros row [= <-]. }
  destruct (insert_result item io s) as [sql | e].
  2: { destruct (psycopg_error e); intros [= <- <-]; exists []; (split; [apply only_rows_refl | by intros row [= <-]]). }
  unfold took_effect. destruct (sm_result (ii_commit io)) as [c | e].
  - intros [= <- <-]. exists [item]. by split.
  - destruct (sm_applied (ii_commit io)), (psycopg_error e); intros [= <- <-];
      (exists [item] + exists []); (split; [done || apply only_rows_refl | by intros row [= <-]]).
Qed.

Lemma insert_all_facts first ios k n s s' rows : insert_all first ios k n s = (s', rows) ->
  length rows = n /\ exists l, only_rows s s' l /\
  forall rs, results_of rows = Ok rs -> Forall (fun r => r.(ir_success) = true) rs -> l = seqZ (first + Z.of_nat k) (Z.of_nat n).
Proof.
  revert k s s' rows. induction n as [| n IH]; intros k s s' rows; simpl.
  { intros [= <- <-]. split; [done |]. exists []. split; [apply only_rows_refl | done]. }
  destruct (insert_once _ _ s) as [s1 row] eqn:E. destruct (insert_all _ _ _ _ s1) as [s2 rest] eqn:R. intros [= <- <-].
  apply insert_once_facts in E as (l1 & O1 & H1). apply IH in R as (L & l2 & O2 & H2). split; [simpl; lia |].
  exists (l1 ++ l2). split; [by eapply only_rows_app |]. intros rs. simpl. destruct row as [r | e]; [| done]. simpl.
  destruct (results_of rest) as [rs' | e]; [| done]. intros [= <-] [S F]%Forall_cons.
  rewrite (H1 r eq_refl S), (H2 rs' eq_refl F), (seqZ_cons _ (Z.of_nat (Datatypes.S n))) by lia.
  replace (first + Z.of_nat (Datatypes.S k)) with (Z.succ (first + Z.of_nat k)) by lia. by replace (Z.pred (Z.of_nat (Datatypes.S n))) with (Z.of_nat n) by lia.
Qed.

Lemma results_of_length {A} (l : list (outcome A)) xs : results_of l = Ok xs -> length xs = length l.
Proof.
  revert xs. induction l as [| o l IH]; intros xs; simpl; [by intros [= <-] |]. destruct o; [| done]. simpl.
  destruct (results_of l); [| done]. intros [= <-]. simpl. f_equal. by apply IH.
Qed.

Lemma inserts_facts first ios n s s' r : inserts first ios n s = (s', r) -> exists l, only_rows s s' l /\
  forall rs, r = Ok rs -> length rs = n /\ (Forall (fun x => x.(ir_success) = true) rs -> l = seqZ first (Z.of_nat n)).
Proof.
  unfold inserts. destruct (insert_all _ _ _ _ s) as [s1 rows] eqn:E. intros [= <- <-]. apply insert_all_facts in E as (L & l & O & H).
  exists l. split; [done |]. intros rs R. split; [by rewrite (results_of_length _ _ R) |]. intros F. rewrite (H rs R F). f_equal. lia.
Qed.

Lemma all_successful (rows : list insert_row) : length (filter (fun r => r.(ir_success) = true) rows) = length rows -> Forall (fun r => r.(ir_success) = true) rows.
Proof.
  induction rows as [| r rows IH]; intros H; [constructor |]. rewrite filter_cons in H. simpl in H. case_decide; simpl in H.
  - constructor; [done |]. apply IH. lia.
  - pose proof (length_filter (fun r => ir_success r = true) rows). lia.
Qed.

(** ** Blocks *)

(** The connections of a block are closed, and only rows are added. *)
Definition block_effect (s s' : wal_state) (l : list Z) : Prop := only_rows (set_open 0 s) s' l.

Lemma block_effect_only s s1 s2 l n : only_rows (set_open n s) s1 l -> s2 = set_open 0 s1 -> block_effect s s2 l.
Proof. unfold block_effect, only_rows. by intros -> ->. Qed.

Lemma run_block_facts a block path io s s' r : run_block a block path io s = (s', r) -> exists l, block_effect s s' l /\
  forall b, r = Ok b -> b.(bs_path) = path /\ (block_passes a b = true -> l = seqZ (Z.of_nat block * a.(wa_rate) * a.(wa_seconds)) (Z.of_nat (wal_total a))).
Proof.
  unfold run_block, finally, close_all, connect_all, mbind, M_bind, modify, mret, M_ret, raise, of_outcome.
  destruct (bk_refused io) as [[made e] |].
  { intros [= <- <-]. exists []. split; [| done]. eapply block_effect_only; [| reflexivity]. apply only_rows_refl. }
  set (n := Z.to_nat _). destruct (inserts _ _ _ (set_open n s)) as [s1 rows] eqn:E. apply inserts_facts in E as (l & O & H).
  assert (Q : block_effect s (set_open 0 s1) l) by (by eapply block_effect_only).
  destruct rows as [rows | e]; [| intros [= <- <-]; by exists l]. destruct (H rows eq_refl) as [L A].
  destruct (bk_written io); [| intros [= <- <-]; by exists l]. unfold summarize_block.
  destruct (forallb _ rows); [| intros [= <- <-]; by exists l]. intros [= <- <-]. exists l. split; [done |]. intros b [= <-]. simpl. split; [done |].
  unfold block_passes. simpl. intros ((Z0%Nat.eqb_eq & _)%andb_prop & _)%andb_prop. apply A, all_successful.
  pose proof (length_filter (fun r => ir_success r = true) rows). lia.
Qed.

Lemma block_effect_trans s1 s2 s3 l1 l2 : block_effect s1 s2 l1 -> block_effect s2 s3 l2 -> block_effect s1 s3 (l1 ++ l2).
Proof. unfold block_effect, only_rows. intros -> ->. simpl. by rewrite app_assoc. Qed.

Lemma run_blocks_facts a block paths io s s' bs e : 0 <= a.(wa_rate) * a.(wa_seconds) -> run_blocks a block paths io s = (s', (bs, e)) ->
  (paths = [] /\ s' = s /\ bs = [] /\ e = None) \/ exists l, block_effect s s' l /\
  (e = None -> bs_path <$> bs = paths /\ l = seqZ (Z.of_nat (block * wal_total a)) (Z.of_nat (length paths * wal_total a))).
Proof.
  intros P. revert block s s' bs e. induction paths as [| path paths IH]; intros block s s' bs e; simpl; [intros [= <- <- <-]; by left |].
  destruct (run_block _ _ _ _ s) as [s1 [b | e1]] eqn:E; apply run_block_facts in E as (l1 & O1 & H1).
  2: { intros [= <- <- <-]. right. by exists l1. }
  destruct (H1 b eq_refl) as [P1 L1]. destruct (block_passes a b) eqn:G; [| intros [= <- <- <-]; right; by exists l1].
  destruct (run_blocks _ _ _ _ s1) as [s2 [bs2 e2]] eqn:R. intros [= <- <- <-]. right.
  assert (T : Z.of_nat block * wa_rate a * wa_seconds a = Z.of_nat (block * wal_total a)) by (unfold wal_total; nia).
  rewrite T in L1. apply IH in R as [(-> & -> & -> & ->) | (l2 & O2 & H2)].
  - exists l1. split; [done |]. intros _. split; [simpl; by rewrite P1 |]. rewrite (L1 eq_refl). f_equal. simpl. lia.
  - exists (l1 ++ l2). split; [by eapply block_effect_trans |]. intros ->. destruct (H2 eq_refl) as [P2 ->]. split; [by rewrite fmap_cons, P1, P2 |].
    rewrite (L1 eq_refl). rewrite (Nat2Z.inj_add (wal_total a)), seqZ_app by lia. do 2 f_equal. lia.
Qed.

(** ** The whole probes *)

(** Once created, the table stays until it is dropped. *)
Record body_effect (s : wal_state) (create : statement unit) : Prop := BodyEffect {
  be_open : s.(wl_open) = 0%nat;
  be_error : s.(wl_error) = None;
  be_pass : s.(wl_cleanup_pass) = false;
  be_created : s.(wl_created) = true -> exists x, create.(sm_result) = Ok x;
  be_table : s.(wl_created) = false -> s.(wl_table) = true -> (exists e, create.(sm_result) = Raise e) /\ create.(sm_applied) = true;
}.

Lemma drop_table_facts drop s s' r : drop_table drop s = (s', r) -> s'.(wl_open) = s.(wl_open) /\ s'.(wl_rows) = s.(wl_rows) /\ s'.(wl_error) = s.(wl_error) /\
  (s'.(wl_cleanup_pass) = true -> s.(wl_cleanup_pass) = false -> if s.(wl_created) then s'.(wl_table) = false else s'.(wl_table) = s.(wl_table)).
Proof.
  unfold drop_table, took_effect. destruct (wl_created s); [| by intros [= <- <-]].
  destruct (sm_result drop) as [[] | e]; [intros [= <- <-]; simpl; split_and!; try done; intros; apply andb_false_r |].
  destruct (psycopg_error e); intros [= <- <-]; simpl; (split_and!; [done..|]); intros ? H; congruence.
Qed.

Lemma path_body_facts a io s' bs e : 0 <= a.(wa_rate) * a.(wa_seconds) -> path_body a io wal_start = (s', (bs, e)) ->
  body_effect s' io.(po_create) /\ (e = None -> s'.(wl_created) = true /\ bs_path <$> bs = BLOCK_ORDER /\ s'.(wl_rows) = seqZ 0 (4 * (a.(wa_rate) * a.(wa_seconds)))).
Proof.
  intros P. unfold path_body. destruct (po_check io) as [[direct pooled] | e1]; [| intros [= <- <- <-]; by split; [split |]].
  destruct (paths_match direct pooled); [| intros [= <- <- <-]; by split; [split |]]. unfold took_effect.
  destruct (sm_result (po_create io)) as [x | e1] eqn:C; [| intros [= <- <- <-]; split; [| done]; split; simpl; try done; intros _ ->; split; [by exists e1 | done]].
  destruct (po_raw io); [| intros [= <- <- <-]; split; [| done]; split; simpl; try done; by exists x].
  intros [(? & _) | (l & O & H)]%run_blocks_facts; [done | | done]. unfold block_effect, only_rows in O. simpl in O. subst s'.
  split; [split; simpl; try done; by exists x |]. intros ->. destruct (H eq_refl) as [-> ->]. simpl. split_and!; [done | done |]. f_equal. unfold wal_total. lia.
Qed.

(** A comparison of the paths that succeeds: all four blocks ran in their order, every scheduled insert was committed
    exactly once under a key of its own, the table is gone and no connection is left. *)
Theorem wal_path_sound a io s bs : wal_args_ok a = true -> wal_path_probe a io = (s, (bs, Ok 0)) ->
  bs_path <$> bs = BLOCK_ORDER /\ s.(wl_rows) = seqZ 0 (4 * (a.(wa_rate) * a.(wa_seconds))) /\ s.(wl_table) = false /\ s.(wl_open) = 0%nat.
Proof.
  unfold wal_args_ok. rewrite !andb_true_iff, !Z.leb_le. intros Ha. unfold wal_path_probe.
  destruct (path_body _ _ _) as [s1 [bs1 failed]] eqn:B. apply path_body_facts in B as [[B1 B2 B3 B4 B5] H]; [| nia]. destruct failed as [e |].
  { destruct (probe_catches e); destruct (drop_table _ _) as [s3 [[] | e']] eqn:D; [| done | done | done].
    apply drop_table_facts in D as (_ & _ & E & _). simpl in E. rewrite E, bool_decide_eq_false_2, andb_false_r by done. done. }
  destruct (H eq_refl) as (C & Ps & R). destruct (drop_table _ _) as [s3 [[] | e']] eqn:D; [| done].
  apply drop_table_facts in D as (D1 & D2 & D3 & D4). destruct (_ && _) eqn:G; [| done]. intros [= <- <-].
  apply andb_prop in G as [[_ G]%andb_prop _]. rewrite C in D4. split_and!; [done | by rewrite D2 | by apply D4 | by rewrite D1].
Qed.

(** Whatever fails, no connection is left open; and a report of a clean database is true, unless the statement that
    creates the table took effect although it raised. *)
Theorem wal_path_cleans a io s r : 0 <= a.(wa_rate) * a.(wa_seconds) -> wal_path_probe a io = (s, r) ->
  s.(wl_open) = 0%nat /\ (s.(wl_cleanup_pass) = true -> s.(wl_table) = true -> (exists e, io.(po_create).(sm_result) = Raise e) /\ io.(po_create).(sm_applied) = true).
Proof.
  intros P. unfold wal_path_probe. destruct (path_body _ _ _) as [s1 [bs1 failed]] eqn:B. apply path_body_facts in B as [[B1 B2 B3 B4 B5] _]; [| done].
  set (q := match failed with Some e => _ | None => _ end). assert (Q : wl_open q.1 = 0%nat /\ wl_cleanup_pass q.1 = false /\ wl_created q.1 = wl_created s1 /\ wl_table q.1 = wl_table s1).
  { unfold q. destruct failed as [e |]; [destruct (probe_catches e) |]; done. }
  destruct q as [s2 escaped]. simpl in Q. destruct Q as (Q1 & Q2 & Q3 & Q4).
  destruct (drop_table _ _) as [s3 o] eqn:D. apply drop_table_facts in D as (D1 & _ & _ & D4).
  intros E. assert (s = s3) as -> by (destruct o; congruence). clear E. split; [congruence |]. intros Hp Ht. specialize (D4 Hp Q2). rewrite Q3 in D4.
  destruct (wl_created s1); [congruence |]. apply B5; congruence.
Qed.

Definition some_info : path_info := PathInfo "ticketing" "ticketing" "on" "on" "off".
Definition no_block : block_io := BlockIo None (fun _ => InsertIo 0 (Some 0) 1 (Ok 0) (Statement (Ok 0) false) (0, 0)) (Ok tt).

(** The connection breaks after the server created the table: the report says that the database is clean, and the table stays. *)
Lemma wal_table_left : exists io s, wal_path_probe (WalArgs 40 90 16) io = (s, ([], Ok 1)) /\ s.(wl_cleanup_pass) = true /\ s.(wl_table) = true.
Proof. eexists (PathIo (Ok (some_info, some_info)) (Statement (Raise OperationalError) true) (Ok tt) (fun _ => no_block) (Statement (Ok tt) true)), _. by split; [reflexivity |]. Qed.

Lemma pid_body_facts a interval io s r : pid_body a interval io wal_start = (s, r) ->
  s.(wl_cleanup_pass) = false /\ (s.(wl_created) = false -> s.(wl_table) = true -> (exists e, io.(di_create).(sm_result) = Raise e) /\ io.(di_create).(sm_applied) = true) /\
  (forall rows, r = Ok rows -> s.(wl_error) = None -> s.(wl_created) = true /\ pid_gate a interval rows io.(di_observer) = true /\
     (Forall (fun x => x.(ir_success) = true) rows -> s.(wl_rows) = seqZ 0 (Z.of_nat (wal_total a)))).
Proof.
  unfold pid_body, mbind, M_bind, modify, of_outcome, took_effect, raise, mret, M_ret.
  destruct (sm_result (di_create io)) as [x | e].
  2: { intros [= <- <-]. simpl. split_and!; [done | | done]. intros _ ->. split; [by exists e | done]. }
  unfold connect_all, mbind, M_bind, modify, raise. destruct (di_refused io) as [[made e] |]; [by intros [= <- <-] |].
  set (n := Z.to_nat _). destruct (inserts _ _ _ _) as [s1 rows] eqn:E. apply inserts_facts in E as (l & O & H). unfold only_rows in O. simpl in O. subst s1.
  destruct rows as [rows | e]; [| by intros [= <- <-]]. destruct (H rows eq_refl) as [_ A]. destruct (di_written io); [| by intros [= <- <-]].
  destruct (di_samples io); [| by intros [= <- <-]]. intros [= <- <-]. destruct (pid_gate _ _ _ _) eqn:G; simpl; split_and!; try done.
  intros rs [= <-] _. split_and!; done.
Qed.

Lemma pid_gate_all a interval rows o : pid_gate a interval rows o = true -> Forall (fun x => x.(ir_success) = true) rows.
Proof. unfold pid_gate. rewrite !andb_true_iff, Nat.eqb_eq. intros [[[[[[L _] _] _] _] _] _]. by apply all_successful. Qed.

(** A probe of the waits that succeeds: every scheduled insert was committed once, the observer answered every query and took at
    least four fifths of its samples, the table is gone and no connection is left. *)
Theorem wal_pid_sound a interval io s rows : wal_args_ok a = true -> wal_pid_probe a interval io = (s, (rows, Ok 0)) ->
  s.(wl_rows) = seqZ 0 (a.(wa_rate) * a.(wa_seconds)) /\ Forall (fun x => x.(ir_success) = true) rows /\ s.(wl_table) = false /\ s.(wl_open) = 0%nat
  /\ io.(di_observer).(os_query_errors) = 0%nat /\ 4 * (a.(wa_seconds) * 1000) <= 5 * interval * io.(di_observer).(os_samples).
Proof.
  unfold wal_args_ok. rewrite !andb_true_iff, !Z.leb_le. intros Ha. unfold wal_pid_probe.
  destruct (pid_body _ _ _ _) as [s1 r] eqn:B. apply pid_body_facts in B as (Bp & _ & H). destruct r as [rs | e].
  2: { unfold mbind, M_bind, close_all, modify. destruct (probe_catches e); destruct (drop_table _ _) as [s3 [[] | e']] eqn:D; [| done | done | done].
       apply drop_table_facts in D as (_ & _ & E & _). simpl in E. rewrite E, bool_decide_eq_false_2, andb_false_r by done. done. }
  unfold mbind, M_bind, close_all, modify. destruct (drop_table _ _) as [s3 [[] | e']] eqn:D; [| done].
  apply drop_table_facts in D as (D1 & D2 & D3 & D4). simpl in *. destruct (_ && _) eqn:G; [| done]. intros [= <- <-].
  apply andb_prop in G as [G1 G2]. apply bool_decide_eq_true in G2. rewrite D3 in G2. destruct (H rs eq_refl G2) as (C & Gt & R).
  pose proof (pid_gate_all _ _ _ _ Gt) as F. rewrite C in D4. unfold pid_gate in Gt. rewrite !andb_true_iff, Z.leb_le, Nat.eqb_eq in Gt.
  split_and!; [rewrite D2, (R F); f_equal; unfold wal_total; nia | done | by apply D4 | done | by destruct Gt as [[_ ?%Nat.eqb_eq] _] | by destruct Gt].
Qed.

(** ** Waits of slow commits *)

Lemma counter_total_fold {A} (f : A -> string) l c : counter_total (foldl (fun counts x => incr (f x) counts) c l) = (counter_total c + length l)%nat.
Proof. revert c. induction l as [| x l IH]; intros c; simpl; [lia |]. rewrite IH, counter_total_incr. lia. Qed.

(** Every slow commit is counted under one label, and an event in a label was sampled for that backend during that commit. *)
Theorem correlate_sound label rows samples : let '(n, counts) := correlate label rows samples in counter_total counts = n /\
  forall row e, row ∈ slow_commits rows -> e ∈ events_of row samples -> exists pid from till w,
    row.(ir_pid) = Some pid /\ row.(ir_window) = Some (from, till) /\ w ∈ samples /\ (pid, Some e) ∈ w.(wt_states) /\ from <= w.(wt_at) <= till.
Proof.
  unfold correlate. split; [by rewrite (counter_total_fold (fun row => if bool_decide (events_of row samples = ∅) then _ else label (events_of row samples))) |]. intros row e _ H. unfold events_of in H. destruct (ir_pid row) as [pid |]; [| set_solver].
  destruct (ir_window row) as [[from till] |]; [| set_solver]. rewrite elem_of_list_to_set in H. apply list_elem_of_omap in H as ([t o] & I & E). simpl in E.
  destruct o as [e' |]; [| done]. destruct (_ && _) eqn:G; [| done]. injection E as ->. unfold waits_of in I.
  apply list_elem_of_bind in I as (w & I & W). apply list_elem_of_fmap in I as ([pid' o] & [= -> <-] & [Q S]%list_elem_of_filter). simpl in Q. subst pid'.
  rewrite !andb_true_iff, !Z.leb_le in G. exists pid, from, till, w. split_and!; try done; lia.
Qed.

(** ** The queue of connections *)

(** The connections in the queue and the tasks that run: a task takes one when it starts and gives it back when it ends; the
    executor runs at most as many tasks as there are workers. *)
Inductive pool_step (workers : nat) : nat * nat -> nat * nat -> Prop :=
| Take queued running : (running < workers)%nat -> pool_step workers (S queued, running) (queued, S running)
| Give queued running : pool_step workers (queued, S running) (S queued, running).

(** A task that starts finds a connection, so [queue.Empty], which would leave a row without [connection_wait_ms], is not raised. *)
Lemma pool_never_empty workers queued running : rtc (pool_step workers) (workers, 0%nat) (queued, running) -> (running < workers)%nat -> (0 < queued)%nat.
Proof.
  intros H. assert (I : (queued + running = workers)%nat); [| lia].
  assert (J : forall x y, rtc (pool_step workers) x y -> (x.1 + x.2 = workers)%nat -> (y.1 + y.2 = workers)%nat).
  { induction 1 as [| x y z S _ IH]; [done |]. intros E. apply IH. inversion S; subst; simpl in *; lia. }
  apply (J _ _ H). simpl. lia.
Qed.

(** Such a row would end the summary of its block with a [KeyError], which the script does not catch. *)
Lemma summarize_block_empty path rows row : row ∈ rows -> row.(ir_wait) = None ->
  exists e, summarize_block path rows = Raise e /\ probe_catches e = false.
Proof.
  intros I W. exists (PyError "KeyError" "connection_wait_ms"). split; [| done]. unfold summarize_block.
  destruct (forallb _ rows) eqn:F; [| done]. rewrite forallb_forall in F. specialize (F row (proj1 (list_elem_of_In _ _) I)). rewrite W in F. done.
Qed.
