(* ===== verification/Telemetry.v ===== *)
(** * Telemetry of the hosts

    The computations of [scripts/generator_observe.py], [rds_wait_observe.py], [summarize_rds_waits.py],
    [pgbouncer_pressure_observe.py] and [compare_postgres_baselines.py] on what was read from [/proc], the statistics views and
    the report files.  Percentages and scores are exact fractions; times are microseconds. *)

From S2P Require Import Prelude LoadGenerator LoadFacts.

#[local] Open Scope Z_scope.

(** ** generator_observe *)

Definition CPU_NAMES : list string := ["user"; "nice"; "system"; "idle"; "iowait"; "irq"; "softirq"; "steal"; "guest"; "guest_nice"].

(** The values of the aggregate row, [None] when the file has none; columns beyond the names are dropped. *)
Definition parse_cpu (row : option (list Z)) : outcome (gmap string Z) :=
  match row with
  | None => Raise (PyError "ValueError" "Missing aggregate CPU row")
  | Some values => Ok (list_to_map (zip CPU_NAMES values))
  end.

Record cpu_share : Type := CpuShare { cs_busy : Z; cs_iowait : Z; cs_steal : Z; cs_total : Z }.

Definition tick_delta (previous current : gmap string Z) (name : string) : Z :=
  match current !! name with Some v => v - default 0 (previous !! name) | None => 0 end.

(** Guest time is part of user time, so its columns are left out of the total.  The shares are percentages of [cs_total]. *)
Definition cpu_delta (previous : option (gmap string Z)) (current : gmap string Z) : option cpu_share :=
  match previous with
  | None => None
  | Some previous =>
      let delta := tick_delta previous current in
      let total := foldr (fun name n => if bool_decide (name ∈ ["guest"; "guest_nice"]) then n else delta name + n) 0 (map_to_list current).*1 in
      if total <=? 0 then None
      else let idle := delta "idle" + delta "iowait" in
           Some (CpuShare ((total - idle) * 100) (delta "iowait" * 100) (delta "steal" * 100) total)
  end.

Record net_totals : Type := NetTotals { nt_rx_bytes : Z; nt_rx_errors : Z; nt_rx_drops : Z; nt_tx_bytes : Z; nt_tx_errors : Z; nt_tx_drops : Z }.

(** The interfaces with their columns; the loopback and short rows are passed over. *)
Definition parse_net_dev (rows : list (string * list Z)) : net_totals :=
  foldl (fun t row =>
    match row.2 with
    | rx :: _ :: rxe :: rxd :: _ :: _ :: _ :: _ :: tx :: _ :: txe :: txd :: _ :: _ :: _ :: _ :: _ =>
        if bool_decide (row.1 = "lo") then t
        else NetTotals (t.(nt_rx_bytes) + rx) (t.(nt_rx_errors) + rxe) (t.(nt_rx_drops) + rxd) (t.(nt_tx_bytes) + tx) (t.(nt_tx_errors) + txe) (t.(nt_tx_drops) + txd)
    | _ => t
    end) (NetTotals 0 0 0 0 0 0) rows.

Definition net_delta (previous : option net_totals) (c : net_totals) : option net_totals :=
  (fun p => NetTotals (c.(nt_rx_bytes) - p.(nt_rx_bytes)) (c.(nt_rx_errors) - p.(nt_rx_errors)) (c.(nt_rx_drops) - p.(nt_rx_drops))
              (c.(nt_tx_bytes) - p.(nt_tx_bytes)) (c.(nt_tx_errors) - p.(nt_tx_errors)) (c.(nt_tx_drops) - p.(nt_tx_drops))) <$> previous.

Record process_row : Type := ProcessRow { pr_pid : Z; pr_cpu_ticks : Z; pr_voluntary : Z; pr_nonvoluntary : Z }.

(** Ticks and context switches of the processes that were there before. *)
Definition process_delta (previous : gmap Z process_row) (current : list process_row) : Z * Z * Z :=
  foldl (fun acc row =>
    match previous !! row.(pr_pid) with
    | None => acc
    | Some old => (acc.1.1 + Z.max 0 (row.(pr_cpu_ticks) - old.(pr_cpu_ticks)), acc.1.2 + Z.max 0 (row.(pr_voluntary) - old.(pr_voluntary)),
                   acc.2 + Z.max 0 (row.(pr_nonvoluntary) - old.(pr_nonvoluntary)))
    end) (0, 0, 0) current.

(** ** rds_wait_observe *)

Definition add_count (k : string) (n : Z) (c : gmap string Z) : gmap string Z := <[k := default 0 (c !! k) + n]> c.

Definition IGNORED_WAITS : list string := ["CPU"; "Client"].

Record activity : Type := Activity { ac_states : gmap string Z; ac_waits : gmap string Z; ac_events : gmap string Z }.

(** Rows of state, type of wait, event and count. *)
Definition activity_counts (rows : list (string * string * string * Z)) : activity :=
  foldl (fun a row =>
    let '(state, wait, event, n) := row in
    Activity (add_count state n a.(ac_states)) (add_count wait n a.(ac_waits)) (if bool_decide (wait ∈ IGNORED_WAITS) then a.(ac_events) else add_count event n a.(ac_events)))
    (Activity ∅ ∅ ∅) rows.

(** ** summarize_rds_waits *)

Definition COUNTERS : list string := ["wal_bytes"; "wal_buffers_full"; "checkpoints_timed"; "checkpoints_requested"; "checkpoint_write_ms"; "checkpoint_sync_ms"].

Record rds_sample : Type := RdsSample { rs_query : Z; rs_lag : Z; rs_waits : list (string * Z); rs_events : list (string * Z); rs_sync : Z; rs_counters : list Z }.

Inductive rds_line : Type := RdsOther | RdsMetadata (timing : option bool) | RdsFailed | RdsRow (s : rds_sample).

(** What an anomaly keeps, with its score. *)
Record anomaly : Type := Anomaly { an_score : Z; an_sample : rds_sample; an_sync_delta : Z; an_deltas : list Z }.

Record rds_report : Type := RdsReport {
  rr_samples : nat;
  rr_errors : nat;
  rr_max_query : Z;
  rr_max_lag : Z;
  rr_max_sync_delta : Z;
  rr_max_waiters : Z;
  rr_wait_types : gmap string nat;
  rr_wait_events : gmap string nat;
  rr_timing : option bool;
  rr_totals : list Z;
  rr_steps : list Z;
  rr_anomalies : list anomaly;
  rr_previous : option (Z * list Z);
}.

Definition rds_start : rds_report := RdsReport 0 0 0 0 0 0 ∅ ∅ None (replicate 6 0) (replicate 6 0) [] None.

Definition interesting (s : rds_sample) : Z := foldr (fun w n => if bool_decide (w.1 ∈ IGNORED_WAITS) then n else w.2 + n) 0 s.(rs_waits).

(** [max(interesting, delta / 50, query_ms / 100)], times 100000. *)
Definition anomaly_score (s : rds_sample) (delta : Z) : Z := Z.max (interesting s * 100000) (Z.max (2 * delta) s.(rs_query)).

(** [events.sort(key=.., reverse=True)] of a list that is sorted but for its last entry; equal scores keep their order. *)
Fixpoint insert_anomaly (x : anomaly) (l : list anomaly) : list anomaly :=
  match l with
  | [] => [x]
  | y :: rest => if y.(an_score) <? x.(an_score) then x :: y :: rest else y :: insert_anomaly x rest
  end.

Definition count_positive (l : list (string * Z)) (c : gmap string nat) : gmap string nat := foldl (fun c w => if 0 <? w.2 then incr w.1 c else c) c l.

(** The growth of the sync time and of the counters since the last sample; nothing at the first. *)
Definition sync_delta (previous : option (Z * list Z)) (s : rds_sample) : Z := match previous with Some p => Z.max 0 (s.(rs_sync) - p.1) | None => 0 end.
Definition counter_deltas (previous : option (Z * list Z)) (s : rds_sample) : list Z :=
  match previous with Some p => zip_with (fun v v0 => Z.max 0 (v - v0)) s.(rs_counters) p.2 | None => replicate 6 0 end.

(** A sample of interest: sessions that wait, a slow sync or query, full buffers or a requested checkpoint. *)
Definition anomaly_of (previous : option (Z * list Z)) (s : rds_sample) : option anomaly :=
  let delta := sync_delta previous s in
  let deltas := counter_deltas previous s in
  if negb (interesting s =? 0) || (milliseconds 50 <=? delta) || (milliseconds 100 <=? s.(rs_query))
     || negb (default 0 (deltas !! 1%nat) =? 0) || negb (default 0 (deltas !! 3%nat) =? 0)
  then Some (Anomaly (anomaly_score s delta) s delta deltas) else None.

Definition rds_sample_step (s : rds_sample) (r : rds_report) : rds_report :=
  let delta := sync_delta r.(rr_previous) s in
  let deltas := counter_deltas r.(rr_previous) s in
  RdsReport (S r.(rr_samples)) r.(rr_errors) (Z.max r.(rr_max_query) s.(rs_query)) (Z.max r.(rr_max_lag) s.(rs_lag)) (Z.max r.(rr_max_sync_delta) delta)
    (Z.max r.(rr_max_waiters) (interesting s))
    (count_positive (filter (fun w => w.1 ∉ IGNORED_WAITS) s.(rs_waits)) r.(rr_wait_types)) (count_positive s.(rs_events) r.(rr_wait_events)) r.(rr_timing)
    (zip_with Z.add r.(rr_totals) deltas) (zip_with Z.max r.(rr_steps) deltas)
    (match anomaly_of r.(rr_previous) s with Some x => take 20 (insert_anomaly x r.(rr_anomalies)) | None => r.(rr_anomalies) end)
    (Some (s.(rs_sync), s.(rs_counters))).

Definition rds_line_step (line : rds_line) (r : rds_report) : rds_report :=
  match line with
  | RdsOther => r
  | RdsMetadata timing =>
      RdsReport r.(rr_samples) r.(rr_errors) r.(rr_max_query) r.(rr_max_lag) r.(rr_max_sync_delta) r.(rr_max_waiters) r.(rr_wait_types) r.(rr_wait_events) timing
        r.(rr_totals) r.(rr_steps) r.(rr_anomalies) r.(rr_previous)
  | RdsFailed =>
      RdsReport (S r.(rr_samples)) (S r.(rr_errors)) r.(rr_max_query) r.(rr_max_lag) r.(rr_max_sync_delta) r.(rr_max_waiters) r.(rr_wait_types) r.(rr_wait_events) r.(rr_timing)
        r.(rr_totals) r.(rr_steps) r.(rr_anomalies) r.(rr_previous)
  | RdsRow s => rds_sample_step s r
  end.

Definition rds_waits (lines : list rds_line) : rds_report := foldl (fun r line => rds_line_step line r) rds_start lines.
Definition rds_exit (r : rds_report) : Z := if negb (r.(rr_samples) =? 0)%nat && (r.(rr_errors) =? 0)%nat then 0 else 1.

(** ** pgbouncer_pressure_observe *)

Definition POOL_FIELDS : list string :=
  ["cl_active"; "cl_waiting"; "cl_active_cancel_req"; "cl_waiting_cancel_req"; "sv_active"; "sv_active_cancel"; "sv_being_canceled"; "sv_idle"; "sv_used"; "sv_tested"; "sv_login"].

(** A row of [SHOW POOLS] or [SHOW STATS]: its database, and the numbers of its columns; what is no number counts as zero. *)
Abbreviation admin_row := (option string * gmap string Z)%type (only parsing).

Definition of_database (rows : list admin_row) (target : string) : list admin_row := filter (fun r => r.1 = Some target) rows.
Definition column_sum (rows : list admin_row) (name : string) : Z := foldr (fun r n => default 0 (r.2 !! name) + n) 0 rows.
Definition column_max (rows : list admin_row) (name : string) : Z := match rows with [] => 0 | r :: rest => foldr (fun r n => Z.max (default 0 (r.2 !! name)) n) (default 0 (r.2 !! name)) rest end.

(** The sums of the fields, the longest wait in microseconds, and the number of pools. *)
Definition summarize_pools (rows : list admin_row) (target : string) : list (string * Z) * Z * nat :=
  let selected := of_database rows target in
  let waits := (fun r => default 0 (r.2 !! "maxwait") * 1000000 + default 0 (r.2 !! "maxwait_us")) <$> selected in
  ((fun f => (f, column_sum selected f)) <$> POOL_FIELDS, match waits with [] => 0 | w :: rest => foldr Z.max w rest end, length selected).

Definition STATS_COUNTERS : list string :=
  ["total_xact_count"; "total_query_count"; "total_received"; "total_sent"; "total_xact_time"; "total_query_time"; "total_wait_time"; "total_server_assignment_count"].
Definition STATS_GAUGES : list string :=
  ["avg_xact_count"; "avg_query_count"; "avg_recv"; "avg_sent"; "avg_xact_time"; "avg_query_time"; "avg_wait_time"; "avg_server_assignment_count"].

Definition summarize_stats (rows : list admin_row) (target : string) : list (string * Z) :=
  let selected := of_database rows target in
  ((fun f => (f, column_sum selected f)) <$> STATS_COUNTERS) ++ ((fun f => (f, column_max selected f)) <$> STATS_GAUGES).

(** ** compare_postgres_baselines *)

(** The measured times of a plan, in microseconds; a report may lack either. *)
Record plan_times : Type := PlanTimes { pn_execution : option Z; pn_client : option Z }.
Record baseline : Type := Baseline { bl_pass : bool; bl_version : option string; bl_plans : list (string * plan_times) }.

(** [{row["name"]: row for row in plans}]: a later row of the name replaces an earlier one. *)
Definition plans_by_name (b : baseline) : gmap string plan_times := foldl (fun m kv => <[kv.1 := kv.2]> m) ∅ b.(bl_plans).

(** A quotient, as a fraction. *)
Definition ratio (candidate base : option Z) : option (Z * Z) :=
  match candidate, base with Some c, Some b => if b =? 0 then None else Some (c, b) | _, _ => None end.

Record plan_comparison : Type := PlanComparison { pc_name : string; pc_local : plan_times; pc_candidate : plan_times; pc_execution : option (Z * Z); pc_client : option (Z * Z) }.

Definition string_leb (x y : string) : Prop := String.leb x y = true.
#[global] Instance string_leb_dec x y : Decision (string_leb x y).
Proof. unfold string_leb. apply _. Defined.

Definition compare_plans (local candidate : baseline) : list plan_comparison :=
  let l := plans_by_name local in
  let c := plans_by_name candidate in
  (fun name =>
    let before := default (PlanTimes None None) (l !! name) in
    let after := default (PlanTimes None None) (c !! name) in
    PlanComparison name before after (ratio after.(pn_execution) before.(pn_execution)) (ratio after.(pn_client) before.(pn_client)))
  <$> merge_sort string_leb (elements (dom l ∪ dom c)).

Definition compare_pass (local candidate : baseline) : bool :=
  local.(bl_pass) && candidate.(bl_pass) && match compare_plans local candidate with [] => false | _ => true end.

(** * What the telemetry shows

    Shares of the processor are percentages when the counters only grow; the counts of waiting sessions add up; a
    summary of waits succeeds exactly when it saw samples and none of them failed, and its anomalies are the worst ones; a comparison has one line
    per plan of either report. *)

(** ** Processor shares *)

Definition tick_sum (delta : string -> Z) (names : list string) : Z :=
  foldr (fun name n => if bool_decide (name ∈ ["guest"; "guest_nice"]) then n else delta name + n) 0 names.

Definition single (delta : string -> Z) (x name : string) : Z := if bool_decide (name = x) then delta x else 0.
Definition sum_over (f : string -> Z) (l : list string) : Z := foldr (fun name n => f name + n) 0 l.

Lemma sum_over_add f g l : sum_over (fun name => f name + g name) l = sum_over f l + sum_over g l.
Proof. unfold sum_over. induction l; simpl; lia. Qed.

Lemma sum_single delta x l : NoDup l -> (x ∉ l -> delta x = 0) -> sum_over (single delta x) l = delta x.
Proof.
  intros N Z0. assert (H : sum_over (single delta x) l = if decide (x ∈ l) then delta x else 0); [| rewrite H; case_decide; [done | by rewrite Z0]].
  clear Z0. induction N as [| y l Ny N IH]; [done |]. unfold sum_over in *. simpl. rewrite IH. unfold single.
  repeat case_decide; case_bool_decide; subst; try lia; set_solver.
Qed.

(** The idle, waiting and stolen ticks are part of all ticks. *)
Lemma tick_sum_part delta l : (forall name, 0 <= delta name) -> NoDup l -> (forall name, name ∉ l -> delta name = 0) ->
  delta "idle" + delta "iowait" + delta "steal" <= tick_sum delta l.
Proof.
  intros P N Z0. rewrite <- (sum_single delta "idle" l N (Z0 _)), <- (sum_single delta "iowait" l N (Z0 _)), <- (sum_single delta "steal" l N (Z0 _)), <- !sum_over_add.
  clear N Z0. unfold sum_over, tick_sum. induction l as [| y l IH]; simpl; [lia |]. pose proof (P y). unfold single in *.
  repeat case_bool_decide; subst; try congruence; try lia; set_solver.
Qed.

(** The shares of a processor whose counters only grow are percentages, and what is busy, waiting for input and output or stolen
    does not overlap with what is idle. *)
Theorem cpu_delta_shares previous current c : (forall name v, current !! name = Some v -> default 0 (previous !! name) <= v) ->
  cpu_delta (Some previous) current = Some c ->
  0 < c.(cs_total) /\ 0 <= c.(cs_iowait) /\ 0 <= c.(cs_steal) <= c.(cs_busy) /\ c.(cs_busy) + c.(cs_iowait) <= 100 * c.(cs_total).
Proof.
  intros G. unfold cpu_delta. set (delta := tick_delta previous current). fold (tick_sum delta (map_to_list current).*1).
  destruct (_ <=? 0) eqn:T; [done |]. intros [= <-]. simpl.
  assert (P : forall name, 0 <= delta name). { intros name. unfold delta, tick_delta. destruct (current !! name) as [v |] eqn:E; [specialize (G _ _ E) |]; lia. }
  pose proof (tick_sum_part delta (map_to_list current).*1 P (NoDup_fst_map_to_list current)) as H.
  assert (Z0 : forall name, name ∉ (map_to_list current).*1 -> delta name = 0).
  { intros name N. unfold delta, tick_delta. destruct (current !! name) as [v |] eqn:E; [| done]. destruct N. apply list_elem_of_fmap. exists (name, v). split; [done |]. by apply elem_of_map_to_list. }
  specialize (H Z0). pose proof (P "idle"). pose proof (P "iowait"). pose proof (P "steal"). lia.
Qed.

(** ** Sessions *)

Definition count_sum (c : gmap string Z) : Z := map_fold (fun _ n acc => n + acc) 0 c.

Lemma count_sum_insert k n c : c !! k = None -> count_sum (<[k := n]> c) = n + count_sum c.
Proof. intros H. unfold count_sum. rewrite map_fold_insert_L; [done | lia | done]. Qed.

Lemma count_sum_add k n c : count_sum (add_count k n c) = count_sum c + n.
Proof.
  unfold add_count. destruct (c !! k) as [v |] eqn:E; simpl; [| rewrite count_sum_insert by done; lia].
  rewrite <- (insert_delete_id c k v E) at 2. rewrite <- insert_delete_eq, !count_sum_insert by apply lookup_delete_eq. lia.
Qed.

(** Sessions are counted once by state and once by wait; events are those of the waits that matter. *)
Lemma activity_counts_total rows : let a := activity_counts rows in let total := foldr (fun r n => r.2 + n) 0 rows in
  count_sum a.(ac_states) = total /\ count_sum a.(ac_waits) = total /\
  count_sum a.(ac_events) = foldr (fun r n => r.2 + n) 0 (filter (fun r => r.1.1.2 ∉ IGNORED_WAITS) rows).
Proof.
  unfold activity_counts. induction rows as [| [[[state wait] event] n] rows IH] using rev_ind; [done |]. rewrite foldl_app. simpl. destruct IH as (A & B & C).
  assert (F : forall l, foldr (fun (r : string * string * string * Z) m => r.2 + m) 0 (l ++ [(state, wait, event, n)]) = foldr (fun r m => r.2 + m) 0 l + n).
  { intros l. induction l; simpl; lia. }
  rewrite filter_app, !count_sum_add, A, B, F. split_and!; [done | done |]. rewrite filter_cons, filter_nil. simpl.
  destruct (decide (wait ∈ IGNORED_WAITS)) as [I | I].
  - rewrite bool_decide_eq_true_2, decide_False, app_nil_r by (done || (intros X; by apply X)). done.
  - rewrite bool_decide_eq_false_2, decide_True, F, count_sum_add, C by done. done.
Qed.

(** ** Anomalies *)

Definition worse (x y : anomaly) : Prop := y.(an_score) <= x.(an_score).

Lemma insert_anomaly_perm x l : insert_anomaly x l ≡ₚ x :: l.
Proof. induction l as [| y l IH]; simpl; [done |]. case_match; [done |]. rewrite IH. apply Permutation_swap. Qed.

Lemma insert_anomaly_sorted x l : StronglySorted worse l -> StronglySorted worse (insert_anomaly x l).
Proof.
  induction 1 as [| y l S IH F]; simpl; [repeat constructor |]. destruct (_ <? _) eqn:E.
  - constructor; [by constructor |]. constructor; [unfold worse; lia |]. eapply Forall_impl; [exact F |]. unfold worse. intros z ?. lia.
  - constructor; [done |]. rewrite insert_anomaly_perm. constructor; [unfold worse; lia | done].
Qed.

(** The list holds the worst of all anomalies: what was dropped scores no higher than any of it. *)
Definition worst_of (all l : list anomaly) : Prop :=
  StronglySorted worse l /\ length l = Nat.min 20 (length all) /\ exists dropped, all ≡ₚ l ++ dropped /\ forall d x, d ∈ dropped -> x ∈ l -> d.(an_score) <= x.(an_score).

Lemma sorted_take_drop n l d x : StronglySorted worse l -> d ∈ drop n l -> x ∈ take n l -> d.(an_score) <= x.(an_score).
Proof.
  revert n. induction l as [| y l IH]; intros n S D X; destruct n as [| n]; simpl in *; try (by apply elem_of_nil in X); try (by apply elem_of_nil in D).
  apply StronglySorted_inv in S as [S F]. apply elem_of_cons in X as [-> | X]; [| by eapply IH].
  rewrite Forall_forall in F. apply F. eapply elem_of_submseteq; [exact D |]. apply sublist_submseteq, sublist_drop.
Qed.

Lemma sorted_take n l : StronglySorted worse l -> StronglySorted worse (take n l).
Proof.
  intros S. revert n. induction S as [| y l S IH F]; intros n; destruct n; simpl; try constructor; [apply IH |]. by apply Forall_take.
Qed.

Lemma worst_of_step all l x : worst_of all l -> worst_of (all ++ [x]) (take 20 (insert_anomaly x l)).
Proof.
  intros (S & L & dropped & P & B). pose proof (insert_anomaly_perm x l) as Q. pose proof (insert_anomaly_sorted x l S) as S'.
  pose proof (Permutation_length Q) as LQ. pose proof (Permutation_length P) as LP. rewrite length_app in LP. cbn [length] in LQ.
  split_and!; [by apply sorted_take | rewrite length_take, LQ, length_app, L; cbn [length]; lia |].
  exists (drop 20 (insert_anomaly x l) ++ dropped). split.
  { rewrite app_assoc, take_drop, Q, P. rewrite (Permutation_app_comm _ [x]). done. }
  intros d y [D | D]%elem_of_app Y; [by eapply sorted_take_drop |].
  (* something was dropped before, so the list was full and its least entry is pushed out *)
  assert (F : length l = 20%nat) by (destruct dropped; [by apply elem_of_nil in D | simpl in LP; lia]).
  assert (Y' : y ∈ insert_anomaly x l) by (eapply elem_of_submseteq; [exact Y | apply sublist_submseteq, sublist_take]).
  rewrite Q in Y'. apply elem_of_cons in Y' as [-> | Y']; [| by apply B].
  assert (E : exists z, z ∈ drop 20 (insert_anomaly x l)).
  { destruct (drop 20 (insert_anomaly x l)) as [| z r] eqn:E; [| exists z; left]. apply (f_equal length) in E. rewrite length_drop, LQ in E. simpl in E. lia. }
  destruct E as [z Z]. assert (Zx : z.(an_score) <= x.(an_score)) by (by eapply sorted_take_drop).
  assert (Zi : z ∈ x :: l) by (rewrite <- Q; eapply elem_of_submseteq; [exact Z | apply sublist_submseteq, sublist_drop]).
  apply elem_of_cons in Zi as [-> | Zi]; [| specialize (B d z D Zi); lia].
  (* [x] itself was pushed out: the first twenty are the old list *)
  assert (D1 : drop 20 (insert_anomaly x l) = [x]).
  { assert (K : length (drop 20 (insert_anomaly x l)) = 1%nat) by (rewrite length_drop, LQ; lia).
    destruct (drop 20 (insert_anomaly x l)) as [| u [| v r]]; [done | | done]. by apply list_elem_of_singleton in Z as ->. }
  apply B; [done |]. rewrite <- (take_drop 20 (insert_anomaly x l)), D1 in Q. rewrite (Permutation_app_comm _ [x]) in Q. simpl in Q.
  apply Permutation_cons_inv in Q. by rewrite <- Q.
Qed.

Definition is_sample (line : rds_line) : bool := match line with RdsFailed | RdsRow _ => true | _ => false end.
Definition is_failed (line : rds_line) : bool := match line with RdsFailed => true | _ => false end.

(** The anomalies of a log, each sample compared with the one before. *)
Fixpoint anomalies_met (previous : option (Z * list Z)) (lines : list rds_line) : list anomaly :=
  match lines with
  | [] => []
  | RdsRow s :: rest => option_list (anomaly_of previous s) ++ anomalies_met (Some (s.(rs_sync), s.(rs_counters))) rest
  | _ :: rest => anomalies_met previous rest
  end.

Definition last_sample (previous : option (Z * list Z)) (lines : list rds_line) : option (Z * list Z) :=
  foldl (fun p line => match line with RdsRow s => Some (s.(rs_sync), s.(rs_counters)) | _ => p end) previous lines.

Lemma anomalies_met_app previous l1 l2 : anomalies_met previous (l1 ++ l2) = anomalies_met previous l1 ++ anomalies_met (last_sample previous l1) l2.
Proof. revert previous. induction l1 as [| line l1 IH]; intros previous; [done |]. destruct line; simpl; rewrite IH, ?app_assoc; done. Qed.

(** The summary counts the samples and the failed ones, succeeds exactly when there are samples and none of them failed, and lists
    the worst twenty of the anomalies it met. *)
Theorem rds_waits_spec lines : let r := rds_waits lines in
  r.(rr_samples) = length (filter (fun l => is_sample l = true) lines) /\ r.(rr_errors) = length (filter (fun l => is_failed l = true) lines) /\
  (rds_exit r = 0 <-> (exists l, l ∈ lines /\ is_sample l = true) /\ forall l, l ∈ lines -> is_failed l = false) /\
  worst_of (anomalies_met None lines) r.(rr_anomalies).
Proof.
  intros r. assert (H : r.(rr_samples) = length (filter (fun l => is_sample l = true) lines) /\ r.(rr_errors) = length (filter (fun l => is_failed l = true) lines) /\ r.(rr_previous) = last_sample None lines /\ worst_of (anomalies_met None lines) r.(rr_anomalies)).
  { unfold r, rds_waits. clear r. induction lines as [| line lines IH] using rev_ind.
    { split_and!; [done | done | done |]. split; [constructor |]. split; [done |]. by exists []; split; [| intros d x I%elem_of_nil]. }
    rewrite foldl_app, !filter_app, !length_app, anomalies_met_app. unfold last_sample at 1. rewrite foldl_app. fold (last_sample None lines). destruct IH as (A & B & C & W). cbn [foldl]. set (r := foldl _ _ _) in *. rewrite <- A, <- B, !filter_cons, !filter_nil.
    destruct line as [| t | | s]; simpl; rewrite ?app_nil_r; (split; [lia | split; [lia |]]); try done. split; [done |].
    rewrite C. destruct (anomaly_of _ s) as [x |]; simpl; [by apply worst_of_step | by rewrite app_nil_r]. }
  destruct H as (A & B & _ & C). split_and!; [done | done | | done]. unfold rds_exit. rewrite A, B.
  assert (E : forall P : rds_line -> bool, length (filter (fun l => P l = true) lines) = 0%nat <-> forall l, l ∈ lines -> P l = false).
  { intros P. rewrite length_zero_iff_nil. split.
    - intros F l I. destruct (P l) eqn:Q; [| done]. assert (X : l ∈ filter (fun l => P l = true) lines) by (by apply list_elem_of_filter). rewrite F in X. by apply elem_of_nil in X.
    - intros F. destruct (filter (fun l => P l = true) lines) as [| l f] eqn:Q; [done |]. assert (X : l ∈ filter (fun l => P l = true) lines) by (rewrite Q; left).
      apply list_elem_of_filter in X as [X I]. by rewrite F in X. }
  pose proof (E is_sample) as E1. pose proof (E is_failed) as E2.
  rewrite <- E2. assert (E3 : (exists l, l ∈ lines /\ is_sample l = true) <-> length (filter (fun l => is_sample l = true) lines) <> 0%nat).
  { split; [intros (l & I & Q) N; by rewrite (proj1 E1 N l I) in Q |]. intros N. destruct (filter (fun l => is_sample l = true) lines) as [| l f] eqn:F; [done |].
    assert (X : l ∈ filter (fun l => is_sample l = true) lines) by (rewrite F; left). apply list_elem_of_filter in X as [X I]. by exists l. }
  rewrite E3. destruct (Nat.eqb_spec (length (filter (fun l => is_sample l = true) lines)) 0), (Nat.eqb_spec (length (filter (fun l => is_failed l = true) lines)) 0); simpl; intuition congruence.
Qed.

(** ** Baselines *)

(** A comparison has a line for every plan of either report, in the order of their names, and passes only when both reports did. *)
Lemma compare_plans_names local candidate name :
  name ∈ pc_name <$> compare_plans local candidate <-> is_Some (plans_by_name local !! name) \/ is_Some (plans_by_name candidate !! name).
Proof.
  unfold compare_plans. rewrite <- list_fmap_compose. unfold compose. simpl. rewrite list_fmap_id, merge_sort_Permutation, elem_of_elements, elem_of_union, !elem_of_dom. done.
Qed.
